(* ===== verification/_CoqProject ===== *)
-Q . S2P
Prelude.v
Log.v
Loops.v
GoTime.v
Json.v
Types.v
Bolt.v
Store.v
StoreOps.v
StoreLaws.v
Table.v
StoreProps.v
EventLog.v
Replication.v
ReplicationProps.v
Singleton.v
Text.v
Cipher.v
Random.v
Auth.v
AuthProps.v
Cluster.v
ClusterProps.v
Secrets.v
SecretsProps.v
Glob.v
Bus.v
Dispatcher.v
DispatcherProps.v
Duration.v
JsonText.v
Path.v
Fs.v
FsLaws.v
RaftNode.v
Header.v
Protocol.v
Network.v
Reconciler.v
ReconcilerProps.v
Containerd.v
Runtimes.v
RuntimesProps.v
Wasm.v
WasmProps.v
Watchers.v
WatchersProps.v
Agent.v
AgentProps.v
AgentLife.v
Firecracker.v
FirecrackerProps.v
Wazero.v
WazeroProps.v
Builder.v
BuilderProps.v
BuildLife.v
Http.v
Routes.v
RoutesProps.v
Invoke.v
Functions.v
Garage.v
Supervisor.v
SupervisorProps.v
Installer.v
InstallerProps.v
Server.v
Streams.v
Handlers.v
Objects.v
ObjectsProps.v
ClusterApi.v
ApiProps.v
HandlersProps.v
RuntimeApi.v
ServerProps.v
StreamsProps.v
