(* ===== verification/Prelude.v ===== *)
(** Verification of selfcloud, a self-hosted cloud control plane in Go.

    One process per node keeps its resources (projects, containers, functions,
    buckets, keys, users, tokens, secrets, event rules) in an embedded
    database, replicates writes over Raft, serves a REST API, reconciles
    containers against a runtime, invokes functions, and drives an event bus
    with rules.  Paths below are under src/internal/.

    * Layers

    The model is a shallow embedding.  A Go function with effects is a
    computation [M S A := S → outcome S A]: it returns a value and a new state
    or panics; Go errors are ordinary values ([res], [option error]).  A
    struct is a record with the Go field names, prefixed by the type's; maps
    are [gmap]; strings are byte strings; [int64] and [uint64] wrap.  Where
    goroutines interleave, operations are the steps of a list of operations
    (Bus) or of an inductive step relation (Replication, Wasm, Streams,
    Server); a goroutine that waits in a select is a fold over what wakes it
    (Loops, which also has io.Pipe).

    - Go itself: GoTime (time), Duration (time.ParseDuration and its text),
      Json (encoding/json on values, with a codec per struct and its
      round-trip law), JsonText (JSON and base64 as text, parsed and printed,
      with their round trip), Text (strings, hex, SHA-256, HMAC, computed),
      Glob (path.Match), Path (path/filepath), Fs and FsLaws (a tree of files,
      directories and symbolic links, walked as the kernel does, and where its
      operations can have an effect), Header (http.Header), Cipher
      (AES-256-GCM, computed), Random (crypto/rand, an interface).
    - Third-party code is an interface (a [Class]) with the documented laws it
      is used under: [Bolt]/[BoltLaws] for bbolt (instance [MemBolt]),
      [Crypto]/[CryptoLaws] for argon2id, [Regexp] for regexp, [Shell] and
      [Ctr] for external commands, the record [Raft] for hashicorp/raft,
      [Vmm] for firecracker and its sockets, [BuildEnv] for git and the build
      commands, [Engine] for wazero, [GarageHttp] and [GarageOs] for Garage,
      [Minio] for S3, [Certs] for keys and certificates, [RaftLib] for the
      assembly of a Raft node, [UnixServer] for an HTTP server on a socket,
      [WebSocket] for nhooyr.io/websocket, [ReverseProxy] for the proxy to
      Garage, [CtrStream] for a command that streams.  Witnesses instantiate
      each with a concrete function.

    * Files, by part of the program

    - Types, Store, StoreOps: store/types.go and store/store.go — every
      resource type with its JSON tags, the generic put/get/list/delete, each
      typed operation, the event log.  [World] is the database, the
      subscribers' channels, and the clock and UID source.
      StoreLaws gives one equation per raw operation; Table states the
      contract of a bucket, [Represents w bucket t] (the bucket holds exactly
      the table [t], a map from (project, name) to resource), and proves that
      put, get, delete and list are insert, lookup, delete and projection;
      Singleton does the same for the cluster configuration.  The other parts
      are verified against [Represents], not against the database.
      StoreProps, EventLog: the properties.
    - Replication, ReplicationProps: store/fsm.go, snapshot.go,
      replicated_store.go, the part of raft.go around Apply — the state
      machine, snapshots, the write wrapper, and a cluster of nodes as a step
      relation.  RaftNode: the rest of raft.go, how a node is put together,
      bootstrapped and asked about its cluster.
    - Auth, AuthProps: auth/auth.go.  Cluster, ClusterProps: cluster/cluster.go
      (join tokens) and scheduler/scheduler.go.
    - Secrets, SecretsProps: secrets/ (cipher, manager, references, master key).
    - Bus, Dispatcher, DispatcherProps: events/bus.go, dispatcher.go, logscan,
      sidecar.  Watchers, WatchersProps: the long-running loops — the bus's
      worker and trimmer, the log scanner and its followers, the sidecar's
      server, the reconciler's, the cron scheduler's, the warm-up calls.
    - Network: network/network.go.  Reconciler, ReconcilerProps:
      runtime/container/reconcile.go, secrets.go, stub.go.  Containerd:
      runtime/container/ctr.go, and the two together over a model host.
      Runtimes, RuntimesProps: factory.go, Logs and Exec of both runtimes,
      and how the reconciler and its runtime are wired together.
    - Wasm, WasmProps: runtime/wasm/runtime.go, rehydrate.go, cron.go, pool.go.
      Wazero, WazeroProps: runtime/wasm/wazero.go.
    - Protocol: runtime/firecracker/protocol/protocol.go, the frames between
      host and guest.  Agent, AgentProps: runtime/firecracker/agent/main.go,
      the guest's init and server; AgentLife: its duties as process 1, its
      accept loop, signals and shutdown.  Firecracker, FirecrackerProps:
      runtime/firecracker/jailer.go, runtime.go, templates.go, the host's side;
      the two sides are composed over one stream.
    - Builder, BuilderProps, BuildLife: runtime/functions/builder — detection,
      clone, sandbox, log streams, the slots as a step relation, the life of
      one build.
    - Garage: storage/garage/admin.go.  Supervisor, SupervisorProps:
      supervisor.go and lifecycle.go, the process and the goroutine that waits
      for it as a step relation.
    - Http, Invoke, Functions, ApiProps: api/server.go, runtime.go,
      readiness.go, triggers.go, event_adapters.go, webhooks.go and the
      function handlers of handlers.go.  [Srv] is the server's state.
      Routes, RoutesProps: api/routes.go, the table and the patterns of
      http.ServeMux.  Handlers, ClusterApi, HandlersProps: the other handlers
      of handlers.go, cluster.go, join.go, secrets.go, events.go, builds.go.
      Objects, ObjectsProps: api/objects.go and the S3 client of server.go.
      RuntimeApi: api/runtime.go, the S3 proxy and the reading of logs over
      the containerd runtime.
    - Server, ServerProps: api/server.go, the middlewares around the routes,
      New, and Run with its goroutine as a step relation.  Streams,
      StreamsProps: containers_ws.go, streams.go, web.go and the WebSocket
      handlers of events.go and builds.go, each session a step relation of its
      goroutines, its pipe or channel and its client.
    - Log: log/log.go and version/version.go.
    - Installer, InstallerProps: installer/installer.go, config/config.go.

    * What the theorems show

    - The store implements tables: writing, deleting and listing refine map
      operations, projects are isolated, metadata is minted as documented,
      notices never block; the range scan is a prefix filter; trimming and
      listing events keep the greatest keys (whose order is not always that
      of time).
    - Replication: on a leader the replicated write is the local one, a
      follower refuses, a snapshot round trips, nodes that applied the same
      prefix of the log agree; writes of a single voter skip the log; a node
      with a state never bootstraps again.
    - Credentials: passwords, tokens, the bootstrap token and join tokens
      verify exactly what they were issued for, and once where they should;
      the API serves a request exactly when its token is live; a git webhook
      needs the function's token and, when there is one, its secret.
    - Secrets: what is revealed was sealed under the key, put/reveal round
      trips, references resolve to what they name, the master key is stable.
    - Events: the bus accounts for every event and its worker delivers in
      order, the rules fired are the matching ones, deliveries are bounded;
      a line scanned is a line written, and when a follower is started again.
    - Runtimes: a reconciliation is confined to its container, failures back
      off and successes settle, a container mounts the secrets staged for it;
      the pool bounds the calls in flight; wasm functions always have
      limits and a guest's answer is returned byte for byte; a frame is read
      back whatever the pieces it arrives in, a call goes through host and
      guest to one process and back, unpacking stays in its directory, waits
      end; what redeployment, several cron triggers, failed references and
      exited tasks do.
    - Builds: every build reaches a verdict, builds of one function exclude
      each other, each gets its slot, those who watch never hold it up.
    - API: nothing below /api/v1 is served without a token but seven pairs of
      a method and a path; set-up succeeds once; joining; no endpoint that
      reads discloses a credential; every request is answered, panics
      included; the S3 proxy reports exactly the objects written.
    - Streams: none is ever upgraded as the server is assembled; beneath
      that, what a client receives of logs, of a command's output, of a
      build's log and of a project's events, and what can be missing.
    - Storage and set-up: stopping a live Garage process ends the daemon in a
      panic; the systemd unit is the template with its values; certificate
      and directories are made once.
    - Theorems that describe a defect (marked so in their comments) state the
      behaviour of the code as it is.

    * Bounds and fuel

    Recursion is structural almost everywhere.  [swap_loop] (the in-place
    reversal) runs with the length of its list as fuel and is proved equal to
    [reverse]; [utf8] steps at most once per byte; the loops of [path_Match]
    take the length of the pattern plus one, and more changes nothing
    ([match_loop_fuel], [match_chunk_fuel], [match_ranges_fuel]); delivery
    counts down the five attempts of the source.  A path follows at most 40
    symbolic links, as in Linux.  The JSON reader takes twice the length of
    its text plus two ([parses_all]); a duration one turn per term
    ([parse_terms_fuel]).  The polls of a machine's socket and agent take
    [max / step + 2] turns ([waits_end]), that of Garage's admin port 62
    ([WaitReady_ends]); the request to a guest's own server is tried 30 times
    and [replace] replaces 102 times, as in the source.  A log stream keeps
    256 lines, the channel of an event stream 64 events; a pump reads 4096
    bytes at a time; the scanner takes lines of less than 1 MiB; the index
    page is read up to 64 KiB.  Loops that wait take the list of what wakes
    them, which ends where the observation does, and say whether they
    returned.  Other operations are total functions, so a call that neither
    panics nor errs is one that returns.

    * Not modelled

    Bytes on sockets: the raft transport, TLS and HTTP parsing, WebSocket
    frames, vsock; they are the interfaces above.  Timers of net/http.Server
    and of contexts are steps that may happen at any time.  Of the guest's
    mounts only the order is kept.  Go's scheduler and memory model: steps are
    as coarse as the locks of the source make them, and a data race (the
    package logger set while it is read) is not one.  The command-line
    programs and the web application are outside src/internal/.

    Two hypotheses recur because the code does not enforce them: a project
    name has no slash ([plain]), and texts are valid UTF-8 ([json_ok]), which
    encoding/json would otherwise rewrite. *)

From stdpp Require Export base gmap list strings sorting.
From stdpp Require Export numbers pretty.
From Stdlib Require Export ZArith Lia.
From Stdlib Require Import Ascii.
From coqutil Require Export Datatypes.RecordSetters.
Export OCamlLikeNotations.

#[global] Open Scope string_scope.
#[global] Open Scope list_scope.
#[global] Open Scope Z_scope.

#[global] Arguments Ascii.eqb : simpl never.
(** A field set to a constant is that constant. *)
#[global] Arguments RecordSetters.constant {E} newValue _ /.
#[local] Arguments String.append : simpl nomatch.

(** ** Errors

    A Go [error] value.  The four sentinels are those of types.go; the rest of
    the code builds its errors with [errors.New] and [fmt.Errorf] ([ErrMsg]),
    or wraps one with the [%w] verb ([ErrWrap]). *)
Inductive error :=
  | ErrNotFound
  | ErrAlreadyExists
  | ErrConflict
  | ErrNotLeader
  | ErrMsg (msg : string)
  | ErrWrap (ctx : string) (inner : error).

#[export] Instance error_eq_dec : EqDecision error.
Proof. solve_decision. Defined.

(** The text [err.Error()] gives. *)
Fixpoint error_text (e : error) : string :=
  match e with
  | ErrNotFound => "not found"
  | ErrAlreadyExists => "already exists"
  | ErrConflict => "conflict"
  | ErrNotLeader => "not the raft leader"
  | ErrMsg m => m
  | ErrWrap c i => c +:+ ": " +:+ error_text i
  end.

(** [errors.Is]: the error itself or anything it wraps. *)
Fixpoint errors_is (e target : error) : bool :=
  bool_decide (e = target) ||
  match e with ErrWrap _ i => errors_is i target | _ => false end.

(** A Go [(T, error)] pair, read as a sum. *)
Inductive res (A : Type) :=
  | Ok (a : A)
  | Err (e : error).
Arguments Ok {A} _.
Arguments Err {A} _.

#[export] Instance res_ret : MRet res := @Ok.
#[export] Instance res_bind : MBind res := λ A B f m,
  match m with Ok a => f a | Err e => Err e end.
#[export] Instance res_fmap : FMap res := λ A B f m,
  match m with Ok a => Ok (f a) | Err e => Err e end.

Definition res_option {A} (r : res A) : option A :=
  match r with Ok a => Some a | Err _ => None end.

(** ** Stateful computations

    A call either returns with a new state or panics.  Errors are ordinary
    values ([res], [option error]), as in Go: a call that fails still returns
    a state. *)
Inductive outcome (S A : Type) :=
  | Ret (a : A) (s : S)
  | Panic.
Arguments Ret {S A} _ _.
Arguments Panic {S A}.

Definition M (S A : Type) : Type := S → outcome S A.

#[export] Instance M_ret {S} : MRet (M S) := λ A a s, Ret a s.
#[export] Instance M_bind {S} : MBind (M S) := λ A B f m s,
  match m s with
  | Ret a s' => f a s'
  | Panic => Panic
  end.
#[export] Instance M_fmap {S} : FMap (M S) := λ A B f m s,
  match m s with
  | Ret a s' => Ret (f a) s'
  | Panic => Panic
  end.

Definition get_state {S} : M S S := λ s, Ret s s.
Definition put_state {S} (s' : S) : M S () := λ _, Ret () s'.
Definition modify {S} (f : S → S) : M S () := λ s, Ret () (f s).
Definition gets {S A} (f : S → A) : M S A := λ s, Ret (f s) s.
Definition panic {S A} : M S A := λ _, Panic.

(** [v, err := m; if err != nil { return ..., err }; k]. *)
Definition try_bind {S A B} (m : M S (res A)) (f : A → M S (res B)) : M S (res B) :=
  r ← m; match r with Ok a => f a | Err e => mret (Err e) end.
Notation "x ←! m ; k" := (try_bind m (λ x, k))
  (at level 20, m at level 100, k at level 200, only parsing) : stdpp_scope.

(** The same around a call that returns only an error: [check] in a function
    that returns an error, [guard_err] in one that returns a value and one. *)
Definition check {S} (m : M S (option error)) (k : M S (option error)) : M S (option error) :=
  r ← m; match r with None => k | Some e => mret (Some e) end.
Definition guard_err {S A} (m : M S (option error)) (k : M S (res A)) : M S (res A) :=
  r ← m; match r with None => k | Some e => mret (Err e) end.
Notation "m ;? k" := (check m k) (at level 100, k at level 200, right associativity, only parsing) : stdpp_scope.
Notation "m ;! k" := (guard_err m k) (at level 100, k at level 200, right associativity, only parsing) : stdpp_scope.

(** A [for _, x := range l] loop whose body has effects. *)
Fixpoint for_each {S A} (f : A → M S ()) (l : list A) : M S () :=
  match l with
  | [] => mret ()
  | x :: l => f x ;; for_each f l
  end.

(** The state a computation leaves. *)
Definition exec {S A} (m : M S A) (s : S) : option S :=
  match m s with Ret _ s' => Some s' | Panic => None end.

(** The value a computation returns. *)
Definition eval {S A} (m : M S A) (s : S) : option A :=
  match m s with Ret a _ => Some a | Panic => None end.

(** Concrete runs are checked through the value they return. *)
Lemma run_eval {S A} (m : M S A) (s : S) a :
  eval m s = Some a → m s = Ret a (default s (exec m s)).
Proof. unfold eval, exec. destruct (m s); cbn; congruence. Qed.

Lemma bind_ret_run {S A B} (m : M S A) (f : A → M S B) s a s' :
  m s = Ret a s' → (m ≫= f) s = f a s'.
Proof. intros H. unfold mbind, M_bind. by rewrite H. Qed.

(** And back: a sequence that returned did so through its first part. *)
Lemma bind_inv {S A B} (m : M S A) (f : A → M S B) s b s' :
  (m ≫= f) s = Ret b s' → ∃ a s1, m s = Ret a s1 ∧ f a s1 = Ret b s'.
Proof. unfold mbind, M_bind. destruct (m s) as [a s1|]; [eauto|done]. Qed.
Lemma bind_assoc_run {S A B C} (m : M S A) (f : A → M S B) (g : B → M S C) s :
  ((m ≫= f) ≫= g) s = (m ≫= λ a, f a ≫= g) s.
Proof. unfold mbind, M_bind. by destruct (m s). Qed.

Lemma for_each_app {S A} (f : A → M S ()) l1 l2 s :
  for_each f (l1 ++ l2) s = (for_each f l1 ;; for_each f l2) s.
Proof.
  revert s. induction l1 as [|x l1 IH]; intros s; [done|].
  cbn. unfold mbind, M_bind. destruct (f x s); [|done].
  rewrite IH. done.
Qed.

(** A computation that keeps a part [f] of the state, whatever it returns. *)
Definition frames {S T A} (f : S → T) (m : M S A) : Prop := ∀ s a s', m s = Ret a s' → f s' = f s.
Section Frames.
Context {S T : Type} (f : S → T).
Lemma frames_ret {A} (a : A) : frames f (mret a).
Proof. by intros s b s' [= _ <-]. Qed.
Lemma frames_gets {A} (g : S → A) : frames f (gets g).
Proof. by intros s b s' [= _ <-]. Qed.
Lemma frames_bind {A B} (m : M S A) (k : A → M S B) : frames f m → (∀ a, frames f (k a)) → frames f (m ≫= k).
Proof.
  intros Hm Hk s b s' E. unfold mbind, M_bind in E. destruct (m s) as [a s1|] eqn:E1; [|done].
  rewrite (Hk _ _ _ _ E). by apply (Hm _ _ _ E1).
Qed.
Lemma frames_for_each {A} (g : A → M S ()) l : (∀ a, frames f (g a)) → frames f (for_each g l).
Proof. intros Hg. induction l as [|a l IH]; [apply frames_ret|]. cbn. by apply frames_bind. Qed.
End Frames.
(** Takes a computation apart down to the primitives of a component, whose
    lemmas [prim] tries. *)
Ltac frames_with prim := repeat (first [apply frames_ret | apply frames_gets | prim | apply frames_for_each; intros ?
  | apply frames_bind; [|intros ?] | match goal with |- frames _ (match ?x with _ => _ end) => destruct x end]).

(** A computation that never panics. *)
Definition returns {S A} (m : M S A) : Prop := ∀ s, ∃ a s', m s = Ret a s'.
Lemma gets_returns {S A} (g : S → A) : returns (gets g).
Proof. intros s. by eexists _, _. Qed.
Lemma ret_returns {S A} (a : A) : returns (mret (M:=M S) a).
Proof. intros s. by eexists _, _. Qed.
Lemma bind_returns {S A B} (m : M S A) (k : A → M S B) : returns m → (∀ a, returns (k a)) → returns (m ≫= k).
Proof. intros Hm Hk s. destruct (Hm s) as (a & s1 & E). rewrite (bind_ret_run _ _ _ _ _ E). apply Hk. Qed.
(** For lemmas on what a computation keeps, and that it returns. *)
Create HintDb calm.

Lemma sum_list_insert {A} (f : A → nat) (l : list A) i x y :
  l !! i = Some x → (sum_list (f <$> <[i := y]> l) + f x = sum_list (f <$> l) + f y)%nat.
Proof.
  intros Hi. rewrite <-(take_drop_middle _ _ _ Hi) at 2. rewrite (insert_take_drop _ _ _ (lookup_lt_Some _ _ _ Hi)).
  rewrite !fmap_app, !fmap_cons.
  induction (take i l) as [|z t IH]; cbn; lia.
Qed.

Lemma sum_list_snoc {A} (f : A → nat) (l : list A) x : sum_list (f <$> l ++ [x]) = (sum_list (f <$> l) + f x)%nat.
Proof. induction l as [|y l IH]; cbn in *; lia. Qed.
Lemma sum_list_pos {A} (f : A → nat) (l : list A) : (0 < sum_list (f <$> l))%nat → ∃ i x, l !! i = Some x ∧ (0 < f x)%nat.
Proof.
  induction l as [|y l IH]; cbn; [lia|]. intros Hp. destruct (f y) eqn:E; [|exists O, y; split; [done|lia]].
  destruct IH as (i & x & Hi & Hx); [cbn in Hp; lia|]. by exists (S i), x.
Qed.

(** ** Machine integers *)

(** [int64] (and [int], which is 64 bits wide on every supported target). *)
Definition wrap64 (z : Z) : Z := (z + 2 ^ 63) mod 2 ^ 64 - 2 ^ 63.
Definition int64_ok (z : Z) : bool := (- 2 ^ 63 <=? z) && (z <? 2 ^ 63).

Lemma wrap64_id z : int64_ok z = true → wrap64 z = z.
Proof.
  unfold int64_ok, wrap64. intros H.
  apply andb_true_iff in H as [?%Z.leb_le ?%Z.ltb_lt].
  rewrite Z.mod_small; lia.
Qed.

Lemma wrap64_ok z : int64_ok (wrap64 z) = true.
Proof.
  unfold int64_ok, wrap64. pose proof (Z.mod_pos_bound (z + 2^63) (2^64) ltac:(lia)).
  apply andb_true_iff; split; [apply Z.leb_le | apply Z.ltb_lt]; lia.
Qed.

(** ** Byte strings

    A Go string or byte slice is a sequence of bytes.  BoltDB orders keys by
    [bytes.Compare]. *)

Definition byte_le (a b : ascii) : bool := (N_of_ascii a <=? N_of_ascii b)%N.
Definition byte_lt (a b : ascii) : bool := (N_of_ascii a <? N_of_ascii b)%N.

Fixpoint str_leb (s t : string) : bool :=
  match s, t with
  | EmptyString, _ => true
  | String _ _, EmptyString => false
  | String a s, String b t => byte_lt a b || ((a =? b)%char && str_leb s t)
  end.

Definition str_le (s t : string) : Prop := str_leb s t = true.
Definition str_lt (s t : string) : Prop := str_leb t s = false.

#[export] Instance str_le_dec : RelDecision str_le.
Proof. intros s t. unfold str_le. apply _. Defined.
#[export] Instance str_lt_dec : RelDecision str_lt.
Proof. intros s t. unfold str_lt. apply _. Defined.

Lemma byte_lt_irrefl a : byte_lt a a = false.
Proof. unfold byte_lt. apply N.ltb_irrefl. Qed.

Lemma byte_lt_trans a b c :
  byte_lt a b = true → byte_lt b c = true → byte_lt a c = true.
Proof. unfold byte_lt. rewrite !N.ltb_lt. lia. Qed.

Lemma byte_trichotomy a b : byte_lt a b = true ∨ a = b ∨ byte_lt b a = true.
Proof.
  unfold byte_lt. rewrite !N.ltb_lt.
  destruct (N.lt_total (N_of_ascii a) (N_of_ascii b)) as [|[H|]]; auto.
  right; left. rewrite <-(ascii_N_embedding a), <-(ascii_N_embedding b). by rewrite H.
Qed.

Lemma str_leb_refl s : str_leb s s = true.
Proof.
  induction s as [|a s IH]; [done|]. cbn.
  rewrite IH, Ascii.eqb_refl. apply orb_true_r.
Qed.

Lemma str_leb_cons a s b t :
  str_leb (String a s) (String b t) = true ↔
  byte_lt a b = true ∨ (a = b ∧ str_leb s t = true).
Proof. cbn. rewrite orb_true_iff, andb_true_iff, Ascii.eqb_eq. done. Qed.

#[export] Instance str_le_refl : Reflexive str_le.
Proof. exact str_leb_refl. Qed.

#[export] Instance str_le_trans : Transitive str_le.
Proof.
  unfold str_le. intros s. induction s as [|a s IH]; intros [|b t] [|c u]; try done.
  rewrite !str_leb_cons. intros [H1|[-> H1]] [H2|[-> H2]]; eauto using byte_lt_trans.
Qed.

#[export] Instance str_le_total : Total str_le.
Proof.
  unfold Total, str_le. intros s. induction s as [|a s IH]; intros [|b t]; cbn; auto.
  destruct (byte_trichotomy a b) as [-> | [-> | ->]]; auto.
  rewrite byte_lt_irrefl, Ascii.eqb_refl. cbn. apply IH.
Qed.

#[export] Instance str_le_antisym : AntiSymm (=) str_le.
Proof.
  unfold AntiSymm, str_le. intros s. induction s as [|a s IH]; intros [|b t]; try done.
  rewrite !str_leb_cons. intros [H1|[-> H1]] [H2|[? H2]]; subst.
  - pose proof (byte_lt_trans _ _ _ H1 H2) as H. by rewrite byte_lt_irrefl in H.
  - by rewrite byte_lt_irrefl in H1.
  - by rewrite byte_lt_irrefl in H2.
  - f_equal. by apply IH.
Qed.

Lemma str_lt_alt s t : str_lt s t ↔ str_le s t ∧ s ≠ t.
Proof.
  unfold str_lt, str_le. split.
  - intros H. destruct (str_le_total s t) as [Hle|Hle]; [|congruence].
    split; [done|]. intros ->. by rewrite str_leb_refl in H.
  - intros [Hle Hne]. destruct (str_leb t s) eqn:E; [|done].
    destruct Hne. by apply (anti_symm str_le).
Qed.

Lemma str_lt_irrefl s : ¬ str_lt s s.
Proof. rewrite str_lt_alt. naive_solver. Qed.

Lemma str_lt_le_trans s t u : str_lt s t → str_le t u → str_lt s u.
Proof.
  rewrite !str_lt_alt. intros [H1 Hne] H2. split; [by etrans|].
  intros ->. destruct Hne. by apply (anti_symm str_le).
Qed.

Lemma str_le_lt_trans s t u : str_le s t → str_lt t u → str_lt s u.
Proof.
  rewrite !str_lt_alt. intros H1 [H2 Hne]. split; [by etrans|].
  intros ->. destruct Hne. by apply (anti_symm str_le).
Qed.

(** [strings.HasPrefix s p]; also the shape of the store's own [hasPrefix]. *)
Fixpoint has_prefix (s p : string) {struct p} : bool :=
  match p, s with
  | EmptyString, _ => true
  | String _ _, EmptyString => false
  | String b p, String a s => (a =? b)%char && has_prefix s p
  end.

(** [strings.TrimPrefix s p]. *)
Fixpoint drop_str (n : nat) (s : string) : string :=
  match n, s with
  | O, _ => s
  | S _, EmptyString => EmptyString
  | S n, String _ s => drop_str n s
  end.

Fixpoint take_str (n : nat) (s : string) : string :=
  match n, s with
  | O, _ => EmptyString
  | S _, EmptyString => EmptyString
  | S n, String a s => String a (take_str n s)
  end.

Definition trim_prefix (s p : string) : string :=
  if has_prefix s p then drop_str (String.length p) s else s.

Lemma has_prefix_app p s : has_prefix (p +:+ s) p = true.
Proof. induction p as [|a p IH]; cbn; [done|]. by rewrite Ascii.eqb_refl. Qed.

Lemma has_prefix_true s p : has_prefix s p = true ↔ ∃ r, s = p +:+ r.
Proof.
  split; [|intros [r ->]; apply has_prefix_app].
  revert s. induction p as [|b p IH]; intros s; [by exists s|].
  destruct s as [|a s]; [done|]. cbn.
  intros [->%Ascii.eqb_eq [r ->]%IH]%andb_true_iff. by exists r.
Qed.

Lemma drop_str_app p s : drop_str (String.length p) (p +:+ s) = s.
Proof. induction p; cbn; [by destruct s|done]. Qed.

Lemma trim_prefix_app p s : trim_prefix (p +:+ s) p = s.
Proof. unfold trim_prefix. by rewrite has_prefix_app, drop_str_app. Qed.

Lemma str_app_assoc (s t u : string) : (s +:+ t) +:+ u = s +:+ (t +:+ u).
Proof. induction s; cbn; congruence. Qed.

Lemma str_app_inj_l (p s t : string) : p +:+ s = p +:+ t → s = t.
Proof. induction p; cbn; naive_solver. Qed.

(** Everything between a prefix and a key having that prefix has it too:
    the keys of a prefix form one contiguous range of the byte order. *)
Lemma prefix_le p s : has_prefix s p = true → str_le p s.
Proof.
  rewrite has_prefix_true. intros [r ->].
  induction p as [|a p IH]; [done|]. apply str_leb_cons. by right.
Qed.

Lemma prefix_convex p s t :
  str_le p s → str_le s t → has_prefix t p = true → has_prefix s p = true.
Proof.
  revert s t. induction p as [|a p IH]; intros s t Hps Hst Ht; [done|].
  destruct s as [|b s], t as [|c t]; try done. unfold str_le in *.
  cbn in Ht |- *. rewrite andb_true_iff, Ascii.eqb_eq in Ht. destruct Ht as [-> Ht].
  rewrite str_leb_cons in Hps, Hst.
  destruct Hps as [Hab|[? Hps]], Hst as [Hbc|[? Hst]]; simplify_eq.
  - pose proof (byte_lt_trans _ _ _ Hab Hbc) as H. by rewrite byte_lt_irrefl in H.
  - by rewrite byte_lt_irrefl in Hab.
  - by rewrite byte_lt_irrefl in Hbc.
  - rewrite Ascii.eqb_refl. cbn. by eapply IH.
Qed.

Definition slash : ascii := "/"%char.

(** The first occurrence of a byte, [strings.IndexByte]. *)
Fixpoint index_byte (s : string) (c : ascii) : option nat :=
  match s with
  | EmptyString => None
  | String a s => if (a =? c)%char then Some O else S <$> index_byte s c
  end.

Definition no_byte (c : ascii) (s : string) : bool :=
  match index_byte s c with None => true | Some _ => false end.

Lemma index_byte_app_sep s c t :
  no_byte c s = true → index_byte (s +:+ String c t) c = Some (String.length s).
Proof.
  unfold no_byte. induction s as [|a s IH]; cbn; [by rewrite Ascii.eqb_refl|].
  destruct (a =? c)%char; [done|]. destruct (index_byte s c); [done|].
  intros _. by rewrite IH.
Qed.

Lemma str_app_nil (s : string) : s +:+ "" = s.
Proof. induction s as [|a s IH]; [done|]. exact (f_equal (String a) IH). Qed.
Lemma take_drop_str n s : take_str n s +:+ drop_str n s = s.
Proof. revert s. induction n as [|n IH]; intros [|a s]; cbn; try done. exact (f_equal (String a) (IH s)). Qed.
Lemma length_take_str n s : String.length (take_str n s) = Nat.min n (String.length s).
Proof. revert s. induction n as [|n IH]; intros [|a s]; cbn; auto. Qed.
Lemma length_take_le n s : (n ≤ String.length s)%nat → String.length (take_str n s) = n.
Proof. rewrite length_take_str. lia. Qed.
Lemma take_str_all n s : (String.length s ≤ n)%nat → take_str n s = s.
Proof. revert s. induction n as [|n IH]; intros [|a s] Hn; cbn in *; try done; [lia|]. by rewrite IH by lia. Qed.
Lemma length_app_str (s t : string) : String.length (s +:+ t) = (String.length s + String.length t)%nat.
Proof. induction s as [|a s IH]; [done|]. exact (f_equal S IH). Qed.
(** A text is cut at the first occurrence of a byte. *)
Lemma index_byte_split s c i :
  index_byte s c = Some i → s = take_str i s +:+ String c (drop_str (S i) s) ∧ no_byte c (take_str i s) = true.
Proof.
  revert i. induction s as [|a s IH]; intros i; [done|]. cbn [index_byte].
  destruct (a =? c)%char eqn:E.
  - intros [= <-]. apply Ascii.eqb_eq in E as ->. by destruct s.
  - destruct (index_byte s c) as [j|]; [|done]. cbn. intros [= <-]. destruct (IH j eq_refl) as [H1 H2].
    change (take_str (S j) (String a s)) with (String a (take_str j s)).
    change (drop_str (S (S j)) (String a s)) with (drop_str (S j) s). split; [exact (f_equal (String a) H1)|].
    unfold no_byte in *. cbn. rewrite E. by destruct (index_byte (take_str j s) c).
Qed.
Lemma take_str_app p s : take_str (String.length p) (p +:+ s) = p.
Proof. induction p; cbn; [by destruct s|congruence]. Qed.

(** A separator absent from both heads splits a key in one way only. *)
Lemma sep_inj c p p' n n' :
  no_byte c p = true → no_byte c p' = true →
  p +:+ String c n = p' +:+ String c n' → p = p' ∧ n = n'.
Proof.
  intros H H' E.
  pose proof (index_byte_app_sep p c n H) as I. rewrite E, index_byte_app_sep in I by done.
  injection I as L.
  assert (p = p') as <-.
  { rewrite <-(take_str_app p (String c n)), E, <-L. apply take_str_app. }
  apply str_app_inj_l in E. by injection E.
Qed.

(** ** Lists *)

(** The in-place reversal loop
    [for i, j := 0, len(out)-1; i < j; i, j = i+1, j-1 { swap }]. *)
Fixpoint swap_loop {A} (fuel i j : nat) (l : list A) : list A :=
  match fuel with
  | O => l
  | S fuel =>
    if (i <? j)%nat then
      match l !! i, l !! j with
      | Some x, Some y => swap_loop fuel (S i) (pred j) (<[j := x]> (<[i := y]> l))
      | _, _ => l
      end
    else l
  end.
Definition reverse_in_place {A} (l : list A) : list A :=
  swap_loop (length l) 0 (pred (length l)) l.

Lemma insert_mid {A} (l1 l2 : list A) x y :
  <[length l1 := x]> (l1 ++ y :: l2) = l1 ++ x :: l2.
Proof. induction l1 as [|z l1 IH]; [done|]. exact (f_equal (cons z) IH). Qed.

Lemma swap_ends {A} (pre mid post : list A) x y :
  <[(length pre + S (length mid))%nat := x]> (<[length pre := y]> (pre ++ x :: mid ++ y :: post))
  = pre ++ y :: mid ++ x :: post.
Proof.
  rewrite insert_mid. pose proof (insert_mid (pre ++ y :: mid) post x y) as H.
  by rewrite length_app, <-!app_assoc in H.
Qed.

Lemma lookup_ends {A} (pre mid post : list A) x y :
  (pre ++ x :: mid ++ y :: post) !! (length pre + S (length mid))%nat = Some y.
Proof.
  pose proof (list_lookup_middle (pre ++ x :: mid) post y _ eq_refl) as H.
  by rewrite length_app, <-!app_assoc in H.
Qed.

Lemma swap_loop_spec {A} fuel (pre mid post : list A) :
  (length mid ≤ fuel)%nat →
  swap_loop fuel (length pre) (pred (length pre + length mid)) (pre ++ mid ++ post)
  = pre ++ reverse mid ++ post.
Proof.
  revert pre mid post. induction fuel as [|fuel IH]; intros pre mid post Hf.
  { destruct mid; [done|cbn in Hf; lia]. }
  destruct mid as [|x mid]; cbn [swap_loop].
  { rewrite Nat.add_0_r. by destruct (Nat.ltb_spec (length pre) (pred (length pre))); [lia|]. }
  destruct mid as [|y mid _] using rev_ind.
  { by destruct (Nat.ltb_spec (length pre) (pred (length pre + length [x]))); [cbn in *; lia|]. }
  cbn [length] in *. rewrite length_app in Hf |- *. cbn [length] in Hf |- *.
  replace (pred (length pre + S (length mid + 1))) with (length pre + S (length mid))%nat by lia.
  destruct (Nat.ltb_spec (length pre) (length pre + S (length mid))); [|lia].
  replace (pre ++ (x :: mid ++ [y]) ++ post) with (pre ++ x :: mid ++ y :: post)
    by by cbn; rewrite <-app_assoc.
  rewrite list_lookup_middle, lookup_ends, swap_ends by done.
  specialize (IH (pre ++ [y]) mid (x :: post)). rewrite length_app in IH. cbn [length] in IH.
  replace (length pre + 1)%nat with (S (length pre)) in IH by lia.
  replace (pred (S (length pre) + length mid)) with (pred (length pre + S (length mid))) in IH by lia.
  rewrite <-!app_assoc in IH. cbn [app] in IH. rewrite IH by lia.
  by rewrite reverse_cons, reverse_app, <-!app_assoc.
Qed.

Lemma reverse_in_place_spec {A} (l : list A) : reverse_in_place l = reverse l.
Proof.
  unfold reverse_in_place. pose proof (swap_loop_spec (length l) [] l [] (le_n _)) as H.
  cbn [length app Nat.add] in H. by rewrite !app_nil_r in H.
Qed.

(** [sort.SliceStable l less]: elements that compare equal keep their order. *)
Fixpoint insert_by {A} (less : A → A → bool) (x : A) (l : list A) : list A :=
  match l with
  | [] => [x]
  | y :: l' => if less y x then y :: insert_by less x l' else x :: l
  end.
Definition stable_sort {A} (less : A → A → bool) (l : list A) : list A :=
  foldr (insert_by less) [] l.

Lemma insert_by_perm {A} (less : A → A → bool) x l : insert_by less x l ≡ₚ x :: l.
Proof.
  induction l as [|y l IH]; [done|]. cbn. destruct (less y x); [|done].
  rewrite IH. apply Permutation_swap.
Qed.

Lemma stable_sort_perm {A} (less : A → A → bool) l : stable_sort less l ≡ₚ l.
Proof. induction l as [|x l IH]; [done|]. cbn. by rewrite insert_by_perm, IH. Qed.

(** The head of the sorted list: the first of the least elements. *)
Lemma stable_sort_head {A} (key : A → Z) l :
  match stable_sort (λ x y, key x <? key y) l with
  | [] => l = []
  | m :: _ => ∃ pre post, l = pre ++ m :: post ∧
      Forall (λ y, key m < key y) pre ∧ Forall (λ y, key m <= key y) post
  end.
Proof.
  induction l as [|x l IH]; [done|]. unfold stable_sort in *. cbn [foldr].
  destruct (foldr _ [] l) as [|m s].
  { subst l. exists [], []. repeat constructor. }
  destruct IH as (pre & post & -> & Hpre & Hpost). cbn [insert_by].
  destruct (Z.ltb_spec (key m) (key x)).
  - exists (x :: pre), post. split; [done|]. split; [by constructor|done].
  - exists [], (pre ++ m :: post). split; [done|]. split; [constructor|].
    apply Forall_app. split; [eapply Forall_impl; [exact Hpre|]; cbn; intros; lia|].
    apply Forall_cons. split; [lia|]. eapply Forall_impl; [exact Hpost|]; cbn; intros; lia.
Qed.

(** ASCII lower case, [strings.ToLower] on 7-bit text. *)
Definition lower_byte (a : ascii) : ascii :=
  let n := N_of_ascii a in
  if ((65 <=? n) && (n <=? 90))%N then ascii_of_N (n + 32) else a.

Fixpoint to_lower (s : string) : string :=
  match s with
  | EmptyString => EmptyString
  | String a s => String (lower_byte a) (to_lower s)
  end.

(** Decimal text, [strconv.Itoa] / [%d]. *)
Definition itoa (z : Z) : string := pretty z.
