(* ===== verification/Log.v ===== *)
(** Logging and the build identifier (internal/log/log.go,
    internal/version/version.go).

    Of log/slog: the levels and their numbers, a handler with its format, its
    level and where it writes, and a logger with the attributes added to it;
    a record is written when its level is not below the handler's. *)

From S2P Require Import Prelude.

Module Log.

(** ** log/slog *)

Inductive Level := LevelDebug | LevelInfo | LevelWarn | LevelError.
#[export] Instance level_eq_dec : EqDecision Level.
Proof. solve_decision. Defined.
Definition level_num (l : Level) : Z :=
  match l with LevelDebug => -4 | LevelInfo => 0 | LevelWarn => 4 | LevelError => 8 end.

Inductive Format := JSONHandler | TextHandler.
(** Standard error, or another writer by its name. *)
Inductive Out := Stderr | Writer (name : string).
Record Handler := mkHandler { h_format : Format; h_out : Out; h_level : Level }.
Record Logger := mkLogger { lg_handler : Handler; lg_attrs : list (string * string) }.
Definition slog_New (h : Handler) : Logger := mkLogger h [].
Definition Enabled (l : Logger) (lvl : Level) : bool := level_num (h_level (lg_handler l)) <=? level_num lvl.
(** [Logger.With] of key and value pairs. *)
Definition add_attrs (l : Logger) (attrs : list (string * string)) : Logger :=
  mkLogger (lg_handler l) (lg_attrs l ++ attrs).

(** ** The package's logger

    The package variable and slog's own default. *)
Record State := mkState { current : Logger; slog_default : option Logger }.

(** [SELFCLOUD_LOG_LEVEL], as [os.Getenv] gives it. *)
Definition newDefault (env : string) : Logger :=
  let v := to_lower env in
  let level := if bool_decide (v = "debug") then LevelDebug
               else if bool_decide (v = "info") then LevelInfo
               else if bool_decide (v = "warn") then LevelWarn
               else if bool_decide (v = "error") then LevelError
               else LevelInfo in
  slog_New (mkHandler JSONHandler Stderr (if bool_decide (env = "") then LevelInfo else level)).
Definition log_init (env : string) : State := mkState (newDefault env) None.

Definition config_level (level : string) : Level :=
  let v := to_lower level in
  if bool_decide (v = "debug") then LevelDebug
  else if bool_decide (v = "warn") then LevelWarn
  else if bool_decide (v = "error") then LevelError
  else LevelInfo.
Definition configured (dev : bool) (level : string) (out : option Out) : Logger :=
  slog_New (mkHandler (if dev then TextHandler else JSONHandler) (default Stderr out) (config_level level)).
Definition Configure (dev : bool) (level : string) (out : option Out) : M State () := λ _,
  let l := configured dev level out in Ret () (mkState l (Some l)).
Definition L : M State Logger := gets current.
Definition With (args : list (string * string)) : M State Logger := l ← L; mret (add_attrs l args).

(** A context that may carry a logger, perhaps a nil one. *)
Abbreviation Ctx := (option (option Logger)).
Definition WithContext (ctx : Ctx) (l : option Logger) : Ctx := Some l.
Definition FromContext (ctx : Ctx) : M State Logger :=
  match ctx with Some (Some l) => mret l | _ => L end.

(** ** The build identifier *)

Definition Version : string := "dev".
Definition Commit : string := "none".
Definition Date : string := "unknown".
Definition String (version commit date : string) : string := version +:+ " (" +:+ commit +:+ ", " +:+ date +:+ ")".
Example dev_build : String Version Commit Date = "dev (none, unknown)". Proof. reflexivity. Qed.

(** ** What they do *)

(** The environment and the configuration agree on every level. *)
Lemma levels_agree v : h_level (lg_handler (newDefault v)) = config_level v.
Proof.
  unfold newDefault, config_level. cbn [slog_New lg_handler h_level]. cbv zeta.
  destruct (bool_decide (v = "")) eqn:Ev; [by apply bool_decide_eq_true in Ev as ->|].
  repeat case_bool_decide; try done; congruence.
Qed.

(** A name that is no level never silences a warning. *)
Lemma configured_warns dev level out :
  to_lower level ≠ "error" → Enabled (configured dev level out) LevelWarn = true.
Proof.
  intros He. unfold Enabled, configured, config_level. cbv zeta. cbn [slog_New lg_handler h_level].
  rewrite (bool_decide_eq_false_2 (to_lower level = "error")) by done.
  repeat case_bool_decide; reflexivity.
Qed.

(** After [Configure], loggers of contexts without one, loggers made with
    [With], and slog's default all go where it says. *)
Lemma Configure_takes_over dev level out s args :
  ∃ s', Configure dev level out s = Ret () s' ∧
        FromContext None s' = Ret (configured dev level out) s' ∧
        With args s' = Ret (add_attrs (configured dev level out) args) s' ∧
        slog_default s' = Some (configured dev level out).
Proof. eexists. by split_and!. Qed.
End Log.
