(* ===== verification/Loops.v ===== *)
(** Goroutines that wait in a [select]: the loop as a fold over what it is
    woken by, and the rules its users share.  [io.Pipe], the channel between
    two such goroutines. *)

From S2P Require Import Prelude.

#[local] Arguments String.append : simpl nomatch.

(** ** Loops around a select *)

(** [WDone]: the context is done; [WClosed]: the channel received from is
    closed. *)
Inductive wake (E : Type) := WDone | WClosed | WTick | WEvent (e : E).
Arguments WDone {E}.
Arguments WClosed {E}.
Arguments WTick {E}.
Arguments WEvent {E} e.

Section Loop.
Context {S E : Type} (done tick : M S ()) (event : E → M S ()).

(** [for { select { ... } }].  [false]: it still waits when what it is woken
    by ends. *)
Fixpoint select_loop (ws : list (wake E)) : M S bool :=
  match ws with
  | [] => mret false
  | WDone :: _ => done;; mret true
  | WClosed :: _ => mret true
  | WTick :: ws => tick;; select_loop ws
  | WEvent e :: ws => event e;; select_loop ws
  end.

Definition ends (w : wake E) : bool := match w with WDone | WClosed => true | _ => false end.

(** Before it returns the loop is woken one by one. *)
Lemma select_loop_app ws ws' :
  existsb ends ws = false → ∀ s,
  select_loop (ws ++ ws') s = (_ ← select_loop ws; select_loop ws') s.
Proof.
  induction ws as [|w ws IH]; intros Hw s; [done|]. destruct w as [| | |e]; try done.
  - cbn. unfold mbind, M_bind. destruct (tick s); [|done]. by apply IH.
  - cbn. unfold mbind, M_bind. destruct (event e s); [|done]. by apply IH.
Qed.

(** What every turn keeps, the loop keeps. *)
Lemma select_loop_invariant (P : S → Prop) ws s b s' :
  (∀ s r s', P s → done s = Ret r s' → P s') →
  (∀ s r s', P s → tick s = Ret r s' → P s') →
  (∀ e s r s', P s → event e s = Ret r s' → P s') →
  P s → select_loop ws s = Ret b s' → P s'.
Proof.
  intros Hd Ht He. revert s. induction ws as [|w ws IH]; intros s Hs; [by intros [= _ <-]|].
  destruct w as [| | |e]; cbn; unfold mbind, M_bind.
  - destruct (done s) as [r s1|] eqn:E1; [|done]. intros [= _ <-]. by eapply Hd.
  - by intros [= _ <-].
  - destruct (tick s) as [r s1|] eqn:E1; [|done]. apply IH. by eapply Ht.
  - destruct (event e s) as [r s1|] eqn:E1; [|done]. apply IH. by eapply He.
Qed.

(** A loop whose turns all return returns. *)
Lemma select_loop_returns ws :
  returns done → returns tick → (∀ e, returns (event e)) → returns (select_loop ws).
Proof.
  intros Hd Ht He. induction ws as [|[| | |e] ws IH]; cbn.
  - apply ret_returns.
  - apply bind_returns; [done|]. intros. apply ret_returns.
  - apply ret_returns.
  - by apply bind_returns.
  - by apply bind_returns.
Qed.
End Loop.

(** What every step keeps, the reachable states keep. *)
Lemma rtc_keeps {S} (R : relation S) (P : S → Prop) s s' :
  (∀ x y, P x → R x y → P y) → P s → rtc R s s' → P s'.
Proof. intros HR Hs H. induction H as [|x y z Hxy _ IH]; [done|]. by apply IH, (HR x). Qed.

Lemma sublist_full {A} (l k : list A) : sublist l k → (length k ≤ length l)%nat → l = k.
Proof.
  induction 1 as [|x l k _ IH|x l k Hs _]; cbn; intros Hl; [done|by rewrite IH by lia|].
  apply sublist_length in Hs. lia.
Qed.

(** ** io.Pipe *)

(** [p_cur]: the part of a write in progress that is not read yet. *)
Record pipe := mkPipe { p_cur : option string; p_wclosed : bool; p_rclosed : bool }.
Definition new_pipe : pipe := mkPipe None false false.

(** A write begins; it returns when all of it is read. *)
Definition begin_write (b : string) (p : pipe) : pipe := mkPipe (Some b) (p_wclosed p) (p_rclosed p).
Definition pipe_ready (p : pipe) : bool :=
  match p_cur p with None => negb (p_wclosed p) && negb (p_rclosed p) | Some _ => false end.
(** [Read] with a buffer of [n] bytes of a write in progress. *)
Definition pipe_read (n : nat) (p : pipe) : option (string * pipe) :=
  match p_cur p with
  | Some b => Some (take_str n b, mkPipe (if (String.length b <=? n)%nat then None else Some (drop_str n b)) (p_wclosed p) (p_rclosed p))
  | None => None
  end.
Definition at_eof (p : pipe) : bool := match p_cur p with None => p_wclosed p | Some _ => false end.
Definition close_writer (p : pipe) : pipe := mkPipe (p_cur p) true (p_rclosed p).
(** A write in progress returns [io.ErrClosedPipe]. *)
Definition close_reader (p : pipe) : pipe := mkPipe None (p_wclosed p) true.

Definition unread (p : pipe) : string := default "" (p_cur p).

Lemma pipe_read_spec n p c p' :
  pipe_read n p = Some (c, p') →
  unread p = c +:+ unread p' ∧ (String.length c ≤ n)%nat ∧ p_wclosed p' = p_wclosed p ∧ p_rclosed p' = p_rclosed p.
Proof.
  unfold pipe_read, unread. destruct (p_cur p) as [b|]; [|done]. intros [= <- <-]. cbn. split_and!; try done.
  - destruct (Nat.leb_spec (String.length b) n) as [Hle|Hlt]; cbn.
    + rewrite str_app_nil. symmetry. by apply take_str_all.
    + symmetry. apply take_drop_str.
  - rewrite length_take_str. lia.
Qed.
