(* ===== verification/GoTime.v ===== *)
(** The part of package [time] the program uses: instants, comparison and
    arithmetic, and the two text layouts it writes ([time.RFC3339Nano] for the
    event-log keys, Unix seconds for session names and signatures).

    An instant is the number of nanoseconds since 0001-01-01T00:00:00Z, so the
    zero [time.Time] is [Time 0].  Every instant the program stores has gone
    through [UTC()], so no location is kept. *)

From S2P Require Import Prelude.
From Stdlib Require Import Ascii.

Record time := Time { ns : Z }.

#[export] Instance time_eq_dec : EqDecision time.
Proof. solve_decision. Defined.

Definition zero_time : time := Time 0.
Definition IsZero (t : time) : bool := ns t =? 0.
Definition Before (t u : time) : bool := ns t <? ns u.
Definition After (t u : time) : bool := ns u <? ns t.

(** A duration is an [int64] number of nanoseconds. *)
Definition Second : Z := 1000000000.
Definition Minute : Z := 60 * Second.
Definition Hour : Z := 60 * Minute.

Definition Add (t : time) (d : Z) : time := Time (ns t + d).

(** [t.Sub(u)] saturates at the bounds of [int64]. *)
Definition Sub (t u : time) : Z :=
  Z.max (- 2 ^ 63) (Z.min (2 ^ 63 - 1) (ns t - ns u)).

(** Seconds between 0001-01-01 and the Unix epoch. *)
Definition unix_epoch : Z := 62135596800.
Definition Unix (t : time) : Z := ns t / Second - unix_epoch.
(** [UnixNano] is an [int64]; it wraps outside years 1678 to 2262. *)
Definition UnixNano (t : time) : Z := wrap64 (ns t - unix_epoch * Second).

(** ** Civil dates

    Days since 0001-01-01 to (year, month, day), by counting from the first of
    March of year 0 in 400-year eras. *)
Definition civil (days : Z) : Z * Z * Z :=
  let z := days + 306 in
  let era := z / 146097 in
  let doe := z mod 146097 in
  let yoe := (doe - doe / 1460 + doe / 36524 - doe / 146096) / 365 in
  let doy := doe - (365 * yoe + yoe / 4 - yoe / 100) in
  let mp := (5 * doy + 2) / 153 in
  let d := doy - (153 * mp + 2) / 5 + 1 in
  let m := if mp <? 10 then mp + 3 else mp - 9 in
  let y := yoe + era * 400 + (if m <=? 2 then 1 else 0) in
  (y, m, d).

Definition digit (z : Z) : ascii := ascii_of_N (48 + Z.to_N (z mod 10)).

(** [n] decimal digits of [z], most significant first. *)
Fixpoint digits (n : nat) (z : Z) : string :=
  match n with
  | O => ""
  | S n => digits n (z / 10) +:+ String (digit z) ""
  end.

(** The [.999999999] verb: the fraction without its trailing zeros, and no
    dot when nothing is left. *)
Fixpoint frac_digits (n : nat) (z : Z) : string :=
  match n with
  | O => ""
  | S n => if z =? 0 then ""
           else String (digit (z / 10 ^ Z.of_nat n)) (frac_digits n (z mod 10 ^ Z.of_nat n))
  end.

Definition frac (nsec : Z) : string :=
  if nsec =? 0 then "" else "." +:+ frac_digits 9 nsec.

(** [t.UTC().Format(time.RFC3339Nano)] for years 0 to 9999. *)
Definition rfc3339nano (t : time) : string :=
  let secs := ns t / Second in
  let nsec := ns t mod Second in
  let '(y, m, d) := civil (secs / 86400) in
  let sod := secs mod 86400 in
  digits 4 y +:+ "-" +:+ digits 2 m +:+ "-" +:+ digits 2 d +:+ "T" +:+
  digits 2 (sod / 3600) +:+ ":" +:+ digits 2 (sod / 60 mod 60) +:+ ":" +:+
  digits 2 (sod mod 60) +:+ frac nsec +:+ "Z".

(** [time.Unix(s, n)]. *)
Definition of_unix (s n : Z) : time := Time ((s + unix_epoch) * Second + n).

Example rfc_zero : rfc3339nano zero_time = "0001-01-01T00:00:00Z".
Proof. reflexivity. Qed.
Example rfc_epoch : rfc3339nano (of_unix 0 0) = "1970-01-01T00:00:00Z".
Proof. reflexivity. Qed.
Example rfc_leap : rfc3339nano (of_unix 1709212030 120000000) = "2024-02-29T13:07:10.12Z".
Proof. reflexivity. Qed.
Example rfc_year_end : rfc3339nano (of_unix 1735689599 1) = "2024-12-31T23:59:59.000000001Z".
Proof. reflexivity. Qed.

Lemma Before_After t u : Before t u = After u t.
Proof. done. Qed.

Lemma After_spec t u : After t u = true ↔ ns u < ns t.
Proof. unfold After. apply Z.ltb_lt. Qed.
