(* ===== verification/Json.v ===== *)
(** The part of encoding/json the program uses, at the level of the JSON
    value rather than its text: what [json.Marshal] writes for the struct
    tags of the resource types and what [json.Unmarshal] reads back into a
    fresh zero value.

    A type is given a codec by the class [Json]; its laws are [JsonLaws].  A
    struct type lists its fields once ([fields]): name, [omitempty] flag and
    getter; the encoder, the decoder and the round-trip law follow from the
    list ([struct_laws]). *)

From S2P Require Import Prelude GoTime.
From Stdlib Require Import Ascii.

#[local] Set Warnings "-register-all".

(** [JTime] is the JSON string holding the RFC 3339 text of an instant,
    [JBytes] the one holding the base64 text of a byte slice. *)
Inductive json :=
  | JNull
  | JBool (b : bool)
  | JNum (z : Z)
  | JStr (s : string)
  | JTime (t : time)
  | JBytes (s : string)
  | JArr (l : list json)
  | JObj (kvs : list (string * json)).

Class Json (A : Type) := {
  enc : A → json;
  dec : json → option A;
  zero : A;
  (** the [omitempty] test *)
  is_empty : A → bool;
  (** values the encoding keeps: valid UTF-8 text, integers of their width *)
  json_okb : A → bool;
}.
Definition json_ok {A} `{Json A} (a : A) : Prop := json_okb a = true.

Class JsonLaws A `{Json A} := {
  dec_enc (a : A) : json_ok a → dec (enc a) = Some a;
  dec_null : dec (A:=A) JNull = Some zero;
  is_empty_zero (a : A) : is_empty a = true → a = zero;
}.

(** ** Text

    [json.Marshal] replaces every byte that does not belong to a UTF-8
    sequence by U+FFFD. *)
Definition byte_in (lo hi : N) (a : ascii) : bool :=
  let n := N_of_ascii a in (lo <=? n)%N && (n <=? hi)%N.
Definition cont (a : ascii) : bool := byte_in 0x80 0xBF a.

(** Length of the UTF-8 sequence [s] starts with, 0 when it is malformed. *)
Definition utf8_len (s : string) : nat :=
  match s with
  | EmptyString => O
  | String a r =>
    if byte_in 0 0x7F a then 1%nat
    else if byte_in 0xC2 0xDF a then
      match r with String b _ => if cont b then 2%nat else O | _ => O end
    else if byte_in 0xE0 0xEF a then
      match r with
      | String b (String c _) =>
        if (if (a =? ascii_of_N 0xE0)%char then byte_in 0xA0 0xBF b
            else if (a =? ascii_of_N 0xED)%char then byte_in 0x80 0x9F b
            else cont b) && cont c then 3%nat else O
      | _ => O
      end
    else if byte_in 0xF0 0xF4 a then
      match r with
      | String b (String c (String d _)) =>
        if (if (a =? ascii_of_N 0xF0)%char then byte_in 0x90 0xBF b
            else if (a =? ascii_of_N 0xF4)%char then byte_in 0x80 0x8F b
            else cont b) && cont c && cont d then 4%nat else O
      | _ => O
      end
    else O
  end.

Definition replacement : string :=
  String (ascii_of_N 0xEF) (String (ascii_of_N 0xBF) (String (ascii_of_N 0xBD) "")).

(** Each step consumes a byte at least, so [String.length s] steps suffice. *)
Fixpoint utf8_go (fuel : nat) (s : string) : string :=
  match fuel, s with
  | O, _ | _, EmptyString => ""
  | S fuel, String a r =>
    match utf8_len s with
    | O => replacement +:+ utf8_go fuel r
    | n => take_str n s +:+ utf8_go fuel (drop_str n s)
    end
  end.
Definition utf8 (s : string) : string := utf8_go (String.length s) s.

Definition ascii_text (s : string) : bool :=
  forallb (byte_in 0 0x7F) (String.list_ascii_of_string s).

(** 7-bit text is unchanged. *)
Lemma utf8_ascii s : ascii_text s = true → utf8 s = s.
Proof.
  unfold utf8. induction s as [|a s IH]; [done|].
  unfold ascii_text. cbn [String.list_ascii_of_string forallb].
  intros [Ha Hs]%andb_true_iff. cbn [String.length utf8_go utf8_len].
  rewrite Ha. cbn [take_str drop_str]. by rewrite IH.
Qed.

(** ** Scalars *)

#[export] Instance string_json : Json string := {
  enc s := JStr (utf8 s);
  dec j := match j with JStr s => Some s | JNull => Some "" | _ => None end;
  zero := "";
  is_empty s := bool_decide (s = "");
  json_okb s := bool_decide (utf8 s = s);
}.
#[export] Instance string_laws : JsonLaws string.
Proof.
  split; [|done|]; intros s; cbn; [|by rewrite bool_decide_eq_true].
  unfold json_ok. cbn. rewrite bool_decide_eq_true. congruence.
Qed.

#[export] Instance bool_json : Json bool := {
  enc b := JBool b;
  dec j := match j with JBool b => Some b | JNull => Some false | _ => None end;
  zero := false;
  is_empty := negb;
  json_okb _ := true;
}.
#[export] Instance bool_laws : JsonLaws bool.
Proof. split; [done|done|]. by intros []. Qed.

(** [int] and [int64]: a number that does not fit is an error. *)
#[export] Instance int_json : Json Z := {
  enc z := JNum z;
  dec j := match j with
           | JNum z => if int64_ok z then Some z else None
           | JNull => Some 0
           | _ => None
           end;
  zero := 0;
  is_empty z := z =? 0;
  json_okb := int64_ok;
}.
#[export] Instance int_laws : JsonLaws Z.
Proof.
  split; cbn; [|done|].
  - unfold json_ok. cbn. intros z Hz. by rewrite Hz.
  - intros z. apply Z.eqb_eq.
Qed.

(** A [time.Time] is a struct: [omitempty] never drops it. *)
#[export] Instance time_json : Json time := {
  enc t := JTime t;
  dec j := match j with JTime t => Some t | JNull => Some zero_time | _ => None end;
  zero := zero_time;
  is_empty _ := false;
  json_okb _ := true;
}.
#[export] Instance time_laws : JsonLaws time.
Proof. by split. Qed.

(** A [[]byte]. *)
Record bytes := Bytes { bytes_str : string }.
#[export] Instance bytes_eq_dec : EqDecision bytes.
Proof. solve_decision. Defined.
#[export] Instance bytes_json : Json bytes := {
  enc b := JBytes (bytes_str b);
  dec j := match j with JBytes s => Some (Bytes s) | JNull => Some (Bytes "") | _ => None end;
  zero := Bytes "";
  is_empty b := bool_decide (b = Bytes "");
  json_okb _ := true;
}.
#[export] Instance bytes_laws : JsonLaws bytes.
Proof. split; [by intros []|done|]. intros b. cbn. by rewrite bool_decide_eq_true. Qed.

(** ** Slices, maps and pointers

    A nil slice or map and an empty one are the same value here; they differ
    only in the text ([null] or an empty array). *)
#[export] Instance list_json {A} `{Json A} : Json (list A) := {
  enc l := JArr (enc <$> l);
  dec j := match j with JArr l => mapM dec l | JNull => Some [] | _ => None end;
  zero := [];
  is_empty l := match l with [] => true | _ => false end;
  json_okb := forallb json_okb;
}.

Lemma forallb_json_ok {A} `{Json A} (l : list A) : forallb json_okb l = true ↔ Forall json_ok l.
Proof. by rewrite forallb_forall, Forall_forall; setoid_rewrite list_elem_of_In. Qed.

Lemma mapM_dec_enc {A} `{JsonLaws A} (l : list A) :
  json_ok l → mapM dec (enc <$> l) = Some l.
Proof.
  intros Hl%forallb_json_ok. apply mapM_Some. induction Hl as [|a l Ha Hl IH]; cbn; [done|].
  constructor; [by apply dec_enc|done].
Qed.

#[export] Instance list_laws {A} `{JsonLaws A} : JsonLaws (list A).
Proof. split; cbn; [apply mapM_dec_enc|done|by intros []]. Qed.

(** Keys are written in byte order ([sort.Strings]). *)
Definition key_le {A} (x y : string * A) : Prop := str_le x.1 y.1.
#[export] Instance key_le_dec {A} : RelDecision (@key_le A).
Proof. intros x y. unfold key_le. apply _. Defined.
#[export] Instance key_le_total {A} : Total (@key_le A).
Proof. intros x y. apply str_le_total. Qed.
#[export] Instance key_le_trans {A} : Transitive (@key_le A).
Proof. intros x y z. apply str_le_trans. Qed.

Definition sorted_entries {A} (m : gmap string A) : list (string * A) :=
  merge_sort key_le (map_to_list m).

Lemma sorted_entries_perm {A} (m : gmap string A) : sorted_entries m ≡ₚ map_to_list m.
Proof. apply merge_sort_Permutation. Qed.

Lemma elem_sorted_entries {A} (m : gmap string A) k v :
  (k, v) ∈ sorted_entries m ↔ m !! k = Some v.
Proof. rewrite sorted_entries_perm. apply elem_of_map_to_list. Qed.

Lemma sorted_entries_nodup {A} (m : gmap string A) : NoDup (sorted_entries m).*1.
Proof. rewrite sorted_entries_perm. apply NoDup_fst_map_to_list. Qed.

Definition dec_entry {A} `{Json A} (kv : string * json) : option (string * A) :=
  pair kv.1 <$> dec kv.2.

(** A repeated key overwrites: the last one wins. *)
#[export] Instance map_json {A} `{Json A} : Json (gmap string A) := {
  enc m := JObj ((λ kv, (utf8 kv.1, enc kv.2)) <$> sorted_entries m);
  dec j := match j with
           | JObj kvs => (λ l, list_to_map (rev l)) <$> mapM dec_entry kvs
           | JNull => Some ∅
           | _ => None
           end;
  zero := ∅;
  is_empty m := bool_decide (map_to_list m = []);
  json_okb m := forallb (λ kv, bool_decide (utf8 kv.1 = kv.1) && json_okb kv.2) (map_to_list m);
}.

Lemma mapM_dec_entry {A} `{JsonLaws A} (l : list (string * A)) :
  Forall (λ kv, utf8 kv.1 = kv.1 ∧ json_ok kv.2) l →
  mapM dec_entry ((λ kv, (utf8 kv.1, enc kv.2)) <$> l) = Some l.
Proof.
  intros Hl. apply mapM_Some. induction Hl as [|[k a] l [Hk Ha] Hl IH]; cbn; [done|].
  constructor; [|done]. unfold dec_entry. cbn in *. by rewrite Hk, dec_enc.
Qed.

#[export] Instance map_laws {A} `{JsonLaws A} : JsonLaws (gmap string A).
Proof.
  split; cbn; [|done|].
  - intros m Hm. rewrite mapM_dec_entry.
    + cbn. f_equal. rewrite <-(list_to_map_to_list m) at 2.
      assert (rev (sorted_entries m) ≡ₚ map_to_list m) as P
        by by rewrite <-Permutation_rev, sorted_entries_perm.
      apply list_to_map_proper; [|done]. rewrite P. apply NoDup_fst_map_to_list.
    + rewrite sorted_entries_perm. unfold json_ok in Hm. cbn in Hm.
      rewrite forallb_forall in Hm. apply Forall_forall. intros kv Hkv%list_elem_of_In.
      apply Hm, andb_true_iff in Hkv. by rewrite bool_decide_eq_true in Hkv.
  - intros m Hm%bool_decide_eq_true. by apply map_to_list_empty_iff.
Qed.

#[export] Instance ptr_json {A} `{Json A} : Json (option A) := {
  enc o := match o with Some a => enc a | None => JNull end;
  dec j := match j with JNull => Some None | _ => Some <$> dec j end;
  zero := None;
  is_empty o := match o with None => true | _ => false end;
  json_okb o := match o with
                | Some a => json_okb a && match enc a with JNull => false | _ => true end
                | None => true
                end;
}.
#[export] Instance ptr_laws {A} `{JsonLaws A} : JsonLaws (option A).
Proof.
  split; cbn; [|done|by intros []].
  intros [a|]; [|done]. intros [Ha Hn]%andb_true_iff. rewrite dec_enc by done.
  by destruct (enc a).
Qed.

(** ** Structs *)

(** [fields S X]: the fields of [S] in declaration order, where [X] is the
    type of the constructor that takes them all. *)
Inductive fields (S : Type) : Type → Type :=
  | Fnil : fields S S
  | Fcons {A X : Type} {JA : Json A} {LA : JsonLaws A}
      (name : string) (omitempty : bool) (get : S → A) (rest : fields S X) :
      fields S (A → X).
Arguments Fnil {S}.
Arguments Fcons {S A X JA LA} name omitempty get rest.

(** [name : get] is a plain field, [name ? get] one with [omitempty]. *)
Notation "'fld' name get ; r" := (Fcons name false get r)
  (at level 60, name at level 0, get at level 0, r at level 60, only parsing).
Notation "'ofld' name get ; r" := (Fcons name true get r)
  (at level 60, name at level 0, get at level 0, r at level 60, only parsing).

Fixpoint names {S X} (fs : fields S X) : list string :=
  match fs with
  | Fnil => []
  | Fcons name _ _ rest => name :: names rest
  end.

Fixpoint enc_fields {S X} (fs : fields S X) (s : S) : list (string * json) :=
  match fs with
  | Fnil => []
  | Fcons name omit get rest =>
    if omit && is_empty (get s) then enc_fields rest s
    else (name, enc (get s)) :: enc_fields rest s
  end.

(** The value of a key; a repeated key overwrites. *)
Fixpoint assoc (k : string) (kvs : list (string * json)) : option json :=
  match kvs with
  | [] => None
  | (k', j) :: kvs =>
    match assoc k kvs with
    | Some j' => Some j'
    | None => if decide (k = k') then Some j else None
    end
  end.

(** A missing key leaves the field's zero value. *)
Fixpoint dec_fields {S X} (fs : fields S X) (kvs : list (string * json)) : X → option S :=
  match fs in fields _ X return X → option S with
  | Fnil => Some
  | Fcons name _ _ rest => λ f,
    a ← match assoc name kvs with Some j => dec j | None => Some zero end;
    dec_fields rest kvs (f a)
  end.

Fixpoint zero_fields {S X} (fs : fields S X) : X → S :=
  match fs in fields _ X return X → S with
  | Fnil => λ s, s
  | Fcons _ _ _ rest => λ f, zero_fields rest (f zero)
  end.

Fixpoint ok_fields {S X} (fs : fields S X) (s : S) : bool :=
  match fs with
  | Fnil => true
  | Fcons _ _ get rest => json_okb (get s) && ok_fields rest s
  end.

(** The struct rebuilt from its own fields. *)
Fixpoint rebuild {S X} (fs : fields S X) (s : S) : X → S :=
  match fs in fields _ X return X → S with
  | Fnil => λ s', s'
  | Fcons _ _ get rest => λ f, rebuild rest s (f (get s))
  end.

Definition struct_json {S X} (mk : X) (fs : fields S X) : Json S := {|
  enc s := JObj (enc_fields fs s);
  dec j := match j with
           | JObj kvs => dec_fields fs kvs mk
           | JNull => Some (zero_fields fs mk)
           | _ => None
           end;
  zero := zero_fields fs mk;
  is_empty _ := false;
  json_okb s := ok_fields fs s;
|}.

Lemma assoc_app k l1 l2 :
  assoc k (l1 ++ l2) = match assoc k l2 with Some j => Some j | None => assoc k l1 end.
Proof.
  induction l1 as [|[k' j] l1 IH]; cbn; [by destruct (assoc k l2)|].
  rewrite IH. by destruct (assoc k l2).
Qed.

Lemma assoc_not_in k l : k ∉ l.*1 → assoc k l = None.
Proof.
  induction l as [|[k' j] l IH]; cbn; [done|]. intros [? ?]%not_elem_of_cons.
  rewrite IH by done. by rewrite decide_False.
Qed.

Lemma enc_fields_names {S X} (fs : fields S X) s k :
  k ∈ (enc_fields fs s).*1 → k ∈ names fs.
Proof.
  induction fs as [|A X JA LA name omit get rest IH]; cbn; [done|].
  destruct (omit && is_empty (get s)); cbn; rewrite ?elem_of_cons; naive_solver.
Qed.

Lemma dec_enc_fields {S X} (fs : fields S X) (s : S) pre f :
  NoDup (names fs) → (∀ k, k ∈ names fs → k ∉ pre.*1) → ok_fields fs s = true →
  dec_fields fs (pre ++ enc_fields fs s) f = Some (rebuild fs s f).
Proof.
  revert pre. induction fs as [|A X JA LA name omit get rest IH]; intros pre; [done|].
  cbn [names]. intros [Hn Hnd]%NoDup_cons Hpre [Hok Hrest]%andb_true_iff. cbn [dec_fields enc_fields rebuild].
  assert (Hr : assoc name (enc_fields rest s) = None).
  { apply assoc_not_in. intros ?%enc_fields_names. done. }
  assert (Hp : assoc name pre = None).
  { apply assoc_not_in, Hpre. set_solver. }
  destruct (omit && is_empty (get s)) eqn:E.
  - rewrite assoc_app, Hr, Hp. cbn.
    apply andb_true_iff in E as [_ Hz%is_empty_zero]. rewrite Hz.
    apply IH; [done|set_solver|done].
  - rewrite assoc_app. cbn. rewrite Hr, decide_True by done. cbn.
    rewrite dec_enc by done. cbn.
    replace (pre ++ (name, enc (get s)) :: enc_fields rest s)
      with ((pre ++ [(name, enc (get s))]) ++ enc_fields rest s) by by rewrite <-app_assoc.
    apply IH; [done| |done].
    intros k Hk. rewrite fmap_app, not_elem_of_app. cbn. set_solver.
Qed.

(** What a struct type has to show: distinct names, and that the fields list
    every field in the constructor's order. *)
Lemma struct_laws {S X} (mk : X) (fs : fields S X) :
  bool_decide (NoDup (names fs)) = true → (∀ s, rebuild fs s mk = s) →
  @JsonLaws S (struct_json mk fs).
Proof.
  intros Hnd%bool_decide_eq_true Hre. split; cbn; [|done|done].
  intros s Hok. rewrite <-(Hre s) at 2. apply (dec_enc_fields fs s [] mk); [done| |done].
  intros k _. apply not_elem_of_nil.
Qed.

Ltac struct_laws := apply struct_laws; [vm_compute; reflexivity | by intros []].
