(* ===== verification/Types.v ===== *)
(** The resource types of internal/store/types.go: one record per struct,
    with the Go field names prefixed by the type's, and its JSON codec.  The
    string-valued enumerations ([Kind], [Phase], [NodeRole], ...) are strings,
    as in the source, so an unknown value is a value too. *)

From S2P Require Import Prelude GoTime Json.

Definition Kind := string.
Definition KindProject : Kind := "project".
Definition KindNode : Kind := "node".
Definition KindContainer : Kind := "container".
Definition KindFunction : Kind := "function".
Definition KindBucket : Kind := "bucket".
Definition KindAccessKey : Kind := "accesskey".
Definition KindUser : Kind := "user".
Definition KindToken : Kind := "token".
Definition KindCluster : Kind := "cluster".
Definition KindSecret : Kind := "secret".
Definition KindEventRule : Kind := "eventrule".
Definition KindBuild : Kind := "build".
Definition KindEvent : Kind := "event".

Definition Phase := string.
Definition PhasePending : Phase := "Pending".
Definition PhaseRunning : Phase := "Running".
Definition PhaseFailed : Phase := "Failed".
Definition PhaseSucceeded : Phase := "Succeeded".
Definition PhaseStopped : Phase := "Stopped".

Definition NodeRole := string.
Definition NodeRoleControl : NodeRole := "control".
Definition NodeRoleCompute : NodeRole := "compute".
Definition NodeRoleStorage : NodeRole := "storage".

Definition RestartPolicy := string.
Definition RestartNever : RestartPolicy := "Never".
Definition RestartOnFailure : RestartPolicy := "OnFailure".
Definition RestartAlways : RestartPolicy := "Always".

Definition FunctionRuntime := string.
Definition FunctionRuntimeWasm : FunctionRuntime := "wasm".
Definition FunctionRuntimeFirecracker : FunctionRuntime := "firecracker".

Record Meta := mkMeta {
  Meta_Project : string;
  Meta_Name : string;
  Meta_UID : string;
  Meta_Generation : Z;
  Meta_CreatedAt : time;
  Meta_UpdatedAt : time;
  Meta_Labels : gmap string string;
}.
#[export] Instance meta_eq_dec : EqDecision Meta.
Proof. solve_decision. Defined.
#[export] Instance meta_json : Json Meta := struct_json mkMeta (
  fld "project" Meta_Project;
  fld "name" Meta_Name;
  fld "uid" Meta_UID;
  fld "generation" Meta_Generation;
  fld "createdAt" Meta_CreatedAt;
  fld "updatedAt" Meta_UpdatedAt;
  ofld "labels" Meta_Labels;
  Fnil).
#[export] Instance meta_laws : JsonLaws Meta.
Proof. struct_laws. Qed.

Record Status := mkStatus {
  Status_Phase : Phase;
  Status_Message : string;
  Status_NodeID : string;
  Status_UpdatedAt : time;
}.
#[export] Instance status_eq_dec : EqDecision Status.
Proof. solve_decision. Defined.
#[export] Instance status_json : Json Status := struct_json mkStatus (
  fld "phase" Status_Phase;
  ofld "message" Status_Message;
  ofld "nodeId" Status_NodeID;
  fld "updatedAt" Status_UpdatedAt;
  Fnil).
#[export] Instance status_laws : JsonLaws Status.
Proof. struct_laws. Qed.

Record Project := mkProject {
  Project_Meta : Meta;
  Project_DisplayName : string;
  Project_Description : string;
}.
#[export] Instance project_eq_dec : EqDecision Project.
Proof. solve_decision. Defined.
#[export] Instance project_json : Json Project := struct_json mkProject (
  fld "meta" Project_Meta;
  ofld "displayName" Project_DisplayName;
  ofld "description" Project_Description;
  Fnil).
#[export] Instance project_laws : JsonLaws Project.
Proof. struct_laws. Qed.

Record Node := mkNode {
  Node_Meta : Meta;
  Node_Address : string;
  Node_APIAddress : string;
  Node_RaftAddress : string;
  Node_GossipAddress : string;
  Node_Roles : list NodeRole;
  Node_CapacityGB : Z;
  Node_Zone : string;
  Node_Version : string;
  Node_Status : Status;
  Node_LastSeenAt : time;
}.
#[export] Instance node_eq_dec : EqDecision Node.
Proof. solve_decision. Defined.
#[export] Instance node_json : Json Node := struct_json mkNode (
  fld "meta" Node_Meta;
  fld "address" Node_Address;
  fld "apiAddress" Node_APIAddress;
  fld "raftAddress" Node_RaftAddress;
  fld "gossipAddress" Node_GossipAddress;
  fld "roles" Node_Roles;
  fld "capacityGB" Node_CapacityGB;
  ofld "zone" Node_Zone;
  fld "version" Node_Version;
  fld "status" Node_Status;
  fld "lastSeenAt" Node_LastSeenAt;
  Fnil).
#[export] Instance node_laws : JsonLaws Node.
Proof. struct_laws. Qed.

Record PortMapping := mkPortMapping {
  PortMapping_Host : Z;
  PortMapping_Container : Z;
  PortMapping_Protocol : string;
}.
#[export] Instance portmapping_eq_dec : EqDecision PortMapping.
Proof. solve_decision. Defined.
#[export] Instance portmapping_json : Json PortMapping := struct_json mkPortMapping (
  fld "host" PortMapping_Host;
  fld "container" PortMapping_Container;
  fld "protocol" PortMapping_Protocol;
  Fnil).
#[export] Instance portmapping_laws : JsonLaws PortMapping.
Proof. struct_laws. Qed.

Record ResourceLimits := mkResourceLimits {
  ResourceLimits_CPUMillicores : Z;
  ResourceLimits_MemoryMB : Z;
}.
#[export] Instance resourcelimits_eq_dec : EqDecision ResourceLimits.
Proof. solve_decision. Defined.
#[export] Instance resourcelimits_json : Json ResourceLimits := struct_json mkResourceLimits (
  ofld "cpuMillicores" ResourceLimits_CPUMillicores;
  ofld "memoryMB" ResourceLimits_MemoryMB;
  Fnil).
#[export] Instance resourcelimits_laws : JsonLaws ResourceLimits.
Proof. struct_laws. Qed.

Record SecretMount := mkSecretMount {
  SecretMount_Secret : string;
  SecretMount_EnvName : string;
  SecretMount_MountPath : string;
}.
#[export] Instance secretmount_eq_dec : EqDecision SecretMount.
Proof. solve_decision. Defined.
#[export] Instance secretmount_json : Json SecretMount := struct_json mkSecretMount (
  fld "secret" SecretMount_Secret;
  ofld "envName" SecretMount_EnvName;
  ofld "mountPath" SecretMount_MountPath;
  Fnil).
#[export] Instance secretmount_laws : JsonLaws SecretMount.
Proof. struct_laws. Qed.

Record VolumeMount := mkVolumeMount {
  VolumeMount_Bucket : string;
  VolumeMount_MountPath : string;
  VolumeMount_ReadOnly : bool;
}.
#[export] Instance volumemount_eq_dec : EqDecision VolumeMount.
Proof. solve_decision. Defined.
#[export] Instance volumemount_json : Json VolumeMount := struct_json mkVolumeMount (
  ofld "bucket" VolumeMount_Bucket;
  fld "mountPath" VolumeMount_MountPath;
  ofld "readOnly" VolumeMount_ReadOnly;
  Fnil).
#[export] Instance volumemount_laws : JsonLaws VolumeMount.
Proof. struct_laws. Qed.

Record ContainerStatus := mkContainerStatus {
  ContainerStatus_Status : Status;
  ContainerStatus_ContainerdID : string;
  ContainerStatus_StartedAt : time;
  ContainerStatus_ExitCode : Z;
  ContainerStatus_IPAddress : string;
  ContainerStatus_Image : string;
}.
#[export] Instance containerstatus_eq_dec : EqDecision ContainerStatus.
Proof. solve_decision. Defined.

(** The embedded [Status] is flattened into the JSON object. *)
Definition ContainerStatus_of (phase : Phase) (msg node : string) (upd : time)
    (cid : string) (started : time) (exit : Z) (ip image : string) : ContainerStatus :=
  mkContainerStatus (mkStatus phase msg node upd) cid started exit ip image.
#[export] Instance containerstatus_json : Json ContainerStatus := struct_json ContainerStatus_of (
  fld "phase" (λ s, Status_Phase (ContainerStatus_Status s));
  ofld "message" (λ s, Status_Message (ContainerStatus_Status s));
  ofld "nodeId" (λ s, Status_NodeID (ContainerStatus_Status s));
  fld "updatedAt" (λ s, Status_UpdatedAt (ContainerStatus_Status s));
  ofld "containerdId" ContainerStatus_ContainerdID;
  ofld "startedAt" ContainerStatus_StartedAt;
  ofld "exitCode" ContainerStatus_ExitCode;
  ofld "ipAddress" ContainerStatus_IPAddress;
  ofld "image" ContainerStatus_Image;
  Fnil).
#[export] Instance containerstatus_laws : JsonLaws ContainerStatus.
Proof. apply struct_laws; [vm_compute; reflexivity | by intros [[]]]. Qed.

Record Container := mkContainer {
  Container_Meta : Meta;
  Container_Image : string;
  Container_Command : list string;
  Container_Args : list string;
  Container_Env : gmap string string;
  Container_Ports : list PortMapping;
  Container_Volumes : list VolumeMount;
  Container_SecretMounts : list SecretMount;
  Container_RestartPolicy : RestartPolicy;
  Container_Resources : ResourceLimits;
  Container_NodeID : string;
  Container_Status : ContainerStatus;
}.
#[export] Instance container_eq_dec : EqDecision Container.
Proof. solve_decision. Defined.
#[export] Instance container_json : Json Container := struct_json mkContainer (
  fld "meta" Container_Meta;
  fld "image" Container_Image;
  ofld "command" Container_Command;
  ofld "args" Container_Args;
  ofld "env" Container_Env;
  ofld "ports" Container_Ports;
  ofld "volumes" Container_Volumes;
  ofld "secretMounts" Container_SecretMounts;
  fld "restartPolicy" Container_RestartPolicy;
  ofld "resources" Container_Resources;
  ofld "nodeId" Container_NodeID;
  fld "status" Container_Status;
  Fnil).
#[export] Instance container_laws : JsonLaws Container.
Proof. struct_laws. Qed.

Record HTTPTrigger := mkHTTPTrigger {
  HTTPTrigger_Path : string;
  HTTPTrigger_Methods : list string;
}.
#[export] Instance httptrigger_eq_dec : EqDecision HTTPTrigger.
Proof. solve_decision. Defined.
#[export] Instance httptrigger_json : Json HTTPTrigger := struct_json mkHTTPTrigger (
  fld "path" HTTPTrigger_Path;
  ofld "methods" HTTPTrigger_Methods;
  Fnil).
#[export] Instance httptrigger_laws : JsonLaws HTTPTrigger.
Proof. struct_laws. Qed.

Record CronTrigger := mkCronTrigger {
  CronTrigger_Schedule : string;
}.
#[export] Instance crontrigger_eq_dec : EqDecision CronTrigger.
Proof. solve_decision. Defined.
#[export] Instance crontrigger_json : Json CronTrigger := struct_json mkCronTrigger (
  fld "schedule" CronTrigger_Schedule;
  Fnil).
#[export] Instance crontrigger_laws : JsonLaws CronTrigger.
Proof. struct_laws. Qed.

Record FunctionTrigger := mkFunctionTrigger {
  FunctionTrigger_HTTP : option HTTPTrigger;
  FunctionTrigger_Cron : option CronTrigger;
}.
#[export] Instance functiontrigger_eq_dec : EqDecision FunctionTrigger.
Proof. solve_decision. Defined.
#[export] Instance functiontrigger_json : Json FunctionTrigger := struct_json mkFunctionTrigger (
  ofld "http" FunctionTrigger_HTTP;
  ofld "cron" FunctionTrigger_Cron;
  Fnil).
#[export] Instance functiontrigger_laws : JsonLaws FunctionTrigger.
Proof. struct_laws. Qed.

Record BuildSpec := mkBuildSpec {
  BuildSpec_Language : string;
  BuildSpec_BuildImage : string;
  BuildSpec_Commands : list string;
  BuildSpec_Output : string;
  BuildSpec_Entrypoint : list string;
  BuildSpec_Template : string;
}.
#[export] Instance buildspec_eq_dec : EqDecision BuildSpec.
Proof. solve_decision. Defined.
#[export] Instance buildspec_json : Json BuildSpec := struct_json mkBuildSpec (
  ofld "language" BuildSpec_Language;
  ofld "buildImage" BuildSpec_BuildImage;
  ofld "commands" BuildSpec_Commands;
  ofld "output" BuildSpec_Output;
  ofld "entrypoint" BuildSpec_Entrypoint;
  ofld "template" BuildSpec_Template;
  Fnil).
#[export] Instance buildspec_laws : JsonLaws BuildSpec.
Proof. struct_laws. Qed.

Record GitSourceSpec := mkGitSourceSpec {
  GitSourceSpec_URL : string;
  GitSourceSpec_Ref : string;
  GitSourceSpec_SubPath : string;
  GitSourceSpec_AuthSecret : string;
  GitSourceSpec_WebhookToken : string;
  GitSourceSpec_WebhookSecret : string;
  GitSourceSpec_Build : BuildSpec;
}.
#[export] Instance gitsourcespec_eq_dec : EqDecision GitSourceSpec.
Proof. solve_decision. Defined.
#[export] Instance gitsourcespec_json : Json GitSourceSpec := struct_json mkGitSourceSpec (
  fld "url" GitSourceSpec_URL;
  ofld "ref" GitSourceSpec_Ref;
  ofld "subPath" GitSourceSpec_SubPath;
  ofld "authSecret" GitSourceSpec_AuthSecret;
  ofld "webhookToken" GitSourceSpec_WebhookToken;
  ofld "webhookSecret" GitSourceSpec_WebhookSecret;
  fld "build" GitSourceSpec_Build;
  Fnil).
#[export] Instance gitsourcespec_laws : JsonLaws GitSourceSpec.
Proof. struct_laws. Qed.

Record FunctionSource := mkFunctionSource {
  FunctionSource_Type : string;
  FunctionSource_Git : option GitSourceSpec;
}.
#[export] Instance functionsource_eq_dec : EqDecision FunctionSource.
Proof. solve_decision. Defined.
#[export] Instance functionsource_json : Json FunctionSource := struct_json mkFunctionSource (
  ofld "type" FunctionSource_Type;
  ofld "git" FunctionSource_Git;
  Fnil).
#[export] Instance functionsource_laws : JsonLaws FunctionSource.
Proof. struct_laws. Qed.

Record Function := mkFunction {
  Function_Meta : Meta;
  Function_Runtime : FunctionRuntime;
  Function_Handler : string;
  Function_SourceRef : string;
  Function_Source : FunctionSource;
  Function_Triggers : list FunctionTrigger;
  Function_Env : gmap string string;
  Function_SecretMounts : list SecretMount;
  Function_MemoryMB : Z;
  Function_TimeoutMS : Z;
  Function_LatestBuild : string;
  Function_Status : Status;
}.
#[export] Instance function_eq_dec : EqDecision Function.
Proof. solve_decision. Defined.
#[export] Instance function_json : Json Function := struct_json mkFunction (
  fld "meta" Function_Meta;
  fld "runtime" Function_Runtime;
  ofld "handler" Function_Handler;
  fld "sourceRef" Function_SourceRef;
  ofld "source" Function_Source;
  fld "triggers" Function_Triggers;
  ofld "env" Function_Env;
  ofld "secretMounts" Function_SecretMounts;
  ofld "memoryMB" Function_MemoryMB;
  ofld "timeoutMs" Function_TimeoutMS;
  ofld "latestBuild" Function_LatestBuild;
  fld "status" Function_Status;
  Fnil).
#[export] Instance function_laws : JsonLaws Function.
Proof. struct_laws. Qed.

Record Build := mkBuild {
  Build_Meta : Meta;
  Build_FunctionRef : string;
  Build_CommitSHA : string;
  Build_Trigger : string;
  Build_Status : Phase;
  Build_Message : string;
  Build_StartedAt : time;
  Build_FinishedAt : time;
  Build_LogsRef : string;
  Build_ArtifactRef : string;
}.
#[export] Instance build_eq_dec : EqDecision Build.
Proof. solve_decision. Defined.
#[export] Instance build_json : Json Build := struct_json mkBuild (
  fld "meta" Build_Meta;
  fld "functionRef" Build_FunctionRef;
  ofld "commitSha" Build_CommitSHA;
  ofld "trigger" Build_Trigger;
  fld "status" Build_Status;
  ofld "message" Build_Message;
  ofld "startedAt" Build_StartedAt;
  ofld "finishedAt" Build_FinishedAt;
  ofld "logsRef" Build_LogsRef;
  ofld "artifactRef" Build_ArtifactRef;
  Fnil).
#[export] Instance build_laws : JsonLaws Build.
Proof. struct_laws. Qed.

Record Secret := mkSecret {
  Secret_Meta : Meta;
  Secret_Description : string;
  Secret_KeyID : string;
  Secret_Nonce : bytes;
  Secret_Ciphertext : bytes;
  Secret_Version : Z;
}.
#[export] Instance secret_eq_dec : EqDecision Secret.
Proof. solve_decision. Defined.
#[export] Instance secret_json : Json Secret := struct_json mkSecret (
  fld "meta" Secret_Meta;
  ofld "description" Secret_Description;
  fld "keyId" Secret_KeyID;
  ofld "nonce" Secret_Nonce;
  ofld "ciphertext" Secret_Ciphertext;
  fld "version" Secret_Version;
  Fnil).
#[export] Instance secret_laws : JsonLaws Secret.
Proof. struct_laws. Qed.

Record EventMatch := mkEventMatch {
  EventMatch_Types : list string;
  EventMatch_Subject : string;
  EventMatch_Filter : gmap string string;
}.
#[export] Instance eventmatch_eq_dec : EqDecision EventMatch.
Proof. solve_decision. Defined.
#[export] Instance eventmatch_json : Json EventMatch := struct_json mkEventMatch (
  ofld "types" EventMatch_Types;
  ofld "subject" EventMatch_Subject;
  ofld "filter" EventMatch_Filter;
  Fnil).
#[export] Instance eventmatch_laws : JsonLaws EventMatch.
Proof. struct_laws. Qed.

Record WebhookAction := mkWebhookAction {
  WebhookAction_URL : string;
  WebhookAction_Method : string;
  WebhookAction_Headers : gmap string string;
  WebhookAction_Secret : string;
}.
#[export] Instance webhookaction_eq_dec : EqDecision WebhookAction.
Proof. solve_decision. Defined.
#[export] Instance webhookaction_json : Json WebhookAction := struct_json mkWebhookAction (
  fld "url" WebhookAction_URL;
  ofld "method" WebhookAction_Method;
  ofld "headers" WebhookAction_Headers;
  ofld "secret" WebhookAction_Secret;
  Fnil).
#[export] Instance webhookaction_laws : JsonLaws WebhookAction.
Proof. struct_laws. Qed.

Record InvokeAction := mkInvokeAction {
  InvokeAction_Project : string;
  InvokeAction_Function : string;
  InvokeAction_Path : string;
}.
#[export] Instance invokeaction_eq_dec : EqDecision InvokeAction.
Proof. solve_decision. Defined.
#[export] Instance invokeaction_json : Json InvokeAction := struct_json mkInvokeAction (
  ofld "project" InvokeAction_Project;
  fld "function" InvokeAction_Function;
  ofld "path" InvokeAction_Path;
  Fnil).
#[export] Instance invokeaction_laws : JsonLaws InvokeAction.
Proof. struct_laws. Qed.

Record ContainerAction := mkContainerAction {
  ContainerAction_Project : string;
  ContainerAction_Container : string;
  ContainerAction_Action : string;
}.
#[export] Instance containeraction_eq_dec : EqDecision ContainerAction.
Proof. solve_decision. Defined.
#[export] Instance containeraction_json : Json ContainerAction := struct_json mkContainerAction (
  ofld "project" ContainerAction_Project;
  fld "container" ContainerAction_Container;
  fld "action" ContainerAction_Action;
  Fnil).
#[export] Instance containeraction_laws : JsonLaws ContainerAction.
Proof. struct_laws. Qed.

Record EventAction := mkEventAction {
  EventAction_Webhook : option WebhookAction;
  EventAction_Invoke : option InvokeAction;
  EventAction_Container : option ContainerAction;
}.
#[export] Instance eventaction_eq_dec : EqDecision EventAction.
Proof. solve_decision. Defined.
#[export] Instance eventaction_json : Json EventAction := struct_json mkEventAction (
  ofld "webhook" EventAction_Webhook;
  ofld "invoke" EventAction_Invoke;
  ofld "container" EventAction_Container;
  Fnil).
#[export] Instance eventaction_laws : JsonLaws EventAction.
Proof. struct_laws. Qed.

Record EventRule := mkEventRule {
  EventRule_Meta : Meta;
  EventRule_Description : string;
  EventRule_Match : EventMatch;
  EventRule_Action : EventAction;
  EventRule_Enabled : bool;
  EventRule_LastFiredAt : time;
  EventRule_FireCount : Z;
}.
#[export] Instance eventrule_eq_dec : EqDecision EventRule.
Proof. solve_decision. Defined.
#[export] Instance eventrule_json : Json EventRule := struct_json mkEventRule (
  fld "meta" EventRule_Meta;
  ofld "description" EventRule_Description;
  fld "match" EventRule_Match;
  fld "action" EventRule_Action;
  fld "enabled" EventRule_Enabled;
  ofld "lastFiredAt" EventRule_LastFiredAt;
  ofld "fireCount" EventRule_FireCount;
  Fnil).
#[export] Instance eventrule_laws : JsonLaws EventRule.
Proof. struct_laws. Qed.

Record EventRecord := mkEventRecord {
  EventRecord_UID : string;
  EventRecord_Type : string;
  EventRecord_Project : string;
  EventRecord_Subject : string;
  EventRecord_At : time;
  EventRecord_Data : gmap string string;
  EventRecord_Body : bytes;
}.
#[export] Instance eventrecord_eq_dec : EqDecision EventRecord.
Proof. solve_decision. Defined.
#[export] Instance eventrecord_json : Json EventRecord := struct_json mkEventRecord (
  fld "uid" EventRecord_UID;
  fld "type" EventRecord_Type;
  ofld "project" EventRecord_Project;
  ofld "subject" EventRecord_Subject;
  fld "at" EventRecord_At;
  ofld "data" EventRecord_Data;
  ofld "body" EventRecord_Body;
  Fnil).
#[export] Instance eventrecord_laws : JsonLaws EventRecord.
Proof. struct_laws. Qed.

Record WebhookDelivery := mkWebhookDelivery {
  WebhookDelivery_Meta : Meta;
  WebhookDelivery_Rule : string;
  WebhookDelivery_URL : string;
  WebhookDelivery_Status : Z;
  WebhookDelivery_Error : string;
  WebhookDelivery_Attempt : Z;
  WebhookDelivery_NextAttempt : time;
  WebhookDelivery_Done : bool;
  WebhookDelivery_StartedAt : time;
  WebhookDelivery_FinishedAt : time;
  WebhookDelivery_EventUID : string;
  WebhookDelivery_EventType : string;
}.
#[export] Instance webhookdelivery_eq_dec : EqDecision WebhookDelivery.
Proof. solve_decision. Defined.
#[export] Instance webhookdelivery_json : Json WebhookDelivery := struct_json mkWebhookDelivery (
  fld "meta" WebhookDelivery_Meta;
  fld "rule" WebhookDelivery_Rule;
  fld "url" WebhookDelivery_URL;
  ofld "status" WebhookDelivery_Status;
  ofld "error" WebhookDelivery_Error;
  fld "attempt" WebhookDelivery_Attempt;
  ofld "nextAttempt" WebhookDelivery_NextAttempt;
  fld "done" WebhookDelivery_Done;
  fld "startedAt" WebhookDelivery_StartedAt;
  ofld "finishedAt" WebhookDelivery_FinishedAt;
  ofld "eventUid" WebhookDelivery_EventUID;
  ofld "eventType" WebhookDelivery_EventType;
  Fnil).
#[export] Instance webhookdelivery_laws : JsonLaws WebhookDelivery.
Proof. struct_laws. Qed.

Record Bucket := mkBucket {
  Bucket_Meta : Meta;
  Bucket_Region : string;
  Bucket_Versioning : bool;
  Bucket_WebsiteAccess : bool;
  Bucket_GarageID : string;
  Bucket_SizeBytes : Z;
  Bucket_Status : Status;
}.
#[export] Instance bucket_eq_dec : EqDecision Bucket.
Proof. solve_decision. Defined.
#[export] Instance bucket_json : Json Bucket := struct_json mkBucket (
  fld "meta" Bucket_Meta;
  ofld "region" Bucket_Region;
  ofld "versioning" Bucket_Versioning;
  ofld "websiteAccess" Bucket_WebsiteAccess;
  ofld "garageId" Bucket_GarageID;
  ofld "sizeBytes" Bucket_SizeBytes;
  fld "status" Bucket_Status;
  Fnil).
#[export] Instance bucket_laws : JsonLaws Bucket.
Proof. struct_laws. Qed.

Record AccessKey := mkAccessKey {
  AccessKey_Meta : Meta;
  AccessKey_BucketName : string;
  AccessKey_AccessKeyID : string;
  AccessKey_SecretAccessKey : string;
  AccessKey_Permissions : string;
}.
#[export] Instance accesskey_eq_dec : EqDecision AccessKey.
Proof. solve_decision. Defined.
#[export] Instance accesskey_json : Json AccessKey := struct_json mkAccessKey (
  fld "meta" AccessKey_Meta;
  ofld "bucketName" AccessKey_BucketName;
  fld "accessKeyId" AccessKey_AccessKeyID;
  ofld "secretAccessKey" AccessKey_SecretAccessKey;
  fld "permissions" AccessKey_Permissions;
  Fnil).
#[export] Instance accesskey_laws : JsonLaws AccessKey.
Proof. struct_laws. Qed.

Record User := mkUser {
  User_Meta : Meta;
  User_Email : string;
  User_PasswordHash : string;
  User_IsAdmin : bool;
  User_LastLoginAt : time;
}.
#[export] Instance user_eq_dec : EqDecision User.
Proof. solve_decision. Defined.
#[export] Instance user_json : Json User := struct_json mkUser (
  fld "meta" User_Meta;
  fld "email" User_Email;
  ofld "passwordHash" User_PasswordHash;
  fld "isAdmin" User_IsAdmin;
  ofld "lastLoginAt" User_LastLoginAt;
  Fnil).
#[export] Instance user_laws : JsonLaws User.
Proof. struct_laws. Qed.

Record Token := mkToken {
  Token_Meta : Meta;
  Token_UserID : string;
  Token_HashHex : string;
  Token_Plaintext : string;
  Token_ExpiresAt : time;
  Token_IsAdmin : bool;
}.
#[export] Instance token_eq_dec : EqDecision Token.
Proof. solve_decision. Defined.
#[export] Instance token_json : Json Token := struct_json mkToken (
  fld "meta" Token_Meta;
  fld "userId" Token_UserID;
  ofld "hashHex" Token_HashHex;
  ofld "plaintext" Token_Plaintext;
  ofld "expiresAt" Token_ExpiresAt;
  ofld "isAdmin" Token_IsAdmin;
  Fnil).
#[export] Instance token_laws : JsonLaws Token.
Proof. struct_laws. Qed.

Record JoinToken := mkJoinToken {
  JoinToken_ID : string;
  JoinToken_HashHex : string;
  JoinToken_IssuedBy : string;
  JoinToken_IssuedAt : time;
  JoinToken_ExpiresAt : time;
  JoinToken_ConsumedBy : string;
}.
#[export] Instance jointoken_eq_dec : EqDecision JoinToken.
Proof. solve_decision. Defined.
#[export] Instance jointoken_json : Json JoinToken := struct_json mkJoinToken (
  fld "id" JoinToken_ID;
  fld "hashHex" JoinToken_HashHex;
  fld "issuedBy" JoinToken_IssuedBy;
  fld "issuedAt" JoinToken_IssuedAt;
  fld "expiresAt" JoinToken_ExpiresAt;
  ofld "consumedBy" JoinToken_ConsumedBy;
  Fnil).
#[export] Instance jointoken_laws : JsonLaws JoinToken.
Proof. struct_laws. Qed.

Record ClusterConfig := mkClusterConfig {
  ClusterConfig_Initialized : bool;
  ClusterConfig_MultiNode : bool;
  ClusterConfig_BootstrapToken : string;
  ClusterConfig_ReplicationFactor : Z;
  ClusterConfig_JoinTokens : list JoinToken;
  ClusterConfig_GarageRPCSecret : string;
  ClusterConfig_GarageAdminToken : string;
  ClusterConfig_S3InternalKeyID : string;
  ClusterConfig_S3InternalKeySecret : string;
  ClusterConfig_SecretFingerprint : string;
  ClusterConfig_CreatedAt : time;
  ClusterConfig_UpdatedAt : time;
}.
#[export] Instance clusterconfig_eq_dec : EqDecision ClusterConfig.
Proof. solve_decision. Defined.
#[export] Instance clusterconfig_json : Json ClusterConfig := struct_json mkClusterConfig (
  fld "initialized" ClusterConfig_Initialized;
  fld "multiNode" ClusterConfig_MultiNode;
  ofld "bootstrapToken" ClusterConfig_BootstrapToken;
  fld "replicationFactor" ClusterConfig_ReplicationFactor;
  ofld "joinTokens" ClusterConfig_JoinTokens;
  ofld "garageRpcSecret" ClusterConfig_GarageRPCSecret;
  ofld "garageAdminToken" ClusterConfig_GarageAdminToken;
  ofld "s3InternalKeyId" ClusterConfig_S3InternalKeyID;
  ofld "s3InternalKeySecret" ClusterConfig_S3InternalKeySecret;
  ofld "secretFingerprint" ClusterConfig_SecretFingerprint;
  fld "createdAt" ClusterConfig_CreatedAt;
  fld "updatedAt" ClusterConfig_UpdatedAt;
  Fnil).
#[export] Instance clusterconfig_laws : JsonLaws ClusterConfig.
Proof. struct_laws. Qed.

(** [projectScoped]: the types that carry a [Meta] the store may rewrite. *)
Class projectScoped (A : Type) := {
  getMeta : A → Meta;
  setMeta : Meta → A → A;
}.

Class ScopedLaws A `{projectScoped A} := {
  get_set_meta (m : Meta) (a : A) : getMeta (setMeta m a) = m;
  set_get_meta (a : A) : setMeta (getMeta a) a = a;
  set_set_meta (m m' : Meta) (a : A) : setMeta m (setMeta m' a) = setMeta m a;
}.

#[export] Instance container_scoped : projectScoped Container := {
  getMeta := Container_Meta;
  setMeta m x := { x with Container_Meta := m };
}.
#[export] Instance container_scoped_laws : ScopedLaws Container.
Proof. by split; [| intros [] |]. Qed.

#[export] Instance function_scoped : projectScoped Function := {
  getMeta := Function_Meta;
  setMeta m x := { x with Function_Meta := m };
}.
#[export] Instance function_scoped_laws : ScopedLaws Function.
Proof. by split; [| intros [] |]. Qed.

#[export] Instance bucket_scoped : projectScoped Bucket := {
  getMeta := Bucket_Meta;
  setMeta m x := { x with Bucket_Meta := m };
}.
#[export] Instance bucket_scoped_laws : ScopedLaws Bucket.
Proof. by split; [| intros [] |]. Qed.

#[export] Instance accesskey_scoped : projectScoped AccessKey := {
  getMeta := AccessKey_Meta;
  setMeta m x := { x with AccessKey_Meta := m };
}.
#[export] Instance accesskey_scoped_laws : ScopedLaws AccessKey.
Proof. by split; [| intros [] |]. Qed.

#[export] Instance node_scoped : projectScoped Node := {
  getMeta := Node_Meta;
  setMeta m x := { x with Node_Meta := m };
}.
#[export] Instance node_scoped_laws : ScopedLaws Node.
Proof. by split; [| intros [] |]. Qed.

#[export] Instance user_scoped : projectScoped User := {
  getMeta := User_Meta;
  setMeta m x := { x with User_Meta := m };
}.
#[export] Instance user_scoped_laws : ScopedLaws User.
Proof. by split; [| intros [] |]. Qed.

#[export] Instance token_scoped : projectScoped Token := {
  getMeta := Token_Meta;
  setMeta m x := { x with Token_Meta := m };
}.
#[export] Instance token_scoped_laws : ScopedLaws Token.
Proof. by split; [| intros [] |]. Qed.

#[export] Instance secret_scoped : projectScoped Secret := {
  getMeta := Secret_Meta;
  setMeta m x := { x with Secret_Meta := m };
}.
#[export] Instance secret_scoped_laws : ScopedLaws Secret.
Proof. by split; [| intros [] |]. Qed.

#[export] Instance eventrule_scoped : projectScoped EventRule := {
  getMeta := EventRule_Meta;
  setMeta m x := { x with EventRule_Meta := m };
}.
#[export] Instance eventrule_scoped_laws : ScopedLaws EventRule.
Proof. by split; [| intros [] |]. Qed.

#[export] Instance build_scoped : projectScoped Build := {
  getMeta := Build_Meta;
  setMeta m x := { x with Build_Meta := m };
}.
#[export] Instance build_scoped_laws : ScopedLaws Build.
Proof. by split; [| intros [] |]. Qed.

#[export] Instance webhookdelivery_scoped : projectScoped WebhookDelivery := {
  getMeta := WebhookDelivery_Meta;
  setMeta m x := { x with WebhookDelivery_Meta := m };
}.
#[export] Instance webhookdelivery_scoped_laws : ScopedLaws WebhookDelivery.
Proof. by split; [| intros [] |]. Qed.

(** The dynamic type of [Event.Value]. *)
Inductive resource :=
  | RProject (x : Project)
  | RContainer (x : Container)
  | RFunction (x : Function)
  | RBucket (x : Bucket)
  | RAccessKey (x : AccessKey)
  | RNode (x : Node)
  | RUser (x : User)
  | RToken (x : Token)
  | RSecret (x : Secret)
  | REventRule (x : EventRule)
  | RBuild (x : Build)
  | RWebhookDelivery (x : WebhookDelivery)
  | RClusterConfig (x : ClusterConfig).

Class Resource (A : Type) := to_resource : A → resource.
#[export] Instance project_resource : Resource Project := RProject.
#[export] Instance container_resource : Resource Container := RContainer.
#[export] Instance function_resource : Resource Function := RFunction.
#[export] Instance bucket_resource : Resource Bucket := RBucket.
#[export] Instance accesskey_resource : Resource AccessKey := RAccessKey.
#[export] Instance node_resource : Resource Node := RNode.
#[export] Instance user_resource : Resource User := RUser.
#[export] Instance token_resource : Resource Token := RToken.
#[export] Instance secret_resource : Resource Secret := RSecret.
#[export] Instance eventrule_resource : Resource EventRule := REventRule.
#[export] Instance build_resource : Resource Build := RBuild.
#[export] Instance webhookdelivery_resource : Resource WebhookDelivery := RWebhookDelivery.
#[export] Instance clusterconfig_resource : Resource ClusterConfig := RClusterConfig.
