(* ===== verification/Bolt.v ===== *)
(** The interface of the embedded database (go.etcd.io/bbolt, not part of the
    repository) and a reference instance of it.

    [Bolt] lists the calls store.go and snapshot.go make inside a
    transaction; [BoltLaws] is what bbolt documents for them: a database is a
    map from bucket names to ordered maps from keys to values, a cursor visits
    the keys of a bucket in byte order, and a key must hold 1 to 32768 bytes.
    Store theorems are proved against the interface; [MemBolt] shows it can be
    implemented and is what the witnesses run on.  Disk failures are outside
    the interface: a transaction that returns no error is durable. *)

From S2P Require Import Prelude GoTime Json.

(** [MaxKeySize] and [ErrKeyRequired] of bbolt. *)
Definition key_ok (k : string) : bool :=
  (0 <? Z.of_nat (String.length k)) && (Z.of_nat (String.length k) <=? 32768).

Definition ErrKeyRequired : error := ErrMsg "key required".
Definition ErrKeyTooLarge : error := ErrMsg "key too large".
Definition key_error (k : string) : error :=
  if Z.of_nat (String.length k) =? 0 then ErrKeyRequired else ErrKeyTooLarge.

Class Bolt := {
  boltdb : Type;
  bolt_new : boltdb;
  (** [tx.Bucket(name) != nil] *)
  bolt_has : boltdb → string → bool;
  (** [tx.CreateBucketIfNotExists], [tx.CreateBucket] on a free name *)
  bolt_create : boltdb → string → boltdb;
  (** [tx.DeleteBucket] *)
  bolt_drop : boltdb → string → boltdb;
  (** [b.Get], [b.Put], [b.Delete] on a bucket that exists *)
  bolt_get : boltdb → string → string → option json;
  bolt_put : boltdb → string → string → json → res boltdb;
  bolt_delete : boltdb → string → string → boltdb;
  (** the pairs a cursor visits from [First] on *)
  bolt_cursor : boltdb → string → list (string * json);
  (** the bucket names [tx.ForEach] visits *)
  bolt_buckets : boltdb → list string;
}.

Definition key_lt (x y : string * json) : Prop := str_lt x.1 y.1.

Class BoltLaws `{Bolt} := {
  (** the contents of a database *)
  contents : boltdb → gmap string (gmap string json);
  contents_new : contents bolt_new = ∅;
  bolt_has_spec db b : bolt_has db b = bool_decide (is_Some (contents db !! b));
  bolt_create_spec db b :
    contents (bolt_create db b) =
      <[b := default ∅ (contents db !! b)]> (contents db);
  bolt_drop_spec db b : contents (bolt_drop db b) = delete b (contents db);
  bolt_get_spec db b k : bolt_get db b k = contents db !! b ≫= (.!! k);
  bolt_put_ok db b k v m :
    contents db !! b = Some m → key_ok k = true →
    ∃ db', bolt_put db b k v = Ok db' ∧ contents db' = <[b := <[k := v]> m]> (contents db);
  bolt_put_err db b k v :
    is_Some (contents db !! b) → key_ok k = false → bolt_put db b k v = Err (key_error k);
  bolt_delete_spec db b k m :
    contents db !! b = Some m →
    contents (bolt_delete db b k) = <[b := delete k m]> (contents db);
  bolt_cursor_perm db b m :
    contents db !! b = Some m → bolt_cursor db b ≡ₚ map_to_list m;
  bolt_cursor_sorted db b : StronglySorted key_lt (bolt_cursor db b);
  bolt_buckets_perm db : bolt_buckets db ≡ₚ (map_to_list (contents db)).*1;
}.

(** ** The reference instance *)

Definition mem_put (db : gmap string (gmap string json)) (b k : string) (v : json) :=
  if key_ok k then Ok (<[b := <[k := v]> (default ∅ (db !! b))]> db) else Err (key_error k).

#[export] Instance MemBolt : Bolt := {|
  boltdb := gmap string (gmap string json);
  bolt_new := ∅;
  bolt_has db b := bool_decide (is_Some (db !! b));
  bolt_create db b := <[b := default ∅ (db !! b)]> db;
  bolt_drop db b := delete b db;
  bolt_get db b k := db !! b ≫= (.!! k);
  bolt_put := mem_put;
  bolt_delete db b k := <[b := delete k (default ∅ (db !! b))]> db;
  bolt_cursor db b := sorted_entries (default ∅ (db !! b));
  bolt_buckets db := (sorted_entries db).*1;
|}.

Lemma sorted_entries_strict (m : gmap string json) : StronglySorted key_lt (sorted_entries m).
Proof.
  pose proof (sorted_entries_nodup m) as Hnd.
  pose proof (StronglySorted_merge_sort (@key_le json) (map_to_list m)) as Hs.
  fold (sorted_entries m) in Hs. revert Hnd Hs. generalize (sorted_entries m).
  induction l as [|x l IH]; [constructor|]. rewrite fmap_cons, NoDup_cons.
  intros [Hx Hnd] [Hs Hall]%StronglySorted_inv. constructor; [by apply IH|].
  rewrite Forall_forall in Hall |- *. intros y Hy. unfold key_lt. rewrite str_lt_alt.
  split; [by apply Hall|]. intros E. apply Hx. rewrite E. by apply list_elem_of_fmap_2.
Qed.

#[export] Instance MemBoltLaws : BoltLaws.
Proof.
  refine {| contents := λ db : @boltdb MemBolt, db |}; cbn; try done.
  - intros db b k v m Hm Hk. unfold mem_put. rewrite Hk, Hm. by eexists.
  - intros db b k v _ Hk. unfold mem_put. by rewrite Hk.
  - intros db b k m Hm. by rewrite Hm.
  - intros db b m Hm. rewrite Hm. apply sorted_entries_perm.
  - intros db b. apply sorted_entries_strict.
  - intros db. by rewrite sorted_entries_perm.
Defined.
