(* ===== verification/Store.v ===== *)
(** The persistent state machine of internal/store/store.go: the [Store] with
    its database, its subscribers, and the clock and random source its writes
    draw on; every typed Put, Get, List and Delete.

    A computation runs in [M World].  [Put*] calls take the resource by
    pointer and rewrite its [Meta]; they return the rewritten resource along
    with the error.  A transaction on a bucket that does not exist is a nil
    dereference in the source, hence [Panic]. *)

From S2P Require Import Prelude GoTime Json Types Bolt.

(** [Event]: one mutation notice.  [Event_Value] is a copy of the object the
    source stores a pointer to. *)
Record Event := mkEvent {
  Event_Kind : Kind;
  Event_Op : string;
  Event_Project : string;
  Event_Name : string;
  Event_Value : option resource;
}.

(** The capacity of the channels [Subscribe] makes. *)
Definition sub_capacity : nat := 64.

(** The source of [time.Now] and [rand.Read]: the [n]-th reading of each. *)
Record Env := mkEnv {
  clock : nat → time;
  ticks : nat;
  uids : nat → string;
  draws : nat;
}.

Record World `{Bolt} := mkWorld {
  db : boltdb;
  subs : list (list Event);   (** the buffered events of each subscriber *)
  env : Env;
}.

Definition rootBuckets : list string := [
  "projects"; "nodes"; "containers"; "functions";
  "buckets"; "accesskeys"; "users"; "tokens"; "cluster";
  "meta";
  "secrets"; "eventrules"; "builds"; "eventlog";
  "deliveries"; "webhookqueue" ].

Section Store.
Context `{Bolt}.

Definition set_db (d : boltdb) (w : World) : World := mkWorld _ d (subs w) (env w).
Definition set_subs (l : list (list Event)) (w : World) : World := mkWorld _ (db w) l (env w).
Definition set_env (e : Env) (w : World) : World := mkWorld _ (db w) (subs w) e.

(** [time.Now().UTC()] *)
Definition now : M World time := λ w,
  let e := env w in
  Ret (clock e (ticks e)) (set_env (mkEnv (clock e) (S (ticks e)) (uids e) (draws e)) w).

Definition newUID : M World string := λ w,
  let e := env w in
  Ret (uids e (draws e)) (set_env (mkEnv (clock e) (ticks e) (uids e) (S (draws e))) w).

(** [Open]: every root bucket is created if missing. *)
Definition open_buckets (d : boltdb) : boltdb := foldl bolt_create d rootBuckets.
Definition Open (d : boltdb) (e : Env) : World := mkWorld _ (open_buckets d) [] e.

(** [Subscribe] adds an empty channel; the result is its position. *)
Definition Subscribe : M World nat := λ w,
  Ret (length (subs w)) (set_subs (subs w ++ [[]]) w).

(** A non-blocking send: dropped when the channel is full. *)
Definition try_send (ev : Event) (ch : list Event) : list Event :=
  if (length ch <? sub_capacity)%nat then ch ++ [ev] else ch.

Definition emit (ev : Event) : M World () :=
  modify (λ w, set_subs (try_send ev <$> subs w) w).

(** A receive from subscriber [i]; [None] when its channel is empty. *)
Definition receive (i : nat) : M World (option Event) := λ w,
  match subs w !! i with
  | Some (ev :: rest) => Ret (Some ev) (set_subs (<[i := rest]> (subs w)) w)
  | _ => Ret None w
  end.

(** [Store.Close]: the channels are closed and forgotten, so nothing is sent
    on them any more and closing again finds none. *)
Definition Store_Close : M World () := modify (set_subs []).

Definition keyFor (project name : string) : string :=
  if bool_decide (project = "") then name else project +:+ "/" +:+ name.

(** ** Raw access *)

Definition put_raw (bucket key : string) (v : json) : M World (option error) := λ w,
  if bolt_has (db w) bucket then
    match bolt_put (db w) bucket key v with
    | Ok d => Ret None (set_db d w)
    | Err e => Ret (Some e) w
    end
  else Panic.

Definition put {A} `{Json A} (bucket key : string) (v : A) : M World (option error) :=
  put_raw bucket key (enc v).

Definition ErrUnmarshal : error := ErrMsg "json: cannot unmarshal".

Definition get {A} `{Json A} (bucket key : string) : M World (res A) := λ w,
  if bolt_has (db w) bucket then
    match bolt_get (db w) bucket key with
    | None => Ret (Err ErrNotFound) w
    | Some j => Ret (match dec j with Some a => Ok a | None => Err ErrUnmarshal end) w
    end
  else Panic.

Definition del (bucket key : string) : M World (option error) := λ w,
  if bolt_has (db w) bucket then
    match bolt_get (db w) bucket key with
    | None => Ret (Some ErrNotFound) w
    | Some _ => Ret None (set_db (bolt_delete (db w) bucket key) w)
    end
  else Panic.

(** [c.Seek(prefix)]: skip the keys below the prefix. *)
Fixpoint seek (prefix : string) (l : list (string * json)) : list (string * json) :=
  match l with
  | [] => []
  | kv :: l' => if str_leb prefix kv.1 then l else seek prefix l'
  end.

(** The loop [for ; k != nil && hasPrefix(k, prefix); k, v = c.Next()]. *)
Fixpoint scan (prefix : string) (l : list (string * json)) : list (string * json) :=
  match l with
  | [] => []
  | kv :: l' => if has_prefix kv.1 prefix then kv :: scan prefix l' else []
  end.

Definition list_bucket (bucket prefix : string) : M World (res (list json)) := λ w,
  if bolt_has (db w) bucket then
    let l := bolt_cursor (db w) bucket in
    Ret (Ok ((if bool_decide (prefix = "") then l else scan prefix (seek prefix l)).*2)) w
  else Panic.

(** The decoding loop of every [List*]: values that do not unmarshal are
    skipped. *)
Definition decode_all {A} `{Json A} (raws : list json) : list A := omap dec raws.

(** ** Generic helpers for project-scoped resources *)

(** The metadata a write mints (lines 284-289 of [putScoped], repeated in
    [PutProject] and [applyTypedPut]). *)
Definition mintMeta (m : Meta) : M World Meta :=
  m ← (if bool_decide (Meta_UID m = "") then
         uid ← newUID;
         t ← now;
         mret { m with Meta_UID := uid; Meta_CreatedAt := t }
       else mret m);
  t ← now;
  mret { m with Meta_UpdatedAt := t; Meta_Generation ::= (λ g, wrap64 (g + 1)) }.

Definition defaultProject (project : string) (m : Meta) : Meta :=
  if bool_decide (Meta_Project m = "") then { m with Meta_Project := project } else m.

Definition putScoped {A} `{projectScoped A, Json A, Resource A}
    (bucket : string) (kind : Kind) (v : A) : M World (A * option error) :=
  let m := defaultProject "default" (getMeta v) in
  if bool_decide (Meta_Name m = "") then mret (setMeta m v, Some (ErrMsg "name is required"))
  else
    m ← mintMeta m;
    let v := setMeta m v in
    r ← put bucket (keyFor (Meta_Project m) (Meta_Name m)) v;
    match r with
    | Some e => mret (v, Some e)
    | None =>
      emit (mkEvent kind "put" (Meta_Project m) (Meta_Name m) (Some (to_resource v))) ;;
      mret (v, None)
    end.

(** The body every typed [Delete*] shares: [s.del] then [s.emit]. *)
Definition delete_and_emit (bucket key : string) (kind : Kind) (project name : string) :
    M World (option error) :=
  check (del bucket key)
    (emit (mkEvent kind "delete" project name None) ;; mret None).

Definition localDelete (bucket : string) (kind : Kind) (project name : string) :
    M World (option error) :=
  let key :=
    if bool_decide (project = "") then
      if bool_decide (kind = KindNode) || bool_decide (kind = KindUser)
         || bool_decide (kind = KindToken)
      then "system/" +:+ name else name
    else keyFor project name in
  delete_and_emit bucket key kind project name.

(** The prefix of a project's keys, empty for every project. *)
Definition project_prefix (project : string) : string :=
  if bool_decide (project = "") then "" else project +:+ "/".

Definition list_scoped {A} `{Json A} (bucket project : string) : M World (res (list A)) :=
  raws ←! list_bucket bucket (project_prefix project);
  mret (Ok (decode_all raws)).
End Store.
