(* ===== verification/StoreOps.v ===== *)
(** The typed operations of store.go, one definition per method, on top of the
    generic ones of [Store]. *)

From S2P Require Import Prelude GoTime Json Types Bolt Store.

Section Operations.
Context `{Bolt}.

(** ** Projects *)

Definition PutProject (p : Project) : M World (Project * option error) :=
  if bool_decide (Meta_Name (Project_Meta p) = "") then
    mret (p, Some (ErrMsg "project name is required"))
  else
    m ← mintMeta (Project_Meta p);
    let p := { p with Project_Meta := m } in
    r ← put "projects" (Meta_Name m) p;
    match r with
    | Some e => mret (p, Some e)
    | None =>
      emit (mkEvent KindProject "put" "" (Meta_Name m) (Some (RProject p))) ;;
      mret (p, None)
    end.

Definition GetProject (name : string) : M World (res Project) := get "projects" name.

Definition ListProjects : M World (res (list Project)) :=
  raws ←! list_bucket "projects" "";
  mret (Ok (decode_all raws)).

Definition DeleteProject (name : string) : M World (option error) :=
  if bool_decide (name = "default") then mret (Some (ErrMsg "cannot delete the default project"))
  else delete_and_emit "projects" name KindProject "" name.

(** ** Containers *)

Definition PutContainer (x : Container) : M World (Container * option error) := putScoped "containers" KindContainer x.
Definition GetContainer (project name : string) : M World (res Container) :=
  get "containers" (keyFor project name).
Definition ListContainers (project : string) : M World (res (list Container)) := list_scoped "containers" project.
Definition DeleteContainer (project name : string) : M World (option error) :=
  delete_and_emit "containers" (keyFor project name) KindContainer project name.

(** ** Functions *)

Definition PutFunction (x : Function) : M World (Function * option error) := putScoped "functions" KindFunction x.
Definition GetFunction (project name : string) : M World (res Function) :=
  get "functions" (keyFor project name).
Definition ListFunctions (project : string) : M World (res (list Function)) := list_scoped "functions" project.
Definition DeleteFunction (project name : string) : M World (option error) :=
  delete_and_emit "functions" (keyFor project name) KindFunction project name.

(** ** Buckets *)

Definition PutBucket (x : Bucket) : M World (Bucket * option error) := putScoped "buckets" KindBucket x.
Definition GetBucket (project name : string) : M World (res Bucket) :=
  get "buckets" (keyFor project name).
Definition ListBuckets (project : string) : M World (res (list Bucket)) := list_scoped "buckets" project.
Definition DeleteBucket (project name : string) : M World (option error) :=
  delete_and_emit "buckets" (keyFor project name) KindBucket project name.

(** ** Access keys *)

Definition PutAccessKey (x : AccessKey) : M World (AccessKey * option error) := putScoped "accesskeys" KindAccessKey x.
Definition GetAccessKey (project name : string) : M World (res AccessKey) :=
  get "accesskeys" (keyFor project name).
(** Never expose a stored secret on list. *)
Definition redactAccessKey (a : AccessKey) : AccessKey := { a with AccessKey_SecretAccessKey := "" }.
Definition ListAccessKeys (project : string) : M World (res (list AccessKey)) :=
  out ←! list_scoped "accesskeys" project;
  mret (Ok (redactAccessKey <$> out)).
Definition DeleteAccessKey (project name : string) : M World (option error) :=
  delete_and_emit "accesskeys" (keyFor project name) KindAccessKey project name.

(** ** Nodes, users and tokens: cluster-scoped, kept under "system/" *)

Definition systemScoped {A} `{projectScoped A} (x : A) : A :=
  setMeta (defaultProject "system" (getMeta x)) x.

Definition PutNode (n : Node) : M World (Node * option error) :=
  putScoped "nodes" KindNode (systemScoped n).
Definition GetNode (id : string) : M World (res Node) := get "nodes" ("system/" +:+ id).
Definition ListNodes : M World (res (list Node)) := list_scoped "nodes" "".
Definition DeleteNode (id : string) : M World (option error) :=
  delete_and_emit "nodes" ("system/" +:+ id) KindNode "" id.

Definition PutUser (u : User) : M World (User * option error) :=
  putScoped "users" KindUser (systemScoped u).
Definition GetUser (name : string) : M World (res User) := get "users" ("system/" +:+ name).

(** The first user, in key order, whose e-mail matches case-insensitively. *)
Definition GetUserByEmail (email : string) : M World (res User) :=
  raws ←! list_bucket "users" "";
  mret match list_find (λ u, to_lower (User_Email u) = to_lower email) (decode_all raws) with
       | Some (_, u) => Ok u
       | None => Err ErrNotFound
       end.

Definition redactUser (u : User) : User := { u with User_PasswordHash := "" }.
Definition ListUsers : M World (res (list User)) :=
  out ←! list_scoped "users" "";
  mret (Ok (redactUser <$> out)).
Definition DeleteUser (name : string) : M World (option error) :=
  delete_and_emit "users" ("system/" +:+ name) KindUser "" name.

(** A copy without the plaintext is stored; the caller's token only receives
    the minted metadata. *)
Definition PutToken (t : Token) : M World (Token * option error) :=
  let t := systemScoped t in
  r ← putScoped "tokens" KindToken { t with Token_Plaintext := "" };
  match r with
  | (_, Some e) => mret (t, Some e)
  | (stored, None) => mret ({ t with Token_Meta := Token_Meta stored }, None)
  end.

Definition GetTokenByHash (hashHex : string) : M World (res Token) :=
  raws ←! list_bucket "tokens" "";
  mret match list_find (λ t, Token_HashHex t = hashHex) (decode_all raws) with
       | Some (_, t) => Ok t
       | None => Err ErrNotFound
       end.

Definition redactToken (t : Token) : Token :=
  { t with Token_HashHex := ""; Token_Plaintext := "" }.
Definition ListTokens : M World (res (list Token)) :=
  out ←! list_scoped "tokens" "";
  mret (Ok (redactToken <$> out)).
Definition DeleteToken (name : string) : M World (option error) :=
  delete_and_emit "tokens" ("system/" +:+ name) KindToken "" name.

(** ** Cluster configuration, a singleton *)

Definition defaultCluster : ClusterConfig :=
  { (zero (A:=ClusterConfig)) with ClusterConfig_ReplicationFactor := 1 }.

Definition GetCluster : M World (res ClusterConfig) :=
  r ← get "cluster" "config";
  mret match r with
       | Err e => if bool_decide (e = ErrNotFound) then Ok defaultCluster else Err e
       | Ok c => Ok c
       end.

Definition PutCluster (c : ClusterConfig) : M World (ClusterConfig * option error) :=
  t ← now;
  let c := if IsZero (ClusterConfig_CreatedAt c) then { c with ClusterConfig_CreatedAt := t } else c in
  let c := { c with ClusterConfig_UpdatedAt := t } in
  r ← put "cluster" "config" c;
  match r with
  | Some e => mret (c, Some e)
  | None =>
    emit (mkEvent KindCluster "put" "" "config" (Some (RClusterConfig c))) ;;
    mret (c, None)
  end.

(** ** Secrets *)

Definition PutSecret (x : Secret) : M World (Secret * option error) := putScoped "secrets" KindSecret x.
Definition GetSecret (project name : string) : M World (res Secret) :=
  get "secrets" (keyFor project name).
(** Only the reveal endpoint returns ciphertext. *)
Definition redactSecret (s : Secret) : Secret :=
  { s with Secret_Nonce := Bytes ""; Secret_Ciphertext := Bytes "" }.
Definition ListSecrets (project : string) : M World (res (list Secret)) :=
  out ←! list_scoped "secrets" project;
  mret (Ok (redactSecret <$> out)).
Definition DeleteSecret (project name : string) : M World (option error) :=
  delete_and_emit "secrets" (keyFor project name) KindSecret project name.

(** ** Event rules *)

Definition PutEventRule (x : EventRule) : M World (EventRule * option error) := putScoped "eventrules" KindEventRule x.
Definition GetEventRule (project name : string) : M World (res EventRule) :=
  get "eventrules" (keyFor project name).
Definition redactEventRule (r : EventRule) : EventRule :=
  match EventAction_Webhook (EventRule_Action r) with
  | Some w =>
    { r with EventRule_Action -> EventAction_Webhook := Some { w with WebhookAction_Secret := "" } }
  | None => r
  end.
Definition ListEventRules (project : string) : M World (res (list EventRule)) :=
  out ←! list_scoped "eventrules" project;
  mret (Ok (redactEventRule <$> out)).
Definition DeleteEventRule (project name : string) : M World (option error) :=
  delete_and_emit "eventrules" (keyFor project name) KindEventRule project name.
Definition ListAllEventRules : M World (res (list EventRule)) := list_scoped "eventrules" "".

(** ** Builds *)

Definition PutBuild (x : Build) : M World (Build * option error) := putScoped "builds" KindBuild x.
Definition GetBuild (project name : string) : M World (res Build) :=
  get "builds" (keyFor project name).
Definition DeleteBuild (project name : string) : M World (option error) :=
  delete_and_emit "builds" (keyFor project name) KindBuild project name.

(** Key order reversed; the caller's project is used as a prefix even when it
    is empty. *)
Definition ListBuilds (project fn : string) : M World (res (list Build)) :=
  raws ←! list_bucket "builds" (project +:+ "/");
  let out := filter (λ b, Build_FunctionRef b = fn) (decode_all raws) in
  mret (Ok (reverse_in_place out)).

(** ** Event log *)

(** The key of a record: [<project>/<rfc3339nano>-<uid>]. *)
Definition eventKey (rec : EventRecord) : string :=
  let project := if bool_decide (EventRecord_Project rec = "") then "default"
                 else EventRecord_Project rec in
  project +:+ "/" +:+ rfc3339nano (EventRecord_At rec) +:+ "-" +:+ EventRecord_UID rec.

Definition AppendEvent (rec : EventRecord) : M World (EventRecord * option error) :=
  rec ← (if bool_decide (EventRecord_UID rec = "") then
           uid ← newUID; mret { rec with EventRecord_UID := uid }
         else mret rec);
  rec ← (if IsZero (EventRecord_At rec) then
           t ← now; mret { rec with EventRecord_At := t }
         else mret rec);
  r ← put "eventlog" (eventKey rec) rec;
  mret (rec, r).

Definition ListEvents (project : string) (limit : Z) : M World (res (list EventRecord)) :=
  let limit := if limit <=? 0 then 100 else limit in
  raws ←! list_bucket "eventlog" (project +:+ "/");
  let out := reverse_in_place (decode_all raws) in
  mret (Ok (if limit <? Z.of_nat (length out) then take (Z.to_nat limit) out else out)).

(** The deleting cursor loop of [TrimEvents]: the first [n] keys of the
    prefix, as the cursor visits them. *)
Fixpoint trim_loop (prefix : string) (n : nat) (l : list (string * json)) (d : boltdb) : boltdb :=
  match n, l with
  | S n, kv :: l =>
    if has_prefix kv.1 prefix then trim_loop prefix n l (bolt_delete d "eventlog" kv.1) else d
  | _, _ => d
  end.

Definition TrimEvents (project : string) (keep : Z) : M World (option error) :=
  let keep := if keep <=? 0 then 10000 else keep in
  let prefix := project +:+ "/" in
  r ← list_bucket "eventlog" prefix;
  match r with
  | Err e => mret (Some e)
  | Ok raws =>
    if Z.of_nat (length raws) <=? keep then mret None
    else
      w ← get_state;
      let toDelete := Z.to_nat (Z.of_nat (length raws) - keep) in
      put_state (set_db (trim_loop prefix toDelete
                           (seek prefix (bolt_cursor (db w) "eventlog")) (db w)) w) ;;
      mret None
  end.

(** ** Webhook deliveries *)

Definition PutDelivery (d : WebhookDelivery) : M World (WebhookDelivery * option error) :=
  putScoped "deliveries" KindEventRule d.

Definition ListDeliveries (project rule : string) : M World (res (list WebhookDelivery)) :=
  raws ←! list_bucket "deliveries" (project +:+ "/");
  let out := filter (λ d, rule = "" ∨ WebhookDelivery_Rule d = rule) (decode_all raws) in
  let out := reverse_in_place out in
  mret (Ok (if (200 <? length out)%nat then take 200 out else out)).
End Operations.
