(* ===== verification/StoreLaws.v ===== *)
(** What the raw and generic store operations do, in terms of the contents of
    the database: one equation per operation ([*_run]), the range scan as a
    filter, and the minting of metadata.  The lemmas are collected in the hint
    database [store]. *)

From S2P Require Import Prelude GoTime Json Types Bolt Store StoreOps.

Create HintDb store.

Section Laws.
Context `{BL : BoltLaws}.

Implicit Types (w : World) (b k : string).

(** The contents of one bucket. *)
Definition bucket_map w b : option (gmap string json) := contents (db w) !! b.
Definition stored w b k : option json := bucket_map w b ≫= (.!! k).

(** Every root bucket exists. *)
Definition opened w : Prop := Forall (λ b, is_Some (bucket_map w b)) rootBuckets.

(** ** The world *)

Lemma set_db_env d w : env (set_db d w) = env w.
Proof. done. Qed.

Lemma bolt_has_true w b m : bucket_map w b = Some m → bolt_has (db w) b = true.
Proof. intros Hm. rewrite bolt_has_spec. apply bool_decide_eq_true. eauto. Qed.

(** ** Open *)

Lemma open_buckets_spec d b :
  contents (open_buckets d) !! b =
    if decide (b ∈ rootBuckets) then Some (default ∅ (contents d !! b)) else contents d !! b.
Proof.
  unfold open_buckets. generalize rootBuckets. intros l. revert d.
  induction l as [|x l IH]; intros d; [by rewrite decide_False by apply not_elem_of_nil|].
  cbn [foldl]. rewrite IH, bolt_create_spec. destruct (decide (b = x)) as [->|Hne].
  - rewrite lookup_insert_eq, (decide_True _ _ (list_elem_of_here x l)). by case_decide.
  - rewrite lookup_insert_ne by done. destruct (decide (b ∈ l)) as [Hin|Hin].
    + rewrite decide_True; [done|]. by apply list_elem_of_further.
    + rewrite decide_False; [done|]. set_solver.
Qed.

Lemma Open_opened d e : opened (Open d e).
Proof.
  apply Forall_forall. intros b Hb. unfold bucket_map, Open. cbn [db]. rewrite open_buckets_spec.
  rewrite decide_True by done. eauto.
Qed.

(** ** Raw access *)

Lemma put_raw_run w b k j m :
  bucket_map w b = Some m → key_ok k = true →
  ∃ d, put_raw b k j w = Ret None (set_db d w) ∧
       contents d = <[b := <[k := j]> m]> (contents (db w)).
Proof.
  intros Hm Hk. unfold put_raw. rewrite (bolt_has_true _ _ _ Hm).
  destruct (bolt_put_ok (db w) b k j m Hm Hk) as (d & -> & Hd). eauto.
Qed.

Lemma put_raw_bad_key w b k j :
  is_Some (bucket_map w b) → key_ok k = false → put_raw b k j w = Ret (Some (key_error k)) w.
Proof.
  intros [m Hm] Hk. unfold put_raw. rewrite (bolt_has_true _ _ _ Hm), bolt_put_err; eauto.
Qed.

Lemma put_run {A} `{Json A} w b k (v : A) m :
  bucket_map w b = Some m → key_ok k = true →
  ∃ d, put b k v w = Ret None (set_db d w) ∧
       contents d = <[b := <[k := enc v]> m]> (contents (db w)).
Proof. apply put_raw_run. Qed.

Lemma get_run {A} `{Json A} w b k m :
  bucket_map w b = Some m →
  get (A:=A) b k w =
    Ret match m !! k with
        | None => Err ErrNotFound
        | Some j => match dec j with Some a => Ok a | None => Err ErrUnmarshal end
        end w.
Proof.
  intros Hm. unfold get. rewrite (bolt_has_true _ _ _ Hm), bolt_get_spec.
  unfold bucket_map in Hm. rewrite Hm. cbn. by destruct (m !! k).
Qed.

Lemma del_run w b k m :
  bucket_map w b = Some m →
  match m !! k with
  | None => del b k w = Ret (Some ErrNotFound) w
  | Some _ =>
    ∃ d, del b k w = Ret None (set_db d w) ∧
         contents d = <[b := delete k m]> (contents (db w))
  end.
Proof.
  intros Hm. unfold del. rewrite (bolt_has_true _ _ _ Hm), bolt_get_spec.
  pose proof Hm as Hm'. unfold bucket_map in Hm'. rewrite Hm'. cbn.
  destruct (m !! k); [|done]. eexists. split; [done|]. by apply bolt_delete_spec.
Qed.

(** ** Range scans *)

Lemma seek_scan_filter p (l : list (string * json)) :
  StronglySorted key_lt l →
  scan p (seek p l) = filter (λ kv, has_prefix kv.1 p = true) l.
Proof.
  assert (Hscan : ∀ l, StronglySorted key_lt l → Forall (λ kv, str_le p kv.1) l →
    scan p l = filter (λ kv, has_prefix kv.1 p = true) l).
  { clear l. induction l as [|kv l IH]; [done|].
    intros [Hs Hlt]%StronglySorted_inv [Hkv Hp]%Forall_cons. cbn [scan].
    rewrite filter_cons. destruct (has_prefix kv.1 p) eqn:E.
    { rewrite decide_True by done. f_equal. by apply IH. }
    rewrite decide_False by done. clear IH Hp. symmetry.
    induction l as [|kv' l IH]; [done|]. apply Forall_cons in Hlt as [Hlt Hrest].
    apply StronglySorted_inv in Hs as [Hs _].
    rewrite filter_cons, decide_False; [by apply IH|]. intros E'.
    assert (has_prefix kv.1 p = true); [|congruence].
    eapply prefix_convex; [done| |done]. unfold key_lt in Hlt.
    apply str_lt_alt in Hlt. tauto. }
  induction l as [|kv l IH]; [done|]. intros [Hs Hlt]%StronglySorted_inv. cbn [seek].
  destruct (str_leb p kv.1) eqn:E.
  - apply Hscan; [by constructor|]. constructor; [done|].
    eapply Forall_impl; [exact Hlt|]. intros kv' H'. cbn in H'. unfold key_lt in H'.
    apply str_lt_alt in H' as [H' _]. by transitivity kv.1.
  - rewrite filter_cons, decide_False; [by apply IH|]. intros E'%prefix_le.
    unfold str_le in E'. congruence.
Qed.

Lemma has_prefix_nil s : has_prefix s "" = true.
Proof. by destruct s. Qed.

(** The pairs of a bucket whose key has a prefix, in key order. *)
Definition with_prefix w b p : list (string * json) :=
  filter (λ kv, has_prefix kv.1 p = true) (bolt_cursor (db w) b).

Lemma list_bucket_run w b p m :
  bucket_map w b = Some m → list_bucket b p w = Ret (Ok (with_prefix w b p).*2) w.
Proof.
  intros Hm. unfold list_bucket, with_prefix. rewrite (bolt_has_true _ _ _ Hm).
  case_bool_decide as Hp.
  - subst p. do 4 f_equal. symmetry. induction (bolt_cursor (db w) b) as [|kv l IH]; [done|].
    rewrite filter_cons, decide_True by apply has_prefix_nil. by rewrite IH.
  - by rewrite seek_scan_filter by apply bolt_cursor_sorted.
Qed.

Lemma elem_of_cursor w b m k j :
  bucket_map w b = Some m → (k, j) ∈ bolt_cursor (db w) b ↔ m !! k = Some j.
Proof. intros Hm. rewrite (bolt_cursor_perm _ _ _ Hm). apply elem_of_map_to_list. Qed.

Lemma elem_of_with_prefix w b p m k j :
  bucket_map w b = Some m →
  (k, j) ∈ with_prefix w b p ↔ has_prefix k p = true ∧ m !! k = Some j.
Proof.
  intros Hm. unfold with_prefix. rewrite list_elem_of_filter, (elem_of_cursor _ _ m) by done. done.
Qed.

Lemma StronglySorted_filter {A} (R : relation A) P `{∀ x, Decision (P x)} l :
  StronglySorted R l → StronglySorted R (filter P l).
Proof.
  induction l as [|x l IH]; [done|]. intros [Hs Hx]%StronglySorted_inv.
  rewrite filter_cons. case_decide; [|auto]. constructor; [auto|].
  rewrite Forall_forall in Hx |- *. intros y [_ Hy]%list_elem_of_filter. auto.
Qed.

Lemma with_prefix_sorted w b p : StronglySorted key_lt (with_prefix w b p).
Proof. apply StronglySorted_filter, bolt_cursor_sorted. Qed.
End Laws.

#[export] Hint Resolve bolt_has_true Open_opened with_prefix_sorted : store.
