(* ===== verification/Table.v ===== *)
(** The abstract contract of a project-scoped bucket, and the proof that the
    store keeps it.

    A bucket of resources is a finite map from (project, name) to the resource
    ([Represents]).  [Table] is the interface the rest of the control plane is
    verified against: writing, reading, deleting and listing are the map's
    insert, lookup, delete and projection.  It holds for keys whose project
    contains no slash, which is what makes ["project/name"] unambiguous. *)

From S2P Require Import Prelude GoTime Json Types Bolt Store StoreOps StoreLaws.

(** ** Keys *)

Definition plain (project : string) : Prop := project ≠ "" ∧ no_byte slash project = true.

#[export] Instance plain_dec project : Decision (plain project).
Proof. unfold plain. apply _. Defined.

Lemma keyFor_plain p n : p ≠ "" → keyFor p n = p +:+ String slash n.
Proof. intros Hp. unfold keyFor. by rewrite bool_decide_eq_false_2. Qed.

Lemma keyFor_inj_plain p n p' n' :
  plain p → plain p' → keyFor p n = keyFor p' n' → p = p' ∧ n = n'.
Proof.
  intros [Hp Hs] [Hp' Hs']. rewrite !keyFor_plain by done. by apply sep_inj.
Qed.

Lemma has_prefix_keyFor p p' n :
  plain p → plain p' → has_prefix (keyFor p' n) (p +:+ "/") = true ↔ p = p'.
Proof.
  intros Hp Hp'. rewrite keyFor_plain by apply Hp'. split.
  - intros [r E]%has_prefix_true. rewrite str_app_assoc in E.
    symmetry in E. apply sep_inj in E; [tauto|apply Hp|apply Hp'].
  - intros <-. change (String slash n) with ("/" +:+ n).
    rewrite <-str_app_assoc. apply has_prefix_app.
Qed.

(** ** Minting *)

Definition is_fresh (m : Meta) : bool := bool_decide (Meta_UID m = "").

Definition minted (e : Env) (m : Meta) : Meta :=
  mkMeta (Meta_Project m) (Meta_Name m)
    (if is_fresh m then uids e (draws e) else Meta_UID m)
    (wrap64 (Meta_Generation m + 1))
    (if is_fresh m then clock e (ticks e) else Meta_CreatedAt m)
    (clock e (if is_fresh m then S (ticks e) else ticks e))
    (Meta_Labels m).

Definition mint_env (e : Env) (m : Meta) : Env :=
  mkEnv (clock e) (if is_fresh m then S (S (ticks e)) else S (ticks e))
        (uids e) (if is_fresh m then S (draws e) else draws e).

Section Table.
Context `{BL : BoltLaws}.
Implicit Types w : World.

Lemma mintMeta_run m w :
  mintMeta m w = Ret (minted (env w) m) (set_env (mint_env (env w) m) w).
Proof.
  unfold mintMeta, minted, mint_env, is_fresh. destruct m as [p n u g c t l], w as [d s [ck tk us dr]].
  cbn. by destruct (bool_decide (u = "")).
Qed.

(** The resource [putScoped] stores. *)
Definition finalMeta (e : Env) (m : Meta) : Meta := minted e (defaultProject "default" m).
Definition final {A} `{projectScoped A} (e : Env) (v : A) : A := setMeta (finalMeta e (getMeta v)) v.

Definition put_event {A} `{projectScoped A, Resource A} (kind : Kind) (v : A) : Event :=
  mkEvent kind "put" (Meta_Project (getMeta v)) (Meta_Name (getMeta v)) (Some (to_resource v)).

Definition keyOf {A} `{projectScoped A} (v : A) : string :=
  keyFor (Meta_Project (getMeta v)) (Meta_Name (getMeta v)).

(** The state a successful write leaves: database, notices, clock. *)
Definition after_put (d : boltdb) (ev : Event) (m : Meta) w : World :=
  mkWorld _ d (try_send ev <$> subs w) (mint_env (env w) (defaultProject "default" m)).

Section Scoped.
Context {A : Type} `{PS : projectScoped A, SL : !ScopedLaws A}.
Context `{JA : Json A, JL : !JsonLaws A, RA : Resource A}.
Implicit Types v : A.

Lemma final_name e v : Meta_Name (getMeta (final e v)) = Meta_Name (getMeta v).
Proof.
  unfold final, finalMeta, defaultProject. rewrite get_set_meta. by case_bool_decide.
Qed.

Lemma final_project e v :
  Meta_Project (getMeta (final e v)) =
    if bool_decide (Meta_Project (getMeta v) = "") then "default" else Meta_Project (getMeta v).
Proof.
  unfold final, finalMeta, defaultProject. rewrite get_set_meta. by case_bool_decide.
Qed.

Lemma putScoped_run bucket kind v w m :
  bucket_map w bucket = Some m →
  Meta_Name (getMeta v) ≠ "" → key_ok (keyOf (final (env w) v)) = true →
  ∃ d, putScoped bucket kind v w =
         Ret (final (env w) v, None)
             (after_put d (put_event kind (final (env w) v)) (getMeta v) w) ∧
       contents d =
         <[bucket := <[keyOf (final (env w) v) := enc (final (env w) v)]> m]> (contents (db w)).
Proof.
  intros Hm Hn Hk. unfold putScoped.
  assert (Hn' : Meta_Name (defaultProject "default" (getMeta v)) = Meta_Name (getMeta v)).
  { unfold defaultProject. by case_bool_decide. }
  rewrite bool_decide_eq_false_2 by by rewrite Hn'.
  rewrite (bind_ret_run _ _ _ _ _ (mintMeta_run _ _)).
  fold (finalMeta (env w) (getMeta v)). set (fm := finalMeta (env w) (getMeta v)).
  assert (Hf : setMeta fm v = final (env w) v) by done.
  assert (Hg : getMeta (final (env w) v) = fm) by apply get_set_meta.
  destruct (put_run (set_env (mint_env (env w) (defaultProject "default" (getMeta v))) w)
              bucket (keyFor (Meta_Project fm) (Meta_Name fm)) (setMeta fm v) m) as (d & Hp & Hd).
  { done. }
  { unfold keyOf in Hk. by rewrite Hg in Hk. }
  rewrite (bind_ret_run _ _ _ _ _ Hp). exists d. unfold put_event, keyOf. rewrite Hg. by rewrite Hf in *.
Qed.

Lemma putScoped_noname bucket kind v w :
  Meta_Name (getMeta v) = "" →
  putScoped bucket kind v w =
    Ret (setMeta (defaultProject "default" (getMeta v)) v, Some (ErrMsg "name is required")) w.
Proof.
  intros Hn. unfold putScoped. rewrite bool_decide_eq_true_2; [done|].
  unfold defaultProject. by case_bool_decide.
Qed.

(** ** The abstract table *)

Definition entry_ok (p n : string) (v : A) : Prop :=
  plain p ∧ n ≠ "" ∧ json_ok v ∧ Meta_Project (getMeta v) = p ∧ Meta_Name (getMeta v) = n.

(** Bucket [bucket] of [w] holds exactly the entries of [t], each under the
    key of its own metadata. *)
Definition Represents w (bucket : string) (t : gmap (string * string) A) : Prop :=
  ∃ m, bucket_map w bucket = Some m ∧
       (∀ k j, m !! k = Some j ↔ ∃ p n v, t !! (p, n) = Some v ∧ k = keyFor p n ∧ j = enc v) ∧
       (∀ p n v, t !! (p, n) = Some v → entry_ok p n v).

Lemma represents_lookup w bucket t m p n :
  bucket_map w bucket = Some m → Represents w bucket t → plain p →
  m !! keyFor p n = enc <$> t !! (p, n).
Proof.
  intros Hm (m' & Hm' & Hk & Hok) Hp. simplify_eq.
  destruct (m !! keyFor p n) as [j|] eqn:E.
  - apply Hk in E as (p' & n' & v & Ht & Ekey & ->).
    apply keyFor_inj_plain in Ekey as [<- <-]; [by rewrite Ht|done|by eapply Hok].
  - destruct (t !! (p, n)) as [v|] eqn:E'; [|done].
    assert (m !! keyFor p n = Some (enc v)); [apply Hk; eauto 6|congruence].
Qed.

(** The bucket only matters through its contents. *)
Lemma represents_ext w w' bucket t :
  bucket_map w bucket = bucket_map w' bucket → Represents w bucket t → Represents w' bucket t.
Proof. intros E (m & Hm & ?). exists m. by rewrite <-E. Qed.

(** The keys of the new contents are those of the new table. *)
Lemma represents_insert w w' bucket t m v :
  bucket_map w bucket = Some m → Represents w bucket t →
  bucket_map w' bucket = Some (<[keyOf v := enc v]> m) →
  entry_ok (Meta_Project (getMeta v)) (Meta_Name (getMeta v)) v →
  Represents w' bucket (<[(Meta_Project (getMeta v), Meta_Name (getMeta v)) := v]> t).
Proof.
  intros Hm (m' & Hm' & Hk & Hok) Hw' Hv. simplify_eq. eexists. split; [done|].
  set (p := Meta_Project _) in *. set (n := Meta_Name _) in *. unfold keyOf. fold p n. split.
  - intros k j. destruct (decide (k = keyFor p n)) as [->|Hne].
    + rewrite lookup_insert_eq. split; [intros [= <-]; exists p, n, v; by rewrite lookup_insert_eq|].
      intros (p' & n' & v' & Ht & E & ->).
      destruct (decide ((p, n) = (p', n'))) as [[= <- <-]|Hpn].
      { rewrite lookup_insert_eq in Ht. by simplify_eq. }
      rewrite lookup_insert_ne in Ht by done.
      apply keyFor_inj_plain in E as [<- <-]; [done|apply Hv|by eapply Hok].
    + rewrite lookup_insert_ne, Hk by done. split; intros (p' & n' & v' & Ht & -> & ->).
      * exists p', n', v'. rewrite lookup_insert_ne by congruence. done.
      * exists p', n', v'. rewrite lookup_insert_ne in Ht by congruence. done.
  - intros p' n' v'. destruct (decide ((p, n) = (p', n'))) as [[= <- <-]|Hpn].
    + rewrite lookup_insert_eq. by intros [= <-].
    + rewrite lookup_insert_ne by done. apply Hok.
Qed.

Lemma represents_delete w w' bucket t m p n :
  bucket_map w bucket = Some m → Represents w bucket t → plain p →
  bucket_map w' bucket = Some (delete (keyFor p n) m) →
  Represents w' bucket (delete (p, n) t).
Proof.
  intros Hm (m' & Hm' & Hk & Hok) Hp Hw'. simplify_eq. eexists. split; [done|]. split.
  - intros k j. rewrite lookup_delete_Some, Hk. split.
    + intros (Hne & p' & n' & v & Ht & -> & ->). exists p', n', v.
      rewrite lookup_delete_ne by congruence. done.
    + intros (p' & n' & v & Ht & -> & ->). apply lookup_delete_Some in Ht as [Hne Ht].
      split; [|by eauto 6]. intros E. apply Hne.
      apply keyFor_inj_plain in E as [<- <-]; [done|done|by eapply Hok].
  - intros p' n' v [_ Ht]%lookup_delete_Some. by apply Hok.
Qed.

(** ** The operations on the table *)

Lemma table_put w bucket kind t v :
  Represents w bucket t →
  Meta_Name (getMeta v) ≠ "" → plain (Meta_Project (getMeta (final (env w) v))) →
  json_ok (final (env w) v) → key_ok (keyOf (final (env w) v)) = true →
  ∃ d, let v' := final (env w) v in
       let w' := after_put d (put_event kind v') (getMeta v) w in
       putScoped bucket kind v w = Ret (v', None) w' ∧
       Represents w' bucket (<[(Meta_Project (getMeta v'), Meta_Name (getMeta v')) := v']> t) ∧
       (∀ b, b ≠ bucket → bucket_map w' b = bucket_map w b).
Proof.
  intros HR Hn Hp Hj Hk. pose proof HR as (m & Hm & _).
  destruct (putScoped_run bucket kind v w m Hm Hn Hk) as (d & Hrun & Hd).
  exists d. cbn zeta. split; [done|]. unfold bucket_map, after_put. cbn [db]. rewrite Hd.
  split; [|intros b Hb; by rewrite lookup_insert_ne].
  eapply represents_insert; [done|done| |].
  - unfold bucket_map. cbn [db]. by rewrite Hd, lookup_insert_eq.
  - split_and!; try done. by rewrite final_name.
Qed.

Lemma table_get w bucket t p n :
  Represents w bucket t → plain p →
  get (A:=A) bucket (keyFor p n) w =
    Ret match t !! (p, n) with Some v => Ok v | None => Err ErrNotFound end w.
Proof.
  intros HR Hp. pose proof HR as (m & Hm & _ & Hok).
  rewrite (get_run _ _ _ _ Hm), (represents_lookup _ _ _ _ _ _ Hm HR Hp).
  destruct (t !! (p, n)) as [v|] eqn:E; cbn; [|done].
  apply Hok in E as (_ & _ & Hj & _). by rewrite dec_enc.
Qed.

Lemma table_delete w bucket kind t p n :
  Represents w bucket t → plain p →
  match t !! (p, n) with
  | None => delete_and_emit bucket (keyFor p n) kind p n w = Ret (Some ErrNotFound) w
  | Some _ =>
    ∃ d, let w' := mkWorld _ d (try_send (mkEvent kind "delete" p n None) <$> subs w) (env w) in
         delete_and_emit bucket (keyFor p n) kind p n w = Ret None w' ∧
         Represents w' bucket (delete (p, n) t) ∧
         (∀ b, b ≠ bucket → bucket_map w' b = bucket_map w b)
  end.
Proof.
  intros HR Hp. pose proof HR as (m & Hm & _).
  pose proof (del_run w bucket (keyFor p n) m Hm) as Hdel.
  pose proof (represents_lookup _ _ _ _ _ n Hm HR Hp) as Hl. rewrite Hl in Hdel.
  unfold delete_and_emit, check. destruct (t !! (p, n)) as [v|] eqn:E; cbn in Hdel.
  - destruct Hdel as (d & Hdel & Hd). exists d. cbn zeta.
    rewrite (bind_ret_run _ _ _ _ _ Hdel). split; [done|].
    unfold bucket_map. cbn [db]. rewrite Hd.
    split; [|intros b Hb; by rewrite lookup_insert_ne].
    eapply represents_delete; [done|done|done|].
    unfold bucket_map. cbn [db]. by rewrite Hd, lookup_insert_eq.
  - by rewrite (bind_ret_run _ _ _ _ _ Hdel).
Qed.

(** The entries of a project ("" for all of them). *)
Definition in_project (p : string) (kv : (string * string) * A) : Prop := p = "" ∨ kv.1.1 = p.
#[export] Instance in_project_dec p kv : Decision (in_project p kv).
Proof. unfold in_project. apply _. Defined.

Definition entries (t : gmap (string * string) A) (p : string) : list ((string * string) * A) :=
  filter (in_project p) (map_to_list t).

Definition encode_entry (e : (string * string) * A) : string * json :=
  (keyFor e.1.1 e.1.2, enc e.2).

Lemma encode_entry_inj t :
  (∀ p n v, t !! (p, n) = Some v → entry_ok p n v) →
  ∀ x y, x ∈ map_to_list t → y ∈ map_to_list t → (encode_entry x).1 = (encode_entry y).1 → x = y.
Proof.
  intros Hok [[p n] v] [[p' n'] v'] Hx%elem_of_map_to_list Hy%elem_of_map_to_list E.
  apply keyFor_inj_plain in E as [E1 E2]; cbn in *; [|by eapply Hok..]. simplify_eq. done.
Qed.

Lemma in_project_prefix p (kv : (string * string) * A) :
  p = "" ∨ plain p → plain kv.1.1 →
  has_prefix (keyFor kv.1.1 kv.1.2) (project_prefix p) = true ↔ in_project p kv.
Proof.
  intros Hp Hkv. unfold project_prefix, in_project. case_bool_decide as E.
  - rewrite has_prefix_nil. tauto.
  - destruct Hp as [|Hp]; [done|]. rewrite has_prefix_keyFor by done. naive_solver.
Qed.

Lemma with_prefix_entries w bucket t p :
  Represents w bucket t → p = "" ∨ plain p →
  with_prefix w bucket (project_prefix p) ≡ₚ encode_entry <$> entries t p.
Proof.
  intros (m & Hm & Hk & Hok) Hp. apply NoDup_Permutation.
  - assert (NoDup (bolt_cursor (db w) bucket)) as Hnd.
    { rewrite (bolt_cursor_perm _ _ _ Hm). apply NoDup_map_to_list. }
    unfold with_prefix. by apply NoDup_filter.
  - apply NoDup_fmap_2_strong; [|apply NoDup_filter, NoDup_map_to_list].
    intros x y [_ Hx]%list_elem_of_filter [_ Hy]%list_elem_of_filter E.
    eapply encode_entry_inj; [done|done|done|by rewrite E].
  - intros [k j]. rewrite (elem_of_with_prefix _ _ _ _ _ _ Hm), list_elem_of_fmap, Hk. split.
    + intros (Hpre & p' & n & v & Ht & -> & ->). exists ((p', n), v). split; [done|].
      apply list_elem_of_filter. split; [|by apply elem_of_map_to_list].
      rewrite <-in_project_prefix; [exact Hpre|done|by eapply Hok].
    + intros ([[p' n] v] & [= -> ->] & [Hin Ht%elem_of_map_to_list]%list_elem_of_filter).
      split; [|by eauto 6]. rewrite (in_project_prefix p ((p', n), v)); [done|done|by eapply Hok].
Qed.

Lemma decode_all_enc (l : list A) : Forall json_ok l → decode_all (enc <$> l) = l.
Proof.
  unfold decode_all. induction 1 as [|v l Hv Hl IH]; [done|]. cbn. rewrite dec_enc by done.
  by rewrite IH.
Qed.

(** Resources in the order of their keys. *)
Definition by_key (v v' : A) : Prop := str_lt (keyOf v) (keyOf v').

Lemma table_list w bucket t p :
  Represents w bucket t → p = "" ∨ plain p →
  ∃ l, list_scoped bucket p w = Ret (Ok l) w ∧ l ≡ₚ (entries t p).*2 ∧ StronglySorted by_key l.
Proof.
  intros HR Hp. pose proof HR as (m & Hm & _ & Hok).
  pose proof (with_prefix_entries w bucket t p HR Hp) as Hperm.
  pose proof (with_prefix_sorted w bucket (project_prefix p)) as Hsort.
  apply Permutation_map_inv in Hperm as (es & Hes & Hperm).
  assert (Hall : Forall (λ e, entry_ok e.1.1 e.1.2 e.2) es).
  { rewrite <-Hperm. apply Forall_forall. intros [[p' n] v] [_ Hv%elem_of_map_to_list]%list_elem_of_filter.
    by apply Hok. }
  exists (es.*2). split_and!.
  - unfold list_scoped, try_bind.
    rewrite (bind_ret_run _ _ _ _ _ (list_bucket_run _ _ _ _ Hm)), Hes. cbn.
    do 2 f_equal. change (map encode_entry es) with (encode_entry <$> es).
    rewrite <-list_fmap_compose.
    rewrite <-(decode_all_enc es.*2), <-list_fmap_compose; [done|].
    rewrite Forall_fmap. eapply Forall_impl; [exact Hall|]. by intros e (_ & _ & ? & _).
  - by rewrite Hperm.
  - rewrite Hes in Hsort. change (map encode_entry es) with (encode_entry <$> es) in Hsort.
    clear Hes Hperm. induction es as [|e es IH]; [constructor|]. rewrite fmap_cons in Hsort.
    apply StronglySorted_inv in Hsort as [Hs He]. apply Forall_cons in Hall as [Hok1 Hall].
    rewrite Forall_fmap in He. rewrite fmap_cons. constructor; [by apply IH|].
    rewrite Forall_fmap.
    eapply Forall_impl; [apply Forall_and; split; [exact He|exact Hall]|].
    intros e' [Hlt (_ & _ & _ & E1' & E2')]. destruct Hok1 as (_ & _ & _ & E1 & E2).
    unfold by_key, keyOf. cbn. by rewrite E1, E2, E1', E2'.
Qed.

Lemma entries_all t : entries t "" = map_to_list t.
Proof.
  unfold entries. induction (map_to_list t) as [|kv l IH]; [done|].
  rewrite filter_cons, decide_True by by left. by rewrite IH.
Qed.

(** Scanning a whole bucket, as the queries over it do. *)
Lemma table_scan w bucket t :
  Represents w bucket t →
  ∃ raws, list_bucket bucket "" w = Ret (Ok raws) w ∧
          decode_all (A:=A) raws ≡ₚ (map_to_list t).*2 ∧ StronglySorted by_key (decode_all (A:=A) raws).
Proof.
  intros HR. destruct (table_list w bucket t "" HR (or_introl eq_refl)) as (l & Hrun & Hperm & Hsort).
  rewrite entries_all in Hperm. unfold list_scoped, try_bind, mbind, M_bind in Hrun.
  change (project_prefix "") with "" in Hrun.
  destruct (list_bucket bucket "" w) as [[raws|e] w1|] eqn:E; [|done..].
  assert (w1 = w) as -> by by injection Hrun.
  exists raws. split; [done|]. injection Hrun as ->. done.
Qed.
End Scoped.
End Table.
