(* ===== verification/StoreProps.v ===== *)
(** The properties of the store: its scoped buckets implement the abstract
    table, the cursor loop is a prefix filter, writes mint metadata as
    documented, and notices never block. *)

From S2P Require Import Prelude GoTime Json Types Bolt Store StoreOps StoreLaws Table.

(** ** A concrete store, for the witnesses *)

Definition demo_times : list time :=
  [of_unix 1700000000 0; of_unix 1700000001 0; of_unix 1700000002 0; of_unix 1700000003 0].
Definition demo_env : Env :=
  mkEnv (λ n, nth n demo_times (of_unix 1700000009 0)) 0
        (λ n, nth n ["u0"; "u1"; "u2"; "u3"] "u9") 0.
Definition demo_world : World (H:=MemBolt) := Open (∅ : boltdb) demo_env.
Definition demo_meta (project name : string) : Meta := mkMeta project name "" 0 zero_time zero_time ∅.
Definition demo_container (project name image : string) : Container :=
  { (zero (A:=Container)) with Container_Meta := demo_meta project name; Container_Image := image }.

Section Props.
Context `{BL : BoltLaws}.

(** A bucket of a fresh database is the empty table. *)
Lemma represents_empty {A} `{projectScoped A, Json A} (w : World) bucket :
  bucket_map w bucket = Some ∅ → Represents (A:=A) w bucket ∅.
Proof.
  intros Hm. exists ∅. split; [done|]. split.
  - intros k j. rewrite lookup_empty. split; [done|]. intros (p & n & v & Hv & _).
    by rewrite lookup_empty in Hv.
  - intros p n v Hv. by rewrite lookup_empty in Hv.
Qed.

(** C1 A successful write of a project-scoped resource is the insertion, in
    the abstract table of its bucket, of the resource with its minted
    metadata: that resource can be read back, no other bucket changes, and
    each subscriber is sent one notice carrying it. *)
Theorem scoped_put_refines_insert {A} `{PS : projectScoped A, !ScopedLaws A}
    `{JA : Json A, !JsonLaws A, Resource A} (w : World) (bucket : string) (kind : Kind) (t : gmap (string * string) A) (v : A)
    (HR : Represents w bucket t)
    (Hname : Meta_Name (getMeta v) ≠ "")
    (Hplain : plain (Meta_Project (getMeta (final (env w) v))))
    (Hjson : json_ok (final (env w) v))
    (Hkey : key_ok (keyOf (final (env w) v)) = true) :
  ∃ w', let v' := final (env w) v in
    putScoped bucket kind v w = Ret (v', None) w' ∧
    Represents w' bucket (<[(Meta_Project (getMeta v'), Meta_Name (getMeta v')) := v']> t) ∧
    get bucket (keyOf v') w' = Ret (Ok v') w' ∧
    (∀ b, b ≠ bucket → bucket_map w' b = bucket_map w b) ∧
    subs w' = try_send (put_event kind v') <$> subs w.
Proof.
  destruct (table_put w bucket kind t v HR Hname Hplain Hjson Hkey) as (d & Hrun & HR' & Hother).
  eexists. cbn zeta. split; [exact Hrun|]. split; [exact HR'|]. split; [|done].
  unfold keyOf. rewrite (table_get _ _ _ _ _ HR' Hplain). by rewrite lookup_insert_eq.
Qed.

(** C2 Deleting a resource removes exactly its entry of the table, after
    which it is not found; deleting an absent one reports [ErrNotFound],
    changes nothing and sends no notice. *)
Theorem scoped_delete_refines_delete {A} `{PS : projectScoped A, !ScopedLaws A}
    `{JA : Json A, !JsonLaws A} (w : World) (bucket : string) (kind : Kind) (t : gmap (string * string) A) (p n : string)
    (HR : Represents w bucket t) (Hp : plain p) :
  match t !! (p, n) with
  | None => delete_and_emit bucket (keyFor p n) kind p n w = Ret (Some ErrNotFound) w
  | Some _ =>
    ∃ w', delete_and_emit bucket (keyFor p n) kind p n w = Ret None w' ∧
          Represents w' bucket (delete (p, n) t) ∧
          get (A:=A) bucket (keyFor p n) w' = Ret (Err ErrNotFound) w' ∧
          (∀ b, b ≠ bucket → bucket_map w' b = bucket_map w b)
  end.
Proof.
  pose proof (table_delete w bucket kind t p n HR Hp) as Hdel.
  destruct (t !! (p, n)) eqn:E; [|done]. destruct Hdel as (d & Hrun & HR' & Hother).
  eexists. split; [exact Hrun|]. split; [exact HR'|]. split; [|exact Hother].
  rewrite (table_get _ _ _ _ _ HR' Hp). by rewrite lookup_delete_eq.
Qed.

(** C3 Tenant isolation and order: listing a project returns each of its
    resources once, none of another project's, in the byte order of their
    keys. *)
Theorem scoped_list_isolated {A} `{PS : projectScoped A, !ScopedLaws A}
    `{JA : Json A, !JsonLaws A} (w : World) (bucket : string) (t : gmap (string * string) A) (p : string)
    (HR : Represents w bucket t) (Hp : plain p) :
  ∃ l, list_scoped bucket p w = Ret (Ok l) w ∧
       (∀ v : A, v ∈ l ↔ ∃ n, t !! (p, n) = Some v) ∧
       NoDup (keyOf <$> l) ∧
       StronglySorted by_key l.
Proof.
  destruct (table_list w bucket t p HR (or_intror Hp)) as (l & Hrun & Hperm & Hsort).
  exists l. split_and!; [done| | |done].
  - intros v. rewrite Hperm, list_elem_of_fmap. split.
    + intros ([[p' n] v'] & -> & [[->|Hin] Hv%elem_of_map_to_list]%list_elem_of_filter).
      * by destruct Hp.
      * cbn in *. subst p'. eauto.
    + intros [n Hv]. exists ((p, n), v). split; [done|]. apply list_elem_of_filter.
      split; [by right|by apply elem_of_map_to_list].
  - clear Hrun Hperm. induction Hsort as [|v l Hs IH Hv]; [constructor|].
    rewrite fmap_cons. constructor; [|done]. intros (v' & E & Hin)%list_elem_of_fmap.
    rewrite Forall_forall in Hv. specialize (Hv v' Hin). unfold by_key in Hv.
    rewrite E in Hv. by apply str_lt_irrefl in Hv.
Qed.

(** The cursor loop of [list] (seek to the prefix, step while the key has
    it) returns exactly the values whose key has the prefix: no matching key
    lies outside the range it visits. *)
Theorem list_bucket_is_prefix_filter (w : World) (bucket prefix : string) (m : gmap string json)
    (Hm : bucket_map w bucket = Some m) :
  ∃ kvs, list_bucket bucket prefix w = Ret (Ok kvs.*2) w ∧
         NoDup kvs.*1 ∧ StronglySorted key_lt kvs ∧
         (∀ k j, (k, j) ∈ kvs ↔ m !! k = Some j ∧ has_prefix k prefix = true).
Proof.
  exists (with_prefix w bucket prefix). split_and!.
  - by eapply list_bucket_run.
  - pose proof (with_prefix_sorted w bucket prefix) as Hs.
    induction Hs as [|kv l Hs IH Hkv]; [constructor|]. rewrite fmap_cons.
    constructor; [|done]. intros (kv' & E & Hin)%list_elem_of_fmap.
    rewrite Forall_forall in Hkv. specialize (Hkv kv' Hin). unfold key_lt in Hkv.
    rewrite E in Hkv. by apply str_lt_irrefl in Hkv.
  - apply with_prefix_sorted.
  - intros k j. rewrite (elem_of_with_prefix _ _ _ _ _ _ Hm). tauto.
Qed.

(** Every write mints metadata: the generation grows by one modulo 2^64, a
    UID and a creation time are given exactly when the resource had no UID,
    labels, name and a non-empty project are kept. *)
Theorem put_mints_metadata {A} `{PS : projectScoped A, !ScopedLaws A, Json A, Resource A}
    (w w' : World) (bucket : string) (kind : Kind) (v v' : A)
    (Hrun : putScoped bucket kind v w = Ret (v', None) w') :
  let m := getMeta v in let m' := getMeta v' in
  Meta_Generation m' = wrap64 (Meta_Generation m + 1) ∧
  Meta_UID m' = (if bool_decide (Meta_UID m = "") then uids (env w) (draws (env w)) else Meta_UID m) ∧
  (Meta_UID m ≠ "" → Meta_CreatedAt m' = Meta_CreatedAt m) ∧
  Meta_Name m' = Meta_Name m ∧ Meta_Labels m' = Meta_Labels m ∧
  Meta_Project m' = (if bool_decide (Meta_Project m = "") then "default" else Meta_Project m).
Proof.
  unfold putScoped in Hrun. case_bool_decide; [done|].
  rewrite (bind_ret_run _ _ _ _ _ (mintMeta_run _ _)) in Hrun.
  unfold mbind, M_bind in Hrun. destruct (put _ _ _ _) as [[e|] w1|]; [done| |done].
  injection Hrun as <- _. cbn zeta. rewrite get_set_meta.
  unfold minted, is_fresh, defaultProject. cbn. case_bool_decide; cbn; split_and!; try done; intros Hu;
    by rewrite bool_decide_eq_false_2.
Qed.

(** Emitting never blocks and never overflows: each subscriber's channel
    keeps its order, gains the notice exactly when it has room, and stays
    within its capacity. *)
Theorem emit_never_overflows (w : World) ev
    (Hcap : Forall (λ ch, (length ch ≤ sub_capacity)%nat) (subs w)) :
  ∃ w', emit ev w = Ret tt w' ∧ db w' = db w ∧
        Forall2 (λ ch ch', ch' = ch ∧ length ch = sub_capacity ∨
                           ch' = ch ++ [ev] ∧ (length ch < sub_capacity)%nat) (subs w) (subs w') ∧
        Forall (λ ch, (length ch ≤ sub_capacity)%nat) (subs w').
Proof.
  eexists. split; [done|]. split; [done|]. cbn [subs set_subs]. revert Hcap.
  generalize (subs w). intros l Hl. split.
  - induction Hl as [|ch l Hch Hl IH]; [constructor|]. rewrite fmap_cons. constructor; [|done].
    unfold try_send. destruct (Nat.ltb_spec (length ch) sub_capacity); [by right|left; split; [done|lia]].
  - rewrite Forall_fmap. eapply Forall_impl; [exact Hl|]. intros ch Hch. cbn beta in Hch |- *. unfold compose.
    unfold try_send. destruct (Nat.ltb_spec (length ch) sub_capacity); [|done].
    rewrite length_app. cbn. lia.
Qed.
End Props.

(** ** Witnesses *)

Lemma demo_represents : Represents (A:=Container) demo_world "containers" ∅.
Proof. apply represents_empty. vm_compute. reflexivity. Qed.

Definition demo_web : Container := demo_container "shop" "web" "nginx".

(** The store of [Put]ing container shop/web in an empty database. *)
Lemma scoped_put_refines_insert_witness :
  ∃ w', let v' := final (env demo_world) demo_web in
    putScoped "containers" KindContainer demo_web demo_world = Ret (v', None) w' ∧
    Represents w' "containers"
      (<[(Meta_Project (getMeta v'), Meta_Name (getMeta v')) := v']> ∅) ∧
    get "containers" (keyOf v') w' = Ret (Ok v') w' ∧
    (∀ b, b ≠ "containers" → bucket_map w' b = bucket_map demo_world b) ∧
    subs w' = try_send (put_event KindContainer v') <$> subs demo_world.
Proof.
  refine (scoped_put_refines_insert demo_world "containers" KindContainer ∅ demo_web
            demo_represents _ _ _ _); [done|by vm_compute|by vm_compute|by vm_compute].
Defined.

(** The database after that write, and its table. *)
Definition demo_stored : Container := final (env demo_world) demo_web.
Definition demo_world1 : World :=
  default demo_world (exec (putScoped "containers" KindContainer demo_web) demo_world).
Definition demo_table1 : gmap (string * string) Container :=
  <[(Meta_Project (getMeta demo_stored), Meta_Name (getMeta demo_stored)) := demo_stored]> ∅.

Lemma demo1_represents : Represents demo_world1 "containers" demo_table1.
Proof.
  destruct (table_put demo_world "containers" KindContainer ∅ demo_web demo_represents)
    as (d & Hrun & HR & _); [done|by vm_compute|by vm_compute|by vm_compute|].
  unfold demo_world1, exec. rewrite Hrun. exact HR.
Qed.

Lemma scoped_delete_refines_delete_witness :
  demo_table1 !! ("shop", "web") = Some demo_stored ∧
  match demo_table1 !! ("shop", "web") with
  | None => delete_and_emit "containers" (keyFor "shop" "web") KindContainer "shop" "web" demo_world1
            = Ret (Some ErrNotFound) demo_world1
  | Some _ =>
    ∃ w', delete_and_emit "containers" (keyFor "shop" "web") KindContainer "shop" "web" demo_world1
            = Ret None w' ∧
          Represents w' "containers" (delete ("shop", "web") demo_table1) ∧
          get (A:=Container) "containers" (keyFor "shop" "web") w' = Ret (Err ErrNotFound) w' ∧
          (∀ b, b ≠ "containers" → bucket_map w' b = bucket_map demo_world1 b)
  end.
Proof.
  split; [vm_compute; reflexivity|].
  exact (scoped_delete_refines_delete demo_world1 "containers" KindContainer demo_table1 "shop" "web"
           demo1_represents ltac:(by vm_compute)).
Defined.

Lemma scoped_list_isolated_witness :
  ∃ l, list_scoped "containers" "shop" demo_world1 = Ret (Ok l) demo_world1 ∧
       (∀ v : Container, v ∈ l ↔ ∃ n, demo_table1 !! ("shop", n) = Some v) ∧
       NoDup (keyOf <$> l) ∧ StronglySorted by_key l.
Proof.
  exact (scoped_list_isolated demo_world1 "containers" demo_table1 "shop"
           demo1_represents ltac:(by vm_compute)).
Defined.

Lemma list_bucket_is_prefix_filter_witness :
  ∃ kvs, list_bucket "containers" "shop/" demo_world1 = Ret (Ok kvs.*2) demo_world1 ∧
         NoDup kvs.*1 ∧ StronglySorted key_lt kvs ∧
         (∀ k j, (k, j) ∈ kvs ↔
            <["shop/web" := enc demo_stored]> (∅ : gmap string json) !! k = Some j
            ∧ has_prefix k "shop/" = true).
Proof.
  refine (list_bucket_is_prefix_filter demo_world1 "containers" "shop/"
            (<["shop/web" := enc demo_stored]> ∅) _).
  vm_compute. reflexivity.
Defined.

Lemma put_mints_metadata_witness :
  Meta_Generation (getMeta demo_stored) = wrap64 (0 + 1) ∧
  Meta_UID (getMeta demo_stored) = "u0".
Proof.
  destruct (put_mints_metadata demo_world demo_world1 "containers" KindContainer demo_web demo_stored)
    as (Hg & Hu & _).
  - apply (run_eval (putScoped "containers" KindContainer demo_web)). vm_compute. reflexivity.
  - split; [exact Hg|]. rewrite Hu. vm_compute. reflexivity.
Defined.

Lemma emit_never_overflows_witness :
  let w := set_subs [[]; replicate 64 (mkEvent KindNode "put" "" "n1" None)] demo_world in
  ∃ w', emit (mkEvent KindNode "put" "" "n2" None) w = Ret tt w' ∧ db w' = db w ∧
        Forall2 (λ ch ch', ch' = ch ∧ length ch = sub_capacity ∨
                           ch' = ch ++ [mkEvent KindNode "put" "" "n2" None]
                           ∧ (length ch < sub_capacity)%nat) (subs w) (subs w') ∧
        Forall (λ ch, (length ch ≤ sub_capacity)%nat) (subs w').
Proof.
  refine (emit_never_overflows _ _ _).
  repeat constructor; unfold sub_capacity; cbn; lia.
Defined.
