(* ===== verification/EventLog.v ===== *)
(** The event log of store.go: appending, listing and trimming, and how far
    its keys order events by time. *)

From S2P Require Import Prelude GoTime Json Types Bolt Store StoreOps StoreLaws Table StoreProps.

#[local] Arguments reverse : simpl never.

Section EventLog.
Context `{BL : BoltLaws}.
Implicit Types w : World.

#[local] Instance key_lt_antisymm : AntiSymm (=) key_lt.
Proof.
  intros x y Hxy Hyx. unfold key_lt in *. rewrite !str_lt_alt in *.
  destruct Hxy as [H1 Hne], Hyx as [H2 _]. destruct Hne. by apply (anti_symm str_le).
Qed.

(** Two key-ordered lists with the same elements are the same list. *)
Lemma key_sorted_unique (l1 l2 : list (string * json)) :
  StronglySorted key_lt l1 → StronglySorted key_lt l2 → l1 ≡ₚ l2 → l1 = l2.
Proof. apply StronglySorted_unique, _. Qed.

Lemma key_sorted_nodup (l : list (string * json)) : StronglySorted key_lt l → NoDup l.*1.
Proof.
  induction 1 as [|x l Hs IH Hx]; [constructor|]. rewrite fmap_cons. constructor; [|done].
  intros (y & E & Hy)%list_elem_of_fmap. rewrite Forall_forall in Hx.
  specialize (Hx y Hy). unfold key_lt in Hx. rewrite E in Hx. by apply str_lt_irrefl in Hx.
Qed.

(** What the deleting loop leaves: the first [n] keys of the scan are gone. *)
Lemma trim_loop_spec prefix n l d m :
  contents d !! "eventlog" = Some m →
  contents (trim_loop prefix n l d) =
    <["eventlog" := foldl (λ m k, delete k m) m (take n (scan prefix l)).*1]> (contents d).
Proof.
  revert n d m. induction l as [|kv l IH]; intros [|n] d m Hm; cbn; try by rewrite insert_id.
  destruct (has_prefix kv.1 prefix); cbn; [|by rewrite insert_id].
  pose proof (bolt_delete_spec d "eventlog" kv.1 m Hm) as Hd.
  rewrite (IH n _ (delete kv.1 m)); rewrite Hd; [|by rewrite lookup_insert_eq].
  by rewrite insert_insert_eq.
Qed.

Lemma lookup_foldl_delete (ks : list string) (m : gmap string json) k :
  foldl (λ m k, delete k m) m ks !! k = if decide (k ∈ ks) then None else m !! k.
Proof.
  revert m. induction ks as [|k' ks IH]; intros m; cbn; [done|]. rewrite IH, lookup_delete.
  repeat case_decide; set_solver.
Qed.

(** The scan of a prefix after its first [n] keys were deleted. *)
Lemma with_prefix_trimmed w w' b p m n :
  bucket_map w b = Some m →
  bucket_map w' b = Some (foldl (λ m k, delete k m) m (take n (with_prefix w b p)).*1) →
  with_prefix w' b p = drop n (with_prefix w b p).
Proof.
  intros Hm Hm'. pose proof (with_prefix_sorted w b p) as Hs.
  pose proof (key_sorted_nodup _ Hs) as Hnd.
  rewrite <-(take_drop n (with_prefix w b p)) in Hs, Hnd.
  apply key_sorted_unique; [apply with_prefix_sorted|by eapply StronglySorted_app_1_r|].
  apply NoDup_Permutation; [apply (NoDup_fmap_1 fst), key_sorted_nodup, with_prefix_sorted| |].
  { apply (NoDup_fmap_1 fst). rewrite fmap_app in Hnd. by apply NoDup_app in Hnd as (_ & _ & ?). }
  intros [k j]. rewrite (elem_of_with_prefix _ _ _ _ _ _ Hm'), lookup_foldl_delete.
  assert (Hin : (k, j) ∈ with_prefix w b p ↔ (k, j) ∈ take n (with_prefix w b p) ∨ (k, j) ∈ drop n (with_prefix w b p)).
  { by rewrite <-(take_drop n (with_prefix w b p)) at 1; rewrite elem_of_app. }
  rewrite (elem_of_with_prefix _ _ _ _ _ _ Hm) in Hin.
  rewrite fmap_app in Hnd. apply NoDup_app in Hnd as (_ & Hdisj & _).
  case_decide as Hk.
  - split; [naive_solver|]. intros Hd. destruct (Hdisj k Hk). by apply (list_elem_of_fmap_2 fst) in Hd.
  - rewrite Hin. split; [|tauto]. intros [Ht|]; [|done].
    by apply (list_elem_of_fmap_2 fst) in Ht.
Qed.

Lemma TrimEvents_run w p keep m :
  0 < keep → bucket_map w "eventlog" = Some m →
  let all := with_prefix w "eventlog" (p +:+ "/") in
  let n := (length all - Z.to_nat keep)%nat in
  ∃ w', TrimEvents p keep w = Ret None w' ∧ subs w' = subs w ∧ env w' = env w ∧
        (∀ b, b ≠ "eventlog" → bucket_map w' b = bucket_map w b) ∧
        bucket_map w' "eventlog" = Some (foldl (λ m k, delete k m) m (take n all).*1).
Proof.
  intros Hkeep Hm all n. unfold TrimEvents.
  destruct (Z.leb_spec keep 0); [lia|].
  rewrite (bind_ret_run _ _ _ _ _ (list_bucket_run _ _ _ _ Hm)). fold all.
  rewrite length_fmap. destruct (Z.leb_spec (Z.of_nat (length all)) keep).
  - exists w. split_and!; try done. replace n with O by lia. by rewrite take_0.
  - eexists. split; [done|]. split_and!; try done.
    + intros b Hb. unfold bucket_map. cbn [db set_db].
      by rewrite (trim_loop_spec _ _ _ _ m Hm), lookup_insert_ne.
    + unfold bucket_map. cbn [db set_db]. rewrite (trim_loop_spec _ _ _ _ m Hm), lookup_insert_eq.
      rewrite seek_scan_filter by apply bolt_cursor_sorted.
      by replace (Z.to_nat (Z.of_nat (length all) - keep)) with n by lia.
Qed.

(** [TrimEvents] keeps exactly the [keep] records of the project with the
    greatest keys, whatever it has to delete, and touches no other key of the
    event log and no other bucket. *)
Theorem trim_keeps_greatest_keys w (p : string) (keep : Z) (m : gmap string json)
    (Hkeep : 0 < keep) (Hm : bucket_map w "eventlog" = Some m) :
  ∃ w' m', TrimEvents p keep w = Ret None w' ∧
    bucket_map w' "eventlog" = Some m' ∧
    with_prefix w' "eventlog" (p +:+ "/") =
      drop (length (with_prefix w "eventlog" (p +:+ "/")) - Z.to_nat keep)
           (with_prefix w "eventlog" (p +:+ "/")) ∧
    (length (with_prefix w' "eventlog" (p +:+ "/")) ≤ Z.to_nat keep)%nat ∧
    (∀ k, has_prefix k (p +:+ "/") = false → m' !! k = m !! k) ∧
    (∀ b, b ≠ "eventlog" → bucket_map w' b = bucket_map w b).
Proof.
  destruct (TrimEvents_run w p keep m Hkeep Hm) as (w' & Hrun & _ & _ & Hother & Hm').
  do 2 eexists. split; [exact Hrun|]. split; [exact Hm'|].
  pose proof (with_prefix_trimmed _ _ _ _ _ _ Hm Hm') as Hw. split; [exact Hw|]. split.
  { rewrite Hw, length_drop. lia. }
  split; [|done]. intros k Hk. rewrite lookup_foldl_delete. case_decide as Hin; [|done].
  apply list_elem_of_fmap in Hin as ([k' j] & -> & Hin).
  apply elem_of_take in Hin as (i & Hin & _). apply list_elem_of_lookup_2 in Hin.
  apply (elem_of_with_prefix _ _ _ _ _ _ Hm) in Hin as [Hp _]. cbn in Hk. congruence.
Qed.

Lemma decode_all_reverse {A} `{Json A} (l : list json) :
  reverse (decode_all (A:=A) l) = decode_all (reverse l).
Proof.
  unfold decode_all. induction l as [|j l IH]; [done|]. rewrite reverse_cons, omap_app.
  cbn. destruct (dec j); cbn; [rewrite reverse_cons, IH|rewrite IH, app_nil_r]; done.
Qed.

(** [ListEvents] returns the decodable records of the project with the
    greatest keys, greatest first, at most [limit] of them (100 when the
    limit is not positive), and changes nothing. *)
Theorem list_events_greatest_first w (p : string) (limit : Z) (m : gmap string json)
    (Hm : bucket_map w "eventlog" = Some m) :
  let n := Z.to_nat (if limit <=? 0 then 100 else limit) in
  ListEvents p limit w =
    Ret (Ok (take n (decode_all (reverse (with_prefix w "eventlog" (p +:+ "/")).*2)))) w.
Proof.
  cbn zeta. unfold ListEvents, try_bind.
  rewrite (bind_ret_run _ _ _ _ _ (list_bucket_run _ _ _ _ Hm)).
  rewrite reverse_in_place_spec, decode_all_reverse. set (out := decode_all _).
  set (lim := if limit <=? 0 then 100 else limit).
  destruct (Z.ltb_spec lim (Z.of_nat (length out))); [done|].
  by rewrite take_ge by lia.
Qed.
End EventLog.

(** ** Keys and time

    [RFC3339Nano] drops the trailing zeros of the fraction, so a whole second
    is written without one: ["...:00Z"] sorts after ["...:00.5Z"]. *)

Definition event_at (uid : string) (t : time) : EventRecord :=
  mkEventRecord uid "demo" "shop" "" t ∅ (Bytes "").
Definition earlier_event : EventRecord := event_at "a" (of_unix 1700000000 0).
Definition later_event : EventRecord := event_at "b" (of_unix 1700000000 500000000).

(** Append the two events, in the order they happened. *)
Definition append_both : M World (res (list EventRecord)) :=
  AppendEvent earlier_event ;; AppendEvent later_event ;; ListEvents "shop" 100.

(** Append both and keep one. *)
Definition append_both_and_trim : M World (res (list EventRecord)) :=
  AppendEvent earlier_event ;; AppendEvent later_event ;; TrimEvents "shop" 1 ;; ListEvents "shop" 100.

(** The event log is not chronological: of two events half a second apart,
    listing "newest first" puts the older one first, and trimming the log to
    one record deletes the newer one. *)
Theorem event_log_misorders_fractions :
  Before (EventRecord_At earlier_event) (EventRecord_At later_event) = true ∧
  str_lt (eventKey later_event) (eventKey earlier_event) ∧
  eval append_both demo_world = Some (Ok [earlier_event; later_event]) ∧
  eval append_both_and_trim demo_world = Some (Ok [earlier_event]).
Proof. repeat split; vm_compute; reflexivity. Qed.

(** ** Witnesses *)

Definition log_world : World :=
  default demo_world (exec (AppendEvent earlier_event ;; AppendEvent later_event) demo_world).
Definition log_map : gmap string json :=
  <[eventKey earlier_event := enc earlier_event]>
    (<[eventKey later_event := enc later_event]> ∅).

Lemma trim_keeps_greatest_keys_witness :
  ∃ w' m', TrimEvents "shop" 1 log_world = Ret None w' ∧
    bucket_map w' "eventlog" = Some m' ∧
    with_prefix w' "eventlog" ("shop" +:+ "/") =
      drop (length (with_prefix log_world "eventlog" ("shop" +:+ "/")) - Z.to_nat 1)
           (with_prefix log_world "eventlog" ("shop" +:+ "/")) ∧
    (length (with_prefix w' "eventlog" ("shop" +:+ "/")) ≤ Z.to_nat 1)%nat ∧
    (∀ k, has_prefix k ("shop" +:+ "/") = false → m' !! k = log_map !! k) ∧
    (∀ b, b ≠ "eventlog" → bucket_map w' b = bucket_map log_world b).
Proof.
  refine (trim_keeps_greatest_keys log_world "shop" 1 log_map _ _); [lia|].
  vm_compute. reflexivity.
Defined.

Lemma list_events_greatest_first_witness :
  ListEvents "shop" 1 log_world =
    Ret (Ok (take (Z.to_nat (if 1 <=? 0 then 100 else 1))
               (decode_all (reverse (with_prefix log_world "eventlog" ("shop" +:+ "/")).*2)))) log_world.
Proof.
  refine (list_events_greatest_first log_world "shop" 1 log_map _). vm_compute. reflexivity.
Defined.
