(* ===== verification/Replication.v ===== *)
(** Replication: the Raft state machine of fsm.go, snapshots (snapshot.go) and
    the write wrapper of replicated_store.go.

    hashicorp/raft itself is outside: [Raft] holds what the code asks of it
    (the configuration, whether this node leads, the future of a submitted
    entry).  As raft documents, a future without error means the entry is
    committed and was applied by the local state machine, whose answer is the
    future's response. *)

From S2P Require Import Prelude GoTime Json Types Bolt Store StoreOps.

(** [json.RawMessage]; [None] is the nil message. *)
Record RawMessage := Raw { raw : option json }.
#[export] Instance raw_json : Json RawMessage := {
  enc r := default JNull (raw r);
  dec j := match j with JNull => Some (Raw None) | _ => Some (Raw (Some j)) end;
  zero := Raw None;
  is_empty r := match raw r with None => true | Some _ => false end;
  json_okb r := match raw r with Some JNull => false | _ => true end;
}.
#[export] Instance raw_laws : JsonLaws RawMessage.
Proof.
  split; [|done|by intros [[]]].
  intros [[[]|]]; done.
Qed.

Record LogOp := mkLogOp {
  LogOp_Op : string;
  LogOp_Bucket : string;
  LogOp_Kind : Kind;
  LogOp_Project : string;
  LogOp_Name : string;
  LogOp_Key : string;
  LogOp_Value : RawMessage;
}.
#[export] Instance logop_json : Json LogOp := struct_json mkLogOp (
  fld "op" LogOp_Op;
  fld "bucket" LogOp_Bucket;
  ofld "kind" LogOp_Kind;
  ofld "project" LogOp_Project;
  ofld "name" LogOp_Name;
  fld "key" LogOp_Key;
  ofld "value" LogOp_Value;
  Fnil).
#[export] Instance logop_laws : JsonLaws LogOp.
Proof. struct_laws. Qed.

(** [decodeKind]: the typed value of a raw message. *)
Definition decode_as {A} `{Json A} (f : A → resource) (j : json) : res resource :=
  match dec j with Some a => Ok (f a) | None => Err (ErrMsg "json: cannot unmarshal") end.

Definition decodeKind (k : Kind) (r : RawMessage) : res resource :=
  match raw r with
  | None => Err (ErrMsg "unexpected end of JSON input")
  | Some j =>
    if decide (k = KindProject) then decode_as RProject j
    else if decide (k = KindContainer) then decode_as RContainer j
    else if decide (k = KindFunction) then decode_as RFunction j
    else if decide (k = KindBucket) then decode_as RBucket j
    else if decide (k = KindAccessKey) then decode_as RAccessKey j
    else if decide (k = KindSecret) then decode_as RSecret j
    else if decide (k = KindEventRule) then decode_as REventRule j
    else if decide (k = KindCluster) then decode_as RClusterConfig j
    else if decide (k = KindNode) then decode_as RNode j
    else if decide (k = KindUser) then decode_as RUser j
    else if decide (k = KindToken) then decode_as RToken j
    else if decide (k = KindBuild) then decode_as RBuild j
    else Err (ErrMsg ("unknown kind " +:+ k))
  end.

(** The handle of the raft library. *)
Record Raft := mkRaft {
  (** [GetConfiguration]: the number of servers *)
  raft_servers : res nat;
  (** [State() == raft.Leader] *)
  raft_leader : bool;
  (** the error of the future [Apply] returns *)
  raft_submit : json → option error;
}.

Section Replication.
Context `{Bolt}.

(** ** The state machine *)

Definition fsm_apply (op : LogOp) : M World (option error) :=
  if decide (LogOp_Op op = "put") then
    check (put_raw (LogOp_Bucket op) (LogOp_Key op) (default JNull (raw (LogOp_Value op))))
      (let typed :=
         if bool_decide (LogOp_Kind op = "") then None
         else res_option (decodeKind (LogOp_Kind op) (LogOp_Value op)) in
       emit (mkEvent (LogOp_Kind op) "put" (LogOp_Project op) (LogOp_Name op) typed) ;;
       mret None)
  else if decide (LogOp_Op op = "delete") then
    check (del (LogOp_Bucket op) (LogOp_Key op))
      (emit (mkEvent (LogOp_Kind op) "delete" (LogOp_Project op) (LogOp_Name op) None) ;;
       mret None)
  else mret (Some (ErrMsg ("unknown op " +:+ LogOp_Op op))).

(** [FSM.Apply]: one committed entry. *)
Definition FSM_Apply (data : json) : M World (option error) :=
  match dec data with
  | None => mret (Some (ErrMsg "decode log"))
  | Some op => fsm_apply op
  end.

(** ** Snapshots *)

#[local] Abbreviation snapshotData := (gmap string (gmap string json)).

(** [dumpBolt]: every bucket, every pair. *)
Definition dumpBolt (d : boltdb) : snapshotData :=
  list_to_map ((λ b, (b, list_to_map (bolt_cursor d b))) <$> bolt_buckets d).

(** The inner loop of [restoreBolt]. *)
Fixpoint put_all (b : string) (kvs : list (string * json)) (d : boltdb) : res boltdb :=
  match kvs with
  | [] => Ok d
  | kv :: kvs => match bolt_put d b kv.1 kv.2 with
                 | Ok d => put_all b kvs d
                 | Err e => Err e
                 end
  end.

(** The outer loop: each bucket of the snapshot is dropped, created and
    filled.  Buckets the snapshot does not have stay. *)
Fixpoint restore_buckets (snap : list (string * gmap string json)) (d : boltdb) : res boltdb :=
  match snap with
  | [] => Ok d
  | (b, kvs) :: snap =>
    match put_all b (map_to_list kvs) (bolt_create (bolt_drop d b) b) with
    | Ok d => restore_buckets snap d
    | Err e => Err e
    end
  end.

(** [restoreBolt]: [None] is a stream gob cannot decode; an error inside the
    transaction rolls it back. *)
Definition restoreBolt (data : option snapshotData) : M World (option error) := λ w,
  match data with
  | None => Ret (Some (ErrMsg "decode snapshot")) w
  | Some snap =>
    match restore_buckets (map_to_list snap) (db w) with
    | Ok d => Ret None (set_db d w)
    | Err e => Ret (Some e) w
    end
  end.

Definition Snapshot : M World snapshotData := gets (λ w, dumpBolt (db w)).
Definition Restore (data : option snapshotData) : M World (option error) := restoreBolt data.

(** [snapshotBuffer.Persist] into the sink raft gives; [Release] does
    nothing. *)
Class SnapshotSink (K D : Type) := {
  sink_Write : D → M K (option error);
  sink_Cancel : M K (option error);
  sink_Close : M K (option error);
}.
Definition Persist {K D} `{SnapshotSink K D} (data : D) : M K (option error) :=
  e ← sink_Write data;
  match e with Some e => _ ← sink_Cancel; mret (Some e) | None => sink_Close end.

(** ** The raft wrapper (raft.go) *)

Definition Raft_Apply (r : Raft) (op : LogOp) : M World (option error) :=
  if negb (raft_leader r) then mret (Some ErrNotLeader)
  else
    let data := enc op in
    match raft_submit r data with
    | Some e => mret (Some e)
    | None => FSM_Apply data
    end.

(** ** ReplicatedStore: [None] when raft is not running *)

Definition shouldReplicate (raft : option Raft) : bool :=
  match raft with
  | None => false
  | Some r => match raft_servers r with
              | Err _ => false
              | Ok n => negb (n <=? 1)%nat
              end
  end.

Definition applyTypedPut {A} `{projectScoped A, Json A, Resource A}
    (raft : option Raft) (bucket : string) (kind : Kind) (v : A) : M World (A * option error) :=
  let m := defaultProject "default" (getMeta v) in
  let v := setMeta m v in
  if bool_decide (Meta_Name m = "") then mret (v, Some (ErrMsg "name is required"))
  else
    match raft with
    | Some r =>
      if shouldReplicate raft then
        if negb (raft_leader r) then mret (v, Some ErrNotLeader)
        else
          m ← mintMeta m;
          let v := setMeta m v in
          err ← Raft_Apply r (mkLogOp "put" bucket kind (Meta_Project m) (Meta_Name m)
                               (keyFor (Meta_Project m) (Meta_Name m)) (Raw (Some (enc v))));
          mret (v, err)
      else putScoped bucket kind v
    | None => putScoped bucket kind v
    end.

Definition applyTypedDelete (raft : option Raft) (bucket : string) (kind : Kind)
    (project name : string) : M World (option error) :=
  match raft with
  | Some r =>
    if shouldReplicate raft then
      if negb (raft_leader r) then mret (Some ErrNotLeader)
      else Raft_Apply r (mkLogOp "delete" bucket kind project name (keyFor project name) (Raw None))
    else localDelete bucket kind project name
  | None => localDelete bucket kind project name
  end.
End Replication.

Module Replicated.
Section Replicated.
Context `{Bolt} (raft : option Raft).

Definition PutContainer (c : Container) := applyTypedPut raft "containers" KindContainer c.
Definition DeleteContainer := applyTypedDelete raft "containers" KindContainer.
Definition PutFunction (f : Function) := applyTypedPut raft "functions" KindFunction f.
Definition DeleteFunction := applyTypedDelete raft "functions" KindFunction.
Definition PutBucket (b : Bucket) := applyTypedPut raft "buckets" KindBucket b.
Definition DeleteBucket := applyTypedDelete raft "buckets" KindBucket.
Definition PutAccessKey (a : AccessKey) := applyTypedPut raft "accesskeys" KindAccessKey a.
Definition DeleteAccessKey := applyTypedDelete raft "accesskeys" KindAccessKey.
Definition PutSecret (s : Secret) := applyTypedPut raft "secrets" KindSecret s.
Definition DeleteSecret := applyTypedDelete raft "secrets" KindSecret.
Definition PutEventRule (r : EventRule) := applyTypedPut raft "eventrules" KindEventRule r.
Definition DeleteEventRule := applyTypedDelete raft "eventrules" KindEventRule.
End Replicated.
End Replicated.
