(* ===== verification/ReplicationProps.v ===== *)
(** Replication verified: a leader's replicated write is the local write; the
    state machine is a function of the database contents, so nodes that
    applied the same prefix of the log hold the same contents, snapshots
    included; and what the single-voter fast path does to that. *)

From S2P Require Import Prelude GoTime Json Types Bolt Store StoreOps StoreLaws Table StoreProps Replication.

(** ** The leader's write path *)

(** [decodeKind] reads back what a type marshals to under its kind. *)
Class KindOf (A : Type) `{Json A, Resource A} (kind : Kind) :=
  decode_kind (v : A) : json_ok v → decodeKind kind (Raw (Some (enc v))) = Ok (to_resource v).

Ltac kind_of := intros v Hv; unfold decodeKind; cbn [raw]; cbn -[dec enc json_ok]; unfold decode_as;
  by rewrite dec_enc.
#[export] Instance container_kind : KindOf Container KindContainer. Proof. kind_of. Qed.
#[export] Instance function_kind : KindOf Function KindFunction. Proof. kind_of. Qed.
#[export] Instance bucket_kind : KindOf Bucket KindBucket. Proof. kind_of. Qed.
#[export] Instance accesskey_kind : KindOf AccessKey KindAccessKey. Proof. kind_of. Qed.
#[export] Instance secret_kind : KindOf Secret KindSecret. Proof. kind_of. Qed.
#[export] Instance eventrule_kind : KindOf EventRule KindEventRule. Proof. kind_of. Qed.

(** The log entry of a write, and of a delete. *)
Definition put_op {A} `{projectScoped A, Json A} (bucket : string) (kind : Kind) (v : A) : LogOp :=
  mkLogOp "put" bucket kind (Meta_Project (getMeta v)) (Meta_Name (getMeta v)) (keyOf v)
    (Raw (Some (enc v))).
Definition delete_op (bucket : string) (kind : Kind) (project name : string) : LogOp :=
  mkLogOp "delete" bucket kind project name (keyFor project name) (Raw None).

(** This node leads a cluster of several voters and the entry gets committed. *)
Definition commits (r : Raft) (op : LogOp) : Prop :=
  shouldReplicate (Some r) = true ∧ raft_leader r = true ∧ raft_submit r (enc op) = None.

Section Leader.
Context `{Bolt}.
Implicit Types w : World.

(** C6 On the leader a replicated write is the local write: same resource,
    same error, same database, clock and notices — the typed notice being
    rebuilt from the log entry — in every case, failures included. *)
Theorem replicated_put_is_local_put {A} `{PS : projectScoped A, !ScopedLaws A}
    `{JA : Json A, !JsonLaws A, RA : Resource A} (kind : Kind) `{!KindOf A kind}
    (r : Raft) (bucket : string) (v : A) w
    (Hname : Meta_Name (getMeta v) ≠ "") (Hkind : kind ≠ "")
    (Hjson : json_ok (final (env w) v))
    (Hop : json_ok (put_op bucket kind (final (env w) v)))
    (Hraft : commits r (put_op bucket kind (final (env w) v))) :
  applyTypedPut (Some r) bucket kind v w = putScoped bucket kind v w.
Proof.
  destruct Hraft as (Hrep & Hlead & Hsub). unfold applyTypedPut, putScoped.
  assert (Hn' : Meta_Name (defaultProject "default" (getMeta v)) ≠ "")
    by (unfold defaultProject; by case_bool_decide).
  rewrite bool_decide_eq_false_2 by done. rewrite Hrep, Hlead. cbn [negb].
  rewrite !(bind_ret_run _ _ _ _ _ (mintMeta_run _ _)). fold (finalMeta (env w) (getMeta v)).
  unfold final, put_op, keyOf in Hsub, Hop, Hjson. rewrite get_set_meta in Hsub, Hop.
  rewrite set_set_meta. set (fm := finalMeta (env w) (getMeta v)) in *.
  unfold Raft_Apply. rewrite Hlead. cbn [negb]. rewrite Hsub.
  unfold FSM_Apply. rewrite dec_enc by exact Hop. unfold fsm_apply. cbn [LogOp_Op LogOp_Bucket
    LogOp_Key LogOp_Kind LogOp_Value LogOp_Project LogOp_Name raw default].
  rewrite decide_True by done. rewrite bool_decide_eq_false_2 by done. rewrite decode_kind by done.
  unfold check, put, mbind, M_bind, from_option, id. destruct (put_raw _ _ _ _) as [[e|] w1|]; done.
Qed.

(** On the leader a replicated delete within a project is the local
    delete. *)
Theorem replicated_delete_is_local_delete (r : Raft) (bucket : string) (kind : Kind)
    (project name : string) w
    (Hproject : project ≠ "")
    (Hop : json_ok (delete_op bucket kind project name))
    (Hraft : commits r (delete_op bucket kind project name)) :
  applyTypedDelete (Some r) bucket kind project name w = localDelete bucket kind project name w.
Proof.
  destruct Hraft as (Hrep & Hlead & Hsub). unfold applyTypedDelete. rewrite Hrep, Hlead. cbn [negb].
  unfold Raft_Apply. rewrite Hlead. cbn [negb]. unfold delete_op in *. rewrite Hsub.
  unfold FSM_Apply. rewrite dec_enc by exact Hop. unfold fsm_apply, localDelete, delete_and_emit.
  cbn [LogOp_Op LogOp_Bucket LogOp_Key LogOp_Kind LogOp_Value LogOp_Project LogOp_Name].
  rewrite decide_False, decide_True by done. by rewrite bool_decide_eq_false_2.
Qed.

(** C17 A follower of a cluster with several voters refuses every typed write
    and delete with [ErrNotLeader] and leaves its store alone. *)
Theorem follower_rejects_writes {A} `{PS : projectScoped A, JA : Json A, RA : Resource A}
    (r : Raft) (servers : nat) (bucket : string) (kind : Kind) (v : A) (project name : string) (w : World)
    (Hservers : raft_servers r = Ok servers) (Hseveral : (1 < servers)%nat) (Hfollower : raft_leader r = false)
    (Hname : Meta_Name (getMeta v) ≠ "") :
  (∃ v', applyTypedPut (Some r) bucket kind v w = Ret (v', Some ErrNotLeader) w) ∧
  applyTypedDelete (Some r) bucket kind project name w = Ret (Some ErrNotLeader) w.
Proof.
  assert (Hrep : shouldReplicate (Some r) = true).
  { cbn. rewrite Hservers. by destruct (Nat.leb_spec servers 1); [lia|]. }
  unfold applyTypedPut, applyTypedDelete. rewrite Hrep, Hfollower. cbn [negb]. split; [|done].
  rewrite bool_decide_eq_false_2 by (unfold defaultProject; by case_bool_decide). by eexists.
Qed.
End Leader.

(** ** The state machine as a function of the contents *)

Abbreviation db_contents := (gmap string (gmap string json)).

(** The answer and the contents an entry leaves; [None] is a panic. *)
Definition apply_contents (data : json) (c : db_contents) : option (option error * db_contents) :=
  match dec data with
  | None => Some (Some (ErrMsg "decode log"), c)
  | Some op =>
    let b := LogOp_Bucket op in let k := LogOp_Key op in
    if decide (LogOp_Op op = "put") then
      match c !! b with
      | None => None
      | Some m =>
        if key_ok k then Some (None, <[b := <[k := default JNull (raw (LogOp_Value op))]> m]> c)
        else Some (Some (key_error k), c)
      end
    else if decide (LogOp_Op op = "delete") then
      match c !! b with
      | None => None
      | Some m => match m !! k with
                  | None => Some (Some ErrNotFound, c)
                  | Some _ => Some (None, <[b := delete k m]> c)
                  end
      end
    else Some (Some (ErrMsg ("unknown op " +:+ LogOp_Op op)), c)
  end.

(** A log replayed from some contents. *)
Definition replay (c : db_contents) (log : list json) : option db_contents :=
  foldl (λ oc data, c ← oc; snd <$> apply_contents data c) (Some c) log.

Section Machine.
Context `{BL : BoltLaws}.
Implicit Types w : World.

Definition wcontents w : db_contents := contents (db w).

Lemma bolt_has_false w b : bucket_map w b = None → bolt_has (db w) b = false.
Proof. intros Hm. rewrite bolt_has_spec. unfold bucket_map in Hm. rewrite Hm. apply bool_decide_eq_false. by intros [? ?]. Qed.

Lemma FSM_Apply_spec data w :
  match apply_contents data (wcontents w) with
  | None => FSM_Apply data w = Panic
  | Some (r, c) => ∃ w', FSM_Apply data w = Ret r w' ∧ wcontents w' = c
  end.
Proof.
  unfold apply_contents, FSM_Apply. destruct (dec data) as [op|]; [|by eexists].
  unfold fsm_apply.
  destruct (decide (LogOp_Op op = "put")); [|destruct (decide (LogOp_Op op = "delete")); [|by eexists]];
    change (wcontents w !! LogOp_Bucket op) with (bucket_map w (LogOp_Bucket op));
    destruct (bucket_map w (LogOp_Bucket op)) as [m|] eqn:Hm.
  - destruct (key_ok (LogOp_Key op)) eqn:Hk.
    + destruct (put_raw_run w _ _ (default JNull (raw (LogOp_Value op))) m Hm Hk) as (d & Hput & Hd).
      eexists. unfold check. rewrite (bind_ret_run _ _ _ _ _ Hput). split; [done|]. exact Hd.
    + eexists. unfold check. rewrite (bind_ret_run _ _ _ _ _ (put_raw_bad_key w _ _ _ (mk_is_Some _ _ Hm) Hk)).
      done.
  - unfold check, mbind, M_bind, put_raw. by rewrite bolt_has_false.
  - pose proof (del_run w _ (LogOp_Key op) m Hm) as Hdel. destruct (m !! LogOp_Key op).
    + destruct Hdel as (d & Hdel & Hd). eexists. unfold check.
      rewrite (bind_ret_run _ _ _ _ _ Hdel). split; [done|]. exact Hd.
    + eexists. unfold check. by rewrite (bind_ret_run _ _ _ _ _ Hdel).
  - unfold check, mbind, M_bind, del. by rewrite bolt_has_false.
Qed.

(** ** Snapshots *)

Definition keys_ok (c : db_contents) : Prop :=
  ∀ b m k j, c !! b = Some m → m !! k = Some j → key_ok k = true.

Lemma dumpBolt_spec d : dumpBolt d = contents d.
Proof.
  unfold dumpBolt. rewrite <-(list_to_map_to_list (contents d)).
  assert (Hnd : NoDup (bolt_buckets d))
    by (rewrite bolt_buckets_perm; apply NoDup_fst_map_to_list).
  apply list_to_map_proper.
  { rewrite <-list_fmap_compose. change (NoDup (id <$> bolt_buckets d)). by rewrite list_fmap_id. }
  rewrite bolt_buckets_perm, <-list_fmap_compose.
  rewrite <-(list_fmap_id (map_to_list (contents d))) at 2.
  apply Permutation_refl', list_fmap_ext. intros i [b m] Hi%list_elem_of_lookup_2.
  apply elem_of_map_to_list in Hi as Hb. cbn. f_equal.
  rewrite <-(list_to_map_to_list m). apply list_to_map_proper.
  - rewrite (bolt_cursor_perm _ _ _ Hb). apply NoDup_fst_map_to_list.
  - by apply bolt_cursor_perm.
Qed.

Lemma put_all_spec b (kvs : list (string * json)) d m :
  contents d !! b = Some m → Forall (λ kv, key_ok kv.1 = true) kvs → NoDup kvs.*1 →
  ∃ d', put_all b kvs d = Ok d' ∧ contents d' = <[b := list_to_map kvs ∪ m]> (contents d).
Proof.
  revert d m. induction kvs as [|[k j] kvs IH]; intros d m Hm.
  { exists d. split; [done|]. rewrite list_to_map_nil, map_empty_union. by rewrite insert_id. }
  rewrite fmap_cons. intros [Hk Hks]%Forall_cons [Hnin Hnd]%NoDup_cons. cbn in *.
  destruct (bolt_put_ok d b k j m Hm Hk) as (d1 & -> & Hd1).
  destruct (IH d1 (<[k := j]> m)) as (d' & -> & Hd'); [by rewrite Hd1, lookup_insert_eq|done|done|].
  exists d'. split; [done|]. rewrite Hd', Hd1, insert_insert_eq.
  f_equal. rewrite <-insert_union_r by by apply not_elem_of_list_to_map_1.
  by rewrite insert_union_l.
Qed.

Lemma restore_buckets_spec (snap : list (string * gmap string json)) d :
  Forall (λ bm, map_Forall (λ k _, key_ok k = true) bm.2) snap → NoDup snap.*1 →
  ∃ d', restore_buckets snap d = Ok d' ∧ contents d' = list_to_map snap ∪ contents d.
Proof.
  revert d. induction snap as [|[b kvs] snap IH]; intros d.
  { exists d. by rewrite list_to_map_nil, map_empty_union. }
  rewrite fmap_cons. intros [Hb Hok]%Forall_cons [Hnin Hnd]%NoDup_cons. cbn in *.
  set (d0 := bolt_create (bolt_drop d b) b).
  assert (Hd0 : contents d0 = <[b := ∅]> (contents d)).
  { unfold d0. by rewrite bolt_create_spec, bolt_drop_spec, lookup_delete_eq, insert_delete_eq. }
  destruct (put_all_spec b (map_to_list kvs) d0 ∅) as (d1 & -> & Hd1).
  { by rewrite Hd0, lookup_insert_eq. }
  { apply Forall_forall. intros [k j] Hkj%elem_of_map_to_list. by apply (Hb k j). }
  { apply NoDup_fst_map_to_list. }
  destruct (IH d1 Hok Hnd) as (d' & -> & Hd'). exists d'. split; [done|].
  rewrite Hd', Hd1, Hd0, insert_insert_eq, list_to_map_to_list, map_union_empty.
  rewrite <-insert_union_r by by apply not_elem_of_list_to_map_1. by rewrite insert_union_l.
Qed.

Lemma Restore_spec (snap : db_contents) w :
  keys_ok snap →
  ∃ w', Restore (Some snap) w = Ret None w' ∧ wcontents w' = snap ∪ wcontents w ∧
        subs w' = subs w ∧ env w' = env w.
Proof.
  intros Hok. unfold Restore, restoreBolt.
  destruct (restore_buckets_spec (map_to_list snap) (db w)) as (d & -> & Hd).
  { apply Forall_forall. intros [b m] Hb%elem_of_map_to_list. intros k j Hk. by eapply Hok. }
  { apply NoDup_fst_map_to_list. }
  eexists. split; [done|]. split; [|done]. unfold wcontents. cbn [db set_db].
  rewrite Hd. f_equal. exact (list_to_map_to_list (M:=gmap string) snap).
Qed.

(** C5 A snapshot taken from one node and restored on another gives the
    second exactly the contents of the first, provided the second has no
    bucket the first lacks; the restore cannot fail. *)
Theorem snapshot_restore_roundtrip (w1 w2 : World)
    (Hkeys : keys_ok (contents (db w1)))
    (Hdom : dom (contents (db w2)) ⊆ dom (contents (db w1))) :
  ∃ snap w2', Snapshot w1 = Ret snap w1 ∧
    Restore (Some snap) w2 = Ret None w2' ∧ contents (db w2') = contents (db w1).
Proof.
  exists (dumpBolt (db w1)).
  destruct (Restore_spec (dumpBolt (db w1)) w2) as (w2' & Hrun & Hc & _); [by rewrite dumpBolt_spec|].
  exists w2'. split_and!; [done|done|]. unfold wcontents in Hc. rewrite Hc, dumpBolt_spec.
  apply map_eq. intros b. rewrite lookup_union. destruct (contents (db w1) !! b) as [m|] eqn:E.
  - by destruct (contents (db w2) !! b).
  - assert (contents (db w2) !! b = None) as ->; [|done].
    apply not_elem_of_dom. apply not_elem_of_dom in E. set_solver.
Qed.

(** ** The cluster *)

Record node := mkNode' { n_world : World; n_applied : nat }.
Record cluster := mkCluster { c_log : list json; c_nodes : list node }.

(** raft agrees on one log; each node applies its entries in order, or takes
    a snapshot of another node's state. *)
Inductive cstep : cluster → cluster → Prop :=
  | step_commit log nodes data :
      cstep (mkCluster log nodes) (mkCluster (log ++ [data]) nodes)
  | step_apply log nodes i n data r w' :
      nodes !! i = Some n → log !! n_applied n = Some data →
      FSM_Apply data (n_world n) = Ret r w' →
      cstep (mkCluster log nodes) (mkCluster log (<[i := mkNode' w' (S (n_applied n))]> nodes))
  | step_install log nodes i j ni nj w' :
      nodes !! i = Some ni → nodes !! j = Some nj →
      Restore (Some (dumpBolt (db (n_world ni)))) (n_world nj) = Ret None w' →
      cstep (mkCluster log nodes) (mkCluster log (<[j := mkNode' w' (n_applied ni)]> nodes)).

(** Freshly opened stores, nothing applied. *)
Definition initial (c : cluster) : Prop :=
  c_log c = [] ∧
  ∀ i n, c_nodes c !! i = Some n →
    n_applied n = O ∧ ∃ d e, contents d = ∅ ∧ n_world n = Open d e.

Definition init_contents : db_contents := list_to_map ((λ b, (b, ∅)) <$> rootBuckets).

Lemma init_contents_lookup b :
  init_contents !! b = if decide (b ∈ rootBuckets) then Some ∅ else None.
Proof.
  unfold init_contents. generalize rootBuckets. intros l.
  induction l as [|x l IH]; [by rewrite decide_False by apply not_elem_of_nil|]. cbn.
  destruct (decide (b = x)) as [->|Hne].
  - rewrite lookup_insert_eq, decide_True; [done|apply list_elem_of_here].
  - rewrite lookup_insert_ne, IH by done. repeat case_decide; set_solver.
Qed.

Lemma Open_contents d e : contents d = ∅ → wcontents (Open d e) = init_contents.
Proof.
  intros Hd. apply map_eq. intros b. unfold wcontents, Open. cbn [db].
  rewrite open_buckets_spec, init_contents_lookup, Hd, lookup_empty. by case_decide.
Qed.

Lemma apply_contents_inv data c r c' :
  apply_contents data c = Some (r, c') → keys_ok c → keys_ok c' ∧ dom c' = dom c.
Proof.
  unfold apply_contents. destruct (dec data) as [op|]; [|naive_solver].
  repeat case_decide; [| |naive_solver];
    destruct (c !! LogOp_Bucket op) as [m|] eqn:Hm; try done.
  - destruct (key_ok (LogOp_Key op)) eqn:Hk; [|naive_solver]. intros [= <- <-] Hc. split.
    + intros b m' k j. rewrite !lookup_insert. case_decide; [|apply Hc].
      intros [= <-]. rewrite lookup_insert. case_decide; [by subst|]. by eapply Hc.
    + apply set_eq. intros b. rewrite dom_insert. apply elem_of_dom_2 in Hm. set_solver.
  - destruct (m !! LogOp_Key op) as [j0|]; [|naive_solver]. intros [= <- <-] Hc. split.
    + intros b m' k j. rewrite !lookup_insert. case_decide; [|apply Hc].
      intros [= <-]. intros [_ Hj]%lookup_delete_Some. by eapply Hc.
    + apply set_eq. intros b. rewrite dom_insert. apply elem_of_dom_2 in Hm. set_solver.
Qed.

(** Every node holds the replay of the prefix it applied. *)
Definition agrees (log : list json) (n : node) : Prop :=
  (n_applied n ≤ length log)%nat ∧
  replay init_contents (take (n_applied n) log) = Some (wcontents (n_world n)) ∧
  keys_ok (wcontents (n_world n)) ∧ dom (wcontents (n_world n)) = dom init_contents.

Definition consistent (c : cluster) : Prop :=
  ∀ i n, c_nodes c !! i = Some n → agrees (c_log c) n.

Lemma replay_snoc c log data :
  replay c (log ++ [data]) = c' ← replay c log; snd <$> apply_contents data c'.
Proof. unfold replay. by rewrite foldl_snoc. Qed.

Lemma initial_consistent c : initial c → consistent c.
Proof.
  intros [Hlog Hn] i n Hi. destruct (Hn i n Hi) as (Ha & d & e & Hd & Hw).
  unfold agrees. rewrite Ha, Hlog, Hw, Open_contents by done. split_and!; [cbn; lia|done| |done].
  intros b m k j. rewrite init_contents_lookup. case_decide; [|done]. by intros [= <-].
Qed.

Lemma consistent_insert log nodes i n' :
  consistent (mkCluster log nodes) → agrees log n' →
  consistent (mkCluster log (<[i := n']> nodes)).
Proof.
  intros Hc Hn' j n Hj. cbn in *. apply list_lookup_insert_Some in Hj as [(<- & -> & _)|[_ Hj]]; [done|].
  by eapply Hc.
Qed.

Lemma step_consistent c c' : cstep c c' → consistent c → consistent c'.
Proof.
  intros [log nodes data|log nodes i n data r w' Hi Hd Hrun|log nodes i j ni nj w' Hi Hj Hrun] Hc.
  - intros i n Hi. destruct (Hc i n Hi) as (Hle & Hr & Hk). cbn [c_log c_nodes] in *. split_and!; try apply Hk.
    + rewrite length_app. lia.
    + by rewrite take_app_le.
  - apply consistent_insert; [done|]. destruct (Hc i n Hi) as (Hle & Hr & Hk & Hdom). cbn [c_log c_nodes] in *.
    pose proof (FSM_Apply_spec data (n_world n)) as Hspec.
    destruct (apply_contents data (wcontents (n_world n))) as [[r' c2]|] eqn:E; [|congruence].
    destruct Hspec as (w1 & Hrun' & Hw1). rewrite Hrun in Hrun'. injection Hrun' as <- <-.
    destruct (apply_contents_inv _ _ _ _ E Hk) as [Hk' Hdom'].
    unfold agrees. cbn [n_applied n_world]. rewrite Hw1. split_and!; [| |done|congruence].
    + by apply lookup_lt_Some in Hd.
    + rewrite (take_S_r _ _ _ Hd), replay_snoc, Hr. cbn. by rewrite E.
  - apply consistent_insert; [done|]. destruct (Hc i ni Hi) as (Hle & Hr & Hk & Hdom).
    destruct (Hc j nj Hj) as (_ & _ & _ & Hdomj). cbn [c_log c_nodes] in *.
    destruct (Restore_spec (dumpBolt (db (n_world ni))) (n_world nj)) as (w1 & Hrun' & Hw1 & _).
    { by rewrite dumpBolt_spec. }
    rewrite Hrun in Hrun'. injection Hrun' as <-.
    assert (wcontents w' = wcontents (n_world ni)) as Hw.
    { rewrite Hw1, dumpBolt_spec. apply map_eq. intros b. rewrite lookup_union.
      fold (wcontents (n_world ni)).
      destruct (wcontents (n_world ni) !! b) eqn:E; [by destruct (wcontents (n_world nj) !! b)|].
      assert (wcontents (n_world nj) !! b = None) as ->; [|done].
      apply not_elem_of_dom. apply not_elem_of_dom in E. congruence. }
    unfold agrees. cbn. by rewrite Hw.
Qed.

Lemma reachable_consistent c c' : rtc cstep c c' → consistent c → consistent c'.
Proof. induction 1; eauto using step_consistent. Qed.

End Machine.

(** ** The single-voter fast path *)

(** A node alone in its cluster, whatever raft would answer. *)
Definition single_voter (submit : json → option error) : Raft := mkRaft (Ok 1%nat) true submit.

(** Node A writes a container while it is the only voter; node B joins with an
    empty store. *)
Definition node_A (submit : json → option error) : World :=
  default demo_world (exec (Replicated.PutContainer (Some (single_voter submit)) demo_web) demo_world).
Definition node_B : World := demo_world.

(** Writes made while a node is the only voter never enter the raft log:
    a node that joins later and has applied the whole (empty) log does not
    have them, so log replay does not bring a joining node up to date. *)
Theorem single_voter_writes_skip_the_log (submit : json → option error) :
  eval (GetContainer "shop" "web") (node_A submit) = Some (Ok demo_stored) ∧
  eval (GetContainer "shop" "web") node_B = Some (Err ErrNotFound) ∧
  replay init_contents [] = Some (contents (db node_B)) ∧
  contents (db (node_A submit)) ≠ contents (db node_B).
Proof.
  repeat split; try (vm_compute; reflexivity).
  intros E. apply (f_equal (λ c, c !! "containers" ≫= (.!! "shop/web"))) in E.
  vm_compute in E. done.
Qed.

(** ** Witnesses *)

Definition keys_okb (c : db_contents) : bool :=
  forallb (λ bm, forallb (λ kv, key_ok kv.1) (map_to_list bm.2)) (map_to_list c).
Definition buckets_inb (c c' : db_contents) : bool :=
  forallb (λ bm, bool_decide (is_Some (c' !! bm.1))) (map_to_list c).

Lemma keys_okb_ok c : keys_okb c = true → keys_ok c.
Proof.
  unfold keys_okb. rewrite forallb_forall. intros Hc bk tbl ky vl Hb Hk.
  specialize (Hc (bk, tbl)). rewrite <-list_elem_of_In, elem_of_map_to_list in Hc.
  specialize (Hc Hb). rewrite forallb_forall in Hc. specialize (Hc (ky, vl)).
  rewrite <-list_elem_of_In, elem_of_map_to_list in Hc. by apply Hc.
Qed.

Lemma buckets_inb_ok c c' : buckets_inb c c' = true → dom c ⊆ dom c'.
Proof.
  unfold buckets_inb. rewrite forallb_forall. intros Hc bk [tbl Hb]%elem_of_dom.
  specialize (Hc (bk, tbl)). rewrite <-list_elem_of_In, elem_of_map_to_list in Hc.
  specialize (Hc Hb). apply elem_of_dom. by apply bool_decide_eq_true in Hc.
Qed.

Definition three_voters : Raft := mkRaft (Ok 3%nat) true (λ _, None).
Definition a_follower : Raft := mkRaft (Ok 3%nat) false (λ _, None).

Lemma replicated_put_is_local_put_witness :
  applyTypedPut (Some three_voters) "containers" KindContainer demo_web demo_world
  = putScoped "containers" KindContainer demo_web demo_world.
Proof.
  refine (replicated_put_is_local_put KindContainer three_voters "containers" demo_web demo_world
            _ _ _ _ _); [done|done|by vm_compute|by vm_compute|done].
Defined.

Lemma replicated_delete_is_local_delete_witness :
  applyTypedDelete (Some three_voters) "containers" KindContainer "shop" "web" demo_world1
  = localDelete "containers" KindContainer "shop" "web" demo_world1.
Proof.
  refine (replicated_delete_is_local_delete three_voters "containers" KindContainer "shop" "web"
            demo_world1 _ _ _); [done|by vm_compute|done].
Defined.

Lemma follower_rejects_writes_witness :
  (∃ v', applyTypedPut (Some a_follower) "containers" KindContainer demo_web demo_world
         = Ret (v', Some ErrNotLeader) demo_world) ∧
  applyTypedDelete (Some a_follower) "containers" KindContainer "shop" "web" demo_world
  = Ret (Some ErrNotLeader) demo_world.
Proof.
  refine (follower_rejects_writes a_follower 3 "containers" KindContainer demo_web "shop" "web"
            demo_world _ _ _ _); [done|lia|done..].
Defined.

Lemma snapshot_restore_roundtrip_witness :
  ∃ snap w2', Snapshot demo_world1 = Ret snap demo_world1 ∧
    Restore (Some snap) demo_world = Ret None w2' ∧
    contents (db w2') = contents (db demo_world1).
Proof.
  refine (snapshot_restore_roundtrip demo_world1 demo_world _ _).
  - apply keys_okb_ok. vm_compute. reflexivity.
  - apply buckets_inb_ok. vm_compute. reflexivity.
Defined.

Definition demo_entry : json := enc (put_op "containers" KindContainer demo_stored).
Definition demo_cluster0 : cluster :=
  mkCluster [] [mkNode' demo_world O; mkNode' demo_world O].
(** Node 0 after applying the entry, node 1 after installing its snapshot. *)
Definition demo_applied : World := default demo_world (exec (FSM_Apply demo_entry) demo_world).
Definition demo_installed : World :=
  default demo_world (exec (Restore (Some (dumpBolt (db demo_applied)))) demo_world).
Definition demo_cluster : cluster :=
  mkCluster [demo_entry] [mkNode' demo_applied 1%nat; mkNode' demo_installed 1%nat].

Lemma demo_applied_run : FSM_Apply demo_entry demo_world = Ret None demo_applied.
Proof. refine (run_eval (FSM_Apply demo_entry) demo_world None _). vm_compute. reflexivity. Qed.

Lemma demo_installed_run :
  Restore (Some (dumpBolt (db demo_applied))) demo_world = Ret None demo_installed.
Proof.
  refine (run_eval (Restore (Some (dumpBolt (db demo_applied)))) demo_world None _).
  vm_compute. reflexivity.
Qed.

Lemma demo_reachable : rtc cstep demo_cluster0 demo_cluster.
Proof.
  eapply rtc_l; [apply (step_commit [] _ demo_entry)|].
  eapply rtc_l.
  { exact (step_apply [demo_entry] [mkNode' demo_world O; mkNode' demo_world O] 0
             (mkNode' demo_world O) demo_entry None demo_applied
             eq_refl eq_refl demo_applied_run). }
  eapply rtc_l; [|apply rtc_refl].
  exact (step_install [demo_entry] [mkNode' demo_applied 1%nat; mkNode' demo_world O] 0 1
           (mkNode' demo_applied 1%nat) (mkNode' demo_world O) demo_installed eq_refl eq_refl demo_installed_run).
Qed.

