(* ===== verification/Singleton.v ===== *)
(** The cluster configuration, the singleton of bucket [cluster]: what
    [GetCluster] and [PutCluster] of store.go promise to the authentication
    manager, the join handshake and the API. *)

From S2P Require Import Prelude GoTime Json Types Bolt Store StoreOps StoreLaws.

Section Singleton.
Context `{BL : BoltLaws}.
Implicit Types w : World.

(** The configuration a node reads: the default one until a first write. *)
Definition config_of w : res ClusterConfig :=
  match stored w "cluster" "config" with
  | None => Ok defaultCluster
  | Some j => match dec j with Some c => Ok c | None => Err ErrUnmarshal end
  end.

Lemma opened_bucket w b : opened w → b ∈ rootBuckets → is_Some (bucket_map w b).
Proof. unfold opened. rewrite Forall_forall. auto. Qed.

Lemma GetCluster_run w : is_Some (bucket_map w "cluster") → GetCluster w = Ret (config_of w) w.
Proof.
  intros [m Hm]. unfold GetCluster, config_of, stored. rewrite Hm.
  rewrite (bind_ret_run _ _ _ _ _ (get_run (A:=ClusterConfig) _ _ _ _ Hm)).
  change (Some m ≫= (.!! "config")) with (m !! "config").
  destruct (m !! "config") as [j|]; [|done].
  destruct (dec (A:=ClusterConfig) j); reflexivity.
Qed.

(** The configuration [PutCluster] writes. *)
Definition stamped (t : time) (c : ClusterConfig) : ClusterConfig :=
  { c with
    ClusterConfig_CreatedAt :=
      if IsZero (ClusterConfig_CreatedAt c) then t else ClusterConfig_CreatedAt c;
    ClusterConfig_UpdatedAt := t }.

Lemma stamped_ok t c : json_ok c → json_ok (stamped t c).
Proof. unfold stamped. destruct c. exact id. Qed.

Lemma PutCluster_run w c :
  is_Some (bucket_map w "cluster") → json_ok c →
  ∃ w', let c' := stamped (clock (env w) (ticks (env w))) c in
        PutCluster c w = Ret (c', None) w' ∧ config_of w' = Ok c' ∧
        (∀ b, b ≠ "cluster" → bucket_map w' b = bucket_map w b) ∧
        is_Some (bucket_map w' "cluster") ∧
        env w' = mkEnv (clock (env w)) (S (ticks (env w))) (uids (env w)) (draws (env w)).
Proof.
  intros [m Hm] Hok. cbn zeta. set (t := clock _ _). set (c' := stamped t c).
  unfold PutCluster.
  assert (Hnow : now w = Ret t (set_env (mkEnv (clock (env w)) (S (ticks (env w))) (uids (env w)) (draws (env w))) w)).
  { done. }
  rewrite (bind_ret_run _ _ _ _ _ Hnow). set (w1 := set_env _ w).
  destruct (put_run w1 "cluster" "config" c' m Hm eq_refl) as (d & Hput & Hd).
  assert (Hc : { (if IsZero (ClusterConfig_CreatedAt c)
                  then { c with ClusterConfig_CreatedAt := t } else c) with ClusterConfig_UpdatedAt := t } = c').
  { unfold c', stamped. destruct c. cbn. by destruct (IsZero _). }
  rewrite Hc, (bind_ret_run _ _ _ _ _ Hput). eexists. split; [done|].
  assert (Hb : bucket_map (set_db d w1) "cluster" = Some (<["config" := enc c']> m)).
  { unfold bucket_map. cbn [db set_db]. by rewrite Hd, lookup_insert_eq. }
  split_and!.
  - unfold config_of, stored, bucket_map in *. cbn [db set_subs set_db] in *.
    rewrite Hb. unfold mbind, option_bind. rewrite lookup_insert_eq, dec_enc; [done|]. by apply stamped_ok.
  - intros b Hne. unfold bucket_map. cbn [db set_subs set_db]. rewrite Hd. by apply lookup_insert_ne.
  - exists (<["config" := enc c']> m). exact Hb.
  - done.
Qed.
End Singleton.
