(* ===== verification/Text.v ===== *)
(** The text and digest functions of Go's standard library the program uses:
    [strings] splitting and trimming, [encoding/hex], [crypto/sha256] and
    [crypto/hmac].  Strings are byte strings. *)

From S2P Require Import Prelude.
From Stdlib Require Import Ascii.

#[local] Arguments String.append : simpl nomatch.

(** ** strings *)

(** [strings.Split s sep] for a one-byte separator. *)
Fixpoint split_on (c : ascii) (s : string) : list string :=
  match s with
  | EmptyString => [""]
  | String a s =>
    if (a =? c)%char then "" :: split_on c s
    else match split_on c s with
         | p :: ps => String a p :: ps
         | [] => [String a ""]
         end
  end.

Fixpoint rev_str_go (s acc : string) : string :=
  match s with EmptyString => acc | String a s => rev_str_go s (String a acc) end.
Definition rev_str (s : string) : string := rev_str_go s "".

Definition has_suffix (s suf : string) : bool := has_prefix (rev_str s) (rev_str suf).
Definition trim_suffix (s suf : string) : string :=
  if has_suffix s suf then take_str (String.length s - String.length suf) s else s.

(** [strings.Contains]. *)
Fixpoint contains_str (s sub : string) : bool :=
  has_prefix s sub || match s with EmptyString => false | String _ s => contains_str s sub end.

(** Lines, each ended by a newline. *)
Definition eol : string := String (ascii_of_N 10) "".
Definition text_lines (ls : list string) : string := foldr (λ l t, l +:+ eol +:+ t) "" ls.

(** A value, or a default for the empty text. *)
Definition orElse (v d : string) : string := if bool_decide (v = "") then d else v.

(** ASCII white space, as [strings.TrimSpace] removes it. *)
Definition is_space (a : ascii) : bool :=
  let n := N_of_ascii a in ((9 <=? n) && (n <=? 13) || (n =? 32))%N.
Fixpoint trim_left_space (s : string) : string :=
  match s with
  | EmptyString => EmptyString
  | String a s' => if is_space a then trim_left_space s' else s
  end.
Definition trim_space (s : string) : string :=
  rev_str (trim_left_space (rev_str (trim_left_space s))).

(** [strings.TrimLeft s c], for one byte. *)
Fixpoint trim_left_byte (c : ascii) (s : string) : string :=
  match s with
  | EmptyString => EmptyString
  | String a s' => if (a =? c)%char then trim_left_byte c s' else s
  end.

(** [strings.LastIndexByte]. *)
Fixpoint last_index_byte (s : string) (c : ascii) : option nat :=
  match s with
  | EmptyString => None
  | String a s =>
    match last_index_byte s c with
    | Some i => Some (S i)
    | None => if (a =? c)%char then Some O else None
    end
  end.

Lemma split_on_no_sep c s : no_byte c s = true → split_on c s = [s].
Proof.
  unfold no_byte. induction s as [|a s IH]; cbn; [done|].
  destruct (a =? c)%char; [done|]. destruct (index_byte s c); [done|].
  intros _. by rewrite IH.
Qed.

Lemma split_on_sep c p s : no_byte c p = true → split_on c (p +:+ String c s) = p :: split_on c s.
Proof.
  unfold no_byte. induction p as [|a p IH]; cbn; [by rewrite Ascii.eqb_refl|].
  destruct (a =? c)%char; [done|]. destruct (index_byte p c); [done|].
  intros _. by rewrite IH.
Qed.

Lemma split_on_nonempty c s : split_on c s ≠ [].
Proof. destruct s as [|a s]; cbn; [done|]. destruct (a =? c)%char, (split_on c s); done. Qed.

(** ** encoding/hex *)

Definition hex_digit (n : N) : ascii := ascii_of_N (if (n <? 10)%N then 48 + n else 87 + n).

Fixpoint hex_encode (s : string) : string :=
  match s with
  | EmptyString => EmptyString
  | String a s =>
    String (hex_digit (N_of_ascii a / 16)) (String (hex_digit (N_of_ascii a mod 16)) (hex_encode s))
  end.

Definition unhex (a : ascii) : option N :=
  let n := N_of_ascii a in
  if ((48 <=? n) && (n <=? 57))%N then Some (n - 48)%N
  else if ((97 <=? n) && (n <=? 102))%N then Some (n - 87)%N
  else if ((65 <=? n) && (n <=? 70))%N then Some (n - 55)%N
  else None.

(** [hex.DecodeString]: [None] on a byte that is no digit or an odd length. *)
Fixpoint hex_decode (s : string) : option string :=
  match s with
  | EmptyString => Some ""
  | String a (String b s) =>
    hi ← unhex a; lo ← unhex b; r ← hex_decode s;
    Some (String (ascii_of_N (16 * hi + lo)) r)
  | String _ EmptyString => None
  end.

Definition all_bytes : list N := N.of_nat <$> seq 0 256.

Lemma byte_cases (P : ascii → bool) :
  forallb (λ n, P (ascii_of_N n)) all_bytes = true → ∀ a, P a = true.
Proof.
  rewrite forallb_forall. intros H a. rewrite <-(ascii_N_embedding a). apply H.
  apply list_elem_of_In, list_elem_of_fmap. exists (N.to_nat (N_of_ascii a)).
  split; [by rewrite N2Nat.id|]. apply elem_of_seq. pose proof (N_ascii_bounded a). lia.
Qed.

Lemma unhex_digits a :
  (hi ← unhex (hex_digit (N_of_ascii a / 16)); lo ← unhex (hex_digit (N_of_ascii a mod 16));
   Some (ascii_of_N (16 * hi + lo))) = Some a.
Proof.
  revert a.
  assert (H : ∀ a, bool_decide ((hi ← unhex (hex_digit (N_of_ascii a / 16));
      lo ← unhex (hex_digit (N_of_ascii a mod 16)); Some (ascii_of_N (16 * hi + lo))) = Some a) = true).
  { apply byte_cases. vm_compute. reflexivity. }
  intros a. specialize (H a). by apply bool_decide_eq_true in H.
Qed.

Lemma hex_decode_encode s : hex_decode (hex_encode s) = Some s.
Proof.
  induction s as [|a s IH]; [done|]. cbn [hex_encode hex_decode].
  pose proof (unhex_digits a) as H. revert H.
  generalize (unhex (hex_digit (N_of_ascii a / 16))), (unhex (hex_digit (N_of_ascii a mod 16))).
  intros [hi|] [lo|]; cbn; try done. rewrite IH. cbn. congruence.
Qed.

(** Hexadecimal text contains only digits, so no separator. *)
Lemma hex_encode_no_byte c s : unhex c = None → no_byte c (hex_encode s) = true.
Proof.
  intros Hc.
  assert (H : ∀ a, bool_decide (unhex (hex_digit (N_of_ascii a / 16)) ≠ None
                              ∧ unhex (hex_digit (N_of_ascii a mod 16)) ≠ None) = true).
  { apply byte_cases. vm_compute. reflexivity. }
  induction s as [|a s IH]; [done|]. unfold no_byte in *. cbn [hex_encode index_byte].
  specialize (H a). apply bool_decide_eq_true in H as [H1 H2].
  destruct (Ascii.eqb_spec (hex_digit (N_of_ascii a / 16)) c) as [<-|_]; [done|].
  destruct (Ascii.eqb_spec (hex_digit (N_of_ascii a mod 16)) c) as [<-|_]; [done|].
  by destruct (index_byte (hex_encode s) c).
Qed.

(** ** crypto/sha256 (FIPS 180-4) *)

Definition bytes_of (s : string) : list Z :=
  (λ a, Z.of_N (N_of_ascii a)) <$> String.list_ascii_of_string s.
Definition of_bytes (l : list Z) : string :=
  String.string_of_list_ascii ((λ z, ascii_of_N (Z.to_N z)) <$> l).

Module SHA256.
Definition w32 (z : Z) : Z := Z.land z 0xffffffff.
Definition add32 (x y : Z) : Z := w32 (x + y).
Definition rotr (n x : Z) : Z := Z.lor (Z.shiftr x n) (w32 (Z.shiftl x (32 - n))).
Definition lxor3 (x y z : Z) : Z := Z.lxor x (Z.lxor y z).
Definition Sigma0 (x : Z) : Z := lxor3 (rotr 2 x) (rotr 13 x) (rotr 22 x).
Definition Sigma1 (x : Z) : Z := lxor3 (rotr 6 x) (rotr 11 x) (rotr 25 x).
Definition sigma0 (x : Z) : Z := lxor3 (rotr 7 x) (rotr 18 x) (Z.shiftr x 3).
Definition sigma1 (x : Z) : Z := lxor3 (rotr 17 x) (rotr 19 x) (Z.shiftr x 10).
Definition Ch (x y z : Z) : Z := Z.lxor (Z.land x y) (Z.land (w32 (Z.lnot x)) z).
Definition Maj (x y z : Z) : Z := lxor3 (Z.land x y) (Z.land x z) (Z.land y z).

(** The constants of FIPS 180-4: the first 32 bits of the fractional parts of
    the cube roots of the first 64 primes, and of the square roots of the
    first 8. *)
Definition prime (n : Z) : bool :=
  forallb (λ d, negb (n mod d =? 0)) (Z.of_nat <$> seq 2 (Z.to_nat (Z.sqrt n) - 1)).
Definition primes : list Z := List.filter prime (Z.of_nat <$> seq 2 310).
(** The integer cube root, bit by bit. *)
Fixpoint cube_root (bits : nat) (r n : Z) : Z :=
  match bits with
  | O => r
  | S b => let r' := r + 2 ^ Z.of_nat b in cube_root b (if r' * r' * r' <=? n then r' else r) n
  end.
Definition K : list Z := Eval vm_compute in (λ p, w32 (cube_root 35 0 (p * 2 ^ 96))) <$> take 64 primes.
Definition H0 : list Z := Eval vm_compute in (λ p, w32 (Z.sqrt (p * 2 ^ 64))) <$> take 8 primes.

(** The message schedule, latest word first. *)
Fixpoint schedule (n : nat) (w : list Z) : list Z :=
  match n with
  | O => w
  | S n =>
    schedule n (add32 (add32 (sigma1 (nth 1 w 0)) (nth 6 w 0))
                      (add32 (sigma0 (nth 14 w 0)) (nth 15 w 0)) :: w)
  end.

Definition round (st : list Z) (kw : Z * Z) : list Z :=
  match st with
  | [a; b; c; d; e; f; g; h] =>
    let t1 := add32 (add32 (add32 h (Sigma1 e)) (add32 (Ch e f g) kw.1)) kw.2 in
    let t2 := add32 (Sigma0 a) (Maj a b c) in
    [add32 t1 t2; a; b; c; add32 d t1; e; f; g]
  | _ => st
  end.

Definition compress (st : list Z) (block : list Z) : list Z :=
  zip_with add32 st (foldl round st (zip K (rev (schedule 48 (rev block))))).

Fixpoint be_words (l : list Z) : list Z :=
  match l with
  | a :: b :: c :: d :: l => ((a * 256 + b) * 256 + c) * 256 + d :: be_words l
  | _ => []
  end.

Definition be_bytes (n : nat) (z : Z) : list Z :=
  (λ i, Z.land (Z.shiftr z (8 * Z.of_nat i)) 255) <$> rev (seq 0 n).

Definition pad (msg : list Z) : list Z :=
  let len := Z.of_nat (length msg) in
  msg ++ [0x80] ++ replicate (Z.to_nat ((55 - len) mod 64)) 0 ++ be_bytes 8 (8 * len).

(** Blocks of sixteen words; [n] bounds their number. *)
Fixpoint blocks (n : nat) (l : list Z) : list (list Z) :=
  match n, l with
  | S n, _ :: _ => take 16 l :: blocks n (drop 16 l)
  | _, _ => []
  end.

Definition digest (msg : list Z) : list Z :=
  let ws := be_words (pad msg) in
  mjoin (be_bytes 4 <$> foldl compress H0 (blocks (length ws) ws)).
End SHA256.

Definition Sum256 (s : string) : string := of_bytes (SHA256.digest (bytes_of s)).

(** ** crypto/hmac with SHA-256 *)

Definition hmac_key (key : string) : list Z :=
  let k := bytes_of (if (64 <? String.length key)%nat then Sum256 key else key) in
  k ++ replicate (64 - length k) 0.
Definition hmac_sha256 (key msg : string) : string :=
  let k := hmac_key key in
  let inner := SHA256.digest ((Z.lxor 0x36 <$> k) ++ bytes_of msg) in
  of_bytes (SHA256.digest ((Z.lxor 0x5c <$> k) ++ inner)).

(** The published test vectors. *)
Example sha256_abc :
  hex_encode (Sum256 "abc") = "ba7816bf8f01cfea414140de5dae2223b00361a396177a9cb410ff61f20015ad".
Proof. vm_compute. reflexivity. Qed.
Example sha256_empty :
  hex_encode (Sum256 "") = "e3b0c44298fc1c149afbf4c8996fb92427ae41e4649b934ca495991b7852b855".
Proof. vm_compute. reflexivity. Qed.
Example sha256_two_blocks :
  hex_encode (Sum256 "abcdbcdecdefdefgefghfghighijhijkijkljklmklmnlmnomnopnopq")
  = "248d6a61d20638b8e5c026930c3e6039a33ce45964ff2167f6ecedd419db06c1".
Proof. vm_compute. reflexivity. Qed.
Example hmac_jefe :
  hex_encode (hmac_sha256 "Jefe" "what do ya want for nothing?")
  = "5bdcc146bf60754e6a042426089575c75a003f089d2739839dec58b964ec3843".
Proof. vm_compute. reflexivity. Qed.

(** ** Lengths *)

Lemma length_hex_encode s : String.length (hex_encode s) = (2 * String.length s)%nat.
Proof. induction s as [|a s IH]; cbn in *; [done|]. rewrite IH. lia. Qed.

Lemma round_length st kw : length st = 8%nat → length (SHA256.round st kw) = 8%nat.
Proof. by destruct st as [|? [|? [|? [|? [|? [|? [|? [|? [|? ?]]]]]]]]]. Qed.

Lemma compress_length st b : length st = 8%nat → length (SHA256.compress st b) = 8%nat.
Proof.
  intros H. unfold SHA256.compress. rewrite length_zip_with.
  assert (Hr : ∀ kws st, length st = 8%nat → length (foldl SHA256.round st kws) = 8%nat).
  { clear. induction kws as [|kw kws IH]; intros st Hst; [done|]. by apply IH, round_length. }
  rewrite Hr by done. lia.
Qed.

Lemma digest_length msg : length (SHA256.digest msg) = 32%nat.
Proof.
  unfold SHA256.digest. generalize (SHA256.blocks (length (SHA256.be_words (SHA256.pad msg)))
    (SHA256.be_words (SHA256.pad msg))). intros bs.
  assert (H : length (foldl SHA256.compress SHA256.H0 bs) = 8%nat).
  { assert (H0 : length SHA256.H0 = 8%nat) by done. revert H0. generalize SHA256.H0.
    induction bs as [|b bs IH]; intros st Hst; [done|]. by apply IH, compress_length. }
  destruct (foldl _ _ _) as [|? [|? [|? [|? [|? [|? [|? [|? [|? ?]]]]]]]]]; done.
Qed.

Lemma length_string_of_list l : String.length (String.string_of_list_ascii l) = length l.
Proof. induction l; cbn; congruence. Qed.

Lemma Sum256_length s : String.length (Sum256 s) = 32%nat.
Proof. unfold Sum256, of_bytes. by rewrite length_string_of_list, length_fmap, digest_length. Qed.
