(* ===== verification/Cipher.v ===== *)
(** AES-256-GCM, the cipher internal/secrets/cipher.go takes from Go's
    crypto/aes and crypto/cipher, on byte strings: 32-byte keys, 12-byte
    nonces, no additional data.  [gcm_open_seal] is the fact the secret
    manager relies on. *)

From Stdlib Require Import Ascii.
From S2P Require Import Prelude Text.

(** ** AES-256 (FIPS 197) *)

Module AES.
(** Multiplication in GF(2^8), eight shift-and-add steps. *)
Definition xtime (x : Z) : Z := Z.land (Z.lxor (2 * x) (if Z.testbit x 7 then 0x1b else 0)) 255.
Fixpoint gmul (n : nat) (x y : Z) : Z :=
  match n with
  | O => 0
  | S n => Z.lxor (if Z.odd y then x else 0) (gmul n (xtime x) (y / 2))
  end.
Definition mul (x y : Z) : Z := gmul 8 x y.
(** The inverse is the 254th power. *)
Definition inverse (x : Z) : Z :=
  let sq y := mul y y in
  let x2 := sq x in let x4 := sq x2 in let x8 := sq x4 in let x16 := sq x8 in
  let x32 := sq x16 in let x64 := sq x32 in let x128 := sq x64 in
  mul x2 (mul x4 (mul x8 (mul x16 (mul x32 (mul x64 x128))))).
Definition rotl8 (n x : Z) : Z := Z.land (Z.lor (Z.shiftl x n) (Z.shiftr x (8 - n))) 255.
Definition affine (x : Z) : Z :=
  Z.lxor 0x63 (Z.lxor x (Z.lxor (rotl8 1 x) (Z.lxor (rotl8 2 x) (Z.lxor (rotl8 3 x) (rotl8 4 x))))).
Definition sbox_table : list Z := Eval vm_compute in (λ n, affine (inverse (Z.of_nat n))) <$> seq 0 256.
Definition sbox (x : Z) : Z := nth (Z.to_nat x) sbox_table 0.

Definition xor_list (a b : list Z) : list Z := zip_with Z.lxor a b.

Definition shift_rows (st : list Z) : list Z :=
  (λ i, nth i st 0) <$> [0; 5; 10; 15; 4; 9; 14; 3; 8; 13; 2; 7; 12; 1; 6; 11]%nat.

Fixpoint mix_columns (st : list Z) : list Z :=
  match st with
  | a :: b :: c :: d :: st =>
    let x4 w x y z := Z.lxor (xtime w) (Z.lxor (Z.lxor (xtime x) x) (Z.lxor y z)) in
    x4 a b c d :: x4 b c d a :: x4 c d a b :: x4 d a b c :: mix_columns st
  | _ => []
  end.

Definition sub_word (w : list Z) : list Z := sbox <$> w.
Definition rot_word (w : list Z) : list Z :=
  match w with [a; b; c; d] => [b; c; d; a] | _ => w end.

(** Words [i] onwards, the latest first. *)
Fixpoint expand (n i : nat) (rcon : Z) (ws : list (list Z)) : list (list Z) :=
  match n with
  | O => ws
  | S n =>
    let prev := nth 0 ws [] in
    let temp :=
      if (i mod 8 =? 0)%nat then xor_list (sub_word (rot_word prev)) [rcon; 0; 0; 0]
      else if (i mod 8 =? 4)%nat then sub_word prev else prev in
    expand n (S i) (if (i mod 8 =? 0)%nat then xtime rcon else rcon) (xor_list (nth 7 ws []) temp :: ws)
  end.

Fixpoint chunks (k n : nat) (l : list Z) : list (list Z) :=
  match n with O => [] | S n => take k l :: chunks k n (drop k l) end.

Definition round_keys (key : list Z) : list (list Z) :=
  chunks 16 15 (mjoin (rev (expand 52 8 1 (rev (chunks 4 8 key))))).

Fixpoint rounds (ks : list (list Z)) (st : list Z) : list Z :=
  match ks with
  | [] => st
  | [k] => xor_list (shift_rows (sbox <$> st)) k
  | k :: ks => rounds ks (xor_list (mix_columns (shift_rows (sbox <$> st))) k)
  end.

Definition encrypt (ks : list (list Z)) (block : list Z) : list Z :=
  match ks with [] => block | k :: ks => rounds ks (xor_list block k) end.
End AES.

(** ** Galois/counter mode (SP 800-38D) *)

Module GCM.
Definition R : Z := Z.shiftl 0xe1 120.
(** Multiplication in GF(2^128); bit 0 is the most significant. *)
Fixpoint gf_mul (n : nat) (x v z : Z) : Z :=
  match n with
  | O => z
  | S n => gf_mul n x (if Z.odd v then Z.lxor (v / 2) R else v / 2)
             (if Z.testbit x (Z.of_nat n) then Z.lxor z v else z)
  end.

Fixpoint be_num (acc : Z) (l : list Z) : Z :=
  match l with [] => acc | b :: l => be_num (256 * acc + b) l end.

Definition ghash (h : Z) (blocks : list Z) : Z :=
  foldl (λ y x, gf_mul 128 (Z.lxor y x) h 0) 0 blocks.

(** Sixteen-byte blocks of a text padded with zeros. *)
Definition pad16 (l : list Z) : list Z :=
  let n := ((length l + 15) / 16)%nat in
  be_num 0 <$> AES.chunks 16 n (l ++ replicate (16 * n - length l) 0).

Definition counter_block (nonce : list Z) (n : Z) : list Z := nonce ++ SHA256.be_bytes 4 n.

Definition keystream (ks : list (list Z)) (nonce : list Z) (len : nat) : string :=
  of_bytes (mjoin ((λ i, AES.encrypt ks (counter_block nonce (2 + Z.of_nat i)))
                     <$> seq 0 ((len + 15) / 16))).

Definition tag (ks : list (list Z)) (nonce ct : list Z) : string :=
  let h := be_num 0 (AES.encrypt ks (replicate 16 0)) in
  let s := ghash h (pad16 ct ++ [8 * Z.of_nat (length ct)]) in
  of_bytes (SHA256.be_bytes 16 (Z.lxor s (be_num 0 (AES.encrypt ks (counter_block nonce 1))))).

Definition xor_byte (a b : ascii) : ascii :=
  match a, b with
  | Ascii a0 a1 a2 a3 a4 a5 a6 a7, Ascii b0 b1 b2 b3 b4 b5 b6 b7 =>
    Ascii (xorb a0 b0) (xorb a1 b1) (xorb a2 b2) (xorb a3 b3)
          (xorb a4 b4) (xorb a5 b5) (xorb a6 b6) (xorb a7 b7)
  end.

Fixpoint xor_str (s ks : string) : string :=
  match s, ks with
  | String a s, String k ks => String (xor_byte a k) (xor_str s ks)
  | _, _ => s
  end.

Definition seal (key nonce plaintext : string) : string :=
  let ks := AES.round_keys (bytes_of key) in
  let ct := xor_str plaintext (keystream ks (bytes_of nonce) (String.length plaintext)) in
  ct +:+ tag ks (bytes_of nonce) (bytes_of ct).

Definition open (key nonce sealed : string) : option string :=
  let n := (String.length sealed - 16)%nat in
  let ks := AES.round_keys (bytes_of key) in
  let ct := take_str n sealed in
  if (String.length sealed <? 16)%nat then None
  else if bool_decide (drop_str n sealed = tag ks (bytes_of nonce) (bytes_of ct)) then
    Some (xor_str ct (keystream ks (bytes_of nonce) (String.length ct)))
  else None.
End GCM.

(** Published test vectors (cases 13 and 14 of the GCM specification). *)
Definition zeros (n : nat) : string := of_bytes (replicate n 0).
Example gcm_case_13 :
  hex_encode (GCM.seal (zeros 32) (zeros 12) "") = "530f8afbc74536b9a963b4f1c4cb738b".
Proof. vm_compute. reflexivity. Qed.
Example gcm_case_14 :
  hex_encode (GCM.seal (zeros 32) (zeros 12) (zeros 16))
  = "cea7403d4d606b6e074ec5d3baf39d18d0d1c8a799996bf0265b98b5d48ab919".
Proof. vm_compute. reflexivity. Qed.

(** ** Authenticated encryption *)

Lemma xor_str_length s ks : String.length (GCM.xor_str s ks) = String.length s.
Proof. revert ks. induction s as [|a s IH]; intros [|k ks]; cbn; auto. Qed.

Lemma xor_byte_involutive a k : GCM.xor_byte (GCM.xor_byte a k) k = a.
Proof. destruct a, k. cbn. by rewrite !xorb_assoc, !xorb_nilpotent, !xorb_false_r. Qed.

Lemma xor_str_involutive s ks : GCM.xor_str (GCM.xor_str s ks) ks = s.
Proof.
  revert ks. induction s as [|a s IH]; intros [|k ks]; cbn; try done.
  by rewrite xor_byte_involutive, IH.
Qed.

Lemma tag_length ks nonce ct : String.length (GCM.tag ks nonce ct) = 16%nat.
Proof. unfold GCM.tag, of_bytes. by rewrite length_string_of_list, length_fmap. Qed.

(** Opening succeeds exactly on what sealing the result gives: nothing else
    authenticates. *)
Lemma gcm_open_seal key nonce sealed p :
  GCM.open key nonce sealed = Some p ↔ sealed = GCM.seal key nonce p.
Proof.
  unfold GCM.open, GCM.seal. set (ks := AES.round_keys _). set (nc := bytes_of nonce). split.
  - destruct (Nat.ltb_spec (String.length sealed) 16); [done|]. case_bool_decide as Ht; [|done].
    intros [= <-]. rewrite xor_str_length, xor_str_involutive.
    by rewrite <-Ht, take_drop_str.
  - intros ->. set (ct := GCM.xor_str p _).
    pose proof (tag_length ks nc (bytes_of ct)) as Hl.
    assert (Hn : (String.length (ct +:+ GCM.tag ks nc (bytes_of ct)) - 16)%nat = String.length ct).
    { rewrite length_app_str. lia. }
    rewrite Hn, take_str_app, drop_str_app.
    destruct (Nat.ltb_spec (String.length (ct +:+ GCM.tag ks nc (bytes_of ct))) 16).
    { rewrite length_app_str in *. lia. }
    rewrite bool_decide_eq_true_2 by done. unfold ct at 1 2.
    by rewrite xor_str_length, xor_str_involutive.
Qed.
