(* ===== verification/Random.v ===== *)
(** crypto/rand: the [n]-th read of the random source fills a buffer of the
    asked length, or fails. *)

From Stdlib Require Import Ascii.
From S2P Require Import Prelude GoTime Json Types Bolt Store Text.

Class Random := rand_read : nat → nat → res string.
Class RandomLaws `{Random} :=
  rand_read_length n len b : rand_read n len = Ok b → String.length b = len.

(** [rand.Read] into a fresh buffer. *)
Definition rand_bytes `{Random, Bolt} (len : nat) : M World (res string) := λ w,
  let e := env w in
  Ret (rand_read (draws e) len) (set_env (mkEnv (clock e) (ticks e) (uids e) (S (draws e))) w).

(** Hexadecimal text survives [json.Marshal]. *)
Lemma hex_ascii s : ascii_text (hex_encode s) = true.
Proof.
  assert (Hd : ∀ a, byte_in 0 0x7F (hex_digit (N_of_ascii a / 16))
                    && byte_in 0 0x7F (hex_digit (N_of_ascii a mod 16)) = true).
  { apply byte_cases. vm_compute. reflexivity. }
  induction s as [|a s IH]; [done|]. specialize (Hd a). apply andb_true_iff in Hd as [D1 D2].
  unfold ascii_text in *. cbn [hex_encode String.list_ascii_of_string forallb].
  by rewrite D1, D2, IH.
Qed.

Lemma hex_json_ok s : json_okb (hex_encode s) = true.
Proof. cbn. apply bool_decide_eq_true, utf8_ascii, hex_ascii. Qed.

(** The source of the concrete runs: each read is one byte repeated. *)
Module DemoRandom.
#[export] Instance demo_random : Random := λ n len,
  Ok (of_bytes (replicate len (Z.of_nat n mod 256))).
#[export] Instance demo_random_laws : RandomLaws.
Proof.
  intros n len b [= <-]. unfold of_bytes.
  by rewrite length_string_of_list, length_fmap, length_replicate.
Qed.
End DemoRandom.
