(* ===== verification/Auth.v ===== *)
(** Authentication (internal/auth/auth.go): password and token hashing, the
    one-time bootstrap token, users, API tokens and sessions.

    argon2 is third-party, hence the parameter of class [Crypto]; SHA-256 is
    computed. *)

From Stdlib Require Import Ascii.
From S2P Require Import Prelude GoTime Json Types Bolt Store StoreOps StoreLaws Table Singleton Text Random.

Class Crypto := {
  (** [argon2.IDKey password salt time memory threads keyLen] *)
  argon2_IDKey : string → string → Z → Z → Z → nat → string;
}.

Class CryptoLaws `{Crypto} := {
  argon2_length p s t m th len : (0 < len)%nat → String.length (argon2_IDKey p s t m th len) = len;
}.

Definition ErrInvalidCredentials : error := ErrMsg "invalid credentials".
Definition ErrTokenExpired : error := ErrMsg "token expired".

Definition HashToken (plain : string) : string := hex_encode (Sum256 plain).

Record Identity := mkIdentity {
  Identity_UserID : string;
  Identity_Email : string;
  Identity_IsAdmin : bool;
  Identity_Token : string;   (** empty for bootstrap auth *)
}.

(** [diff |= got[i] ^ want[i]] over two slices of the same length. *)
Definition xor_diff (got want : string) : N :=
  foldl (λ diff gw, N.lor diff (N.lxor (N_of_ascii gw.1) (N_of_ascii gw.2))) 0%N
    (zip (String.list_ascii_of_string got) (String.list_ascii_of_string want)).

Section Auth.
Context `{Crypto} `{Random} `{Bolt}.

Definition GenerateToken : M World (res string) :=
  b ←! rand_bytes 32;
  mret (Ok ("sct_" +:+ hex_encode b)).

Definition encodePassword (salt hash : string) : string :=
  "$argon2id$v=19$m=65536,t=3,p=2$" +:+ hex_encode salt +:+ "$" +:+ hex_encode hash.

Definition HashPassword (plain : string) : M World (res string) :=
  salt ←! rand_bytes 16;
  mret (Ok (encodePassword salt (argon2_IDKey plain salt 3 65536 2 32))).

Definition VerifyPassword (plain encoded : string) : bool :=
  match split_on "$" encoded with
  | [_; alg; _; _; s; h] =>
    bool_decide (alg = "argon2id") &&
    match hex_decode s, hex_decode h with
    | Some salt, Some want =>
      let got := argon2_IDKey plain salt 3 65536 2 (String.length want) in
      (String.length got =? String.length want)%nat && (xor_diff got want =? 0)%N
    | _, _ => false
    end
  | _ => false
  end.

(** ** The bootstrap token *)

Definition CreateBootstrapToken : M World (res string) :=
  plain ←! GenerateToken;
  cfg ←! GetCluster;
  r ← PutCluster { cfg with ClusterConfig_BootstrapToken := HashToken plain };
  mret match r.2 with Some e => Err e | None => Ok plain end.

(** The two checks [VerifyBootstrapToken] and [ConsumeBootstrapToken] share. *)
Definition bootstrapMatches (cfg : ClusterConfig) (plain : string) : bool :=
  negb (bool_decide (ClusterConfig_BootstrapToken cfg = "")) &&
  bool_decide (HashToken plain = ClusterConfig_BootstrapToken cfg).

Definition VerifyBootstrapToken (plain : string) : M World (option error) :=
  r ← GetCluster;
  mret match r with
       | Err e => Some e
       | Ok cfg => if bootstrapMatches cfg plain then None else Some ErrInvalidCredentials
       end.

Definition ConsumeBootstrapToken (plain : string) : M World (option error) :=
  r ← GetCluster;
  match r with
  | Err e => mret (Some e)
  | Ok cfg =>
    if bootstrapMatches cfg plain then
      r ← PutCluster { cfg with ClusterConfig_BootstrapToken := "";
                                ClusterConfig_Initialized := true };
      mret r.2
    else mret (Some ErrInvalidCredentials)
  end.

(** ** Users and tokens *)

Definition system_meta (name : string) : Meta :=
  { (zero (A:=Meta)) with Meta_Project := "system"; Meta_Name := name }.

Definition CreateUser (name email password : string) (admin : bool) : M World (res User) :=
  hash ←! HashPassword password;
  r ← PutUser { (zero (A:=User)) with
                User_Meta := system_meta name; User_Email := email;
                User_PasswordHash := hash; User_IsAdmin := admin };
  mret match r with
       | (_, Some e) => Err e
       | (u, None) => Ok { u with User_PasswordHash := "" }
       end.

Definition newToken (name userID plain : string) (expires : time) (admin : bool) : Token :=
  mkToken (system_meta name) userID (HashToken plain) plain expires admin.

(** [ttl] is a [time.Duration] in nanoseconds. *)
Definition CreateToken (name userID : string) (ttl : Z) (admin : bool) : M World (res Token) :=
  plain ←! GenerateToken;
  expires ← (if 0 <? ttl then t ← now; mret (Add t ttl) else mret zero_time);
  r ← PutToken (newToken name userID plain expires admin);
  mret match r with
       | (_, Some e) => Err e
       | (t, None) => Ok t
       end.

Definition identityOf (t : Token) : Identity :=
  mkIdentity (Token_UserID t) "" (Token_IsAdmin t) (Meta_Name (Token_Meta t)).

Definition ResolveToken (plain : string) : M World (res Identity) :=
  r ← GetTokenByHash (HashToken plain);
  match r with
  | Err _ => mret (Err ErrInvalidCredentials)
  | Ok t =>
    expired ← (if negb (IsZero (Token_ExpiresAt t)) then
                 t0 ← now; mret (After t0 (Token_ExpiresAt t))
               else mret false);
    mret (if expired : bool then Err ErrTokenExpired else Ok (identityOf t))
  end.

Definition sessionTTL : Z := 30 * 24 * Hour.

Definition Login (email password : string) : M World (res (Token * User)) :=
  r ← GetUserByEmail email;
  match r with
  | Err _ => mret (Err ErrInvalidCredentials)
  | Ok u =>
    if VerifyPassword password (User_PasswordHash u) then
      t ← now;
      tok ←! CreateToken ("session-" +:+ itoa (Unix t)) (Meta_Name (User_Meta u)) sessionTTL (User_IsAdmin u);
      t ← now;
      r ← PutUser { u with User_LastLoginAt := t };
      mret (Ok (tok, { r.1 with User_PasswordHash := "" }))
    else mret (Err ErrInvalidCredentials)
  end.
End Auth.
