(* ===== verification/AuthProps.v ===== *)
(** What the authentication manager guarantees: stored passwords and tokens
    verify exactly the secret they were made from, the bootstrap token works
    until it is consumed and never after, and when a session survives. *)

From Stdlib Require Import Ascii.
From S2P Require Import Prelude GoTime Json Types Bolt Store StoreOps StoreLaws Table StoreProps Singleton Text Random Auth.
Export DemoRandom.

#[local] Arguments String.append : simpl nomatch.

(** ** Constant-time comparison *)

Lemma lor_eq_0 a b : N.lor a b = 0%N ↔ a = 0%N ∧ b = 0%N.
Proof. split; [apply N.lor_eq_0_iff|by intros [-> ->]]. Qed.

Lemma foldl_lor_0 (l : list (ascii * ascii)) d :
  foldl (λ diff gw, N.lor diff (N.lxor (N_of_ascii gw.1) (N_of_ascii gw.2))) d l = 0%N ↔
  d = 0%N ∧ Forall (λ gw, gw.1 = gw.2) l.
Proof.
  revert d. induction l as [|[g w] l IH]; intros d; cbn [foldl].
  - split; [by intros ->|by intros [-> _]].
  - rewrite IH, lor_eq_0, N.lxor_eq_0_iff, Forall_cons. cbn.
    assert (N_of_ascii g = N_of_ascii w ↔ g = w) as ->; [|tauto].
    split; [|by intros ->]. intros E.
    by rewrite <-(ascii_N_embedding g), <-(ascii_N_embedding w), E.
Qed.

Lemma xor_diff_eq (got want : string) :
  String.length got = String.length want → (xor_diff got want =? 0)%N = bool_decide (got = want).
Proof.
  intros Hl. apply eq_bool_prop_intro. rewrite !Is_true_true, N.eqb_eq, bool_decide_eq_true.
  unfold xor_diff. rewrite foldl_lor_0. revert want Hl.
  induction got as [|g got IH]; intros [|w want] Hl; try done; cbn in *.
  rewrite Forall_cons. cbn. split.
  - intros (_ & -> & Hr). f_equal. apply IH; [congruence|done].
  - intros [= -> ->]. split; [done|]. split; [done|]. by apply (IH want).
Qed.

Section Props.
Context `{Crypto, CL : !CryptoLaws} `{Random} `{BL : BoltLaws}.
Implicit Types w : World.

Lemma split_password salt hash :
  split_on "$" (encodePassword salt hash) =
    [""; "argon2id"; "v=19"; "m=65536,t=3,p=2"; hex_encode salt; hex_encode hash].
Proof.
  unfold encodePassword. change (split_on "$" ("$argon2id$v=19$m=65536,t=3,p=2$" +:+ ?x))
    with ("" :: "argon2id" :: "v=19" :: "m=65536,t=3,p=2" :: split_on "$" x).
  change ("$" +:+ hex_encode hash) with (String "$" (hex_encode hash)).
  rewrite split_on_sep by by apply hex_encode_no_byte.
  by rewrite split_on_no_sep by by apply hex_encode_no_byte.
Qed.

Lemma VerifyPassword_encoded plain salt hash :
  (0 < String.length hash)%nat →
  VerifyPassword plain (encodePassword salt hash) =
    bool_decide (argon2_IDKey plain salt 3 65536 2 (String.length hash) = hash).
Proof.
  intros Hl. unfold VerifyPassword. rewrite split_password, !hex_decode_encode.
  rewrite bool_decide_eq_true_2 by done. rewrite argon2_length by done.
  rewrite Nat.eqb_refl. cbn [andb]. rewrite xor_diff_eq; [done|]. by apply argon2_length.
Qed.

(** A hashed password verifies the password it was made from, and another
    one only when argon2id maps both to the same key under the stored salt:
    the parsing of the encoded form and the constant-time loop add no other
    acceptance. *)
Theorem password_roundtrip (plain other encoded : string) (w w' : World)
    (Hrun : HashPassword plain w = Ret (Ok encoded) w') :
  VerifyPassword plain encoded = true ∧
  ∃ salt, rand_read (draws (env w)) 16 = Ok salt ∧
    (VerifyPassword other encoded = true ↔
     argon2_IDKey other salt 3 65536 2 32 = argon2_IDKey plain salt 3 65536 2 32).
Proof.
  unfold HashPassword, try_bind, rand_bytes, mbind, M_bind in Hrun.
  destruct (rand_read (draws (env w)) 16) as [salt|e] eqn:Hs; [|done].
  injection Hrun as <- _.
  assert (Hlen : String.length (argon2_IDKey plain salt 3 65536 2 32) = 32%nat)
    by by apply argon2_length; lia.
  rewrite VerifyPassword_encoded by (rewrite Hlen; lia). rewrite Hlen.
  split; [by apply bool_decide_eq_true|]. exists salt. split; [done|].
  rewrite VerifyPassword_encoded by (rewrite Hlen; lia). by rewrite Hlen, bool_decide_eq_true.
Qed.

(** ** The bootstrap token *)

Lemma HashToken_nonempty plain : HashToken plain ≠ "".
Proof.
  intros E. apply (f_equal String.length) in E. unfold HashToken in E.
  by rewrite length_hex_encode, Sum256_length in E.
Qed.

Lemma with_bootstrap_ok cfg tok :
  json_ok cfg → json_okb tok = true → json_ok { cfg with ClusterConfig_BootstrapToken := tok }.
Proof. unfold json_ok. destruct cfg. cbn. rewrite !andb_true_iff. tauto. Qed.

Lemma consumed_ok cfg :
  json_ok cfg →
  json_ok { cfg with ClusterConfig_BootstrapToken := ""; ClusterConfig_Initialized := true }.
Proof. unfold json_ok. destruct cfg. cbn. rewrite !andb_true_iff. tauto. Qed.

Lemma bootstrapMatches_set cfg plain other :
  bootstrapMatches { cfg with ClusterConfig_BootstrapToken := HashToken plain } other
  = bool_decide (HashToken other = HashToken plain).
Proof.
  unfold bootstrapMatches.
  assert (ClusterConfig_BootstrapToken { cfg with ClusterConfig_BootstrapToken := HashToken plain }
          = HashToken plain) as -> by by destruct cfg.
  by rewrite (bool_decide_eq_false_2 _ (HashToken_nonempty plain)).
Qed.

Lemma bootstrapMatches_stamped t cfg other :
  bootstrapMatches (stamped t cfg) other = bootstrapMatches cfg other.
Proof. by destruct cfg. Qed.

(** C18 The bootstrap token is one-time: once issued it verifies any number
    of times and no token with another digest is accepted; consuming it marks
    the cluster initialized, and from then on neither it nor any other token
    verifies or can be consumed again. *)
Theorem bootstrap_token_is_one_time (w w1 : World) (cfg : ClusterConfig) (plain : string)
    (Hb : is_Some (bucket_map w "cluster")) (Hcfg : config_of w = Ok cfg) (Hok : json_ok cfg)
    (Hrun : CreateBootstrapToken w = Ret (Ok plain) w1) :
  VerifyBootstrapToken plain w1 = Ret None w1 ∧
  (∀ other, HashToken other ≠ HashToken plain →
     VerifyBootstrapToken other w1 = Ret (Some ErrInvalidCredentials) w1 ∧
     ConsumeBootstrapToken other w1 = Ret (Some ErrInvalidCredentials) w1) ∧
  ∃ w2 cfg2, ConsumeBootstrapToken plain w1 = Ret None w2 ∧
    config_of w2 = Ok cfg2 ∧ ClusterConfig_Initialized cfg2 = true ∧
    ∀ p, VerifyBootstrapToken p w2 = Ret (Some ErrInvalidCredentials) w2 ∧
         ConsumeBootstrapToken p w2 = Ret (Some ErrInvalidCredentials) w2.
Proof.
  unfold CreateBootstrapToken, GenerateToken, try_bind, rand_bytes in Hrun.
  unfold mbind, M_bind in Hrun. destruct (rand_read _ _) as [b|e]; [|done].
  cbn [mret M_ret] in Hrun. set (w0 := set_env _ w) in Hrun.
  rewrite (GetCluster_run w0 Hb) in Hrun. change (config_of w0) with (config_of w) in Hrun.
  rewrite Hcfg in Hrun. set (p := "sct_" +:+ hex_encode b) in Hrun.
  destruct (PutCluster_run w0 { cfg with ClusterConfig_BootstrapToken := HashToken p } Hb) as
    (w1' & Hput & Hcfg1 & _ & Hb1 & _).
  { apply with_bootstrap_ok; [done|apply hex_json_ok]. }
  rewrite Hput in Hrun. injection Hrun as <- <-. cbn zeta in Hcfg1. set (c1 := stamped _ _) in Hcfg1.
  assert (Hm : ∀ other, bootstrapMatches c1 other = bool_decide (HashToken other = HashToken p)).
  { intros other. unfold c1. by rewrite bootstrapMatches_stamped, bootstrapMatches_set. }
  assert (Hok1 : json_ok c1).
  { apply stamped_ok, with_bootstrap_ok; [done|apply hex_json_ok]. }
  clearbody c1. clear Hput.
  unfold VerifyBootstrapToken, ConsumeBootstrapToken, mbind, M_bind.
  rewrite (GetCluster_run w1' Hb1), Hcfg1, Hm, bool_decide_eq_true_2 by done.
  split; [done|]. split.
  { intros other Hne. by rewrite Hm, bool_decide_eq_false_2 by done. }
  destruct (PutCluster_run w1' { c1 with ClusterConfig_BootstrapToken := "";
                                         ClusterConfig_Initialized := true } Hb1)
    as (w2 & Hput & Hcfg2 & _ & Hb2 & _); [by apply consumed_ok|].
  rewrite Hput. do 2 eexists. split; [done|]. split; [exact Hcfg2|]. split; [by destruct c1|].
  intros q. rewrite (GetCluster_run w2 Hb2), Hcfg2.
  by destruct c1.
Qed.

(** ** API tokens *)

Lemma GetTokenByHash_run w (t : gmap (string * string) Token) h tok k :
  Represents w "tokens" t → t !! k = Some tok → Token_HashHex tok = h →
  (∀ k' tok', t !! k' = Some tok' → Token_HashHex tok' = h → k' = k) →
  GetTokenByHash h w = Ret (Ok tok) w.
Proof.
  intros HR Hk Hh Huniq. unfold GetTokenByHash, try_bind.
  destruct (table_scan w "tokens" t HR) as (raws & Hl & Hperm & _).
  rewrite (bind_ret_run _ _ _ _ _ Hl). set (l := decode_all raws) in *.
  assert (Hin : ∀ x, x ∈ l ↔ ∃ k', t !! k' = Some x).
  { intros x. rewrite Hperm, list_elem_of_fmap. split.
    - intros ([k' x'] & -> & Hx%elem_of_map_to_list). eauto.
    - intros [k' Hx]. exists (k', x). by rewrite elem_of_map_to_list. }
  destruct (list_find (λ t, Token_HashHex t = h) l) as [[i x]|] eqn:E.
  - apply list_find_Some in E as (Hi & Hx & _). apply list_elem_of_lookup_2, Hin in Hi as [k' Hk'].
    rewrite (Huniq k' x Hk' Hx), Hk in Hk'. by injection Hk' as ->.
  - apply list_find_None in E. rewrite Forall_forall in E. exfalso.
    apply (E tok); [|done]. apply Hin. eauto.
Qed.

Lemma GetTokenByHash_absent w (t : gmap (string * string) Token) h :
  Represents w "tokens" t → (∀ k tok, t !! k = Some tok → Token_HashHex tok ≠ h) →
  GetTokenByHash h w = Ret (Err ErrNotFound) w.
Proof.
  intros HR Hno. unfold GetTokenByHash, try_bind.
  destruct (table_scan w "tokens" t HR) as (raws & Hl & Hperm & _).
  rewrite (bind_ret_run _ _ _ _ _ Hl). cbn beta. rewrite (proj2 (list_find_None _ _)); [done|].
  rewrite Hperm. apply Forall_forall. intros x ([k x'] & -> & Hx%elem_of_map_to_list)%list_elem_of_fmap.
  by eapply Hno.
Qed.

(** The token [PutToken] returns and the one it stores. *)
Definition minted_token (e : Env) (tk : Token) : Token :=
  { tk with Token_Meta := minted e (Token_Meta tk) }.
Definition hide_plaintext (tk : Token) : Token := { tk with Token_Plaintext := "" }.

Lemma minted_hidden_ok e name userID plain expires admin :
  json_okb name = true → json_okb userID = true → json_okb (uids e (draws e)) = true →
  json_ok (hide_plaintext (minted_token e (newToken name userID plain expires admin))).
Proof.
  intros Hn Hu Hid.
  assert (Hh : json_okb (HashToken plain) = true) by apply hex_json_ok.
  revert Hh. unfold hide_plaintext, minted_token, newToken. generalize (HashToken plain).
  intros h Hh. unfold json_ok. cbn -[utf8] in *. unfold RecordSetters.constant.
  change (is_fresh _) with true. cbn -[utf8]. rewrite Hn, Hu, Hid, Hh. done.
Qed.

Lemma PutToken_new_run w (t : gmap (string * string) Token) name userID plain expires admin :
  Represents w "tokens" t → name ≠ "" → key_ok (keyFor "system" name) = true →
  json_okb name = true → json_okb userID = true → json_okb (uids (env w) (draws (env w))) = true →
  ∃ w', let tok := minted_token (env w) (newToken name userID plain expires admin) in
    PutToken (newToken name userID plain expires admin) w = Ret (tok, None) w' ∧
    Represents w' "tokens" (<[("system", name) := hide_plaintext tok]> t).
Proof.
  intros HR Hname Hkey Hn Hu Hid. cbn zeta. set (tk := newToken _ _ _ _ _).
  assert (Hf : final (env w) (hide_plaintext tk) = hide_plaintext (minted_token (env w) tk)) by done.
  destruct (table_put w "tokens" KindToken t (hide_plaintext tk) HR) as (d & Hput & HR' & _).
  - done.
  - rewrite Hf. split; done.
  - rewrite Hf. by apply minted_hidden_ok.
  - rewrite Hf. exact Hkey.
  - rewrite Hf in Hput, HR'. eexists. split; [|exact HR'].
    unfold PutToken. change (systemScoped tk) with tk.
    change ({ tk with Token_Plaintext := "" }) with (hide_plaintext tk).
    rewrite (bind_ret_run _ _ _ _ _ Hput). done.
Qed.

(** What a token of [CreateToken] resolves to at a given instant. *)
Definition resolution (name userID : string) (ttl : Z) (admin : bool) (issued instant : time) : res Identity :=
  if (0 <? ttl) && After instant (Add issued ttl) then Err ErrTokenExpired
  else Ok (mkIdentity userID "" admin name).

(** C10 A token created now resolves to its user and rights, on every later
    reading of an unchanged token bucket, until its expiry and to
    [ErrTokenExpired] after; the plaintext is handed to the caller and the
    bucket only gains the record without it.  (Hypothesis: no other stored
    token has the same SHA-256 digest.) *)
Theorem token_roundtrip (w : World) (t : gmap (string * string) Token) (name userID : string)
    (ttl : Z) (admin : bool) (b : string)
    (HR : Represents w "tokens" t) (Hrand : rand_read (draws (env w)) 32 = Ok b)
    (Hfresh : ∀ k tok, t !! k = Some tok →
       Token_HashHex tok = HashToken ("sct_" +:+ hex_encode b) → k = ("system", name))
    (Hname : name ≠ "" ∧ key_ok (keyFor "system" name) = true)
    (Htext : json_okb name = true ∧ json_okb userID = true ∧ json_okb (uids (env w) (S (draws (env w)))) = true)
    (Hclock : 0 <= ns (clock (env w) (ticks (env w)))) :
  ∃ tok w', CreateToken name userID ttl admin w = Ret (Ok tok) w' ∧
    Token_Plaintext tok = "sct_" +:+ hex_encode b ∧
    Represents w' "tokens" (<[("system", name) := { tok with Token_Plaintext := "" }]> t) ∧
    ∀ w'', bucket_map w'' "tokens" = bucket_map w' "tokens" →
      eval (ResolveToken (Token_Plaintext tok)) w'' =
        Some (resolution name userID ttl admin (clock (env w) (ticks (env w)))
                (clock (env w'') (ticks (env w'')))).
Proof.
  destruct Hname as [Hname Hkey], Htext as (Hn & Hu & Hid).
  set (plain := "sct_" +:+ hex_encode b) in *. set (t0 := clock (env w) (ticks (env w))) in *.
  set (exp := if 0 <? ttl then Add t0 ttl else zero_time).
  set (e1 := mkEnv (clock (env w)) (if 0 <? ttl then S (ticks (env w)) else ticks (env w))
               (uids (env w)) (S (draws (env w)))).
  destruct (PutToken_new_run (set_env e1 w) t name userID plain exp admin HR Hname Hkey Hn Hu Hid)
    as (w' & Hput & HR'). cbn zeta in Hput, HR'. set (tok := minted_token _ _) in *.
  exists tok, w'. split.
  { unfold CreateToken, GenerateToken, try_bind, rand_bytes, mbind, M_bind.
    rewrite Hrand. cbn [mret M_ret]. fold plain.
    assert (Hexp : (if 0 <? ttl then t ← now; mret (Add t ttl) else mret zero_time)
        (set_env (mkEnv (clock (env w)) (ticks (env w)) (uids (env w)) (S (draws (env w)))) w)
      = Ret exp (set_env e1 w)).
    { unfold exp, e1. destruct (0 <? ttl); reflexivity. }
    unfold mbind, M_bind in Hexp. rewrite Hexp, Hput. done. }
  split; [done|]. split; [exact HR'|]. intros w'' Hw''.
  assert (HR'' : Represents w'' "tokens" (<[("system", name) := hide_plaintext tok]> t))
    by by eapply represents_ext.
  change (Token_Plaintext tok) with plain. unfold ResolveToken, eval.
  rewrite (bind_ret_run _ _ _ _ _ (GetTokenByHash_run w'' _ (HashToken plain) (hide_plaintext tok)
    ("system", name) HR'' (lookup_insert_eq _ _ _) eq_refl
    ltac:(intros k' tok' [[E _]|[_ Hk]]%lookup_insert_Some Hh; [by rewrite E|by eapply Hfresh]))).
  change (Token_ExpiresAt (hide_plaintext tok)) with exp.
  change (identityOf (hide_plaintext tok)) with (mkIdentity userID "" admin name).
  unfold resolution, exp. destruct (Z.ltb_spec 0 ttl) as [Ht|Ht]; [|done].
  assert (IsZero (Add t0 ttl) = false) as ->.
  { unfold IsZero, Add. cbn. apply Z.eqb_neq. lia. }
  set (late := After (clock (env w'') (ticks (env w''))) (Add t0 ttl)).
  assert (Hnow : ((now ≫= λ t1 : time, mret (After t1 (Add t0 ttl))) w'') = Ret late (set_env (mkEnv (clock (env w'')) (S (ticks (env w''))) (uids (env w'')) (draws (env w''))) w'')) by done.
  cbn [negb]. rewrite (bind_ret_run _ _ _ _ _ Hnow). by destruct late.
Qed.
End Props.

(** ** Sessions

    A session token is named after the Unix second of the login, and a write
    under an existing name overwrites. *)

#[local] Instance demo_crypto : Crypto := {
  argon2_IDKey p s _ _ _ len := of_bytes (take len (bytes_of (Sum256 (s +:+ p)) ++ replicate len 0));
}.
#[local] Instance demo_crypto_laws : CryptoLaws.
Proof.
  constructor. intros p s t m th len Hlen. cbn -[Sum256]. unfold of_bytes.
    rewrite length_string_of_list, length_fmap, length_take, length_app, length_replicate. lia.
Qed.

(** Two users of the empty store, then both log in. *)
Definition demo_users : M World (res User) :=
  CreateUser "alice" "alice@example.org" "wonderland" false ≫= λ _,
  CreateUser "bob" "bob@example.org" "builder" true.
Definition two_logins : M World (res Token * res Token) :=
  demo_users ≫= λ _,
  a ← Login "alice@example.org" "wonderland";
  b ← Login "bob@example.org" "builder";
  mret (fst <$> a, fst <$> b).

(** What each of the two sessions resolves to afterwards. *)
Definition resolve_session (r : res Token) : M World (res Identity) :=
  match r with Ok t => ResolveToken (Token_Plaintext t) | Err e => mret (Err e) end.
Definition two_sessions : M World (res Identity * res Identity) :=
  ab ← two_logins;
  a ← resolve_session ab.1;
  b ← resolve_session ab.2;
  mret (a, b).

Definition at_second (n : Z) (step : nat → Z) : World (H:=MemBolt) :=
  Open (∅ : boltdb) (mkEnv (λ k, of_unix (n + step k) 0) 0 (λ n, nth n ["u0"; "u1"; "u2"; "u3"] "u9") 0).

(** Sessions are named after the second of the login: when two users log
    in within the same second, the second login overwrites the first's token
    and that user's session is rejected; logins in different seconds keep
    both. *)
Theorem same_second_logins_collide :
  eval two_sessions (at_second 1700000000 (λ _, 0)) =
    Some (Err ErrInvalidCredentials, Ok (mkIdentity "bob" "" true "session-1700000000")) ∧
  eval two_sessions (at_second 1700000000 Z.of_nat) =
    Some (Ok (mkIdentity "alice" "" false "session-1700000004"),
          Ok (mkIdentity "bob" "" true "session-1700000010")).
Proof. split; vm_compute; reflexivity. Qed.

(** ** Witnesses *)

Definition demo_hash : string :=
  match eval (HashPassword "wonderland") demo_world with Some (Ok h) => h | _ => "" end.

Lemma password_roundtrip_witness :
  VerifyPassword "wonderland" demo_hash = true ∧
  ∃ salt, rand_read (draws (env demo_world)) 16 = Ok salt ∧
    (VerifyPassword "Wonderland" demo_hash = true ↔
     argon2_IDKey "Wonderland" salt 3 65536 2 32 = argon2_IDKey "wonderland" salt 3 65536 2 32).
Proof.
  refine (password_roundtrip "wonderland" "Wonderland" demo_hash demo_world
            (default demo_world (exec (HashPassword "wonderland") demo_world)) _).
  refine (run_eval (HashPassword "wonderland") demo_world (Ok demo_hash) _).
  vm_compute. reflexivity.
Defined.

Definition demo_bootstrap : string :=
  match eval CreateBootstrapToken demo_world with Some (Ok p) => p | _ => "" end.
Definition bootstrapped : World := default demo_world (exec CreateBootstrapToken demo_world).

Lemma bootstrap_token_is_one_time_witness :
  VerifyBootstrapToken demo_bootstrap bootstrapped = Ret None bootstrapped ∧
  (∀ other, HashToken other ≠ HashToken demo_bootstrap →
     VerifyBootstrapToken other bootstrapped = Ret (Some ErrInvalidCredentials) bootstrapped ∧
     ConsumeBootstrapToken other bootstrapped = Ret (Some ErrInvalidCredentials) bootstrapped) ∧
  ∃ w2 cfg2, ConsumeBootstrapToken demo_bootstrap bootstrapped = Ret None w2 ∧
    config_of w2 = Ok cfg2 ∧ ClusterConfig_Initialized cfg2 = true ∧
    ∀ p, VerifyBootstrapToken p w2 = Ret (Some ErrInvalidCredentials) w2 ∧
         ConsumeBootstrapToken p w2 = Ret (Some ErrInvalidCredentials) w2.
Proof.
  refine (bootstrap_token_is_one_time demo_world bootstrapped defaultCluster demo_bootstrap _ _ _ _).
  - exists ∅. vm_compute. reflexivity.
  - vm_compute. reflexivity.
  - vm_compute. reflexivity.
  - refine (run_eval CreateBootstrapToken demo_world (Ok demo_bootstrap) _). vm_compute. reflexivity.
Defined.

Definition demo_random : string := of_bytes (replicate 32 0).

Lemma token_roundtrip_witness :
  ∃ tok w', CreateToken "ci" "alice" Hour false demo_world = Ret (Ok tok) w' ∧
    Token_Plaintext tok = "sct_" +:+ hex_encode demo_random ∧
    Represents w' "tokens" (<[("system", "ci") := { tok with Token_Plaintext := "" }]> ∅) ∧
    ∀ w'', bucket_map w'' "tokens" = bucket_map w' "tokens" →
      eval (ResolveToken (Token_Plaintext tok)) w'' =
        Some (resolution "ci" "alice" Hour false (clock (env demo_world) (ticks (env demo_world)))
                (clock (env w'') (ticks (env w'')))).
Proof.
  refine (token_roundtrip demo_world ∅ "ci" "alice" Hour false demo_random _ _ _ _ _ _).
  - apply represents_empty. vm_compute. reflexivity.
  - vm_compute. reflexivity.
  - intros k tok Hk _. by rewrite lookup_empty in Hk.
  - split; [done|vm_compute; reflexivity].
  - split_and!; vm_compute; reflexivity.
  - vm_compute. discriminate.
Defined.
