(* ===== verification/Cluster.v ===== *)
(** Membership and placement: the join tokens of internal/cluster/cluster.go
    and the scheduler of internal/scheduler/scheduler.go. *)

From S2P Require Import Prelude GoTime Json Types Bolt Store StoreOps StoreLaws Table Singleton Text Random.

Module Join.

Definition ErrInvalidToken : error := ErrMsg "invalid join token".
Definition ErrTokenUsed : error := ErrMsg "join token already used".
Definition ErrTokenExpired : error := ErrMsg "join token expired".

Definition hashHex (plain : string) : string := hex_encode (Sum256 plain).

Section Join.
Context `{Random} `{Bolt}.

Definition Issue (issuedBy : string) (ttl : Z) : M World (res (string * JoinToken)) :=
  raw ←! rand_bytes 24;
  let plain := "scjoin_" +:+ hex_encode raw in
  issuedAt ← now;
  t ← now;
  let tok := mkJoinToken (hex_encode (take_str 8 raw)) (hashHex plain) issuedBy issuedAt (Add t ttl) "" in
  cfg ←! GetCluster;
  r ← PutCluster { cfg with ClusterConfig_JoinTokens ::= (λ l, l ++ [tok]) };
  mret match r.2 with Some e => Err e | None => Ok (plain, tok) end.

(** The loop stops at the first token with the digest. *)
Definition Consume (plain consumedBy : string) : M World (option error) :=
  r ← GetCluster;
  match r with
  | Err e => mret (Some e)
  | Ok cfg =>
    match list_find (λ t, JoinToken_HashHex t = hashHex plain) (ClusterConfig_JoinTokens cfg) with
    | None => mret (Some ErrInvalidToken)
    | Some (i, t) =>
      if bool_decide (JoinToken_ConsumedBy t ≠ "") then mret (Some ErrTokenUsed)
      else
        t0 ← now;
        if After t0 (JoinToken_ExpiresAt t) then mret (Some ErrTokenExpired)
        else
          r ← PutCluster { cfg with ClusterConfig_JoinTokens ::=
                             <[i := { t with JoinToken_ConsumedBy := consumedBy }]> };
          mret r.2
    end
  end.

Definition ListTokens : M World (res (list JoinToken)) :=
  cfg ←! GetCluster;
  mret (Ok ((λ t, { t with JoinToken_HashHex := "" }) <$> ClusterConfig_JoinTokens cfg)).
End Join.

Definition JoinCommand (leaderAddr plainToken : string) : string :=
  "curl -fsSL https://get.selfcloud.dev | sh -s -- --join " +:+ leaderAddr +:+ " --token " +:+ plainToken.
End Join.

Module Scheduler.

Definition ErrNoCapacity : error := ErrMsg "no node has capacity for this workload".

Record Scheduler := mkScheduler {
  selfID : string;
  required : NodeRole;
}.

Fixpoint has_role (roles : list NodeRole) (r : NodeRole) : bool :=
  match roles with
  | [] => false
  | x :: roles => if bool_decide (x = r) then true else has_role roles r
  end.
Definition hasRole (n : Node) (r : NodeRole) : bool := has_role (Node_Roles n) r.

(** The filter of the candidate loop. *)
Definition candidate (required : NodeRole) (n : Node) : bool :=
  hasRole n required &&
  (bool_decide (Status_Phase (Node_Status n) = "") || bool_decide (Status_Phase (Node_Status n) = PhaseRunning)).

Definition older (n m : Node) : bool :=
  Before (Meta_UpdatedAt (Node_Meta n)) (Meta_UpdatedAt (Node_Meta m)).

Definition pick (self : string) (candidates : list Node) : res string :=
  match candidates with
  | [] => if bool_decide (self ≠ "") then Ok self else Err ErrNoCapacity
  | _ :: _ =>
    match stable_sort older candidates with
    | n :: _ => Ok (Meta_Name (Node_Meta n))
    | [] => Err ErrNoCapacity   (* not reached: sorting keeps every candidate *)
    end
  end.

Section Scheduler.
Context `{Bolt} (sc : Scheduler).

Definition PlaceWorkload (required : NodeRole) : M World (res string) :=
  nodes ←! ListNodes;
  mret (pick (selfID sc) (List.filter (candidate required) nodes)).

Definition Place (c : Container) : M World (res string) := PlaceWorkload (required sc).
Definition PlaceFunction (f : Function) : M World (res string) := PlaceWorkload NodeRoleCompute.
End Scheduler.
End Scheduler.
