(* ===== verification/ClusterProps.v ===== *)
(** Join tokens admit one node each, and the scheduler's choice is the least
    recently updated capable node. *)

From S2P Require Import Prelude GoTime Json Types Bolt Store StoreOps StoreLaws Table StoreProps Singleton Text Random Cluster.
Import DemoRandom.

Section Join.
Context `{Random} `{BL : BoltLaws}.
Implicit Types w : World.
Import Join.

Lemma hashHex_json_ok plain : json_okb (hashHex plain) = true.
Proof. apply hex_json_ok. Qed.

Lemma cfg_tokens_ok cfg : json_ok cfg → json_okb (ClusterConfig_JoinTokens cfg) = true.
Proof. unfold json_ok. destruct cfg. cbn -[utf8]. rewrite !andb_true_iff. tauto. Qed.

Lemma with_tokens_ok cfg f :
  json_ok cfg → json_okb (f (ClusterConfig_JoinTokens cfg)) = true →
  json_ok { cfg with ClusterConfig_JoinTokens ::= f }.
Proof. unfold json_ok. destruct cfg. cbn -[utf8]. rewrite !andb_true_iff. tauto. Qed.

Lemma json_okb_list {A} `{Json A} (l : list A) : json_okb l = true ↔ Forall json_ok l.
Proof. cbn. by rewrite forallb_forall, Forall_forall; setoid_rewrite list_elem_of_In. Qed.

Lemma find_token pre t post plain :
  Forall (λ t, JoinToken_HashHex t ≠ hashHex plain) pre → JoinToken_HashHex t = hashHex plain →
  list_find (λ t, JoinToken_HashHex t = hashHex plain) (pre ++ t :: post) = Some (length pre, t).
Proof.
  intros Hpre Ht. apply list_find_Some. split_and!; [by apply list_lookup_middle|done|].
  intros i y Hi Hlt. rewrite lookup_app_l in Hi by done.
  rewrite Forall_forall in Hpre. eapply Hpre, list_elem_of_lookup_2, Hi.
Qed.

(** What consuming does to a token found in the configuration. *)
Lemma Consume_run w cfg pre t post plain by_ :
  is_Some (bucket_map w "cluster") → config_of w = Ok cfg → json_ok cfg → json_okb by_ = true →
  ClusterConfig_JoinTokens cfg = pre ++ t :: post →
  Forall (λ t, JoinToken_HashHex t ≠ hashHex plain) pre → JoinToken_HashHex t = hashHex plain →
  JoinToken_ConsumedBy t = "" →
  let instant := clock (env w) (ticks (env w)) in
  if After instant (JoinToken_ExpiresAt t) then
    ∃ w', Consume plain by_ w = Ret (Some ErrTokenExpired) w' ∧ config_of w' = Ok cfg ∧ db w' = db w
  else
    ∃ w' cfg', Consume plain by_ w = Ret None w' ∧ config_of w' = Ok cfg' ∧
      ClusterConfig_JoinTokens cfg' = pre ++ { t with JoinToken_ConsumedBy := by_ } :: post ∧
      json_ok cfg' ∧ is_Some (bucket_map w' "cluster") ∧
      ClusterConfig_GarageRPCSecret cfg' = ClusterConfig_GarageRPCSecret cfg ∧
      ClusterConfig_GarageAdminToken cfg' = ClusterConfig_GarageAdminToken cfg ∧
      ClusterConfig_ReplicationFactor cfg' = ClusterConfig_ReplicationFactor cfg ∧
      uids (env w') = uids (env w).
Proof.
  intros Hb Hcfg Hok Hby Htoks Hpre Ht Hfree instant.
  unfold Consume. rewrite (bind_ret_run _ _ _ _ _ (GetCluster_run w Hb)), Hcfg, Htoks.
  rewrite find_token by done. rewrite bool_decide_eq_false_2 by (intros Hn; by apply Hn).
  assert (Hnow : now w = Ret instant (set_env (mkEnv (clock (env w)) (S (ticks (env w)))
                                         (uids (env w)) (draws (env w))) w)) by done.
  rewrite (bind_ret_run _ _ _ _ _ Hnow). set (w1 := set_env _ w).
  destruct (After instant (JoinToken_ExpiresAt t)); [by exists w1|].
  set (cfg' := { cfg with ClusterConfig_JoinTokens ::= _ }).
  assert (Hcfg' : ClusterConfig_JoinTokens cfg' = pre ++ { t with JoinToken_ConsumedBy := by_ } :: post).
  { unfold cfg'. destruct cfg. cbn in Htoks |- *. rewrite Htoks. apply insert_mid. }
  assert (Hok' : json_ok cfg').
  { apply with_tokens_ok; [done|]. rewrite Htoks, insert_mid.
    pose proof (cfg_tokens_ok _ Hok) as Hl. rewrite Htoks in Hl.
    apply json_okb_list in Hl. apply json_okb_list.
    apply Forall_app in Hl as [? [Hokt ?]%Forall_cons]. apply Forall_app. split; [done|].
    constructor; [|done]. revert Hokt Hby. unfold json_ok. destruct t. cbn -[utf8].
    rewrite !andb_true_iff. tauto. }
  destruct (PutCluster_run w1 cfg' Hb Hok') as (w' & Hput & Hc & _ & Hb' & He).
  rewrite (bind_ret_run _ _ _ _ _ Hput). do 2 eexists. split; [done|]. split; [exact Hc|].
  split; [by rewrite <-Hcfg'; destruct cfg'|]. split; [by apply stamped_ok|].
  split; [done|]. rewrite He. unfold cfg'. by destruct cfg.
Qed.

Lemma Consume_used w cfg pre t post plain by_ :
  is_Some (bucket_map w "cluster") → config_of w = Ok cfg →
  ClusterConfig_JoinTokens cfg = pre ++ t :: post →
  Forall (λ t, JoinToken_HashHex t ≠ hashHex plain) pre → JoinToken_HashHex t = hashHex plain →
  JoinToken_ConsumedBy t ≠ "" →
  Consume plain by_ w = Ret (Some ErrTokenUsed) w.
Proof.
  intros Hb Hcfg Htoks Hpre Ht Hused. unfold Consume.
  rewrite (bind_ret_run _ _ _ _ _ (GetCluster_run w Hb)), Hcfg, Htoks, find_token by done.
  by rewrite bool_decide_eq_true_2.
Qed.

Definition same_config w w' : Prop := bucket_map w "cluster" = bucket_map w' "cluster".

Lemma same_config_of w w' : same_config w w' → config_of w = config_of w'.
Proof. unfold same_config, config_of, stored. by intros ->. Qed.

End Join.

Section Place.
Context `{BL : BoltLaws}.
Implicit Types w : World.
Import Scheduler.

(** The scheduler places a workload on a capable, running node: the one
    updated longest ago, the first by key among several; when there is none
    it falls back to the local node, and without one reports
    [ErrNoCapacity].  It changes nothing. *)
Theorem place_least_recently_updated (sc : Scheduler) (r : NodeRole) (w : World)
    (t : gmap (string * string) Node) (HR : Represents w "nodes" t) :
  ∃ l out, ListNodes w = Ret (Ok l) w ∧ l ≡ₚ (map_to_list t).*2 ∧ PlaceWorkload sc r w = Ret out w ∧
    match List.filter (candidate r) l with
    | [] => out = if bool_decide (selfID sc ≠ "") then Ok (selfID sc) else Err ErrNoCapacity
    | _ =>
      ∃ n, n ∈ l ∧ candidate r n = true ∧ out = Ok (Meta_Name (Node_Meta n)) ∧
        ∀ m, m ∈ l → candidate r m = true → m = n ∨
          ns (Meta_UpdatedAt (Node_Meta n)) < ns (Meta_UpdatedAt (Node_Meta m)) ∨
          ns (Meta_UpdatedAt (Node_Meta n)) = ns (Meta_UpdatedAt (Node_Meta m)) ∧ by_key n m
    end.
Proof.
  destruct (table_list w "nodes" t "" HR (or_introl eq_refl)) as (l & Hl & Hperm & Hsort).
  rewrite entries_all in Hperm.
  exists l, (pick (selfID sc) (List.filter (candidate r) l)). split; [exact Hl|]. split; [exact Hperm|]. split.
  { unfold PlaceWorkload, try_bind, ListNodes. by rewrite (bind_ret_run _ _ _ _ _ Hl). }
  assert (Hs : StronglySorted by_key (List.filter (candidate r) l)).
  { clear Hl Hperm. induction Hsort as [|x l Hs IH Hx]; [constructor|]. cbn.
    destruct (candidate r x); [|done]. constructor; [done|].
    rewrite Forall_forall in Hx |- *. intros y Hy.
    apply list_elem_of_In, filter_In in Hy as [Hy _]. apply Hx. by apply list_elem_of_In. }
  assert (Hin : ∀ x, x ∈ List.filter (candidate r) l ↔ x ∈ l ∧ candidate r x = true).
  { intros x. by rewrite !list_elem_of_In, filter_In. }
  destruct (List.filter (candidate r) l) as [|c cs] eqn:E; [done|].
  pose proof (stable_sort_head (λ n, ns (Meta_UpdatedAt (Node_Meta n))) (c :: cs)) as Hhead. cbn beta in Hhead.
  unfold pick. change (λ x y, ns (Meta_UpdatedAt (Node_Meta x)) <? ns (Meta_UpdatedAt (Node_Meta y)))
    with older in Hhead.
  destruct (stable_sort older (c :: cs)) as [|n s]; [discriminate Hhead|].
  destruct Hhead as (pre & post & Ecs & Hpre & Hpost). rewrite Ecs in Hs, Hin.
  exists n. destruct (proj1 (Hin n)) as [Hnl Hnc]; [set_solver|]. split_and!; [done|done|done|].
  intros m Hm Hmc. assert (Hmin : m ∈ pre ++ n :: post) by by apply Hin.
  rewrite Forall_forall in Hpre. rewrite Forall_forall in Hpost.
  apply elem_of_app in Hmin as [Hmp|[->|Hmp]%elem_of_cons]; [right; left; by apply Hpre|by left|right].
  specialize (Hpost m Hmp). cbn beta in Hpost.
  destruct (decide (ns (Meta_UpdatedAt (Node_Meta n)) = ns (Meta_UpdatedAt (Node_Meta m)))); [|left; lia].
  right. split; [done|]. apply StronglySorted_app_1_r, StronglySorted_inv in Hs as [_ Hn].
  rewrite Forall_forall in Hn. by apply Hn.
Qed.
End Place.

(** ** Witnesses *)

Definition demo_raw : string := of_bytes (replicate 24 0).


Definition demo_scheduler : Scheduler.Scheduler := Scheduler.mkScheduler "n0" NodeRoleCompute.

Lemma place_least_recently_updated_witness :
  ∃ l out, ListNodes demo_world = Ret (Ok l) demo_world ∧ l ≡ₚ (map_to_list (∅ : gmap (string * string) Node)).*2 ∧
    Scheduler.PlaceWorkload demo_scheduler NodeRoleCompute demo_world = Ret out demo_world ∧
    match List.filter (Scheduler.candidate NodeRoleCompute) l with
    | [] => out = if bool_decide (Scheduler.selfID demo_scheduler ≠ "")
                  then Ok (Scheduler.selfID demo_scheduler) else Err Scheduler.ErrNoCapacity
    | _ =>
      ∃ n, n ∈ l ∧ Scheduler.candidate NodeRoleCompute n = true ∧ out = Ok (Meta_Name (Node_Meta n)) ∧
        ∀ m, m ∈ l → Scheduler.candidate NodeRoleCompute m = true → m = n ∨
          ns (Meta_UpdatedAt (Node_Meta n)) < ns (Meta_UpdatedAt (Node_Meta m)) ∨
          ns (Meta_UpdatedAt (Node_Meta n)) = ns (Meta_UpdatedAt (Node_Meta m)) ∧ by_key n m
    end.
Proof.
  refine (place_least_recently_updated demo_scheduler NodeRoleCompute demo_world ∅ _).
  apply represents_empty. vm_compute. reflexivity.
Defined.

(** Two running compute nodes: the one silent for longest is chosen. *)
Definition demo_node (name : string) : Node :=
  { (zero (A:=Node)) with Node_Meta := demo_meta "" name; Node_Roles := [NodeRoleCompute];
    Node_Status -> Status_Phase := PhaseRunning }.
Example silent_node_is_chosen :
  eval (PutNode (demo_node "b") ;; PutNode (demo_node "a") ;;
        Scheduler.PlaceWorkload demo_scheduler NodeRoleCompute) demo_world = Some (Ok "b").
Proof. vm_compute. reflexivity. Qed.
