(* ===== verification/Secrets.v ===== *)
(** Secrets (internal/secrets): sealing under the cluster master key, the
    store of sealed values, references to them, and the master key file. *)

From S2P Require Import Prelude GoTime Json Types Bolt Store StoreOps StoreLaws Table Singleton Text Cipher Random.

Definition MasterKeyVersion : string := "v1".
Definition ErrTampered : error :=
  ErrMsg "secret authentication failed (wrong key or tampered ciphertext)".
Definition ErrKeySize : error := ErrMsg "master key must be 32 bytes (AES-256)".
Definition gcm_NonceSize : nat := 12.

(** [Open] (named [OpenSealed] here): the inverse of [Seal].  [aes.NewCipher] and
    [cipher.NewGCM] only fail on key sizes the first guard excludes. *)
Definition OpenSealed (key nonce ciphertext : string) : res string :=
  if negb (String.length key =? 32)%nat then Err ErrKeySize
  else if negb (String.length nonce =? gcm_NonceSize)%nat then Err (ErrMsg "bad nonce length")
  else match GCM.open key nonce ciphertext with
       | Some pt => Ok pt
       | None => Err ErrTampered
       end.

Definition SecretRefPrefix : string := "secret://".
Definition IsRef (v : string) : bool := has_prefix v SecretRefPrefix.

(** The project and name a reference designates: "project/name" overrides the
    current project, unless the slash comes first. *)
Definition refTarget (project v : string) : string * string :=
  let ref := trim_prefix v SecretRefPrefix in
  match index_byte ref slash with
  | Some (S i) => (take_str (S i) ref, drop_str (S (S i)) ref)
  | _ => (project, ref)
  end.

Section Secrets.
Context `{Random} `{Bolt}.

Definition Seal (key plaintext : string) : M World (res (string * string)) :=
  if negb (String.length key =? 32)%nat then mret (Err ErrKeySize)
  else
    r ← rand_bytes gcm_NonceSize;
    mret match r with
         | Err e => Err (ErrWrap "nonce" e)
         | Ok nonce => Ok (nonce, GCM.seal key nonce plaintext)
         end.

(** The manager: its field [key]. *)
Record Manager := mkManager { key : string }.

Definition NewManager (masterKey : string) : res Manager :=
  if negb (String.length masterKey =? 32)%nat then Err (ErrMsg "master key must be 32 bytes")
  else Ok (mkManager masterKey).

Definition Put (m : Manager) (project name description plaintext : string) : M World (res Secret) :=
  if bool_decide (name = "") then mret (Err (ErrMsg "secret name required"))
  else
    sealed ←! Seal (key m) plaintext;
    cur ← GetSecret project name;
    t ← now;
    let meta := { (zero (A:=Meta)) with Meta_Project := project; Meta_Name := name; Meta_UpdatedAt := t } in
    let meta := match cur with
                | Ok c => { meta with Meta_UID := Meta_UID (Secret_Meta c);
                                      Meta_CreatedAt := Meta_CreatedAt (Secret_Meta c) }
                | Err _ => meta
                end in
    let version := match cur with Ok c => wrap64 (Secret_Version c + 1) | Err _ => 1 end in
    r ← PutSecret { (zero (A:=Secret)) with
                    Secret_Meta := meta; Secret_Description := description;
                    Secret_KeyID := MasterKeyVersion;
                    Secret_Nonce := Bytes sealed.1; Secret_Ciphertext := Bytes sealed.2;
                    Secret_Version := version };
    mret match r with
         | (_, Some e) => Err e
         | (sec, None) => Ok { sec with Secret_Nonce := Bytes ""; Secret_Ciphertext := Bytes "" }
         end.

Definition Reveal (m : Manager) (project name : string) : M World (res string) :=
  sec ←! GetSecret project name;
  if bool_decide (Secret_KeyID sec ≠ MasterKeyVersion) then
    mret (Err (ErrMsg ("secret " +:+ name +:+ " sealed under unknown key " +:+ Secret_KeyID sec)))
  else mret (OpenSealed (key m) (bytes_str (Secret_Nonce sec)) (bytes_str (Secret_Ciphertext sec))).

(** The loop of [Resolve] over the entries of the map, in the order Go
    happens to visit them. *)
Fixpoint resolve_loop (m : Manager) (project : string) (entries : list (string * string))
    (out : gmap string string) : M World (res (gmap string string)) :=
  match entries with
  | [] => mret (Ok out)
  | (k, v) :: entries =>
    if negb (has_prefix v SecretRefPrefix) then resolve_loop m project entries (<[k := v]> out)
    else
      let target := refTarget project v in
      r ← Reveal m target.1 target.2;
      match r with
      | Err e => mret (Err (ErrWrap ("resolve " +:+ v) e))
      | Ok pt => resolve_loop m project entries (<[k := pt]> out)
      end
  end.

Definition Resolve (m : Manager) (project : string) (vars : gmap string string) :
    M World (res (gmap string string)) :=
  if bool_decide (vars = ∅) then mret (Ok vars)
  else resolve_loop m project (map_to_list vars) ∅.

Definition ResolveOne (m : Manager) (project ref : string) : M World (res string) :=
  if negb (has_prefix ref SecretRefPrefix) then mret (Ok ref)
  else
    out ←! Resolve m project {["v" := ref]};
    mret (Ok (default "" (out !! "v"))).
End Secrets.

(** ** The master key file (master.go)

    The data directory as the process sees it: each file's content and
    permission bits, whether files can be read, and whether the directory can
    be created and written. *)
Record File := mkFile { f_data : string; f_mode : Z }.
Record Disk := mkDisk {
  files : gmap string File;
  readable : bool;
  writable : bool;
}.

(** The octal modes 600 and 077. *)
Definition mode_600 : Z := 6 * 8 * 8.
Definition mode_077 : Z := 7 * 8 + 7.

Definition MasterKeyFile : string := "master.key".
(** [filepath.Join] of a clean directory and a plain name. *)
Definition joinPath (dir name : string) : string := dir +:+ "/" +:+ name.

Definition fp (key : string) : string := hex_encode (take_str 8 (Sum256 key)).

Definition set_file (path : string) (f : File) (d : Disk) : Disk :=
  mkDisk (<[path := f]> (files d)) (readable d) (writable d).

(** [os.WriteFile path data mode] keeps the mode of a file that exists. *)
Definition WriteFile (path data : string) (mode : Z) : M Disk (option error) := λ d,
  if writable d then
    Ret None (set_file path (mkFile data (match files d !! path with Some f => f_mode f | None => mode end)) d)
  else Ret (Some (ErrMsg "permission denied")) d.

(** [generate]: the result of reading 32 random bytes. *)
Definition generate (random : res string) : res string :=
  match random with Ok k => Ok k | Err e => Err (ErrWrap "random key" e) end.

Definition LoadOrCreateMasterKey (random : res string) (dataDir : string) :
    M Disk (res (string * string)) :=
  let path := joinPath dataDir MasterKeyFile in
  d ← get_state;
  match files d !! path with
  | None =>
    match generate random with
    | Err e => mret (Err e)
    | Ok key =>
      if writable d then
        r ← WriteFile path key mode_600;
        mret match r with Some e => Err e | None => Ok (key, fp key) end
      else mret (Err (ErrMsg "mkdir: permission denied"))
    end
  | Some f =>
    if negb (readable d) then mret (Err (ErrWrap "read master key" (ErrMsg "permission denied")))
    else if negb (String.length (f_data f) =? 32)%nat then
      mret (Err (ErrMsg ("master key file " +:+ path +:+ " has wrong size "
                         +:+ itoa (Z.of_nat (String.length (f_data f))) +:+ " (want 32)")))
    else
      (if bool_decide (Z.land (f_mode f) mode_077 ≠ 0) then
         modify (set_file path (mkFile (f_data f) mode_600))
       else mret ()) ;;
      mret (Ok (f_data f, fp (f_data f)))
  end.
