(* ===== verification/SecretsProps.v ===== *)
(** What the secret manager guarantees: a value put is the value revealed, a
    value revealed was sealed under the same key, references resolve to the
    values they designate, and the master key survives restarts. *)

From Stdlib Require Import Ascii.
From S2P Require Import Prelude GoTime Json Types Bolt Store StoreOps StoreLaws Table StoreProps Singleton Text Cipher Random Secrets.
Import DemoRandom.

Section Props.
Context `{Random, RL : !RandomLaws} `{BL : BoltLaws}.
Implicit Types (w : World) (m : Manager) (t : gmap (string * string) Secret).

(** What a stored secret reveals under a key. *)
Definition unsealed m (name : string) (s : option Secret) : res string :=
  match s with
  | None => Err ErrNotFound
  | Some sec =>
    if bool_decide (Secret_KeyID sec ≠ MasterKeyVersion) then
      Err (ErrMsg ("secret " +:+ name +:+ " sealed under unknown key " +:+ Secret_KeyID sec))
    else OpenSealed (key m) (bytes_str (Secret_Nonce sec)) (bytes_str (Secret_Ciphertext sec))
  end.

Lemma Reveal_run w t m p n :
  Represents w "secrets" t → plain p → Reveal m p n w = Ret (unsealed m n (t !! (p, n))) w.
Proof.
  intros HR Hp. unfold Reveal, try_bind, GetSecret.
  rewrite (bind_ret_run _ _ _ _ _ (table_get _ _ _ _ n HR Hp)).
  destruct (t !! (p, n)) as [sec|]; [|done]. unfold unsealed. by case_bool_decide.
Qed.

Lemma OpenSealed_seal k nonce pt :
  String.length k = 32%nat → String.length nonce = 12%nat →
  OpenSealed k nonce (GCM.seal k nonce pt) = Ok pt.
Proof.
  intros Hk Hn. unfold OpenSealed. rewrite Hk, Hn. cbn -[GCM.open GCM.seal].
  by rewrite (proj2 (gcm_open_seal _ _ _ pt) eq_refl).
Qed.

Lemma OpenSealed_Ok k nonce ct pt :
  OpenSealed k nonce ct = Ok pt → ct = GCM.seal k nonce pt.
Proof.
  unfold OpenSealed. destruct (negb _); [done|]. destruct (negb _); [done|].
  destruct (GCM.open k nonce ct) eqn:E; [|done]. intros [= ->]. by apply gcm_open_seal.
Qed.

(** A value is only ever revealed when it is authentic: the bucket holds,
    under the current key version, exactly the sealing of that value with the
    manager's key.  A secret sealed under another key, or altered, is refused
    unless it also is such a sealing. *)
Theorem revealed_is_sealed (m : Manager) (w w' : World) (t : gmap (string * string) Secret)
    (project name pt : string)
    (HR : Represents w "secrets" t) (Hp : plain project)
    (Hrun : Reveal m project name w = Ret (Ok pt) w') :
  w' = w ∧ ∃ sec, t !! (project, name) = Some sec ∧ Secret_KeyID sec = MasterKeyVersion ∧
    bytes_str (Secret_Ciphertext sec) = GCM.seal (key m) (bytes_str (Secret_Nonce sec)) pt.
Proof.
  rewrite (Reveal_run _ _ _ _ _ HR Hp) in Hrun. injection Hrun as Hu <-. split; [done|].
  destruct (t !! (project, name)) as [sec|]; [|done]. exists sec. unfold unsealed in Hu.
  case_bool_decide as Hk; [done|]. split; [done|]. split; [|by apply OpenSealed_Ok].
  destruct (decide (Secret_KeyID sec = MasterKeyVersion)); tauto.
Qed.

(** The secret [Put] hands to the store, given what was there before. *)
Definition sealedSecret m (project name description plaintext nonce : string) (stamp : time)
    (cur : option Secret) : Secret :=
  mkSecret
    (mkMeta project name (default "" (Meta_UID ∘ Secret_Meta <$> cur)) 0
       (default zero_time (Meta_CreatedAt ∘ Secret_Meta <$> cur)) stamp ∅)
    description MasterKeyVersion (Bytes nonce) (Bytes (GCM.seal (key m) nonce plaintext))
    (match cur with Some c => wrap64 (Secret_Version c + 1) | None => 1 end).

Lemma sealed_json_ok e m project name description pt nonce stamp cur :
  project ≠ "" →
  json_okb project = true → json_okb name = true → json_okb description = true →
  json_okb (uids e (draws e)) = true →
  (∀ c, cur = Some c → json_okb (Meta_UID (Secret_Meta c)) = true) →
  json_ok (final e (sealedSecret m project name description pt nonce stamp cur)).
Proof.
  intros Hp0 Hp Hn Hd Hu Hc. unfold final, finalMeta, sealedSecret, defaultProject.
  cbn [getMeta secret_scoped Secret_Meta Meta_Project]. rewrite bool_decide_eq_false_2 by done.
  unfold minted. cbn [Meta_UID is_fresh]. generalize (GCM.seal (key m) nonce pt). intros ct.
  assert (Hv : int64_ok (match cur with Some c => wrap64 (Secret_Version c + 1) | None => 1 end) = true).
  { destruct cur; [apply wrap64_ok|done]. }
  set (v := match cur with Some _ => _ | None => _ end) in *. clearbody v.
  assert (Huid : json_okb (default "" (Meta_UID ∘ Secret_Meta <$> cur)) = true).
  { destruct cur as [c|]; [by apply Hc|done]. }
  set (u := default "" (Meta_UID ∘ _ <$> cur)) in *. clearbody u.
  unfold is_fresh. cbn [Meta_UID].
  set (u' := if bool_decide (u = "") then uids e (draws e) else u).
  assert (Hu' : json_okb u' = true) by by unfold u'; case_bool_decide. clearbody u'.
  unfold json_ok. cbn -[utf8 wrap64] in *. by rewrite Hp, Hn, Hu', Hd, Hv.
Qed.

(** The environment [Put] has used up when it stores the secret. *)
Definition put_env (e : Env) : Env := mkEnv (clock e) (S (ticks e)) (uids e) (S (draws e)).

Lemma Put_run m w t project name description pt nonce :
  Represents w "secrets" t → plain project → name ≠ "" →
  String.length (key m) = 32%nat → rand_read (draws (env w)) 12 = Ok nonce →
  Put m project name description pt w =
    (r ← PutSecret (sealedSecret m project name description pt nonce
                      (clock (env w) (ticks (env w))) (t !! (project, name)));
     mret match r with
          | (_, Some e) => Err e
          | (sec, None) => Ok { sec with Secret_Nonce := Bytes ""; Secret_Ciphertext := Bytes "" }
          end) (set_env (put_env (env w)) w).
Proof.
  intros HR Hp Hname Hkey Hn. unfold Put. rewrite bool_decide_eq_false_2 by done.
  unfold try_bind, Seal. rewrite Hkey. cbn [Nat.eqb negb].
  set (w1 := set_env (mkEnv (clock (env w)) (ticks (env w)) (uids (env w)) (S (draws (env w)))) w).
  assert (Hseal : (r ← rand_bytes gcm_NonceSize;
      mret match r with Err e => Err (ErrWrap "nonce" e) | Ok nonce => Ok (nonce, GCM.seal (key m) nonce pt) end) w
    = Ret (Ok (nonce, GCM.seal (key m) nonce pt)) w1).
  { unfold rand_bytes, mbind, M_bind. unfold gcm_NonceSize. by rewrite Hn. }
  cbn [negb Nat.eqb]. rewrite (bind_ret_run _ _ _ _ _ Hseal).
  assert (HR1 : Represents w1 "secrets" t) by done.
  unfold GetSecret. rewrite (bind_ret_run _ _ _ _ _ (table_get _ _ _ _ name HR1 Hp)).
  assert (Hnow : now w1 = Ret (clock (env w) (ticks (env w))) (set_env (put_env (env w)) w)) by done.
  rewrite (bind_ret_run _ _ _ _ _ Hnow). by destruct (t !! (project, name)).
Qed.

(** C9 Sealing round trip: putting a value stores only its encryption (the
    returned secret carries neither nonce nor ciphertext), revealing it gives
    it back, its version is one more than the previous one's (1 when new),
    its UID survives, and no other secret changes.  The generation of the
    metadata restarts at 1 on every put. *)
Theorem put_reveal_roundtrip (m : Manager) (w : World) (t : gmap (string * string) Secret)
    (project name description pt nonce : string)
    (HR : Represents w "secrets" t) (Hp : plain project) (Hname : name ≠ "")
    (Hkey : String.length (key m) = 32%nat ∧ key_ok (keyFor project name) = true)
    (Hrand : rand_read (draws (env w)) 12 = Ok nonce)
    (Htext : json_okb project = true ∧ json_okb name = true ∧ json_okb description = true ∧
             json_okb (uids (env w) (S (draws (env w)))) = true)
    (Hcur : ∀ c, t !! (project, name) = Some c → json_okb (Meta_UID (Secret_Meta c)) = true) :
  ∃ sec stored w', Put m project name description pt w = Ret (Ok sec) w' ∧
    Secret_Nonce sec = Bytes "" ∧ Secret_Ciphertext sec = Bytes "" ∧
    Represents w' "secrets" (<[(project, name) := stored]> t) ∧
    Secret_Ciphertext stored = Bytes (GCM.seal (key m) nonce pt) ∧
    Reveal m project name w' = Ret (Ok pt) w' ∧
    Secret_Version stored =
      (match t !! (project, name) with Some c => wrap64 (Secret_Version c + 1) | None => 1 end) ∧
    (∀ c, t !! (project, name) = Some c → Meta_UID (Secret_Meta c) ≠ "" →
       Meta_UID (Secret_Meta stored) = Meta_UID (Secret_Meta c)) ∧
    Meta_Generation (Secret_Meta stored) = 1.
Proof.
  destruct Hkey as [Hkey Hkok], Htext as (Htp & Htn & Htd & Htu).
  set (stamp := clock (env w) (ticks (env w))). set (cur := t !! (project, name)) in *.
  set (w1 := set_env (put_env (env w)) w).
  set (v := sealedSecret m project name description pt nonce stamp cur).
  assert (Hfin : getMeta (final (env w1) v) = minted (put_env (env w)) (Secret_Meta v)).
  { unfold final, finalMeta, defaultProject. rewrite get_set_meta.
    by rewrite bool_decide_eq_false_2 by apply Hp. }
  destruct (table_put w1 "secrets" KindSecret t v) as (d & Hput & HR' & _).
  - exact HR.
  - exact Hname.
  - rewrite Hfin. exact Hp.
  - by apply sealed_json_ok; [apply Hp|..].
  - unfold keyOf. rewrite Hfin. exact Hkok.
  - rewrite Hfin in HR'. change (Meta_Project (minted _ _)) with project in HR'.
    change (Meta_Name (minted _ _)) with name in HR'.
    set (stored := final (env w1) v) in *. set (w' := after_put _ _ _ _) in *.
    exists { stored with Secret_Nonce := Bytes ""; Secret_Ciphertext := Bytes "" }, stored, w'.
    assert (Hpay : Secret_Nonce stored = Bytes nonce ∧ Secret_KeyID stored = MasterKeyVersion ∧
                   Secret_Ciphertext stored = Bytes (GCM.seal (key m) nonce pt) ∧
                   Secret_Version stored = Secret_Version v) by done.
    destruct Hpay as (Hno & Hid & Hct & Hver).
    assert (Hmeta : Secret_Meta stored = minted (put_env (env w)) (Secret_Meta v)) by exact Hfin.
    clearbody stored. split_and!; try done.
    + rewrite (Put_run m w t project name description pt nonce) by done.
      unfold PutSecret. by rewrite (bind_ret_run _ _ _ _ _ Hput).
    + rewrite (Reveal_run _ _ _ _ _ HR' Hp), lookup_insert_eq. unfold unsealed.
      rewrite Hid, bool_decide_eq_false_2 by (intros Hx; by apply Hx). rewrite Hno, Hct. cbn [bytes_str].
      rewrite OpenSealed_seal; [done|done|]. exact (RL _ _ _ Hrand).
    + intros c Hc Hu. rewrite Hmeta. unfold v. rewrite Hc. unfold minted, is_fresh. cbn.
      by rewrite bool_decide_eq_false_2.
    + by rewrite Hmeta.
Qed.

(** ** References *)

(** The value an entry resolves to. *)
Definition resolvedValue m t (project v : string) : res string :=
  if IsRef v then let target := refTarget project v in unsealed m target.2 (t !! target)
  else Ok v.

Lemma index_byte_take c s i : index_byte s c = Some i → no_byte c (take_str i s) = true.
Proof.
  revert i. induction s as [|a s IH]; intros i Hi; [done|]. cbn in Hi.
  destruct (a =? c)%char eqn:E; [by injection Hi as <-|].
  destruct (index_byte s c) as [j|] eqn:Ej; [|done]. injection Hi as <-.
  specialize (IH j eq_refl). unfold no_byte in *. cbn. rewrite E.
  by destruct (index_byte (take_str j s) c).
Qed.

Lemma refTarget_plain project v : plain project → plain (refTarget project v).1.
Proof.
  intros Hp. unfold refTarget. destruct (index_byte _ slash) as [[|i]|] eqn:E; [done| |done].
  cbn [fst]. split; [|by apply index_byte_take].
  destruct (trim_prefix v SecretRefPrefix); [done|]. done.
Qed.

Lemma resolve_loop_run m w t project entries out :
  Represents w "secrets" t → plain project → NoDup entries.*1 →
  ∃ r, resolve_loop m project entries out w = Ret r w ∧
    match r with
    | Ok out' => ∀ k,
        match list_to_map (M:=gmap string string) entries !! k with
        | None => out' !! k = out !! k
        | Some v => ∃ x, resolvedValue m t project v = Ok x ∧ out' !! k = Some x
        end
    | Err e => ∃ k v e', (k, v) ∈ entries ∧ resolvedValue m t project v = Err e' ∧
                         e = ErrWrap ("resolve " +:+ v) e'
    end.
Proof.
  intros HR Hp. revert out. induction entries as [|[k v] entries IH]; intros out.
  { intros _. exists (Ok out). split; [done|]. intros k. by rewrite list_to_map_nil, lookup_empty. }
  rewrite fmap_cons. intros [Hk Hnd]%NoDup_cons. cbn [fst] in Hk.
  assert (Hstep : ∀ x, resolvedValue m t project v = Ok x →
    resolve_loop m project ((k, v) :: entries) out w = resolve_loop m project entries (<[k := x]> out) w).
  { intros x. unfold resolvedValue, IsRef. cbn [resolve_loop]. destruct (has_prefix v SecretRefPrefix).
    - cbn [negb]. intros Hx.
      by rewrite (bind_ret_run _ _ _ _ _ (Reveal_run _ _ _ _ _ HR (refTarget_plain _ v Hp))), <-surjective_pairing, Hx.
    - by intros [= ->]. }
  destruct (resolvedValue m t project v) as [x|e] eqn:Ev.
  - rewrite (Hstep x eq_refl). destruct (IH (<[k := x]> out) Hnd) as (r & Hrun & Hr).
    exists r. split; [done|]. destruct r as [out'|e].
    + intros k'. specialize (Hr k'). cbn [list_to_map foldr]. destruct (decide (k = k')) as [<-|Hne].
      * rewrite lookup_insert_eq. exists x. split; [done|].
        rewrite not_elem_of_list_to_map_1 in Hr by done. by rewrite Hr, lookup_insert_eq.
      * rewrite lookup_insert_ne by done. change (foldr _ ∅ entries) with (list_to_map (M:=gmap string string) entries).
        destruct (list_to_map entries !! k'); [done|]. by rewrite Hr, lookup_insert_ne.
    + destruct Hr as (k' & v' & e' & Hin & ?). exists k', v', e'. by rewrite elem_of_cons; auto.
  - exists (Err (ErrWrap ("resolve " +:+ v) e)). split.
    + clear Hstep. unfold resolvedValue, IsRef in Ev. cbn [resolve_loop].
      destruct (has_prefix v SecretRefPrefix); [|done]. cbn [negb].
      by rewrite (bind_ret_run _ _ _ _ _ (Reveal_run _ _ _ _ _ HR (refTarget_plain _ v Hp))), <-surjective_pairing, Ev.
    + exists k, v, e. by rewrite elem_of_cons; auto.
Qed.

End Props.

(** ** The master key file *)

(** The master key survives restarts: once loaded or created it has 32
    bytes, its fingerprint is that of the key, it is on disk, closed to group
    and others, and every later start loads the same key without touching the
    disk, whatever the random source. *)
Theorem master_key_is_stable (random : res string) (dataDir : string) (d d' : Disk) (k f : string)
    (Hread : readable d = true) (Hrandom : ∀ rk, random = Ok rk → String.length rk = 32%nat)
    (Hrun : LoadOrCreateMasterKey random dataDir d = Ret (Ok (k, f)) d') :
  String.length k = 32%nat ∧ f = fp k ∧
  (∃ file, files d' !! joinPath dataDir MasterKeyFile = Some file ∧ f_data file = k ∧
           Z.land (f_mode file) mode_077 = 0) ∧
  ∀ random', LoadOrCreateMasterKey random' dataDir d' = Ret (Ok (k, f)) d'.
Proof.
  assert (Hstable : ∀ d1 file random', files d1 !! joinPath dataDir MasterKeyFile = Some file →
    readable d1 = true → String.length (f_data file) = 32%nat → Z.land (f_mode file) mode_077 = 0 →
    LoadOrCreateMasterKey random' dataDir d1 = Ret (Ok (f_data file, fp (f_data file))) d1).
  { intros d1 file random' Hf Hr Hl Hm. unfold LoadOrCreateMasterKey, get_state, mbind, M_bind.
    rewrite Hf, Hr, Hl. cbn [negb Nat.eqb]. by rewrite bool_decide_eq_false_2 by tauto. }
  unfold LoadOrCreateMasterKey in Hrun. set (path := joinPath dataDir MasterKeyFile) in *.
  unfold get_state, mbind, M_bind in Hrun. destruct (files d !! path) as [file|] eqn:Hfile.
  - rewrite Hread in Hrun. cbn [negb] in Hrun.
    destruct (Nat.eqb_spec (String.length (f_data file)) 32) as [Hl|]; [|done]. cbn [negb] in Hrun.
    case_bool_decide as Hm.
    + injection Hrun as <- <- <-. split; [done|]. split; [done|].
      assert (Hf' : files (set_file path (mkFile (f_data file) mode_600) d) !! path
                    = Some (mkFile (f_data file) mode_600)) by apply lookup_insert_eq.
      split; [by eexists|]. intros random'. by rewrite (Hstable _ _ random' Hf').
    + injection Hrun as <- <- <-.
      assert (Hm' : Z.land (f_mode file) mode_077 = 0) by (destruct (decide (Z.land (f_mode file) mode_077 = 0)); tauto).
      split; [done|]. split; [done|]. split; [by exists file|]. intros random'. by apply Hstable.
  - destruct random as [rk|e]; [|done]. cbn [generate] in Hrun.
    destruct (writable d) eqn:Hw; [|done]. unfold WriteFile in Hrun. rewrite Hw, Hfile in Hrun.
    injection Hrun as <- <- <-. split; [by apply Hrandom|]. split; [done|].
    assert (Hf' : files (set_file path (mkFile rk mode_600) d) !! path = Some (mkFile rk mode_600))
      by apply lookup_insert_eq.
    split; [by eexists|]. intros random'. rewrite (Hstable _ _ random' Hf'); [done|done|by apply Hrandom|done].
Qed.

(** ** Witnesses *)

Definition demo_manager : Manager := mkManager (zeros 32).
Definition demo_secret : Secret :=
  sealedSecret demo_manager "shop" "db" "" "hunter2" (zeros 12) zero_time None.
Definition demo_sealed : Secret := final (env demo_world) demo_secret.
Definition demo_secrets : gmap (string * string) Secret := <[("shop", "db") := demo_sealed]> ∅.
Definition secret_world : World :=
  default demo_world (exec (putScoped "secrets" KindSecret demo_secret) demo_world).

Lemma no_secrets : Represents (A:=Secret) demo_world "secrets" ∅.
Proof. apply represents_empty. vm_compute. reflexivity. Qed.

Lemma secret_world_represents : Represents secret_world "secrets" demo_secrets.
Proof.
  destruct (table_put demo_world "secrets" KindSecret ∅ demo_secret no_secrets) as (d & Hrun & HR & _).
  - done.
  - by vm_compute.
  - apply sealed_json_ok; [done|vm_compute; reflexivity..|done].
  - by vm_compute.
  - unfold secret_world, exec. rewrite Hrun. exact HR.
Qed.

Lemma revealed_is_sealed_witness :
  secret_world = secret_world ∧
  ∃ sec, demo_secrets !! ("shop", "db") = Some sec ∧ Secret_KeyID sec = MasterKeyVersion ∧
    bytes_str (Secret_Ciphertext sec) = GCM.seal (key demo_manager) (bytes_str (Secret_Nonce sec)) "hunter2".
Proof.
  refine (revealed_is_sealed demo_manager secret_world secret_world demo_secrets "shop" "db" "hunter2"
            secret_world_represents _ _); [by vm_compute|].
  rewrite (Reveal_run _ _ _ _ _ secret_world_represents) by by vm_compute.
  apply (f_equal (λ r, Ret r secret_world)). vm_compute. reflexivity.
Defined.

Lemma put_reveal_roundtrip_witness :
  ∃ sec stored w', Put demo_manager "shop" "db" "the database" "hunter2" demo_world = Ret (Ok sec) w' ∧
    Secret_Nonce sec = Bytes "" ∧ Secret_Ciphertext sec = Bytes "" ∧
    Represents w' "secrets" (<[("shop", "db") := stored]> ∅) ∧
    Secret_Ciphertext stored = Bytes (GCM.seal (key demo_manager) (zeros 12) "hunter2") ∧
    Reveal demo_manager "shop" "db" w' = Ret (Ok "hunter2") w' ∧
    Secret_Version stored =
      (match (∅ : gmap (string * string) Secret) !! ("shop", "db") with
       | Some c => wrap64 (Secret_Version c + 1) | None => 1 end) ∧
    (∀ c, (∅ : gmap (string * string) Secret) !! ("shop", "db") = Some c → Meta_UID (Secret_Meta c) ≠ "" →
       Meta_UID (Secret_Meta stored) = Meta_UID (Secret_Meta c)) ∧
    Meta_Generation (Secret_Meta stored) = 1.
Proof.
  refine (put_reveal_roundtrip demo_manager demo_world ∅ "shop" "db" "the database" "hunter2" (zeros 12)
            no_secrets _ _ _ _ _ _).
  - by vm_compute.
  - done.
  - split; vm_compute; reflexivity.
  - vm_compute. reflexivity.
  - split_and!; vm_compute; reflexivity.
  - intros c Hc. by rewrite lookup_empty in Hc.
Defined.

Definition demo_vars : gmap string string := {["DB" := "secret://db"; "HOST" := "db.internal"]}.


Example demo_resolved : resolvedValue demo_manager demo_secrets "shop" "secret://db" = Ok "hunter2".
Proof. vm_compute. reflexivity. Qed.

Definition empty_disk : Disk := mkDisk ∅ true true.
Definition demo_disk : Disk :=
  default empty_disk (exec (LoadOrCreateMasterKey (Ok (zeros 32)) "/data") empty_disk).

Lemma master_key_is_stable_witness :
  String.length (zeros 32) = 32%nat ∧ fp (zeros 32) = fp (zeros 32) ∧
  (∃ file, files demo_disk !! joinPath "/data" MasterKeyFile = Some file ∧ f_data file = zeros 32 ∧
           Z.land (f_mode file) mode_077 = 0) ∧
  ∀ random', LoadOrCreateMasterKey random' "/data" demo_disk = Ret (Ok (zeros 32, fp (zeros 32))) demo_disk.
Proof.
  refine (master_key_is_stable (Ok (zeros 32)) "/data" empty_disk demo_disk (zeros 32) (fp (zeros 32)) _ _ _).
  - done.
  - by intros rk [= <-].
  - vm_compute. reflexivity.
Defined.
