(* ===== verification/Glob.v ===== *)
(** Go's [path.Match], and the JSON text [json.Marshal] writes: the two
    standard-library functions the event dispatcher needs beyond [Text].

    [path_Match] follows the algorithm of package path: a pattern is cut into
    chunks at its stars, and each chunk is matched at the earliest place.  A
    malformed pattern matches nothing (the callers ignore the error). *)

From Stdlib Require Import Ascii.
From S2P Require Import Prelude GoTime Json Text.

#[local] Arguments String.append : simpl nomatch.

(** ** path.Match *)

(** [utf8.DecodeRuneInString]: the code point and its width; an invalid byte
    is U+FFFD of width one. *)
Definition decode_rune (s : string) : N * nat :=
  let byte i := match String.get i s with Some a => N_of_ascii a | None => 0%N end in
  match utf8_len s with
  | 1%nat => (byte 0%nat, 1%nat)
  | 2%nat => ((byte 0%nat mod 32) * 64 + byte 1%nat mod 64, 2%nat)%N
  | 3%nat => (((byte 0%nat mod 16) * 64 + byte 1%nat mod 64) * 64 + byte 2%nat mod 64, 3%nat)%N
  | 4%nat => ((((byte 0%nat mod 8) * 64 + byte 1%nat mod 64) * 64 + byte 2%nat mod 64) * 64 + byte 3%nat mod 64, 4%nat)%N
  | _ => (0xFFFD%N, 1%nat)
  end.

Fixpoint skip_stars (p : string) : bool * string :=
  match p with
  | String "*" p' => (true, (skip_stars p').2)
  | _ => (false, p)
  end.

Fixpoint scan_chunk (inrange : bool) (p : string) : string * string :=
  match p with
  | EmptyString => ("", "")
  | String "\" (String c p') => let r := scan_chunk inrange p' in (String "\" (String c r.1), r.2)
  | String "[" p' => let r := scan_chunk true p' in (String "[" r.1, r.2)
  | String "]" p' => let r := scan_chunk false p' in (String "]" r.1, r.2)
  | String "*" p' =>
    if inrange then let r := scan_chunk inrange p' in (String "*" r.1, r.2) else ("", p)
  | String c p' => let r := scan_chunk inrange p' in (String c r.1, r.2)
  end.

(** One rune, which must not be the last thing in the chunk. *)
Definition esc_rune (c : string) : option (N * string) :=
  let '(r, n) := decode_rune c in
  let nchunk := drop_str n c in
  if (bool_decide (r = 0xFFFD%N) && (n =? 1)%nat) || bool_decide (nchunk = "") then None
  else Some (r, nchunk).
Definition getEsc (chunk : string) : option (N * string) :=
  match chunk with
  | EmptyString | String "-" _ | String "]" _ => None
  | String "\" EmptyString => None
  | String "\" c => esc_rune c
  | _ => esc_rune chunk
  end.

(** The ranges of a bracket expression: whether one contains [r], and the
    chunk after the closing bracket. *)
Fixpoint match_ranges (fuel : nat) (first : bool) (r : N) (chunk : string) (hit : bool) :
    option (bool * string) :=
  match fuel with
  | O => None
  | S fuel =>
    match chunk, first with
    | String "]" c, false => Some (hit, c)
    | _, _ =>
      '(lo, c) ← getEsc chunk;
      '(hi, c) ← match c with String "-" c' => getEsc c' | _ => Some (lo, c) end;
      match_ranges fuel false r c (hit || ((lo <=? r) && (r <=? hi))%N)
    end
  end.

(** [None] for a bad pattern, [Some None] for no match, else what remains of
    the name; the name argument is [None] once the match has failed. *)
Fixpoint match_chunk (fuel : nat) (chunk : string) (name : option string) : option (option string) :=
  match fuel with
  | O => None
  | S fuel =>
    match chunk with
    | EmptyString => Some name
    | _ =>
      let name := match name with Some EmptyString => None | _ => name end in
      let literal a c :=
        match_chunk fuel c
          (match name with
           | Some (String b s) => if (a =? b)%char then Some s else None
           | _ => None
           end) in
      match chunk with
      | EmptyString => Some name
      | String "[" c =>
        let '(r, rest) := match name with
                          | Some s => let '(r, n) := decode_rune s in (r, Some (drop_str n s))
                          | None => (0%N, None)
                          end in
        let '(negated, c) := match c with String "^" c' => (true, c') | _ => (false, c) end in
        '(hit, c) ← match_ranges (S (String.length c)) true r c false;
        match_chunk fuel c (if Bool.eqb hit negated then None else rest)
      | String "?" c =>
        match_chunk fuel c
          (match name with
           | Some (String "/" _) => None
           | Some s => Some (drop_str (decode_rune s).2 s)
           | None => None
           end)
      | String "\" EmptyString => None
      | String "\" (String a c) => literal a c
      | String a c => literal a c
      end
    end
  end.

Definition matchChunk (chunk : string) (name : option string) : option (option string) :=
  match_chunk (S (String.length chunk)) chunk name.

(** The skipping loop after a star; [last] when no pattern remains. *)
Fixpoint match_after_star (last : bool) (chunk name : string) : option (option string) :=
  match name with
  | EmptyString => Some None
  | String a name' =>
    if (a =? "/")%char then Some None
    else
      match matchChunk chunk (Some name') with
      | None => None
      | Some (Some t) =>
        if last && negb (bool_decide (t = "")) then match_after_star last chunk name'
        else Some (Some t)
      | Some None => match_after_star last chunk name'
      end
  end.

(** What a turn does with a chunk: match it here or, after a star, later, and
    go on with the rest of the pattern. *)
Definition match_turn (loop : string → string → bool) (star : bool) (chunk rest name : string) : bool :=
  let later :=
    if star then
      match match_after_star (bool_decide (rest = "")) chunk name with
      | Some (Some t) => loop rest t
      | _ => false
      end
    else false in
  match matchChunk chunk (Some name) with
  | None => false
  | Some (Some t) => if bool_decide (t = "") || negb (bool_decide (rest = "")) then loop rest t else later
  | Some None => later
  end.

Fixpoint match_loop (fuel : nat) (pattern name : string) : bool :=
  match fuel with
  | O => false
  | S fuel =>
    match pattern with
    | EmptyString => bool_decide (name = "")
    | _ =>
      let '(star, p) := skip_stars pattern in
      let '(chunk, rest) := scan_chunk false p in
      if star && bool_decide (chunk = "") then no_byte "/" name
      else match_turn (match_loop fuel) star chunk rest name
    end
  end.

(** Every turn consumes a byte of the pattern. *)
Definition path_Match (pattern name : string) : bool :=
  match_loop (S (String.length pattern)) pattern name.

(** *** The fuel is enough: more of it changes nothing *)

Lemma length_drop_str n s : String.length (drop_str n s) = (String.length s - n)%nat.
Proof. revert s; induction n; intros [|a s]; cbn; try done; by rewrite IHn. Qed.
Lemma decode_rune_width s : (1 ≤ (decode_rune s).2)%nat.
Proof. unfold decode_rune. by repeat case_match; cbn; lia. Qed.

Lemma esc_rune_shorter s r c : esc_rune s = Some (r, c) → (String.length c < String.length s)%nat.
Proof.
  unfold esc_rune. pose proof (decode_rune_width s) as Hw. destruct (decode_rune s) as [r' n]. cbn in *.
  destruct (bool_decide (drop_str n s = "")) eqn:E; [by rewrite orb_true_r|].
  destruct (_ || _); [done|]. intros [= _ <-]. rewrite length_drop_str.
  destruct s; [|cbn; lia]. exfalso. apply bool_decide_eq_false_1 in E. apply E. by destruct n.
Qed.
Lemma getEsc_shorter chunk r c : getEsc chunk = Some (r, c) → (String.length c < String.length chunk)%nat.
Proof.
  destruct chunk as [|a s]; [done|].
  assert (H : getEsc (String a s) = None ∨ getEsc (String a s) = esc_rune s ∨
              getEsc (String a s) = esc_rune (String a s)).
  { unfold getEsc. repeat case_match; auto. }
  destruct H as [-> | [-> | ->]]; [done| |]; intros E%esc_rune_shorter; cbn in *; lia.
Qed.

(** The upper bound of a range, and what follows it. *)
Lemma range_end_shorter (lo : N) (c : string) hi c' :
  match c with String "-" d => getEsc d | _ => Some (lo, c) end = Some (hi, c') →
  (String.length c' ≤ String.length c)%nat.
Proof.
  destruct c as [|a d]; [by intros [= _ <-]|].
  set (m := match String a d with String "-" d => getEsc d | _ => Some (lo, String a d) end).
  assert (Hm : m = getEsc d ∨ m = Some (lo, String a d)) by (unfold m; repeat case_match; auto).
  destruct Hm as [-> | ->]; [intros E%getEsc_shorter; cbn; lia|by intros [= _ <-]].
Qed.

#[local] Arguments getEsc : simpl never.

Lemma match_ranges_fuel n first r chunk hit :
  (String.length chunk < n)%nat →
  match_ranges (S n) first r chunk hit = match_ranges n first r chunk hit ∧
  ∀ h c, match_ranges n first r chunk hit = Some (h, c) → (String.length c < String.length chunk)%nat.
Proof.
  revert first chunk hit; induction n as [|n IH]; intros first chunk hit Hn; [lia|].
  set (rec := λ m, '(lo, c) ← getEsc chunk;
      '(hi, c) ← match c with String "-" c' => getEsc c' | _ => Some (lo, c) end;
      match_ranges m false r c (hit || ((lo <=? r) && (r <=? hi))%N)).
  assert (Hb : (∃ c, (String.length c < String.length chunk)%nat ∧ ∀ m, match_ranges (S m) first r chunk hit = Some (hit, c)) ∨
               ∀ m, match_ranges (S m) first r chunk hit = rec m).
  { unfold rec. destruct chunk as [|a d]; [by right|]. destruct first; [right; intros m; cbn; by repeat case_match|].
    destruct (Ascii.eqb_spec a "]") as [->|Ha]; [left; exists d; cbn; split; [lia|done]|right; intros m].
    cbn. repeat case_match; try done. }
  destruct Hb as [(c & Hc & Hb)|Hb]; rewrite !Hb; [split; [done|]; by intros h c' [= <- <-]|].
  unfold rec. destruct (getEsc chunk) as [[lo c]|] eqn:E; [|done]. apply getEsc_shorter in E. cbn [mbind option_bind].
  destruct (match c with String "-" c' => getEsc c' | _ => Some (lo, c) end) as [[hi c']|] eqn:E'; [|done].
  apply range_end_shorter in E'. cbn [mbind option_bind].
  destruct (IH false c' (hit || ((lo <=? r) && (r <=? hi))%N)) as [-> IH2]; [lia|]. split; [done|].
  intros h c2 K%IH2. lia.
Qed.

(** One turn of [match_chunk] ends, or goes on with a shorter chunk. *)
Lemma match_chunk_turn chunk name :
  (∃ x, ∀ m, match_chunk (S m) chunk name = x) ∨
  ∃ c nm, (String.length c < String.length chunk)%nat ∧ ∀ m, match_chunk (S m) chunk name = match_chunk m c nm.
Proof.
  destruct chunk as [|a d]; [left; by exists (Some name)|].
  destruct (Ascii.eqb_spec a "[") as [->|Hb].
  - cbn -[match_ranges]. set (name' := match name with Some EmptyString => None | _ => name end).
    destruct (match name' with Some s => let '(r, n) := decode_rune s in (r, Some (drop_str n s)) | None => (0%N, None) end)
      as [r rest] eqn:E. clear E.
    destruct (match d with String "^" c' => (true, c') | _ => (false, d) end) as [negated c] eqn:Ec.
    assert (Hc : (String.length c ≤ String.length d)%nat).
    { destruct d as [|x d']; [by simplify_eq|]. revert Ec. repeat case_match; intros; simplify_eq; cbn; lia. }
    destruct (match_ranges (S (String.length c)) true r c false) as [[hit c']|] eqn:Em; [|by left; exists None].
    right. exists c', (if Bool.eqb hit negated then None else rest). split; [|done].
    destruct (match_ranges_fuel (S (String.length c)) true r c false) as [_ Hl]; [lia|].
    apply Hl in Em. lia.
  - destruct (Ascii.eqb_spec a "\") as [->|Hs].
    { destruct d as [|x d]; [left; by exists None|].
      right. eexists d, _. split; [cbn; lia|reflexivity]. }
    right. exists d. destruct (Ascii.eqb_spec a "?") as [->|Hq]; [eexists; split; [cbn; lia|reflexivity]|].
    exists (match match name with Some EmptyString => None | _ => name end with
            | Some (String b s) => if (a =? b)%char then Some s else None
            | _ => None
            end). split; [cbn; lia|]. intros m. clear -Hb Hs Hq.
    destruct a as [[] [] [] [] [] [] [] []]; done.
Qed.

Lemma match_chunk_fuel n chunk name :
  (String.length chunk < n)%nat → match_chunk (S n) chunk name = match_chunk n chunk name.
Proof.
  revert chunk name; induction n as [|n IH]; intros chunk name Hn; [lia|].
  destruct (match_chunk_turn chunk name) as [[x Hx]|(c & nm & Hc & Hx)]; rewrite !Hx; [done|].
  apply IH. lia.
Qed.

Lemma skip_stars_length p : (String.length (skip_stars p).2 ≤ String.length p)%nat.
Proof. induction p as [|a p IH]; [done|]. cbn. repeat case_match; cbn; lia. Qed.
Lemma scan_chunk_turn b a d :
  a ≠ "\"%char →
  scan_chunk b (String a d) = ("", String a d) ∨
  ∃ b', scan_chunk b (String a d) = (String a (scan_chunk b' d).1, (scan_chunk b' d).2).
Proof.
  intros Ha. destruct (Ascii.eqb_spec a "[") as [->|H1]; [right; by exists true|].
  destruct (Ascii.eqb_spec a "]") as [->|H2]; [right; by exists false|].
  destruct (Ascii.eqb_spec a "*") as [->|H3]; [destruct b; [right; by exists true|by left]|].
  right. exists b. destruct a as [[] [] [] [] [] [] [] []]; done.
Qed.
Lemma scan_chunk_length b p :
  (String.length (scan_chunk b p).1 + String.length (scan_chunk b p).2 = String.length p)%nat.
Proof.
  remember (String.length p) as n eqn:E. revert b p E.
  induction (lt_wf n) as [n _ IH]; intros b p ->. destruct p as [|a d]; [done|].
  destruct (Ascii.eqb_spec a "\") as [->|Hs].
  - destruct d as [|x d]; [done|]. pose proof (IH (String.length d) ltac:(cbn; lia) b d eq_refl) as K.
    cbn in *. lia.
  - destruct (scan_chunk_turn b a d Hs) as [-> | [b' ->]]; [done|].
    pose proof (IH (String.length d) ltac:(cbn; lia) b' d eq_refl) as K. cbn in *. lia.
Qed.

(** A turn of the outer loop cuts at least a byte off the pattern. *)
Lemma chunk_shorter a pat :
  let p := (skip_stars (String a pat)).2 in
  ((skip_stars (String a pat)).1 && bool_decide ((scan_chunk false p).1 = "")) = false →
  (String.length (scan_chunk false p).2 < String.length (String a pat))%nat.
Proof.
  intros p. unfold p. destruct (Ascii.eqb_spec a "*") as [->|Ha].
  - cbn [skip_stars fst snd]. intros _. pose proof (skip_stars_length pat). pose proof (scan_chunk_length false (skip_stars pat).2).
    cbn. lia.
  - assert (skip_stars (String a pat) = (false, String a pat)) as ->
      by (destruct a as [[] [] [] [] [] [] [] []]; done).
    intros _. cbn [snd]. pose proof (scan_chunk_length false (String a pat)) as K.
    destruct (Ascii.eqb_spec a "\") as [->|Hs].
    + destruct pat as [|x d]; [cbn; lia|]. pose proof (scan_chunk_length false d). cbn. lia.
    + destruct (scan_chunk_turn false a pat Hs) as [E|[b' E]]; [|rewrite E in *; cbn in *; lia].
      exfalso. revert E. destruct a as [[] [] [] [] [] [] [] []]; done.
Qed.

Lemma match_loop_fuel n pattern name :
  (String.length pattern < n)%nat → match_loop (S n) pattern name = match_loop n pattern name.
Proof.
  revert pattern name; induction n as [|n IH]; intros pattern name Hn; [lia|].
  destruct pattern as [|a pat]; [done|].
  pose proof (chunk_shorter a pat) as Hs. cbn zeta in Hs.
  change (match_loop (S (S n)) (String a pat) name) with
    (let '(star, p) := skip_stars (String a pat) in
     let '(chunk, rest) := scan_chunk false p in
     if star && bool_decide (chunk = "") then no_byte "/" name
     else match_turn (match_loop (S n)) star chunk rest name).
  change (match_loop (S n) (String a pat) name) with
    (let '(star, p) := skip_stars (String a pat) in
     let '(chunk, rest) := scan_chunk false p in
     if star && bool_decide (chunk = "") then no_byte "/" name
     else match_turn (match_loop n) star chunk rest name).
  destruct (skip_stars (String a pat)) as [star p]. cbn [fst snd] in Hs.
  destruct (scan_chunk false p) as [chunk rest]. cbn [fst snd] in Hs.
  destruct (star && bool_decide (chunk = "")); [done|]. specialize (Hs eq_refl). cbn in Hn, Hs.
  unfold match_turn. repeat case_match; try done; apply IH; lia.
Qed.

Example glob_suffix : path_Match "checkout-*" "checkout-7" = true. Proof. reflexivity. Qed.
Example glob_slash : path_Match "photos*" "photos/cat.png" = false. Proof. reflexivity. Qed.
Example glob_two : path_Match "*/*.png" "photos/cat.png" = true. Proof. reflexivity. Qed.
Example glob_class : path_Match "db[0-9]?" "db7a" = true. Proof. reflexivity. Qed.
Example glob_negated : path_Match "db[^0-9]" "db7" = false. Proof. reflexivity. Qed.
Example glob_bad : path_Match "db[" "db" = false. Proof. reflexivity. Qed.
Example glob_escape : path_Match "a\*" "a*" = true. Proof. reflexivity. Qed.
Example glob_backtrack : path_Match "a*b*c" "axxbyybzc" = true. Proof. reflexivity. Qed.

(** ** json.Marshal *)

Definition b64_char (n : N) : ascii :=
  if (n <? 26)%N then ascii_of_N (65 + n)
  else if (n <? 52)%N then ascii_of_N (97 + (n - 26))
  else if (n <? 62)%N then ascii_of_N (48 + (n - 52))
  else if (n =? 62)%N then "+"%char else "/"%char.

Fixpoint base64 (s : string) : string :=
  let n a := N_of_ascii a in
  match s with
  | String a (String b (String c s)) =>
    let v := ((n a * 256 + n b) * 256 + n c)%N in
    String (b64_char (v / 262144)) (String (b64_char (v / 4096 mod 64))
      (String (b64_char (v / 64 mod 64)) (String (b64_char (v mod 64)) (base64 s))))
  | String a (String b EmptyString) =>
    let v := ((n a * 256 + n b) * 4)%N in
    String (b64_char (v / 4096)) (String (b64_char (v / 64 mod 64)) (String (b64_char (v mod 64)) "="))
  | String a EmptyString =>
    let v := (n a * 16)%N in String (b64_char (v / 64)) (String (b64_char (v mod 64)) "==")
  | EmptyString => ""
  end.

Definition quote : ascii := ascii_of_N 34.

(** The escapes of package json, HTML-safe by default. *)
Fixpoint escape (s : string) : string :=
  match s with
  | EmptyString => ""
  | String a s =>
    let n := N_of_ascii a in
    (if (n =? 34)%N then String "\" (String quote "")
     else if (n =? 92)%N then "\\"
     else if (n =? 8)%N then "\b" else if (n =? 12)%N then "\f"
     else if (n =? 10)%N then "\n" else if (n =? 13)%N then "\r" else if (n =? 9)%N then "\t"
     else if ((n <? 32) || (n =? 60) || (n =? 62) || (n =? 38))%N then
       "\u00" +:+ String (hex_digit (n / 16)) (String (hex_digit (n mod 16)) "")
     else String a "")
    +:+ escape s
  end.

(** U+2028 and U+2029 are escaped too. *)
Fixpoint escape_separators (s : string) : string :=
  match s with
  | String a ((String b (String c s')) as r) =>
    let n a := N_of_ascii a in
    if ((n a =? 0xE2) && (n b =? 0x80) && ((n c =? 0xA8) || (n c =? 0xA9)))%N
    then "\u202" +:+ String (hex_digit (n c - 0xA0)) (escape_separators s')
    else String a (escape_separators r)
  | _ => s
  end.

Definition quoted (s : string) : string := String quote (escape_separators (escape s) +:+ String quote "").

Fixpoint Marshal (j : json) : string :=
  match j with
  | JNull => "null"
  | JBool b => if b then "true" else "false"
  | JNum z => itoa z
  | JStr s => quoted s
  | JTime t => String quote (rfc3339nano t +:+ String quote "")
  | JBytes s => String quote (base64 s +:+ String quote "")
  | JArr l =>
    "[" +:+ (fix go (l : list json) : string :=
       match l with
       | [] => ""
       | [x] => Marshal x
       | x :: l => Marshal x +:+ "," +:+ go l
       end) l +:+ "]"
  | JObj kvs =>
    "{" +:+ (fix go (l : list (string * json)) : string :=
       match l with
       | [] => ""
       | [(k, x)] => quoted k +:+ ":" +:+ Marshal x
       | (k, x) :: l => quoted k +:+ ":" +:+ Marshal x +:+ "," +:+ go l
       end) kvs +:+ "}"
  end.
