(* ===== verification/Bus.v ===== *)
(** The event bus (internal/events/bus.go): a bounded queue, a worker that
    persists each event and hands it to subscribers and sinks, and the log
    trimmer.

    Subscriber callbacks and sinks are known by an identifier; [Sys] records
    the calls made on subscribers and the goroutines started for sinks, in
    order.  A callback that panics is recovered, so a call always returns. *)

From S2P Require Import Prelude GoTime Json Types Bolt Store StoreOps StoreLaws Table StoreProps.

Definition queue_capacity : nat := 1024.

Record Bus := mkBus {
  queue : list EventRecord;
  stopped : bool;
  dropped : Z;          (** an [atomic.Uint64] *)
  sinks : list string;
  bsubs : list nat;     (** the keys of the subscriber map *)
  nextID : nat;
}.

Record Sys `{Bolt} := mkSys {
  world : World;
  bus : Bus;
  handled : list EventRecord;                 (** events dispatched so far *)
  calls : list (nat * EventRecord);           (** subscriber callbacks run *)
  tasks : list (string * EventRecord);        (** goroutines started for sinks *)
}.

Section Bus.
Context `{Bolt}.

(** A computation of the store inside the system. *)
Definition lift {A} (m : M World A) : M Sys A := λ s,
  match m (world s) with
  | Ret a w => Ret a (mkSys _ w (bus s) (handled s) (calls s) (tasks s))
  | Panic => Panic
  end.
Definition set_bus (b : Bus) (s : Sys) : Sys := mkSys _ (world s) b (handled s) (calls s) (tasks s).
Definition on_bus (f : Bus → Bus) : M Sys () := modify (λ s, set_bus (f (bus s)) s).

Definition NewBus : Bus := mkBus [] false 0 [] [] O.

Definition AddSink (name : string) : M Sys () := on_bus (λ b, { b with sinks ::= (λ l, l ++ [name]) }).

(** [Subscribe]; the result identifies the callback, for [Unsubscribe]. *)
Definition Subscribe : M Sys nat := λ s,
  let b := bus s in
  Ret (nextID b) (set_bus { b with bsubs ::= (λ l, l ++ [nextID b]); nextID ::= S } s).
Definition Unsubscribe (id : nat) : M Sys () :=
  on_bus (λ b, { b with bsubs ::= List.filter (λ i, negb (i =? id)%nat) }).

(** The defaults [Emit] fills in. *)
Definition emit_defaults (t : time) (ev : EventRecord) : EventRecord :=
  let ev := if IsZero (EventRecord_At ev) then { ev with EventRecord_At := t } else ev in
  if bool_decide (EventRecord_Project ev = "") then { ev with EventRecord_Project := "default" } else ev.

(** [uint64] addition wraps. *)
Definition uadd64 (x y : Z) : Z := (x + y) mod 2 ^ 64.

Definition enqueue (ev : EventRecord) (b : Bus) : Bus :=
  if (length (queue b) <? queue_capacity)%nat then { b with queue ::= (λ q, q ++ [ev]) }
  else { b with dropped ::= (λ n, uadd64 n 1) }.

Definition Emit (ev : EventRecord) : M Sys () :=
  s ← get_state;
  if stopped (bus s) then mret ()
  else
    t ← (if IsZero (EventRecord_At ev) then lift now else mret zero_time);
    on_bus (enqueue (emit_defaults t ev)).

Definition Dropped : M Sys Z := gets (λ s, dropped (bus s)).

(** Persist, then call each subscriber, then start each sink. *)
Definition dispatch (ev : EventRecord) : M Sys () :=
  r ← lift (AppendEvent ev);
  let ev := r.1 in
  modify (λ s, mkSys _ (world s) (bus s) (handled s ++ [ev])
                 (calls s ++ ((λ i, (i, ev)) <$> bsubs (bus s)))
                 (tasks s ++ ((λ n, (n, ev)) <$> sinks (bus s)))).

(** One turn of the worker's loop: the context is done, or an event is
    received.  [false] when it has to wait. *)
Definition run_done : M Sys () := on_bus (λ b, { b with stopped := true }).
Definition run_step : M Sys bool :=
  s ← get_state;
  match queue (bus s) with
  | [] => mret false
  | ev :: q => on_bus (λ b, { b with queue := q }) ;; dispatch ev ;; mret true
  end.

(** One tick of the trimmer. *)
Definition trim_tick : M Sys () :=
  r ← lift ListProjects;
  match r with
  | Err _ => mret ()
  | Ok projects => for_each (λ p, _ ← lift (TrimEvents (Meta_Name (Project_Meta p)) 10000); mret ()) projects
  end.

(** What the outside does with the bus, in any order. *)
Inductive op :=
  | OEmit (ev : EventRecord)
  | ORun
  | OTick
  | OAddSink (name : string)
  | OSubscribe
  | OUnsubscribe (id : nat).

Definition do_op (o : op) : M Sys () :=
  match o with
  | OEmit ev => Emit ev
  | ORun => _ ← run_step; mret ()
  | OTick => trim_tick
  | OAddSink n => AddSink n
  | OSubscribe => _ ← Subscribe; mret ()
  | OUnsubscribe i => Unsubscribe i
  end.

Definition do_ops (l : list op) : M Sys () := for_each do_op l.
End Bus.

Definition emitted (l : list op) : list EventRecord :=
  omap (λ o, match o with OEmit ev => Some ev | _ => None end) l.

(** The same event up to the identifier, instant and project filled in. *)
Definition same_event (e e' : EventRecord) : Prop :=
  EventRecord_Type e' = EventRecord_Type e ∧ EventRecord_Subject e' = EventRecord_Subject e ∧
  EventRecord_Data e' = EventRecord_Data e ∧ EventRecord_Body e' = EventRecord_Body e ∧
  (EventRecord_Project e ≠ "" → EventRecord_Project e' = EventRecord_Project e) ∧
  EventRecord_Project e' ≠ "" ∧
  (IsZero (EventRecord_At e) = false → EventRecord_At e' = EventRecord_At e) ∧
  (EventRecord_UID e ≠ "" → EventRecord_UID e' = EventRecord_UID e).

Section Props.
Context `{BL : BoltLaws}.
Implicit Types s : Sys.

(** Accounting: the accepted events are those handled and those queued. *)
Definition accounts (n : nat) (acc : list EventRecord) s : Prop :=
  Forall2 same_event acc (handled s ++ queue (bus s)) ∧
  (length acc + Z.to_nat (dropped (bus s)) = n)%nat ∧
  0 <= dropped (bus s) ∧
  stopped (bus s) = false ∧ (length (queue (bus s)) ≤ queue_capacity)%nat.

Lemma emit_defaults_same t ev : same_event ev (emit_defaults t ev).
Proof.
  unfold emit_defaults. destruct ev as [u ty p su a d b]. destruct (IsZero _) eqn:Ha; cbn in *;
    case_bool_decide; unfold same_event; cbn; split_and!; try done; congruence.
Qed.

Lemma AppendEvent_rel ev w r w' :
  AppendEvent ev w = Ret r w' →
  ∃ u a, r.1 = { ev with EventRecord_UID := u; EventRecord_At := a } ∧
         (EventRecord_UID ev ≠ "" → u = EventRecord_UID ev) ∧
         (IsZero (EventRecord_At ev) = false → a = EventRecord_At ev).
Proof.
  unfold AppendEvent, mbind, M_bind. intros Hrun.
  destruct ev as [u ty p su a d b]. cbn [EventRecord_UID EventRecord_At] in *.
  destruct (bool_decide_reflect (u = "")) as [Hu|Hu].
  - cbn in Hrun. destruct (IsZero a) eqn:Ha; cbn in Hrun; rewrite ?Ha in Hrun;
      destruct (put _ _ _ _) as [o w1|]; [|done| |done]; injection Hrun as <- _;
      do 2 eexists; (split; [reflexivity|]); done.
  - cbn in Hrun. destruct (IsZero a) eqn:Ha; cbn in Hrun;
      destruct (put _ _ _ _) as [o w1|]; [|done| |done]; injection Hrun as <- _;
      do 2 eexists; (split; [reflexivity|]); done.
Qed.

Lemma same_event_append e q h u a :
  same_event e q → h = { q with EventRecord_UID := u; EventRecord_At := a } →
  (EventRecord_UID q ≠ "" → u = EventRecord_UID q) →
  (IsZero (EventRecord_At q) = false → a = EventRecord_At q) → same_event e h.
Proof.
  destruct e, q. unfold same_event. cbn. intros (-> & -> & -> & -> & Hp & Hp' & Ha & Hu) -> Hu' Ha'.
  cbn. split_and!; try done.
  - intros Hz. specialize (Ha Hz). rewrite <-Ha in Hz |- *. by apply Ha'.
  - intros Hz. specialize (Hu Hz). rewrite <-Hu in Hz |- *. by apply Hu'.
Qed.

(** ** Each operation keeps the accounts *)

Lemma accounts_ext n acc s s' :
  accounts n acc s → bus s' = bus s → handled s' = handled s → accounts n acc s'.
Proof. unfold accounts. by intros ? -> ->. Qed.

(** Operations that touch neither the queue, the counter nor the history. *)
Definition quiet (f : Bus → Bus) : Prop :=
  ∀ b, queue (f b) = queue b ∧ dropped (f b) = dropped b ∧ stopped (f b) = stopped b.

Lemma accounts_quiet n acc s f : quiet f → accounts n acc s → accounts n acc (set_bus (f (bus s)) s).
Proof.
  intros Hf. unfold accounts. cbn [bus handled set_bus].
  by destruct (Hf (bus s)) as (-> & -> & ->).
Qed.

Lemma lift_run {A} (m : M World A) s r s' :
  lift m s = Ret r s' →
  ∃ w', m (world s) = Ret r w' ∧ s' = mkSys _ w' (bus s) (handled s) (calls s) (tasks s).
Proof.
  unfold lift. destruct (m (world s)) as [a w'|] eqn:E; [|done]. intros [= -> <-]. by exists w'.
Qed.

Lemma Emit_accounts n acc s ev r s' :
  accounts n acc s → Z.of_nat n < 2 ^ 64 - 1 → Emit ev s = Ret r s' →
  ∃ acc', (acc' = acc ∨ acc' = acc ++ [ev]) ∧ accounts (S n) acc' s'.
Proof.
  intros (Hacc & Hn & Hd0 & Hst & Hq) Hbound. unfold Emit.
  unfold mbind, M_bind, get_state. rewrite Hst.
  assert (Hgen : ∀ t s1, bus s1 = bus s → handled s1 = handled s →
    Ret (S:=Sys) () (set_bus (enqueue (emit_defaults t ev) (bus s1)) s1) = Ret r s' →
    ∃ acc', (acc' = acc ∨ acc' = acc ++ [ev]) ∧ accounts (S n) acc' s').
  { intros t s1 Hb1 Hh1 [= _ <-]. unfold enqueue. rewrite Hb1.
    destruct (Nat.ltb_spec (length (queue (bus s))) queue_capacity) as [Hlt|Hge].
    - exists (acc ++ [ev]). split; [by right|]. unfold accounts. cbn [bus set_bus handled]. rewrite Hh1.
      destruct (bus s) as [q st dr sk sb nx]. cbn in *. rewrite app_assoc. split_and!; try done.
      + apply Forall2_app; [done|]. constructor; [apply emit_defaults_same|constructor].
      + rewrite length_app. cbn. lia.
      + rewrite length_app. cbn. lia.
    - exists acc. split; [by left|]. unfold accounts. cbn [bus set_bus handled]. rewrite Hh1.
      destruct (bus s) as [q st dr sk sb nx]. cbn in *.
      assert (Hdr : uadd64 dr 1 = dr + 1) by (unfold uadd64; apply Z.mod_small; lia).
      rewrite Hdr. split_and!; try done; lia. }
  destruct (IsZero (EventRecord_At ev)).
  - intros Hrun. by eapply Hgen; [..|exact Hrun].
  - intros Hrun. by eapply Hgen; [..|exact Hrun].
Qed.

Lemma run_step_accounts n acc s r s' :
  accounts n acc s → run_step s = Ret r s' → accounts n acc s'.
Proof.
  intros Hs. pose proof Hs as (Hacc & Hn & Hd0 & Hst & Hq). unfold run_step, mbind, M_bind, get_state.
  destruct (queue (bus s)) as [|ev q] eqn:Eq; [by intros [= <- <-]|].
  unfold on_bus, modify, dispatch, mbind, M_bind.
  destruct (lift _ _) as [a s1|] eqn:El; [|done]. intros [= _ <-].
  apply lift_run in El as (w' & Hrun & ->). apply AppendEvent_rel in Hrun as (u & t & Ha & Hu & Hz).
  unfold accounts. cbn [bus handled set_bus]. rewrite Ha.
  destruct (bus s) as [q0 st dr sk sb nx]. cbn in *. subst q0. split_and!; try done.
  - apply Forall2_app_inv_r in Hacc as (l1 & l2 & Hl1 & Hl2 & ->).
    apply Forall2_cons_inv_r in Hl2 as (e & l2' & He & Hl2' & ->).
    rewrite <-app_assoc. apply Forall2_app; [done|]. constructor; [|done].
    by eapply same_event_append.
  - cbn [length] in Hq. unfold queue_capacity in *. cbn [length] in *. cbn. lia.
Qed.

Lemma trim_tick_accounts n acc s r s' :
  accounts n acc s → trim_tick s = Ret r s' → accounts n acc s'.
Proof.
  intros Hs. unfold trim_tick, mbind, M_bind.
  destruct (lift ListProjects s) as [a s1|] eqn:El; [|done].
  apply lift_run in El as (w' & _ & ->). destruct a as [ps|e].
  - set (s1 := mkSys _ _ _ _ _ _).
    assert (Hs1 : accounts n acc s1) by by eapply accounts_ext. clearbody s1. clear Hs s w'.
    revert s1 Hs1. induction ps as [|p ps IH]; intros s1 Hs1; [by intros [= _ <-]|].
    cbn [for_each]. unfold mbind, M_bind. destruct (lift (TrimEvents _ _) s1) as [a s2|] eqn:El; [|done].
    apply lift_run in El as (w2 & _ & ->). apply IH. by eapply accounts_ext.
  - intros [= _ <-]. by eapply accounts_ext.
Qed.

Lemma do_op_accounts n acc s o r s' :
  accounts n acc s → Z.of_nat n < 2 ^ 64 - 1 → do_op o s = Ret r s' →
  ∃ n' acc', (match o with
              | OEmit ev => n' = S n ∧ (acc' = acc ∨ acc' = acc ++ [ev])
              | _ => n' = n ∧ acc' = acc
              end) ∧ accounts n' acc' s'.
Proof.
  intros Hs Hb. destruct o as [ev| | |nm| |i]; cbn [do_op].
  - intros Hrun. destruct (Emit_accounts _ _ _ _ _ _ Hs Hb Hrun) as (acc' & ? & ?). by exists (S n), acc'.
  - unfold mbind, M_bind. destruct (run_step s) as [b s1|] eqn:E; [|done]. intros [= _ <-].
    exists n, acc. split; [done|]. by eapply run_step_accounts.
  - intros Hrun. exists n, acc. split; [done|]. by eapply trim_tick_accounts.
  - intros [= _ <-]. exists n, acc. split; [done|].
    refine (accounts_quiet _ _ s (λ b, { b with sinks ::= (λ l, l ++ [nm]) }) _ Hs). by intros [].
  - intros [= _ <-]. exists n, acc. split; [done|].
    refine (accounts_quiet _ _ s 
      (λ b, mkBus (queue b) (stopped b) (dropped b) (sinks b) (bsubs b ++ [nextID b]) (S (nextID b))) _ Hs). by intros [].
  - intros [= _ <-]. exists n, acc. split; [done|].
    refine (accounts_quiet _ _ s (λ b, { b with bsubs ::= List.filter (λ j, negb (j =? i)%nat) }) _ Hs). by intros [].
Qed.

(** C33 Whatever the order in which events are emitted, handled, trimmed and
    listeners come and go, the bus loses nothing silently: the events
    accepted are, in the order they were emitted, those handled followed by
    those still queued; every other event was dropped and counted; and the
    queue never exceeds 1024. *)
Theorem bus_accounts_for_every_event (s0 s : Sys) (ops : list op)
    (Hempty : queue (bus s0) = [] ∧ handled s0 = [] ∧ dropped (bus s0) = 0 ∧ stopped (bus s0) = false)
    (Hbound : Z.of_nat (length ops) < 2 ^ 64 - 1)
    (Hrun : do_ops ops s0 = Ret () s) :
  ∃ accepted, sublist accepted (emitted ops) ∧
    Forall2 same_event accepted (handled s ++ queue (bus s)) ∧
    (length accepted + Z.to_nat (dropped (bus s)) = length (emitted ops))%nat ∧
    (length (queue (bus s)) ≤ queue_capacity)%nat.
Proof.
  assert (Hgen : ∀ ops n acc s1, accounts n acc s1 → Z.of_nat (n + length ops) < 2 ^ 64 - 1 →
    do_ops ops s1 = Ret () s →
    ∃ acc', sublist acc' (emitted ops) ∧ accounts (n + length (emitted ops)) (acc ++ acc') s).
  { clear. induction ops as [|o ops IH]; intros n acc s1 Hs1 Hb.
    { intros [= <-]. exists []. cbn. by rewrite Nat.add_0_r, app_nil_r. }
    cbn [length] in Hb. unfold do_ops. cbn [for_each]. unfold mbind at 1, M_bind at 1.
    destruct (do_op o s1) as [[] s2|] eqn:Eo; [|done]. intros Hrun.
    destruct (do_op_accounts _ _ _ _ _ _ Hs1 ltac:(lia) Eo) as (n' & acc' & Ho & Hs2).
    assert (Hcase : ∃ add, acc' = acc ++ add ∧ sublist add (emitted [o]) ∧ n' = (n + length (emitted [o]))%nat ∧
                           (length (emitted [o]) ≤ 1)%nat).
    { destruct o; cbn [emitted omap list_omap length]; try (destruct Ho as [-> ->]; exists [];
        rewrite app_nil_r; split_and!; [done|apply sublist_nil_l|lia|lia]).
      destruct Ho as [-> [-> | ->]].
      - exists []. rewrite app_nil_r. split_and!; [done|apply sublist_nil_l|lia|lia].
      - exists [ev]. split_and!; [done|done|lia|lia]. }
    destruct Hcase as (add & -> & Hsub & -> & Hle).
    destruct (IH _ _ _ Hs2 ltac:(lia) Hrun) as (acc2 & Hsub2 & Hs). exists (add ++ acc2).
    change (emitted (o :: ops)) with (emitted ([o] ++ ops)).
    assert (He : emitted ([o] ++ ops) = emitted [o] ++ emitted ops) by apply omap_app. rewrite He.
    split; [by apply sublist_app|]. rewrite length_app, app_assoc.
    by rewrite Nat.add_assoc. }
  destruct Hempty as (Hq & Hh & Hd & Hst).
  destruct (Hgen ops O [] s0) as (acc & Hsub & Hacc & Hn & _ & _ & Hlen); [|done|done|].
  { unfold accounts. rewrite Hq, Hh, Hd, Hst. cbn. split_and!; try done; unfold queue_capacity; lia. }
  exists acc. cbn in Hacc, Hn. by split_and!.
Qed.
End Props.

(** ** Witness *)

Definition demo_sys : Sys (H:=MemBolt) := mkSys _ demo_world NewBus [] [] [].
Definition demo_ev (ty : string) : EventRecord := { (zero (A:=EventRecord)) with EventRecord_Type := ty }.
Definition demo_ops : list op :=
  [OAddSink "rule-dispatcher"; OEmit (demo_ev "cron"); OSubscribe; OEmit (demo_ev "s3.put"); ORun; OTick].
Definition demo_sys' : Sys := default demo_sys (exec (do_ops demo_ops) demo_sys).

Lemma bus_accounts_for_every_event_witness :
  ∃ accepted, sublist accepted (emitted demo_ops) ∧
    Forall2 same_event accepted (handled demo_sys' ++ queue (bus demo_sys')) ∧
    (length accepted + Z.to_nat (dropped (bus demo_sys')) = length (emitted demo_ops))%nat ∧
    (length (queue (bus demo_sys')) ≤ queue_capacity)%nat.
Proof.
  refine (bus_accounts_for_every_event demo_sys demo_sys' demo_ops _ _ _).
  - split_and!; reflexivity.
  - reflexivity.
  - refine (run_eval (do_ops demo_ops) demo_sys () _). vm_compute. reflexivity.
Defined.
