(* ===== verification/Dispatcher.v ===== *)
(** The rule dispatcher (internal/events/dispatcher.go) and two sources of
    events: the container log scanner (internal/events/logscan) and the
    sidecar socket (internal/events/sidecar).

    Go's regexp engine is the parameter [Regexp]: what a pattern compiles to,
    as the groups it finds in a text.  The network answers through the
    parameters of [deliverWebhook]. *)

From Stdlib Require Import Ascii.
From S2P Require Import Prelude GoTime Json Types Bolt Store StoreOps StoreLaws Table StoreProps Text Glob Bus.

#[local] Arguments String.append : simpl nomatch.

Record Regex := mkRegex {
  re_String : string;                                (** the source text *)
  re_FindStringSubmatch : string → option (list string);
  re_SubexpNames : list string;
}.
Class Regexp := regexp_Compile : string → option Regex.

Definition re_MatchString (re : Regex) (s : string) : bool :=
  match re_FindStringSubmatch re s with Some _ => true | None => false end.

(** ** Matching *)

Fixpoint type_hit (types : list string) (ty : string) : bool :=
  match types with
  | [] => false
  | t :: types => if bool_decide (t = ty) || bool_decide (t = "*") then true else type_hit types ty
  end.

Definition ruleMatches `{Regexp} (rule : EventRule) (ev : EventRecord) : bool :=
  let m := EventRule_Match rule in
  if negb (bool_decide (EventMatch_Types m = [])) && negb (type_hit (EventMatch_Types m) (EventRecord_Type ev))
  then false
  else if bool_decide (EventMatch_Subject m = "") then true
  else if bool_decide (EventRecord_Type ev = "container.log") then
    match regexp_Compile (EventMatch_Subject m) with
    | None => false
    | Some re => re_MatchString re (default "" (EventRecord_Data ev !! "line"))
    end
  else bool_decide (EventRecord_Subject ev = EventMatch_Subject m)
       || path_Match (EventMatch_Subject m) (EventRecord_Subject ev).

(** The guards of the loop of [Handle]. *)
Definition sameProject (rule : EventRule) (ev : EventRecord) : bool :=
  let p := Meta_Project (EventRule_Meta rule) in
  negb (negb (bool_decide (p = "")) && negb (bool_decide (EventRecord_Project ev = ""))
        && negb (bool_decide (p = EventRecord_Project ev))).
Definition fires `{Regexp} (rule : EventRule) (ev : EventRecord) : bool :=
  EventRule_Enabled rule && sameProject rule ev && ruleMatches rule ev.

(** The goroutines [runActions] starts. *)
Inductive Action :=
  | ActWebhook (rule : EventRule) (ev : EventRecord)
  | ActInvoke (rule : EventRule) (ev : EventRecord)
  | ActContainer (rule : EventRule) (ev : EventRecord).

Definition runActions (rule : EventRule) (ev : EventRecord) : list Action :=
  let a := EventRule_Action rule in
  (match EventAction_Webhook a with Some _ => [ActWebhook rule ev] | None => [] end) ++
  (match EventAction_Invoke a with Some _ => [ActInvoke rule ev] | None => [] end) ++
  (match EventAction_Container a with Some _ => [ActContainer rule ev] | None => [] end).

Definition countFire (t : time) (rule : EventRule) : EventRule :=
  { rule with EventRule_LastFiredAt := t; EventRule_FireCount ::= (λ n, wrap64 (n + 1)) }.

Section Dispatcher.
Context `{Regexp} `{Bolt}.

(** The loop of [Handle]; the result is the actions it starts. *)
Fixpoint handle_rules (rules : list EventRule) (ev : EventRecord) : M World (list Action) :=
  match rules with
  | [] => mret []
  | rule :: rules =>
    if fires rule ev then
      t ← now;
      r ← PutEventRule (countFire t rule);
      rest ← handle_rules rules ev;
      mret (runActions r.1 ev ++ rest)
    else handle_rules rules ev
  end.

Definition Handle (ev : EventRecord) : M World (list Action) :=
  r ← ListAllEventRules;
  match r with
  | Err _ => mret []
  | Ok rules => handle_rules rules ev
  end.

(** ** Webhook delivery *)

(** [textproto.CanonicalMIMEHeaderKey] on header names made of tokens. *)
Definition upper_byte (a : ascii) : ascii :=
  let n := N_of_ascii a in
  if ((97 <=? n) && (n <=? 122))%N then ascii_of_N (n - 32) else a.
Fixpoint canonical_go (up : bool) (s : string) : string :=
  match s with
  | EmptyString => ""
  | String a s => String (if up then upper_byte a else lower_byte a) (canonical_go (Ascii.eqb a "-") s)
  end.
Definition canonicalKey (s : string) : string := canonical_go true s.

#[local] Abbreviation headers := (gmap string string).
Definition setHeader (k v : string) (h : headers) : headers := <[canonicalKey k := v]> h.

Record Request := mkRequest {
  req_Method : string;
  req_URL : string;
  req_Headers : gmap string string;
  req_Body : string;
}.

Definition signature (secret ts body : string) : string :=
  "t=" +:+ ts +:+ ",v1=" +:+ hex_encode (hmac_sha256 secret (ts +:+ "." +:+ body)).

(** The request of one attempt, at Unix time [ts]. *)
Definition webhookRequest (cfg : WebhookAction) (rule : EventRule) (ev : EventRecord) (ts : Z) : Request :=
  let method := if bool_decide (WebhookAction_Method cfg = "") then "POST" else WebhookAction_Method cfg in
  let body := Marshal (enc ev) in
  let h := setHeader "x-selfcloud-rule" (Meta_Name (EventRule_Meta rule))
             (setHeader "x-selfcloud-event" (EventRecord_Type ev)
               (setHeader "user-agent" "selfcloud-events/1"
                 (setHeader "content-type" "application/json" ∅))) in
  let h := if bool_decide (EventRecord_Subject ev = "") then h
           else setHeader "x-selfcloud-subject" (EventRecord_Subject ev) h in
  let h := foldl (λ h kv, setHeader kv.1 kv.2 h) h (map_to_list (WebhookAction_Headers cfg)) in
  let h := if bool_decide (WebhookAction_Secret cfg = "") then h
           else setHeader "x-selfcloud-signature" (signature (WebhookAction_Secret cfg) (itoa ts) body) h in
  mkRequest method (WebhookAction_URL cfg) h body.

Definition backoff (attempt : Z) : Z :=
  let d := Z.shiftl 1 (attempt - 1) * Second in
  if Minute <? d then Minute else d.

Definition delivery (rule : EventRule) (url : string) (ev : EventRecord) (attempt status : Z)
    (errMsg : string) (done : bool) (started finished : time) : WebhookDelivery :=
  let name := Meta_Name (EventRule_Meta rule) in
  mkWebhookDelivery
    { (zero (A:=Meta)) with Meta_Project := Meta_Project (EventRule_Meta rule);
      Meta_Name := name +:+ "-" +:+ EventRecord_UID ev +:+ "-" +:+ itoa attempt }
    name url status errMsg attempt zero_time done started finished (EventRecord_UID ev) (EventRecord_Type ev).

Definition recordDelivery (rule : EventRule) (url : string) (ev : EventRecord) (attempt status : Z)
    (errMsg : string) (done : bool) : M World () :=
  started ← now;
  finished ← now;
  _ ← PutDelivery (delivery rule url ev attempt status errMsg done started finished);
  mret ().

(** One attempt as the outside sees it: the request sent and the pause after
    it. *)
Record Attempt := mkAttempt { a_number : Z; a_request : Request; a_sleep : Z }.

Definition is_2xx (status : Z) : bool := (200 <=? status) && (status <? 300).

(** The environment of a delivery: whether [http.NewRequest] accepts method
    and URL, and the answer to each attempt (a status, or a transport
    error). *)
Context (newRequest : string → string → option error) (do : Z → Request → res Z).

Definition exhausted (rule : EventRule) (url : string) (ev : EventRecord) (lastStatus : Z)
    (lastErr : string) : M World () :=
  recordDelivery rule url ev 5 lastStatus ("exhausted: " +:+ lastErr) true.

(** Attempts [attempt .. attempt + n - 1]. *)
Fixpoint deliver_loop (n : nat) (cfg : WebhookAction) (rule : EventRule) (ev : EventRecord)
    (attempt lastStatus : Z) (lastErr : string) : M World (list Attempt) :=
  match n with
  | O => exhausted rule (WebhookAction_URL cfg) ev lastStatus lastErr ;; mret []
  | S n =>
    let method := if bool_decide (WebhookAction_Method cfg = "") then "POST" else WebhookAction_Method cfg in
    match newRequest method (WebhookAction_URL cfg) with
    | Some e => exhausted rule (WebhookAction_URL cfg) ev lastStatus (error_text e) ;; mret []
    | None =>
      ts ← (if bool_decide (WebhookAction_Secret cfg = "") then mret 0 else t ← now; mret (Unix t));
      let req := webhookRequest cfg rule ev ts in
      match do attempt req with
      | Err e =>
        recordDelivery rule (WebhookAction_URL cfg) ev attempt 0 (error_text e) false ;;
        rest ← deliver_loop n cfg rule ev (attempt + 1) lastStatus (error_text e);
        mret (mkAttempt attempt req (backoff attempt) :: rest)
      | Ok status =>
        if is_2xx status then
          recordDelivery rule (WebhookAction_URL cfg) ev attempt status "" true ;;
          mret [mkAttempt attempt req 0]
        else
          let lastErr := "http " +:+ itoa status in
          recordDelivery rule (WebhookAction_URL cfg) ev attempt status lastErr false ;;
          rest ← deliver_loop n cfg rule ev (attempt + 1) status lastErr;
          mret (mkAttempt attempt req (backoff attempt) :: rest)
      end
    end
  end.

Definition deliverWebhook (cfg : WebhookAction) (rule : EventRule) (ev : EventRecord) : M World (list Attempt) :=
  deliver_loop 5 cfg rule ev 1 0 "".
End Dispatcher.

(** ** The other two actions

    The runtimes are reached through two interfaces, absent ([None]) when the
    server has none. *)
Class FunctionInvoker (S : Type) :=
  InvokeForEvent : string → string → string → string → M S (option error).
Class ContainerControl (S : Type) := {
  StartByName : string → string → M S (option error);
  StopByName : string → string → M S (option error);
  RestartByName : string → string → M S (option error);
}.

Definition orProject (p : string) (rule : EventRule) : string :=
  if bool_decide (p = "") then Meta_Project (EventRule_Meta rule) else p.

Definition invokeFunction {S} (fns : option (FunctionInvoker S)) (cfg : InvokeAction)
    (rule : EventRule) (ev : EventRecord) : M S () :=
  match fns with
  | None => mret ()
  | Some fns =>
    let p := if bool_decide (InvokeAction_Path cfg = "") then "/" else InvokeAction_Path cfg in
    _ ← @InvokeForEvent S fns (orProject (InvokeAction_Project cfg) rule) (InvokeAction_Function cfg) p
          (Marshal (enc ev));
    mret ()
  end.

(** The result is the error the source logs. *)
Definition containerAction {S} (ctr : option (ContainerControl S)) (cfg : ContainerAction)
    (rule : EventRule) : M S (option error) :=
  match ctr with
  | None => mret None
  | Some ctr =>
    let project := orProject (ContainerAction_Project cfg) rule in
    let action := ContainerAction_Action cfg in
    if bool_decide (action = "start") then StartByName project (ContainerAction_Container cfg)
    else if bool_decide (action = "stop") then StopByName project (ContainerAction_Container cfg)
    else if bool_decide (action = "restart") then RestartByName project (ContainerAction_Container cfg)
    else mret (Some (ErrMsg ("unknown action " +:+ action)))
  end.

(** ** Log scanner *)

Section Logscan.
Context `{Regexp} `{Bolt}.

(** A rule the scanner takes a pattern from. *)
Definition scans (r : EventRule) : option Regex :=
  let m := EventRule_Match r in
  if EventRule_Enabled r && type_hit (EventMatch_Types m) "container.log"
     && negb (bool_decide (EventMatch_Subject m = "")) then regexp_Compile (EventMatch_Subject m)
  else None.

Definition activeRegexes (project : string) : M World (list Regex) :=
  r ← ListEventRules project;
  mret match r with Err _ => [] | Ok rules => omap scans rules end.

(** The named groups of a match. *)
Fixpoint named_groups (names groups : list string) (data : gmap string string) : gmap string string :=
  match names, groups with
  | n :: names, g :: groups =>
    named_groups names groups (if bool_decide (n = "") then data else <["g." +:+ n := g]> data)
  | _, _ => data
  end.

Definition log_event (c : Container) (line : string) (rg : Regex) : option EventRecord :=
  groups ← re_FindStringSubmatch rg line;
  Some { (zero (A:=EventRecord)) with
         EventRecord_Type := "container.log";
         EventRecord_Project := Meta_Project (Container_Meta c);
         EventRecord_Subject := Meta_Name (Container_Meta c);
         EventRecord_Data :=
           named_groups (re_SubexpNames rg) groups
             {["container" := Meta_Name (Container_Meta c); "line" := line; "pattern" := re_String rg]} }.

(** What [follow] emits for one line. *)
Definition scan_line (c : Container) (line : string) : M World (list EventRecord) :=
  regs ← activeRegexes (Meta_Project (Container_Meta c));
  mret (omap (log_event c line) regs).

(** The followers the scanner keeps, by key "project/name": [reconcile]
    cancels those no longer wanted and starts the missing ones. *)
Definition logKey (c : Container) : string :=
  Meta_Project (Container_Meta c) +:+ "/" +:+ Meta_Name (Container_Meta c).
Definition wanted (cs : list Container) : gset string :=
  list_to_set (logKey <$> List.filter (λ c, bool_decide (Status_Phase (ContainerStatus_Status (Container_Status c)) = PhaseRunning)) cs).

Record followers := mkFollowers { known : gset string; started : gset string; cancelled : gset string }.
Definition reconcile_followers (cs : list Container) (known : gset string) : followers :=
  mkFollowers (wanted cs) (wanted cs ∖ known) (known ∖ wanted cs).
End Logscan.

(** ** Sidecar *)

Record sidecarRequest := mkSidecarRequest {
  sidecarRequest_Type : string;
  sidecarRequest_Project : string;
  sidecarRequest_Subject : string;
  sidecarRequest_Data : gmap string string;
}.
#[export] Instance sidecarrequest_json : Json sidecarRequest := struct_json mkSidecarRequest (
  fld "type" sidecarRequest_Type;
  ofld "project" sidecarRequest_Project;
  ofld "subject" sidecarRequest_Subject;
  ofld "data" sidecarRequest_Data;
  Fnil).
#[export] Instance sidecarrequest_laws : JsonLaws sidecarRequest.
Proof. struct_laws. Qed.

Definition SocketPath (dataDir : string) : string := dataDir +:+ "/sockets/event.sock".

(** [handleEvent]: the status written and the event emitted; [None] is a body
    that is no JSON. *)
Definition handleEvent (body : option json) : Z * option EventRecord :=
  match body ≫= dec with
  | None => (400, None)
  | Some body =>
    if bool_decide (sidecarRequest_Type body = "") then (400, None)
    else
      (202, Some { (zero (A:=EventRecord)) with
                   EventRecord_Type := "app.event";
                   EventRecord_Project := sidecarRequest_Project body;
                   EventRecord_Subject := sidecarRequest_Subject body;
                   EventRecord_Data := <["app_type" := sidecarRequest_Type body]> (sidecarRequest_Data body) })
  end.
