(* ===== verification/DispatcherProps.v ===== *)
(** What the dispatcher guarantees: which rules an event fires and how they
    are counted, how often a webhook is tried, and what overlapping events
    and overlapping log rules do. *)

From S2P Require Import Prelude GoTime Json Types Bolt Store StoreOps StoreLaws Table StoreProps Text Glob Bus Dispatcher.

(** ** Handling an event *)

Definition ruleKey (r : EventRule) : string * string :=
  (Meta_Project (EventRule_Meta r), Meta_Name (EventRule_Meta r)).

(** [r'] is [r] fired once. *)
Definition firedOnce (r r' : EventRule) : Prop :=
  ruleKey r' = ruleKey r ∧ EventRule_FireCount r' = wrap64 (EventRule_FireCount r + 1) ∧
  EventRule_Match r' = EventRule_Match r ∧ EventRule_Action r' = EventRule_Action r ∧
  EventRule_Enabled r' = EventRule_Enabled r.

Section Handle.
Context `{Regexp} `{BL : BoltLaws}.
Implicit Types (w : World) (t : gmap (string * string) EventRule).

(** A stored rule: it has been minted and its key is one bbolt accepts. *)
Definition rule_ok (r : EventRule) : Prop :=
  Meta_UID (EventRule_Meta r) ≠ "" ∧ key_ok (keyOf r) = true.

Lemma fired_json_ok e stamp r :
  json_ok r → Meta_UID (EventRule_Meta r) ≠ "" → Meta_Project (EventRule_Meta r) ≠ "" →
  json_ok (final e (countFire stamp r)).
Proof.
  intros Hok Hu Hp. unfold final, finalMeta, defaultProject.
  change (getMeta (countFire stamp r)) with (EventRule_Meta r).
  rewrite bool_decide_eq_false_2 by done. unfold minted, is_fresh. rewrite bool_decide_eq_false_2 by done.
  revert Hok. unfold json_ok. destruct r as [m d mt a en l f], m. cbn -[utf8 wrap64 int64_ok].
  rewrite !wrap64_ok. rewrite !andb_true_iff. tauto.
Qed.

Lemma final_fired e stamp r :
  Meta_UID (EventRule_Meta r) ≠ "" → Meta_Project (EventRule_Meta r) ≠ "" →
  firedOnce r (final e (countFire stamp r)).
Proof.
  intros Hu Hp. unfold final, finalMeta, defaultProject.
  change (getMeta (countFire stamp r)) with (EventRule_Meta r).
  rewrite bool_decide_eq_false_2 by done. by destruct r.
Qed.

Lemma handle_rules_spec (ev : EventRecord) rules w t :
  Represents w "eventrules" t → NoDup (ruleKey <$> rules) →
  Forall (λ r, t !! ruleKey r = Some r ∧ rule_ok r) rules →
  ∃ fired w' t', handle_rules rules ev w = Ret (mjoin ((λ r, runActions r ev) <$> fired)) w' ∧
    Represents w' "eventrules" t' ∧
    (∀ k, k ∉ ruleKey <$> List.filter (λ r, fires r ev) rules → t' !! k = t !! k) ∧
    Forall2 (λ r r', t' !! ruleKey r = Some r' ∧ firedOnce r r') (List.filter (λ r, fires r ev) rules) fired.
Proof.
  revert w t. induction rules as [|r rules IH]; intros w t HR Hnd Hin.
  { exists [], w, t. split; [done|]. split; [done|]. split; [done|constructor]. }
  rewrite fmap_cons in Hnd. apply NoDup_cons in Hnd as [Hnin Hnd].
  apply Forall_cons in Hin as [(Hr & Hu & Hk) Hin]. cbn [handle_rules List.filter].
  destruct (fires r ev); [|by apply IH].
  pose proof HR as (m & _ & _ & Hok).
  destruct (Hok _ _ _ Hr) as (Hplain & Hname & Hjson & _ & _).
  set (stamp := clock (env w) (ticks (env w))).
  set (w1 := set_env (mkEnv (clock (env w)) (S (ticks (env w))) (uids (env w)) (draws (env w))) w).
  assert (Hnow : now w = Ret stamp w1) by done. rewrite (bind_ret_run _ _ _ _ _ Hnow).
  set (r' := final (env w1) (countFire stamp r)).
  assert (Hfire : firedOnce r r') by (apply final_fired; [done|apply Hplain]).
  pose proof Hfire as (Hkey & _).
  assert (Hkp : Meta_Project (EventRule_Meta r') = Meta_Project (EventRule_Meta r)) by exact (f_equal fst Hkey).
  assert (Hkn : Meta_Name (EventRule_Meta r') = Meta_Name (EventRule_Meta r)) by exact (f_equal snd Hkey).
  clear Hkey.
  destruct (table_put w1 "eventrules" KindEventRule t (countFire stamp r)) as (d & Hput & HR' & _).
  - exact HR.
  - exact Hname.
  - fold r'. change (getMeta r') with (EventRule_Meta r'). by rewrite Hkp.
  - by apply fired_json_ok; [|..|apply Hplain].
  - fold r'. unfold keyOf in *. change (getMeta r') with (EventRule_Meta r'). rewrite Hkp, Hkn. exact Hk.
  - fold r' in Hput, HR'. change (getMeta r') with (EventRule_Meta r') in HR'. rewrite Hkp, Hkn in HR'.
    set (w2 := after_put _ _ _ _) in *. fold (ruleKey r) in HR'.
    unfold PutEventRule. rewrite (bind_ret_run _ _ _ _ _ Hput).
    destruct (IH w2 _ HR' Hnd) as (fired & w' & t' & Hrun & HR2 & Hother & Hfired).
    { eapply Forall_impl; [apply Forall_and; split; [exact Hin|]; apply Forall_forall; intros x Hx; exact Hx|].
      cbn. intros x [[Hx ?] Hxin]. split; [|done]. rewrite lookup_insert_ne; [done|].
      intros E. apply Hnin. rewrite E. by apply list_elem_of_fmap_2. }
    assert (Hnin' : ruleKey r ∉ ruleKey <$> List.filter (λ r, fires r ev) rules).
    { intros (x & E & Hx)%list_elem_of_fmap. apply Hnin. rewrite E. apply list_elem_of_fmap_2.
      apply list_elem_of_In, filter_In in Hx as [Hx _]. by apply list_elem_of_In. }
    exists (r' :: fired), w', t'. split; [by rewrite (bind_ret_run _ _ _ _ _ Hrun)|].
    split; [done|]. split.
    + intros k Hkn'. rewrite fmap_cons, not_elem_of_cons in Hkn'. destruct Hkn' as [Hne Hkn'].
      rewrite Hother by done. by rewrite lookup_insert_ne.
    + constructor; [|done]. split; [|done]. rewrite Hother by done. by rewrite lookup_insert_eq.
Qed.

End Handle.

(** ** Webhook retries *)

Section Deliver.
Context `{Bolt} (newRequest : string → string → option error) (do : Z → Request → res Z).
Context (cfg : WebhookAction) (rule : EventRule) (ev : EventRecord).

Definition succeeded (a : Attempt) : bool :=
  match do (a_number a) (a_request a) with Ok s => is_2xx s | Err _ => false end.

(** The attempts of one delivery, numbered from [first], [n] at most. *)
Fixpoint well_tried (n : nat) (first : Z) (l : list Attempt) : Prop :=
  match n, l with
  | O, l => l = []
  | S n, [] => False
  | S n, a :: l =>
    a_number a = first ∧ (∃ ts, a_request a = webhookRequest cfg rule ev ts) ∧
    if succeeded a then a_sleep a = 0 ∧ l = []
    else a_sleep a = backoff first ∧ well_tried n (first + 1) l
  end.

Lemma deliver_loop_tried n first ls le w l w' :
  (∀ m u, newRequest m u = None) →
  deliver_loop newRequest do n cfg rule ev first ls le w = Ret l w' → well_tried n first l.
Proof.
  intros Hreq. revert first ls le w l w'. induction n as [|n IH]; intros first ls le w l w'.
  { cbn [deliver_loop well_tried]. unfold mbind, M_bind. destruct (exhausted _ _ _ _ _ _); [|done].
    by intros [= <- _]. }
  cbn [deliver_loop]. rewrite Hreq.
  assert (Hgo : ∀ ts w1, (match do first (webhookRequest cfg rule ev ts) with
      | Err e =>
        recordDelivery rule (WebhookAction_URL cfg) ev first 0 (error_text e) false ;;
        rest ← deliver_loop newRequest do n cfg rule ev (first + 1) ls (error_text e);
        mret (mkAttempt first (webhookRequest cfg rule ev ts) (backoff first) :: rest)
      | Ok status =>
        if is_2xx status then
          recordDelivery rule (WebhookAction_URL cfg) ev first status "" true ;;
          mret [mkAttempt first (webhookRequest cfg rule ev ts) 0]
        else
          recordDelivery rule (WebhookAction_URL cfg) ev first status ("http " +:+ itoa status) false ;;
          rest ← deliver_loop newRequest do n cfg rule ev (first + 1) status ("http " +:+ itoa status);
          mret (mkAttempt first (webhookRequest cfg rule ev ts) (backoff first) :: rest)
      end) w1 = Ret l w' → well_tried (S n) first l).
  { intros ts w1. unfold mbind, M_bind. destruct (do first _) as [status|e] eqn:Ed.
    - destruct (is_2xx status) eqn:E2.
      + destruct (recordDelivery _ _ _ _ _ _ _ _); [|done]. intros [= <- _]. cbn [well_tried].
        unfold succeeded. cbn [a_number a_request a_sleep]. rewrite Ed, E2. eauto.
      + destruct (recordDelivery _ _ _ _ _ _ _ _) as [[] w2|]; [|done].
        destruct (deliver_loop _ _ _ _ _ _ _ _ _ _) as [rest w3|] eqn:El; [|done].
        intros [= <- _]. cbn [well_tried]. unfold succeeded. cbn [a_number a_request a_sleep].
        rewrite Ed, E2. eauto 8.
    - destruct (recordDelivery _ _ _ _ _ _ _ _) as [[] w2|]; [|done].
      destruct (deliver_loop _ _ _ _ _ _ _ _ _ _) as [rest w3|] eqn:El; [|done].
      intros [= <- _]. cbn [well_tried]. unfold succeeded. cbn [a_number a_request a_sleep].
      rewrite Ed. eauto 8. }
  unfold mbind at 1, M_bind at 1. case_bool_decide.
  - intros Hrun. exact (Hgo _ _ Hrun).
  - intros Hrun. exact (Hgo _ _ Hrun).
Qed.

Lemma well_tried_spec n first l :
  well_tried n first l →
  (length l ≤ n)%nat ∧
  (∀ i a, l !! i = Some a →
     a_number a = first + Z.of_nat i ∧ (∃ ts, a_request a = webhookRequest cfg rule ev ts) ∧
     (succeeded a = true ↔ S i = length l ∧ ∃ b, last l = Some b ∧ succeeded b = true) ∧
     a_sleep a = if succeeded a then 0 else backoff (a_number a)) ∧
  ((length l < n)%nat → ∃ a, last l = Some a ∧ succeeded a = true).
Proof.
  revert first l. induction n as [|n IH]; intros first l; cbn [well_tried].
  { intros ->. split; [done|]. split; [done|]. cbn. lia. }
  destruct l as [|a l]; [done|]. intros (Hn & Hr & Hs). destruct (succeeded a) eqn:Es.
  - destruct Hs as [Hz ->]. split; [cbn; lia|]. split.
    + intros [|i] b Hb; [|done]. injection Hb as <-. rewrite Es. split; [lia|]. split; [done|].
      split; [|done]. split; [|done]. intros _. split; [done|]. by exists a.
    + intros _. by exists a.
  - destruct Hs as [Hz Hl]. destruct (IH _ _ Hl) as (Hlen & Hall & Hlast).
    assert (Hcons : ∀ b, succeeded b = true → last (a :: l) = Some b ↔ last l = Some b).
    { intros b Hb. destruct l as [|c l]; [|done]. split; [|done]. intros [= ->]. congruence. }
    split; [cbn; lia|]. split.
    + intros [|i] b Hb.
      * injection Hb as <-. rewrite Es, Hn. split; [lia|]. split; [done|]. split; [|done].
        split; [done|]. intros [Hlen1 (c & Hc & Hsc)]. destruct l as [|? ?]; [|done].
        injection Hc as <-. congruence.
      * destruct (Hall i b Hb) as (Hnb & Hrb & Hsb & Hzb). split; [lia|]. split; [done|].
        split; [|done]. rewrite Hsb. cbn [length]. split.
        -- intros (Hi & c & Hc & Hsc). split; [lia|]. exists c. by rewrite Hcons.
        -- intros (Hi & c & Hc & Hsc). split; [lia|]. exists c. by rewrite <-Hcons.
    + intros Hlt. destruct Hlast as (b & Hb & Hsb); [cbn in Hlt; lia|]. exists b. by rewrite Hcons.
Qed.

(** C39 A webhook is tried at most five times and no longer than until its
    first 2xx answer: the attempts are numbered from 1, each carries the
    request built from the rule and the event, fewer than five are made only
    when the last one succeeded, and the pauses after the failures are 1, 2,
    4, 8 and 16 seconds. *)
Theorem delivery_is_bounded (w w' : World) (l : list Attempt)
    (Hreq : ∀ m u, newRequest m u = None)
    (Hrun : deliverWebhook newRequest do cfg rule ev w = Ret l w') :
  (1 ≤ length l ≤ 5)%nat ∧
  (∀ i a, l !! i = Some a →
     a_number a = 1 + Z.of_nat i ∧ (∃ ts, a_request a = webhookRequest cfg rule ev ts) ∧
     (succeeded a = true ↔ S i = length l ∧ ∃ b, last l = Some b ∧ succeeded b = true) ∧
     a_sleep a = if succeeded a then 0 else Z.shiftl Second (Z.of_nat i)) ∧
  ((length l < 5)%nat → ∃ a, last l = Some a ∧ succeeded a = true).
Proof.
  pose proof (deliver_loop_tried _ _ _ _ _ _ _ Hreq Hrun) as Htried.
  assert (Hne : (1 ≤ length l)%nat) by (destruct l; [done|cbn; lia]).
  apply well_tried_spec in Htried as (Hlen & Hall & Hlast).
  split; [lia|]. split; [|done]. intros i a Ha. destruct (Hall i a Ha) as (Hn & Hr & Hs & Hz).
  split; [done|]. split; [done|]. split; [done|]. rewrite Hz, Hn. destruct (succeeded a); [done|].
  apply lookup_lt_Some in Ha.
  assert (Hi : i = 0%nat ∨ i = 1%nat ∨ i = 2%nat ∨ i = 3%nat ∨ i = 4%nat) by lia.
  by destruct Hi as [->|[->|[->|[->| ->]]]].
Qed.
End Deliver.

(** ** Overlapping log rules *)

Section Logscan.
Context `{Regexp} `{Bolt}.

(** A rule whose pattern the scanner matches on a line. *)
Definition matchesLine (line : string) (r : EventRule) : bool :=
  match scans r with Some re => re_MatchString re line | None => false end.

Lemma named_groups_line names groups data x :
  (∀ n, "g." +:+ n ≠ x) → named_groups names groups data !! x = data !! x.
Proof.
  intros Hx. revert groups data. induction names as [|n names IH]; intros [|g groups] data; try done.
  cbn [named_groups]. rewrite IH. case_bool_decide; [done|]. by rewrite lookup_insert_ne.
Qed.

Lemma log_event_spec c line re e :
  log_event c line re = Some e →
  EventRecord_Type e = "container.log" ∧ EventRecord_Project e = Meta_Project (Container_Meta c) ∧
  EventRecord_Data e !! "line" = Some line.
Proof.
  unfold log_event. destruct (re_FindStringSubmatch re line) as [groups|]; [|done]. cbn.
  intros [= <-]. split; [done|]. split; [done|]. cbn. rewrite named_groups_line; [done|].
  intros n [=].
Qed.

(** Overlapping log rules multiply: when [k] rules of a container's
    project match one log line, the scanner emits [k] events for it and each
    of them fires all [k] rules, [k * k] firings for a single line. *)
Theorem overlapping_log_rules_multiply (c : Container) (line : string) (rules : list EventRule) :
  let evs := omap (log_event c line) (omap scans rules) in
  let hit := List.filter (matchesLine line) rules in
  length evs = length hit ∧
  ∀ ev r, ev ∈ evs → r ∈ hit → Meta_Project (EventRule_Meta r) = Meta_Project (Container_Meta c) →
    fires r ev = true.
Proof.
  cbn zeta. split.
  - induction rules as [|r rules IH]; [done|]. cbn [omap list_omap List.filter]. unfold matchesLine at 1.
    destruct (scans r) as [re|]; [|exact IH]. cbn [omap list_omap].
    unfold log_event at 1, re_MatchString.
    destruct (re_FindStringSubmatch re line) as [g|]; cbn [mbind option_bind]; [|exact IH].
    cbn [length]. f_equal. exact IH.
  - intros ev r (re & _ & He)%list_elem_of_omap Hr Hproj.
    apply list_elem_of_In, filter_In in Hr as [_ Hm].
    apply log_event_spec in He as (Hty & Hpr & Hline).
    unfold matchesLine in Hm. destruct (scans r) as [re'|] eqn:Es; [|done].
    unfold scans in Es. destruct (EventRule_Enabled r) eqn:Een; [|done]. cbn [andb] in Es.
    destruct (type_hit _ _) eqn:Eth; [|done]. cbn [andb] in Es.
    destruct (bool_decide_reflect (EventMatch_Subject (EventRule_Match r) = "")) as [|Hsub]; [done|].
    unfold fires, sameProject, ruleMatches. rewrite Een, Hpr, Hproj, Hty, Eth, Hline.
    rewrite (bool_decide_eq_true_2 (Meta_Project (Container_Meta c) = Meta_Project (Container_Meta c))) by done.
    cbn [negb andb]. rewrite andb_false_r. cbn [negb andb].
    rewrite andb_false_r, bool_decide_eq_false_2 by done.
    rewrite bool_decide_eq_true_2 by done. cbn [negb] in Es. by rewrite Es.
Qed.
End Logscan.

(** ** Overlapping events

    The bus starts one goroutine per event, so two [Handle] calls, or a
    [Handle] and an API call, can interleave between the listing of the rules
    and the writes. *)

#[local] Instance demo_regexp : Regexp := λ p,
  Some (mkRegex p (λ s, if contains_str s p then Some [s] else None) [""]).

Definition demo_rule : EventRule :=
  { (zero (A:=EventRule)) with
    EventRule_Meta := demo_meta "shop" "alert"; EventRule_Enabled := true;
    EventRule_Action := mkEventAction None (Some (mkInvokeAction "" "alerter" "")) None }.
Definition demo_event : EventRecord :=
  { (zero (A:=EventRecord)) with EventRecord_Type := "cron"; EventRecord_Project := "shop" }.

(** The rules a [Handle] read before, put to use now. *)
Definition resume (rules : res (list EventRule)) (ev : EventRecord) : M World (list Action) :=
  match rules with Ok rules => handle_rules rules ev | Err _ => mret [] end.
Definition fire_count : M World (res Z) :=
  r ← GetEventRule "shop" "alert"; mret (EventRule_FireCount <$> r).

Definition in_turn : M World (nat * res Z) :=
  PutEventRule demo_rule ;;
  a ← Handle demo_event; b ← Handle demo_event;
  n ← fire_count; mret (length a + length b, n)%nat.
Definition interleaved : M World (nat * res Z) :=
  PutEventRule demo_rule ;;
  r1 ← ListAllEventRules; r2 ← ListAllEventRules;
  a ← resume r1 demo_event; b ← resume r2 demo_event;
  n ← fire_count; mret (length a + length b, n)%nat.
Definition deleted_meanwhile : M World (option error * res Z) :=
  PutEventRule demo_rule ;;
  r ← ListAllEventRules;
  e ← DeleteEventRule "shop" "alert";
  resume r demo_event ;;
  n ← fire_count; mret (e, n).

(** [Handle] writes rules back from a listing it read earlier: two
    overlapping events start both actions but count one firing, where in turn
    they count two, and a rule deleted while an event is handled comes
    back. *)
Theorem overlapping_handles_overwrite :
  eval in_turn demo_world = Some (2%nat, Ok 2) ∧
  eval interleaved demo_world = Some (2%nat, Ok 1) ∧
  eval deleted_meanwhile demo_world = Some (None, Ok 1).
Proof. repeat split; vm_compute; reflexivity. Qed.

(** ** Witnesses *)

Definition stored_rule : EventRule := final (env demo_world) demo_rule.
Definition rule_table : gmap (string * string) EventRule := <[("shop", "alert") := stored_rule]> ∅.
Definition rule_world : World :=
  default demo_world (exec (putScoped "eventrules" KindEventRule demo_rule) demo_world).

Lemma rule_world_represents : Represents rule_world "eventrules" rule_table.
Proof.
  assert (H0 : Represents (A:=EventRule) demo_world "eventrules" ∅)
    by (apply represents_empty; vm_compute; reflexivity).
  destruct (table_put demo_world "eventrules" KindEventRule ∅ demo_rule H0) as (d & Hrun & HR & _);
    [done|by vm_compute..|]. unfold rule_world, exec. rewrite Hrun. exact HR.
Qed.


Definition hook : WebhookAction := mkWebhookAction "https://example.org/hook" "" ∅ "s3cret".
(** Two failures, then success. *)
Definition flaky : Z → Request → res Z := λ attempt _,
  if attempt =? 1 then Err (ErrMsg "connection refused") else if attempt =? 2 then Ok 500 else Ok 204.
Definition flaky_attempts : list Attempt :=
  default [] (eval (deliverWebhook (λ _ _, None) flaky hook demo_rule demo_event) demo_world).

Example flaky_pauses : a_sleep <$> flaky_attempts = [Second; 2 * Second; 0].
Proof. vm_compute. reflexivity. Qed.

Lemma delivery_is_bounded_witness :
  (1 ≤ length flaky_attempts ≤ 5)%nat ∧
  (∀ i a, flaky_attempts !! i = Some a →
     a_number a = 1 + Z.of_nat i ∧ (∃ ts, a_request a = webhookRequest hook demo_rule demo_event ts) ∧
     (succeeded flaky a = true ↔ S i = length flaky_attempts ∧
        ∃ b, last flaky_attempts = Some b ∧ succeeded flaky b = true) ∧
     a_sleep a = if succeeded flaky a then 0 else Z.shiftl Second (Z.of_nat i)) ∧
  ((length flaky_attempts < 5)%nat → ∃ a, last flaky_attempts = Some a ∧ succeeded flaky a = true).
Proof.
  refine (delivery_is_bounded (λ _ _, None) flaky hook demo_rule demo_event demo_world
            (default demo_world (exec (deliverWebhook (λ _ _, None) flaky hook demo_rule demo_event) demo_world))
            flaky_attempts _ _); [done|].
  refine (run_eval (deliverWebhook (λ _ _, None) flaky hook demo_rule demo_event) demo_world flaky_attempts _).
  vm_compute. reflexivity.
Defined.
