(* ===== verification/Duration.v ===== *)
(** [time.ParseDuration]: the texts API callers give for a time to live.

    Go scales a fraction in floating point; here it is scaled exactly and
    truncated. *)

From Stdlib Require Import Ascii.
From S2P Require Import Prelude GoTime Text.

Definition is_digit (a : ascii) : bool := (48 <=? N_of_ascii a)%N && (N_of_ascii a <=? 57)%N.
Definition digit_val (a : ascii) : Z := Z.of_N (N_of_ascii a) - 48.

(** [leadingInt]: [None] on overflow. *)
Fixpoint leadingInt (x : Z) (s : string) : option (Z * string) :=
  match s with
  | String a s' =>
    if is_digit a then
      if 2 ^ 63 / 10 <? x then None
      else
        let x := x * 10 + digit_val a in
        if 2 ^ 63 <? x then None else leadingInt x s'
    else Some (x, s)
  | EmptyString => Some (x, s)
  end.

(** [leadingFraction]: digits past an overflow are read but do not count. *)
Fixpoint leadingFraction (x scale : Z) (overflow : bool) (s : string) : Z * Z * string :=
  match s with
  | String a s' =>
    if is_digit a then
      if overflow then leadingFraction x scale true s'
      else if (2 ^ 63 - 1) / 10 <? x then leadingFraction x scale true s'
      else
        let y := x * 10 + digit_val a in
        if 2 ^ 63 <? y then leadingFraction x scale true s' else leadingFraction y (scale * 10) false s'
    else (x, scale, s)
  | EmptyString => (x, scale, s)
  end.

(** The text up to the next dot or digit, and what follows. *)
Fixpoint unit_text (s : string) : string * string :=
  match s with
  | String a s' => if (a =? ".")%char || is_digit a then ("", s)
                   else let r := unit_text s' in (String a r.1, r.2)
  | EmptyString => ("", "")
  end.

(** U+00B5 and U+03BC, in UTF-8. *)
Definition micro_sign : string := of_bytes [194; 181].
Definition greek_mu : string := of_bytes [206; 188].
Definition unitMap : list (string * Z) :=
  [("ns", 1); ("us", 1000); (micro_sign +:+ "s", 1000); (greek_mu +:+ "s", 1000); ("ms", 1000000);
   ("s", Second); ("m", Minute); ("h", Hour)].
Definition unit_of (u : string) : option Z :=
  snd <$> List.find (λ p, bool_decide (p.1 = u)) unitMap.

(** One number with its unit: its value, in nanoseconds, and the rest. *)
Definition parse_term (s : string) : option (Z * string) :=
  '(v, s1) ← leadingInt 0 s;
  let pre := negb (String.length s1 =? String.length s)%nat in
  let '(f, scale, s2, post) :=
    match s1 with
    | String "." s1' => let '(f, scale, s2) := leadingFraction 0 1 false s1' in
                        (f, scale, s2, negb (String.length s2 =? String.length s1')%nat)
    | _ => (0, 1, s1, false)
    end in
  if negb pre && negb post then None
  else
    let '(u, s3) := unit_text s2 in
    unit ← unit_of u;
    if 2 ^ 63 / unit <? v then None
    else
      let v := v * unit + f * unit / scale in
      if 2 ^ 63 <? v then None else Some (v, s3).

(** The loop; every turn reads a byte at least. *)
Fixpoint parse_terms (fuel : nat) (d : Z) (s : string) : option Z :=
  match fuel, s with
  | _, EmptyString => Some d
  | O, _ => None
  | S fuel, String a _ =>
    if (a =? ".")%char || is_digit a then
      '(v, s) ← parse_term s;
      if 2 ^ 63 <? d + v then None else parse_terms fuel (d + v) s
    else None
  end.

Definition ParseDuration (s : string) : option Z :=
  let '(neg, s) := match s with
                   | String "-" s' => (true, s')
                   | String "+" s' => (false, s')
                   | _ => (false, s)
                   end in
  if bool_decide (s = "0") then Some 0
  else if bool_decide (s = "") then None
  else
    d ← parse_terms (String.length s) 0 s;
    if neg then Some (- d) else if 2 ^ 63 - 1 <? d then None else Some d.

Example duration_hours : ParseDuration "24h" = Some (24 * Hour). Proof. vm_compute. reflexivity. Qed.
Example duration_mixed : ParseDuration "-1h30.5s" = Some (- (Hour + 30 * Second + 500000000)).
Proof. vm_compute. reflexivity. Qed.
Example duration_no_unit : ParseDuration "15" = None. Proof. vm_compute. reflexivity. Qed.
Example duration_overflow : ParseDuration "9223372036854775808ns" = None. Proof. vm_compute. reflexivity. Qed.
Example duration_min : ParseDuration "-9223372036854775808ns" = Some (- 2 ^ 63). Proof. vm_compute. reflexivity. Qed.

(** *** The fuel is enough *)

Lemma leadingInt_shorter x s y s' : leadingInt x s = Some (y, s') → (String.length s' ≤ String.length s)%nat.
Proof.
  revert x; induction s as [|a s IH]; intros x; cbn; [by intros [= _ <-]|].
  destruct (is_digit a); [|by intros [= _ <-]]. destruct (_ <? _); [done|]. destruct (_ <? _); [done|].
  intros E%IH. lia.
Qed.
Lemma leadingFraction_shorter x sc o s : (String.length (leadingFraction x sc o s).2 ≤ String.length s)%nat.
Proof.
  revert x sc o; induction s as [|a s IH]; intros x sc o; [done|]. cbn [leadingFraction].
  destruct (is_digit a); [|done].
  repeat match goal with |- context [if ?b then _ else _] => destruct b end;
    match goal with |- context [leadingFraction ?x ?y ?z s] => pose proof (IH x y z) end; cbn; lia.
Qed.
Lemma unit_text_shorter s : (String.length (unit_text s).1 + String.length (unit_text s).2 = String.length s)%nat.
Proof. induction s as [|a s IH]; [done|]. cbn. destruct (_ || _); cbn; lia. Qed.
Lemma unit_of_nonempty u : is_Some (unit_of u) → (0 < String.length u)%nat.
Proof. destruct u; [|cbn; lia]. by intros [? [=]]. Qed.

Lemma parse_term_shorter s v s' : parse_term s = Some (v, s') → (String.length s' < String.length s)%nat.
Proof.
  unfold parse_term. destruct (leadingInt 0 s) as [[n s1]|] eqn:E; [|done]. cbn [mbind option_bind].
  apply leadingInt_shorter in E.
  set (r := match s1 with String "." s1' => _ | _ => _ end).
  assert (Hr : (String.length r.1.2 ≤ String.length s1)%nat).
  { unfold r. destruct s1 as [|a s1']; [done|]. destruct (Ascii.eqb_spec a ".") as [->|Ha].
    - pose proof (leadingFraction_shorter 0 1 false s1'). destruct (leadingFraction _ _ _ _) as [[f sc] s2]. cbn in *. lia.
    - destruct a as [[] [] [] [] [] [] [] []]; done. }
  destruct r as [[[f sc] s2] post]. destruct (_ && _); [done|].
  pose proof (unit_text_shorter s2) as Hu. destruct (unit_text s2) as [u s3].
  destruct (unit_of u) as [un|] eqn:Eu; [|done]. cbn [mbind option_bind].
  destruct (_ <? _); [done|]. destruct (_ <? _); [done|]. intros [= _ <-].
  pose proof (unit_of_nonempty u (mk_is_Some _ _ Eu)). cbn in *. lia.
Qed.

Lemma parse_terms_fuel n d s :
  (String.length s ≤ n)%nat → parse_terms (S n) d s = parse_terms n d s.
Proof.
  revert d s; induction n as [|n IH]; intros d s Hn; [by destruct s; [|cbn in Hn; lia]|].
  destruct s as [|a s]; [done|].
  change (parse_terms (S (S n)) d (String a s)) with
    (if (a =? ".")%char || is_digit a then
       '(v, s) ← parse_term (String a s);
       if 2 ^ 63 <? d + v then None else parse_terms (S n) (d + v) s else None).
  change (parse_terms (S n) d (String a s)) with
    (if (a =? ".")%char || is_digit a then
       '(v, s) ← parse_term (String a s);
       if 2 ^ 63 <? d + v then None else parse_terms n (d + v) s else None).
  destruct (_ || _); [|done]. destruct (parse_term (String a s)) as [[v s']|] eqn:E; [|done].
  apply parse_term_shorter in E. cbn [mbind option_bind]. destruct (_ <? _); [done|]. apply IH. cbn in *. lia.
Qed.

(** [Duration.String] of a non-negative whole number of milliseconds. *)
Definition millis_frac (ms : Z) : string :=
  if ms =? 0 then "" else "." +:+ (let fix trim (n : nat) (s : string) := match n with O => s | S n => if has_suffix s "0" then trim n (take_str (String.length s - 1) s) else s end
                                   in trim 2%nat (digits 3 ms)).
Definition duration_string (ms : Z) : string :=
  if ms =? 0 then "0s"
  else if ms <? 1000 then itoa ms +:+ "ms"
  else
    let s := itoa (ms / 1000 mod 60) +:+ millis_frac (ms mod 1000) +:+ "s" in
    let m := ms / 60000 in
    if m =? 0 then s else if m / 60 =? 0 then itoa m +:+ "m" +:+ s else itoa (m / 60) +:+ "h" +:+ itoa (m mod 60) +:+ "m" +:+ s.
(** [d.Truncate(time.Millisecond).String()] *)
Definition duration_text (d : Z) : string :=
  if d <? 0 then (let ms := Z.quot (- d) 1000000 in if ms =? 0 then "0s" else "-" +:+ duration_string ms)
  else duration_string (Z.quot d 1000000).
Example duration_texts :
  duration_text (90 * Minute + 1500000000) = "1h30m1.5s" ∧ duration_text 250000000 = "250ms" ∧ duration_text (61 * Second + 20000000) = "1m1.02s".
Proof. done. Qed.

