(* ===== verification/JsonText.v ===== *)
(** Reading JSON text ([json.Unmarshal], up to the JSON value) and base64
    ([encoding/base64], standard alphabet): the inverses of [Marshal] and
    [base64] of Glob.

    The parser reads any JSON text: white space, every escape, surrogate
    pairs, numbers with a fraction or an exponent.  A number that is not an
    integer literal is the value [not_an_int], which no integer, text, list or
    map type accepts, as in Go. *)

From Stdlib Require Import Ascii.
From S2P Require Import Prelude GoTime Json Text Glob Duration.

#[local] Arguments String.append : simpl nomatch.
#[local] Arguments quote : simpl never.

(** ** base64 *)

Definition b64_val (a : ascii) : option N :=
  let n := N_of_ascii a in
  if ((65 <=? n) && (n <=? 90))%N then Some (n - 65)%N
  else if ((97 <=? n) && (n <=? 122))%N then Some (n - 71)%N
  else if ((48 <=? n) && (n <=? 57))%N then Some (n + 4)%N
  else if (n =? 43)%N then Some 62%N else if (n =? 47)%N then Some 63%N else None.

Fixpoint drop_newlines (s : string) : string :=
  match s with
  | EmptyString => ""
  | String a s =>
    if ((N_of_ascii a =? 10) || (N_of_ascii a =? 13))%N then drop_newlines s else String a (drop_newlines s)
  end.

(** Padding ends the text. *)
Fixpoint b64_quads (s : string) : option string :=
  match s with
  | EmptyString => Some ""
  | String a (String b (String c (String d s'))) =>
    va ← b64_val a; vb ← b64_val b;
    let first := ascii_of_N ((va * 4 + vb / 16) mod 256) in
    match b64_val c, b64_val d with
    | Some vc, Some vd =>
      r ← b64_quads s';
      Some (String first (String (ascii_of_N ((vb * 16 + vc / 4) mod 256)) (String (ascii_of_N ((vc * 64 + vd) mod 256)) r)))
    | Some vc, None =>
      if (d =? "=")%char && bool_decide (s' = "") then
        Some (String first (String (ascii_of_N ((vb * 16 + vc / 4) mod 256)) "")) else None
    | None, _ =>
      if (c =? "=")%char && (d =? "=")%char && bool_decide (s' = "") then Some (String first "") else None
    end
  | _ => None
  end.
Definition base64_decode (s : string) : option string := b64_quads (drop_newlines s).

Lemma b64_char_val n : (n < 64)%N → b64_val (b64_char n) = Some n.
Proof.
  intros Hn.
  assert (H : forallb (λ k, bool_decide (b64_val (b64_char (N.of_nat k)) = Some (N.of_nat k))) (seq 0 64) = true)
    by (vm_compute; reflexivity).
  rewrite forallb_forall in H. specialize (H (N.to_nat n)). rewrite N2Nat.id in H.
  eapply bool_decide_eq_true_1, H, in_seq. lia.
Qed.
Lemma b64_char_plain n :
  (n < 64)%N → ((N_of_ascii (b64_char n) =? 10) || (N_of_ascii (b64_char n) =? 13))%N = false.
Proof.
  intros Hn.
  assert (H : forallb (λ k, negb ((N_of_ascii (b64_char (N.of_nat k)) =? 10) || (N_of_ascii (b64_char (N.of_nat k)) =? 13))%N) (seq 0 64) = true)
    by (vm_compute; reflexivity).
  rewrite forallb_forall in H. specialize (H (N.to_nat n)). rewrite N2Nat.id in H.
  apply negb_true_iff, H, in_seq. lia.
Qed.

(** The three bytes of a group, from its four digits. *)
Lemma group_bytes a b c : (a < 256)%N → (b < 256)%N → (c < 256)%N →
  let v := ((a * 256 + b) * 256 + c)%N in
  (v / 262144 < 64 ∧ v / 262144 * 4 + v / 4096 mod 64 / 16 = a ∧
   (v / 4096 mod 64 * 16 + v / 64 mod 64 / 4) mod 256 = b ∧
   (v / 64 mod 64 * 64 + v mod 64) mod 256 = c)%N.
Proof. intros Ha Hb Hc v. unfold v. split_and!; zify; Z.to_euclidean_division_equations; lia. Qed.

Lemma base64_decode_encode s : base64_decode (base64 s) = Some s.
Proof.
  unfold base64_decode.
  assert (Hlt : ∀ a, (N_of_ascii a < 256)%N) by apply N_ascii_bounded.
  assert (Hm : ∀ x, (x mod 64 < 64)%N) by (intros x; by apply N.mod_lt).
  remember (String.length s) as k eqn:E. revert s E.
  induction (lt_wf k) as [k _ IH]; intros s ->.
  destruct s as [|a [|b [|c s]]]; [done|..].
  - cbn [base64]. set (v := (N_of_ascii a * 16)%N).
    assert (Hv : (v / 64 < 64 ∧ v / 64 * 4 + v mod 64 / 16 = N_of_ascii a)%N).
    { unfold v. pose proof (Hlt a). split; zify; Z.to_euclidean_division_equations; lia. }
    destruct Hv as [Hv1 Hv2]. cbn [drop_newlines]. rewrite !b64_char_plain by (done || apply Hm). cbn.
    rewrite !b64_char_val by (done || apply Hm). cbn. rewrite Hv2, N.mod_small by apply Hlt.
    by rewrite ascii_N_embedding.
  - cbn [base64]. set (v := ((N_of_ascii a * 256 + N_of_ascii b) * 4)%N).
    assert (Hv : (v / 4096 < 64 ∧ v / 4096 * 4 + v / 64 mod 64 / 16 = N_of_ascii a ∧
                  (v / 64 mod 64 * 16 + v mod 64 / 4) mod 256 = N_of_ascii b)%N).
    { unfold v. pose proof (Hlt a). pose proof (Hlt b). split_and!; zify; Z.to_euclidean_division_equations; lia. }
    destruct Hv as (Hv1 & Hv2 & Hv3). cbn [drop_newlines]. rewrite !b64_char_plain by (done || apply Hm). cbn.
    rewrite !b64_char_val by (done || apply Hm). cbn. rewrite Hv2, Hv3, N.mod_small by apply Hlt.
    by rewrite !ascii_N_embedding.
  - cbn [base64]. set (v := ((N_of_ascii a * 256 + N_of_ascii b) * 256 + N_of_ascii c)%N).
    destruct (group_bytes _ _ _ (Hlt a) (Hlt b) (Hlt c)) as (Hv1 & Hv2 & Hv3 & Hv4). cbn zeta in *. fold v in Hv1, Hv2, Hv3, Hv4.
    cbn [drop_newlines]. rewrite !b64_char_plain by (done || apply Hm). cbn [b64_quads].
    rewrite !b64_char_val by (done || apply Hm). cbn [mbind option_bind].
    rewrite (IH (String.length s)); [|cbn; lia|done]. cbn [mbind option_bind].
    rewrite Hv2, Hv3, Hv4, N.mod_small by apply Hlt. by rewrite !ascii_N_embedding.
Qed.

(** ** Strings *)

Definition is_ws (a : ascii) : bool :=
  let n := N_of_ascii a in ((n =? 32) || (n =? 9) || (n =? 10) || (n =? 13))%N.
Fixpoint skip_ws (s : string) : string :=
  match s with String a r => if is_ws a then skip_ws r else s | EmptyString => "" end.

(** [utf8.EncodeRune] *)
Definition encode_rune (n : N) : string :=
  let b x := String (ascii_of_N x) "" in
  if (n <? 0x80)%N then b n
  else if (n <? 0x800)%N then b (0xC0 + n / 64)%N +:+ b (0x80 + n mod 64)%N
  else if (n <? 0x10000)%N then b (0xE0 + n / 4096)%N +:+ b (0x80 + n / 64 mod 64)%N +:+ b (0x80 + n mod 64)%N
  else b (0xF0 + n / 262144)%N +:+ b (0x80 + n / 4096 mod 64)%N +:+ b (0x80 + n / 64 mod 64)%N +:+ b (0x80 + n mod 64)%N.

Definition hex4 (a b c d : ascii) : option N :=
  x ← unhex a; y ← unhex b; z ← unhex c; w ← unhex d; Some (((x * 16 + y) * 16 + z) * 16 + w)%N.
Definition is_high (n : N) : bool := ((0xD800 <=? n) && (n <? 0xDC00))%N.
Definition is_low (n : N) : bool := ((0xDC00 <=? n) && (n <? 0xE000))%N.

Definition simple_escape (a : ascii) : option ascii :=
  let n := N_of_ascii a in
  if (n =? 34)%N then Some quote else if (n =? 92)%N then Some "\"%char else if (n =? 47)%N then Some "/"%char
  else if (n =? 98)%N then Some (ascii_of_N 8) else if (n =? 102)%N then Some (ascii_of_N 12)
  else if (n =? 110)%N then Some (ascii_of_N 10) else if (n =? 114)%N then Some (ascii_of_N 13)
  else if (n =? 116)%N then Some (ascii_of_N 9) else None.

Definition prefix_with (p : string) (x : option (string * string)) : option (string * string) :=
  '(t, r) ← x; Some (p +:+ t, r).

(** What follows an opening quote: the text up to the closing one, and the
    rest.  A surrogate without its pair is U+FFFD. *)
Fixpoint parse_string (s : string) : option (string * string) :=
  match s with
  | EmptyString => None
  | String a r =>
    if (a =? quote)%char then Some ("", r)
    else if (a =? "\")%char then
      match r with
      | EmptyString => None
      | String e r1 =>
        if (e =? "u")%char then
          match r1 with
          | String h1 (String h2 (String h3 (String h4 r2))) =>
            n ← hex4 h1 h2 h3 h4;
            if is_high n then
              match r2 with
              | String b (String u (String l1 (String l2 (String l3 (String l4 r3))))) =>
                if (b =? "\")%char && (u =? "u")%char then
                  m ← hex4 l1 l2 l3 l4;
                  if is_low m then
                    prefix_with (encode_rune (0x10000 + (n - 0xD800) * 1024 + (m - 0xDC00))%N) (parse_string r3)
                  else prefix_with replacement (parse_string r2)
                else prefix_with replacement (parse_string r2)
              | _ => prefix_with replacement (parse_string r2)
              end
            else prefix_with (if is_low n then replacement else encode_rune n) (parse_string r2)
          | _ => None
          end
        else c ← simple_escape e; prefix_with (String c "") (parse_string r1)
      end
    else if (N_of_ascii a <? 32)%N then None
    else prefix_with (String a "") (parse_string r)
  end.
Definition parse_lit (s : string) : option (string * string) :=
  '(t, r) ← parse_string s; Some (utf8 t, r).

(** ** Numbers *)

Fixpoint span_digits (s : string) : string * string :=
  match s with
  | String a r => if is_digit a then let x := span_digits r in (String a x.1, x.2) else ("", s)
  | EmptyString => ("", "")
  end.
Fixpoint number (acc : Z) (ds : string) : Z :=
  match ds with String a ds => number (acc * 10 + digit_val a) ds | EmptyString => acc end.

Definition not_an_int : json := JNum (2 ^ 63).

Definition strip_sign (s : string) : bool * string :=
  match s with String "-" r => (true, r) | _ => (false, s) end.
(** The fraction and the exponent: whether there was one, and the rest. *)
Definition skip_fraction (s : string) : option (bool * string) :=
  match s with
  | String "." r => let x := span_digits r in if bool_decide (x.1 = "") then None else Some (true, x.2)
  | _ => Some (false, s)
  end.
Definition skip_exponent (s : string) : option (bool * string) :=
  match s with
  | String a r =>
    if (a =? "e")%char || (a =? "E")%char then
      let r := match r with String "+" r' | String "-" r' => r' | _ => r end in
      let x := span_digits r in if bool_decide (x.1 = "") then None else Some (true, x.2)
    else Some (false, s)
  | EmptyString => Some (false, s)
  end.
Definition parse_number (s : string) : option (json * string) :=
  let '(neg, s) := strip_sign s in
  let '(ds, r) := span_digits s in
  if bool_decide (ds = "") || (has_prefix ds "0" && (1 <? String.length ds)%nat) then None
  else
    '(f, r) ← skip_fraction r;
    '(e, r) ← skip_exponent r;
    Some (if f || e then not_an_int else JNum (if neg then - number 0 ds else number 0 ds), r).

(** ** Values

    Every call reads a byte at least every second step, so twice the length of
    the text is enough fuel. *)
Definition strip_word (w : string) (j : json) (s : string) : option (json * string) :=
  if has_prefix s w then Some (j, drop_str (String.length w) s) else None.

(** The next byte that is not white space, if it is [c]. *)
Definition eat (c : ascii) (s : string) : option string :=
  match skip_ws s with String b r => if (b =? c)%char then Some r else None | EmptyString => None end.

Fixpoint parse_value (n : nat) (s : string) : option (json * string) :=
  match n with
  | O => None
  | S n =>
    match skip_ws s with
    | EmptyString => None
    | String a r =>
      if (a =? quote)%char then '(t, r) ← parse_lit r; Some (JStr t, r)
      else if (a =? "[")%char then
        match eat "]" r with
        | Some r => Some (JArr [], r)
        | None => '(l, r) ← parse_elems n r; Some (JArr l, r)
        end
      else if (a =? "{")%char then
        match eat "}" r with
        | Some r => Some (JObj [], r)
        | None => '(l, r) ← parse_members n r; Some (JObj l, r)
        end
      else if (a =? "n")%char then strip_word "null" JNull (String a r)
      else if (a =? "t")%char then strip_word "true" (JBool true) (String a r)
      else if (a =? "f")%char then strip_word "false" (JBool false) (String a r)
      else parse_number (String a r)
    end
  end
with parse_elems (n : nat) (s : string) : option (list json * string) :=
  match n with
  | O => None
  | S n =>
    '(x, r) ← parse_value n s;
    match eat "," r with
    | Some r => '(l, r) ← parse_elems n r; Some (x :: l, r)
    | None => r ← eat "]" r; Some ([x], r)
    end
  end
with parse_members (n : nat) (s : string) : option (list (string * json) * string) :=
  match n with
  | O => None
  | S n =>
    r ← eat quote s;
    '(k, r) ← parse_lit r;
    r ← eat ":" r;
    '(x, r) ← parse_value n r;
    match eat "," r with
    | Some r => '(l, r) ← parse_members n r; Some ((k, x) :: l, r)
    | None => r ← eat "}" r; Some ([(k, x)], r)
    end
  end.

Definition Unmarshal_value (s : string) : option json :=
  match parse_value (2 * String.length s + 2) s with
  | Some (j, r) => if bool_decide (skip_ws r = "") then Some j else None
  | None => None
  end.

(** A Go value from its text. *)
Definition Unmarshal {A} `{Json A} (s : string) : option A := Unmarshal_value s ≫= dec.

(** ** Reading what was written *)

(** [escape_separators] after [escape], in one pass. *)
Definition is_separator (a b c : ascii) : bool :=
  ((N_of_ascii a =? 0xE2) && (N_of_ascii b =? 0x80) && ((N_of_ascii c =? 0xA8) || (N_of_ascii c =? 0xA9)))%N.
Definition escape_byte (a : ascii) : string := escape (String a "").

Lemma escape_cons a s : escape (String a s) = escape_byte a +:+ escape s.
Proof. unfold escape_byte. cbn -[String.append]. by rewrite str_app_nil. Qed.

(** An escape is 7-bit; any other byte is itself. *)
Lemma escape_byte_cases a :
  escape_byte a = String a "" ∨
  ascii_text (escape_byte a) = true ∧ escape_byte a ≠ "" ∧ (N_of_ascii a < 128)%N.
Proof.
  assert (H : ∀ a, bool_decide (escape_byte a = String a "") ||
    (ascii_text (escape_byte a) && negb (bool_decide (escape_byte a = "")) && (N_of_ascii a <? 128)%N) = true).
  { apply byte_cases. vm_compute. reflexivity. }
  specialize (H a). apply orb_true_iff in H as [H|H]; [left; by apply bool_decide_eq_true_1 in H|right].
  rewrite !andb_true_iff, negb_true_iff, bool_decide_eq_false, N.ltb_lt in H. tauto.
Qed.

Lemma parse_escape_byte a t : parse_string (escape_byte a +:+ t) = prefix_with (String a "") (parse_string t).
Proof. destruct a as [[] [] [] [] [] [] [] []]; reflexivity. Qed.
Lemma parse_separator a b c t :
  is_separator a b c = true →
  parse_string (String "\" (String "u" (String "2" (String "0" (String "2" (String (hex_digit (N_of_ascii c - 0xA0)) t))))))
  = prefix_with (String a (String b (String c ""))) (parse_string t).
Proof.
  unfold is_separator. rewrite !andb_true_iff, orb_true_iff, !N.eqb_eq. intros [[Ha Hb] Hc].
  rewrite <-(ascii_N_embedding a), <-(ascii_N_embedding b), <-(ascii_N_embedding c), Ha, Hb.
  destruct Hc as [-> | ->]; reflexivity.
Qed.

Lemma sep_skip a r :
  match r with String b (String c _) => is_separator a b c | _ => false end = false →
  escape_separators (String a r) = String a (escape_separators r).
Proof.
  destruct r as [|b [|c r]]; [done|done|]. unfold is_separator. intros Hs.
  change (escape_separators (String a (String b (String c r)))) with
    (if ((N_of_ascii a =? 0xE2) && (N_of_ascii b =? 0x80) && ((N_of_ascii c =? 0xA8) || (N_of_ascii c =? 0xA9)))%N
     then "\u202" +:+ String (hex_digit (N_of_ascii c - 0xA0)) (escape_separators r)
     else String a (escape_separators (String b (String c r)))).
  by rewrite Hs.
Qed.
Lemma sep_hit a b c r :
  is_separator a b c = true →
  escape_separators (String a (String b (String c r))) =
    "\u202" +:+ String (hex_digit (N_of_ascii c - 0xA0)) (escape_separators r).
Proof.
  unfold is_separator. intros Hs.
  change (escape_separators (String a (String b (String c r)))) with
    (if ((N_of_ascii a =? 0xE2) && (N_of_ascii b =? 0x80) && ((N_of_ascii c =? 0xA8) || (N_of_ascii c =? 0xA9)))%N
     then "\u202" +:+ String (hex_digit (N_of_ascii c - 0xA0)) (escape_separators r)
     else String a (escape_separators (String b (String c r)))).
  by rewrite Hs.
Qed.
Lemma not_separator_7bit a b c : (N_of_ascii a < 128)%N → is_separator a b c = false.
Proof. intros Ha. unfold is_separator. by rewrite (proj2 (N.eqb_neq _ _)) by lia. Qed.

Lemma sep_ascii p t : ascii_text p = true → escape_separators (p +:+ t) = p +:+ escape_separators t.
Proof.
  induction p as [|a p IH]; [done|]. unfold ascii_text in *. cbn [String.list_ascii_of_string forallb].
  intros [Ha Hp]%andb_true_iff. cbn [String.append]. rewrite sep_skip; [by rewrite IH|].
  assert (N_of_ascii a < 128)%N by (unfold byte_in in Ha; apply andb_true_iff in Ha as [_ Ha%N.leb_le]; lia).
  destruct (p +:+ t) as [|b [|c ?]]; [done|done|]. by apply not_separator_7bit.
Qed.

(** A byte beyond 7 bits at the head of an escaped text was there before. *)
Lemma escape_head s x t :
  escape s = String x t → (128 ≤ N_of_ascii x)%N → ∃ r, s = String x r ∧ t = escape r.
Proof.
  destruct s as [|a r]; [done|]. rewrite escape_cons. intros E Hx.
  destruct (escape_byte_cases a) as [Ea|(Ha & Hne & _)].
  - rewrite Ea in E. cbn in E. injection E as <- <-. eauto.
  - exfalso. destruct (escape_byte a) as [|y p]; [done|]. cbn in E. injection E as -> _.
    unfold ascii_text in Ha. cbn in Ha. apply andb_true_iff in Ha as [Ha _].
    unfold byte_in in Ha. apply andb_true_iff in Ha as [_ Ha%N.leb_le]. lia.
Qed.

Lemma parse_escaped s rest :
  parse_string (escape_separators (escape s) +:+ String quote rest) = Some (s, rest).
Proof.
  remember (String.length s) as k eqn:E. revert s E.
  induction (lt_wf k) as [k _ IH]; intros s ->. destruct s as [|a r]; [done|]. rewrite escape_cons.
  assert (Hgo : escape_separators (escape_byte a +:+ escape r) = escape_byte a +:+ escape_separators (escape r) →
    parse_string (escape_separators (escape_byte a +:+ escape r) +:+ String quote rest) = Some (String a r, rest)).
  { intros ->. rewrite str_app_assoc, parse_escape_byte, (IH (String.length r)); [done|cbn; lia|done]. }
  destruct (escape_byte_cases a) as [Ea|(Ha & _ & _)]; [|by apply Hgo, sep_ascii].
  destruct (match escape r with String b (String c _) => is_separator a b c | _ => false end) eqn:Es.
  2:{ apply Hgo. rewrite Ea. cbn [String.append]. by rewrite sep_skip. }
  clear Hgo. destruct (escape r) as [|b [|c t]] eqn:Er; [done|done|]. rewrite Ea. cbn [String.append].
  rewrite sep_hit by done. pose proof Es as Es'. unfold is_separator in Es'.
  rewrite !andb_true_iff, orb_true_iff, !N.eqb_eq in Es'. destruct Es' as [[_ Hb] Hc].
  apply escape_head in Er as (r1 & -> & Et); [|lia]. symmetry in Et. apply escape_head in Et as (r2 & -> & ->); [|lia].
  cbn [String.append]. rewrite (parse_separator a b c) by done.
  rewrite (IH (String.length r2)); [done|cbn; lia|done].
Qed.

(** Decimal text. *)
Definition all_digits (s : string) : bool := forallb is_digit (String.list_ascii_of_string s).

Lemma all_digits_cons a s : all_digits (String a s) = is_digit a && all_digits s.
Proof. done. Qed.
Lemma pretty_char_digit n : (n < 10)%N → is_digit (pretty_N_char n) = true ∧ digit_val (pretty_N_char n) = Z.of_N n.
Proof.
  intros Hn.
  assert (H : forallb (λ k, is_digit (pretty_N_char (N.of_nat k)) &&
    (digit_val (pretty_N_char (N.of_nat k)) =? Z.of_nat k)) (seq 0 10) = true) by (vm_compute; reflexivity).
  rewrite forallb_forall in H. specialize (H (N.to_nat n) ltac:(apply in_seq; lia)).
  rewrite N2Nat.id in H. apply andb_true_iff in H as [H1 H2%Z.eqb_eq]. split; [done|]. rewrite H2. lia.
Qed.

Lemma number_pretty n s : number 0 (pretty_N_go n s) = number (Z.of_N n) s ∧ all_digits (pretty_N_go n s) = all_digits s.
Proof.
  revert s. induction (N.lt_wf_0 n) as [n _ IH]; intros s.
  destruct (decide (n = 0)%N) as [->|Hn]; [by rewrite pretty_N_go_0|].
  rewrite pretty_N_go_step by lia.
  destruct (IH (n / 10)%N ltac:(apply N.div_lt; lia) (String (pretty_N_char (n mod 10)) s)) as [-> ->].
  destruct (pretty_char_digit (n mod 10)) as [Hd Hv]; [by apply N.mod_lt|].
  cbn [number]. rewrite all_digits_cons, Hd, Hv. split; [|done]. f_equal.
  rewrite N2Z.inj_div, N2Z.inj_mod. pose proof (Z.div_mod (Z.of_N n) 10). lia.
Qed.

(** The leading digit is not a zero. *)
Lemma pretty_head n s :
  (0 < n)%N → ∃ a t, pretty_N_go n s = String a t ∧ (a =? "0")%char = false.
Proof.
  revert s. induction (N.lt_wf_0 n) as [n _ IH]; intros s Hn. rewrite pretty_N_go_step by done.
  destruct (decide (n / 10 = 0)%N) as [E|E].
  - rewrite E, pretty_N_go_0. do 2 eexists. split; [done|].
    assert (Hlt : (n < 10)%N) by (by apply N.div_small_iff).
    assert (H : forallb (λ k, negb (pretty_N_char (N.of_nat k) =? "0")%char) (seq 1 9) = true) by (vm_compute; reflexivity).
    rewrite forallb_forall in H. specialize (H (N.to_nat n) ltac:(apply in_seq; lia)).
    rewrite N2Nat.id in H. rewrite N.mod_small by done. by apply negb_true_iff.
  - apply IH; [apply N.div_lt; lia|by apply N.neq_0_lt_0].
Qed.

Lemma span_all_digits ds rest :
  all_digits ds = true → match rest with String a _ => is_digit a | _ => false end = false →
  span_digits (ds +:+ rest) = (ds, rest).
Proof.
  intros Hd Hr. induction ds as [|a ds IH].
  - cbn. destruct rest as [|a r]; [done|]. cbn. by rewrite Hr.
  - rewrite all_digits_cons in Hd. apply andb_true_iff in Hd as [Ha Hd].
    cbn [String.append span_digits]. by rewrite Ha, IH.
Qed.

(** What may follow a number without being read as part of it. *)
Definition ends_number (rest : string) : bool :=
  match rest with
  | String a _ => negb (is_digit a || (a =? ".")%char || (a =? "e")%char || (a =? "E")%char)
  | EmptyString => true
  end.

Lemma parse_digits (neg : bool) ds rest :
  all_digits ds = true → ds ≠ "" → has_prefix ds "0" && (1 <? String.length ds)%nat = false →
  ends_number rest = true →
  parse_number ((if neg then "-" else "") +:+ ds +:+ rest)
  = Some (JNum (if neg then - number 0 ds else number 0 ds), rest).
Proof.
  intros Hd Hne Hz Hr.
  assert (Hs : strip_sign ((if neg then "-" else "") +:+ ds +:+ rest) = (neg, ds +:+ rest)).
  { destruct neg; [done|]. destruct ds as [|a ds]; [done|]. cbn.
    rewrite all_digits_cons in Hd. apply andb_true_iff in Hd as [Ha _].
    destruct a as [[] [] [] [] [] [] [] []]; done. }
  assert (Hnd : match rest with String a _ => is_digit a | _ => false end = false).
  { destruct rest as [|a r]; [done|]. unfold ends_number in Hr. rewrite negb_true_iff, !orb_false_iff in Hr. tauto. }
  unfold parse_number. rewrite Hs, span_all_digits by done.
  rewrite bool_decide_eq_false_2, Hz by done. cbn [orb].
  assert (Hf : skip_fraction rest = Some (false, rest) ∧ skip_exponent rest = Some (false, rest)).
  { destruct rest as [|a r]; [done|]. unfold ends_number in Hr.
    rewrite negb_true_iff, !orb_false_iff in Hr. destruct Hr as [[[_ Hp] He] HE]. split.
    - destruct (Ascii.eqb_spec a ".") as [->|Ha]; [done|]. destruct a as [[] [] [] [] [] [] [] []]; done.
    - cbn. by rewrite He, HE. }
  destruct Hf as [-> Hf]. cbn [mbind option_bind]. rewrite Hf. cbn. by destruct neg.
Qed.

Lemma parse_itoa z rest : ends_number rest = true → parse_number (itoa z +:+ rest) = Some (JNum z, rest).
Proof.
  intros Hr.
  assert (Hpos : ∀ (neg : bool) p, parse_number ((if neg then "-" else "") +:+ pretty (N.pos p) +:+ rest) =
    Some (JNum (if neg then Z.neg p else Z.pos p), rest)).
  { intros neg p. unfold pretty, pretty_N. rewrite decide_False by done.
    destruct (number_pretty (N.pos p) "") as [Hn Hd]. cbn [number] in Hn.
    destruct (pretty_head (N.pos p) "") as (a & t & Ea & Hz); [done|].
    rewrite parse_digits; [rewrite Hn; by destruct neg|by rewrite Hd|by rewrite Ea| |done].
    rewrite Ea. cbn. by rewrite Hz. }
  destruct z as [|p|p].
  - apply (parse_digits false "0"); done.
  - apply (Hpos false).
  - change (itoa (Z.neg p) +:+ rest) with ("-" +:+ (pretty (N.pos p)) +:+ rest). apply (Hpos true).
Qed.

(** Text that decodes to itself: valid UTF-8, no instant and no bytes (both are
    written as strings). *)
Fixpoint text_ok (j : json) : bool :=
  match j with
  | JStr s => bool_decide (utf8 s = s)
  | JTime _ | JBytes _ => false
  | JArr l => forallb text_ok l
  | JObj kvs => forallb (λ kv, bool_decide (utf8 kv.1 = kv.1) && text_ok kv.2) kvs
  | _ => true
  end.

Fixpoint elems_text (l : list json) : string :=
  match l with
  | [] => ""
  | [x] => Marshal x
  | x :: l => Marshal x +:+ "," +:+ elems_text l
  end.
Fixpoint members_text (l : list (string * json)) : string :=
  match l with
  | [] => ""
  | [(k, x)] => quoted k +:+ ":" +:+ Marshal x
  | (k, x) :: l => quoted k +:+ ":" +:+ Marshal x +:+ "," +:+ members_text l
  end.
Lemma Marshal_arr l : Marshal (JArr l) = "[" +:+ elems_text l +:+ "]".
Proof. reflexivity. Qed.
Lemma Marshal_obj l : Marshal (JObj l) = "{" +:+ members_text l +:+ "}".
Proof. reflexivity. Qed.

Lemma json_nested_ind (P : json → Prop) :
  P JNull → (∀ b, P (JBool b)) → (∀ z, P (JNum z)) → (∀ s, P (JStr s)) → (∀ t, P (JTime t)) → (∀ s, P (JBytes s)) →
  (∀ l, Forall P l → P (JArr l)) → (∀ kvs, Forall (λ kv, P kv.2) kvs → P (JObj kvs)) → ∀ j, P j.
Proof.
  intros Hnull Hbool Hnum Hstr Htime Hbytes Harr Hobj. fix IH 1.
  intros [|b|z|s|t|s|l|kvs]; [apply Hnull|apply Hbool|apply Hnum|apply Hstr|apply Htime|apply Hbytes|apply Harr|apply Hobj].
  - induction l as [|x l IHl]; constructor; [apply IH|exact IHl].
  - induction kvs as [|[k x] kvs IHk]; constructor; [apply IH|exact IHk].
Qed.

Lemma itoa_head z : ∃ a t, itoa z = String a t ∧ (is_digit a || (a =? "-")%char) = true.
Proof.
  assert (Hpos : ∀ p, ∃ a t, pretty (N.pos p) = String a t ∧ is_digit a = true).
  { intros p. unfold pretty, pretty_N. rewrite decide_False by done.
    destruct (number_pretty (N.pos p) "") as [_ Hd]. destruct (pretty_head (N.pos p) "") as (a & t & Ea & _); [done|].
    rewrite Ea, all_digits_cons in Hd. apply andb_true_iff in Hd as [Hd _]. eauto. }
  destruct z as [|p|p]; [by exists "0"%char, ""| |].
  - destruct (Hpos p) as (a & t & Ea & Ha). exists a, t. by rewrite Ha.
  - by exists "-"%char, (pretty (N.pos p)).
Qed.

(** The first byte of a value is neither white space nor a closing bracket. *)
Definition starts_value (s : string) : Prop := ∃ a t, s = String a t ∧ is_ws a = false ∧ (a =? "]")%char = false.
Lemma Marshal_starts j rest : starts_value (Marshal j +:+ rest).
Proof.
  destruct j as [|[]|z|s|t|s|l|kvs]; try (by do 2 eexists).
  destruct (itoa_head z) as (a & t & Ha & Hd). cbn [Marshal]. rewrite Ha. do 2 eexists. split; [done|].
  destruct a as [[] [] [] [] [] [] [] []]; try discriminate Hd; done.
Qed.
Lemma eat_none_start s : starts_value s → eat "]" s = None.
Proof. intros (a & t & -> & Hw & Ha). unfold eat. cbn [skip_ws]. by rewrite Hw, Ha. Qed.
Lemma eat_head c s : is_ws c = false → eat c (String c s) = Some s.
Proof. intros Hw. unfold eat. cbn [skip_ws]. by rewrite Hw, Ascii.eqb_refl. Qed.
Lemma eat_other c b s : is_ws b = false → (b =? c)%char = false → eat c (String b s) = None.
Proof. intros Hw Hb. unfold eat. cbn [skip_ws]. by rewrite Hw, Hb. Qed.
Lemma value_number a r n :
  (is_digit a || (a =? "-")%char) = true → parse_value (S n) (String a r) = parse_number (String a r).
Proof. destruct a as [[] [] [] [] [] [] [] []]; intros Ha; try discriminate Ha; reflexivity. Qed.

Lemma parse_lit_quoted s rest : utf8 s = s → parse_lit (escape_separators (escape s) +:+ String quote rest) = Some (s, rest).
Proof. intros Hs. unfold parse_lit. rewrite parse_escaped. cbn. by rewrite Hs. Qed.
Lemma quoted_app s rest : quoted s +:+ rest = String quote (escape_separators (escape s) +:+ String quote rest).
Proof. unfold quoted. cbn [String.append]. by rewrite str_app_assoc. Qed.

Definition parses (j : json) : Prop :=
  ∀ n rest, text_ok j = true → (2 * String.length (Marshal j) ≤ n)%nat → ends_number rest = true →
  parse_value (S n) (Marshal j +:+ rest) = Some (j, rest).

Lemma parse_elems_text l n rest :
  Forall parses l → l ≠ [] → forallb text_ok l = true → (2 * String.length (elems_text l) + 1 ≤ n)%nat →
  parse_elems (S n) (elems_text l +:+ "]" +:+ rest) = Some (l, rest).
Proof.
  revert n. induction l as [|x l IH]; intros n; [done|]. intros [Hx Hl]%Forall_cons _. cbn [forallb].
  intros [Hox Hol]%andb_true_iff Hn. destruct n as [|n]; [lia|].
  destruct l as [|y l].
  - cbn [elems_text] in *. cbn -[parse_value Marshal]. rewrite Hx by (done || lia). reflexivity.
  - change (elems_text (x :: y :: l)) with (Marshal x +:+ "," +:+ elems_text (y :: l)) in *.
    rewrite !length_app_str in Hn. cbn [String.length] in Hn.
    change (parse_elems (S (S n)) ?s) with
      ('(x, r) ← parse_value (S n) s;
       match eat "," r with
       | Some r => '(l, r) ← parse_elems (S n) r; Some (x :: l, r)
       | None => r ← eat "]" r; Some ([x], r)
       end).
    rewrite !str_app_assoc, Hx by (done || lia). cbn [mbind option_bind].
    change ("," +:+ ?s) with (String "," s). rewrite eat_head by done.
    rewrite IH by (done || lia). reflexivity.
Qed.

Lemma parse_members_text l n rest :
  Forall (λ kv, parses kv.2) l → l ≠ [] →
  forallb (λ kv, bool_decide (utf8 kv.1 = kv.1) && text_ok kv.2) l = true →
  (2 * String.length (members_text l) + 1 ≤ n)%nat →
  parse_members (S n) (members_text l +:+ "}" +:+ rest) = Some (l, rest).
Proof.
  revert n. induction l as [|[k x] l IH]; intros n; [done|]. intros [Hx Hl]%Forall_cons _. cbn [forallb fst snd] in *.
  intros [[Hk%bool_decide_eq_true_1 Hox]%andb_true_iff Hol]%andb_true_iff Hn. destruct n as [|n]; [lia|].
  change (parse_members (S (S n)) ?s) with
    (r ← eat quote s;
     '(k, r) ← parse_lit r;
     r ← eat ":" r;
     '(x, r) ← parse_value (S n) r;
     match eat "," r with
     | Some r => '(l, r) ← parse_members (S n) r; Some ((k, x) :: l, r)
     | None => r ← eat "}" r; Some ([(k, x)], r)
     end).
  destruct l as [|y l].
  - change (members_text [(k, x)]) with (quoted k +:+ ":" +:+ Marshal x) in *. rewrite !length_app_str in Hn.
    rewrite str_app_assoc, quoted_app, eat_head by done. cbn [mbind option_bind]. rewrite parse_lit_quoted by done.
    cbn [mbind option_bind]. rewrite str_app_assoc. change (":" +:+ ?s) with (String ":" s). rewrite eat_head by done.
    cbn [mbind option_bind]. rewrite Hx by (done || lia). reflexivity.
  - change (members_text ((k, x) :: y :: l)) with (quoted k +:+ ":" +:+ Marshal x +:+ "," +:+ members_text (y :: l)) in *.
    rewrite !length_app_str in Hn. cbn [String.length] in Hn.
    rewrite str_app_assoc, quoted_app, eat_head by done. cbn [mbind option_bind]. rewrite parse_lit_quoted by done.
    cbn [mbind option_bind]. rewrite !str_app_assoc. change (":" +:+ ?s) with (String ":" s). rewrite eat_head by done.
    cbn [mbind option_bind]. rewrite Hx by (done || lia). cbn [mbind option_bind].
    change ("," +:+ ?s) with (String "," s). rewrite eat_head by done. rewrite IH by (done || lia). reflexivity.
Qed.

Lemma parses_all j : parses j.
Proof.
  induction j as [|b|z|s|t|s|l IH|kvs IH] using json_nested_ind; intros n rest Hok Hn Hr; try discriminate Hok.
  - reflexivity.
  - destruct b; reflexivity.
  - cbn [Marshal]. destruct (itoa_head z) as (a & t & Ha & Hd). rewrite Ha. cbn [String.append].
    rewrite value_number by done. change (String a (t +:+ rest)) with (String a t +:+ rest). rewrite <-Ha.
    by apply parse_itoa.
  - cbn [Marshal]. rewrite quoted_app. apply bool_decide_eq_true_1 in Hok.
    change (parse_value (S n) (String quote ?x)) with ('(t, r) ← parse_lit x; Some (JStr t, r)).
    by rewrite parse_lit_quoted.
  - rewrite Marshal_arr in *. rewrite !length_app_str in Hn. cbn [String.length] in Hn. rewrite !str_app_assoc.
    change (parse_value (S n) ("[" +:+ ?x)) with
      (match eat "]" x with Some r => Some (JArr [], r) | None => '(l, r) ← parse_elems n x; Some (JArr l, r) end).
    destruct l as [|x l]; [reflexivity|]. rewrite eat_none_start.
    2:{ destruct l; cbn [elems_text]; rewrite ?str_app_assoc; apply Marshal_starts. }
    destruct n as [|n]; [lia|]. rewrite parse_elems_text by (done || lia). reflexivity.
  - rewrite Marshal_obj in *. rewrite !length_app_str in Hn. cbn [String.length] in Hn. rewrite !str_app_assoc.
    change (parse_value (S n) ("{" +:+ ?x)) with
      (match eat "}" x with Some r => Some (JObj [], r) | None => '(l, r) ← parse_members n x; Some (JObj l, r) end).
    destruct kvs as [|[k x] kvs]; [reflexivity|].
    assert (He : eat "}" (members_text ((k, x) :: kvs) +:+ "}" +:+ rest) = None).
    { destruct kvs; cbn [members_text]; rewrite ?str_app_assoc, quoted_app; reflexivity. }
    rewrite He. destruct n as [|n]; [lia|]. rewrite parse_members_text by (done || lia). reflexivity.
Qed.

(** What [json.Marshal] writes, [json.Unmarshal] reads back. *)
Theorem Unmarshal_Marshal j : text_ok j = true → Unmarshal_value (Marshal j) = Some j.
Proof.
  intros Hok. unfold Unmarshal_value. pose proof (parses_all j (2 * String.length (Marshal j) + 1)%nat "" Hok) as Hp.
  rewrite str_app_nil in Hp. replace (2 * String.length (Marshal j) + 2)%nat with (S (2 * String.length (Marshal j) + 1)) by lia.
  rewrite Hp by (done || lia). reflexivity.
Qed.

(** *** The fuel is enough: reading consumes the text *)

Lemma length_skip_ws s : (String.length (skip_ws s) ≤ String.length s)%nat.
Proof. induction s as [|a s IH]; [done|]. cbn. destruct (is_ws a); cbn; lia. Qed.
Lemma eat_shorter c s r : eat c s = Some r → (String.length r < String.length s)%nat.
Proof.
  unfold eat. pose proof (length_skip_ws s) as Hs. destruct (skip_ws s) as [|b t]; [done|].
  destruct (b =? c)%char; [|done]. intros [= <-]. cbn in Hs. lia.
Qed.

Lemma prefix_with_inv p x t r : prefix_with p x = Some (t, r) → ∃ t', x = Some (t', r).
Proof. unfold prefix_with. destruct x as [[t' r']|]; [|done]. intros [= _ <-]. eauto. Qed.

Lemma parse_string_shorter s t r : parse_string s = Some (t, r) → (String.length r < String.length s)%nat.
Proof.
  remember (String.length s) as k eqn:E. revert s t E. induction (lt_wf k) as [k _ IH]; intros s t -> E.
  assert (Hrec : ∀ s' p, (String.length s' < String.length s)%nat →
    prefix_with p (parse_string s') = Some (t, r) → (String.length r < String.length s)%nat).
  { intros s' p Hs [t' Ht]%prefix_with_inv. specialize (IH (String.length s') Hs s' t' eq_refl Ht). lia. }
  destruct s as [|a s]; [done|]. cbn [parse_string] in E. destruct (a =? quote)%char; [injection E as _ <-; cbn; lia|].
  destruct (a =? "\")%char.
  2:{ destruct (_ <? 32)%N; [done|]. eapply Hrec, E. cbn. lia. }
  destruct s as [|e r1]; [done|]. destruct (e =? "u")%char.
  2:{ destruct (simple_escape e); [|done]. eapply Hrec, E. cbn. lia. }
  destruct r1 as [|h1 [|h2 [|h3 [|h4 r2]]]]; try done. destruct (hex4 h1 h2 h3 h4) as [n|]; [|done]. cbn [mbind option_bind] in E.
  assert (H2 : ∀ p, prefix_with p (parse_string r2) = Some (t, r) → (String.length r < String.length (String a (String e (String h1 (String h2 (String h3 (String h4 r2)))))))%nat).
  { intros p. apply Hrec. cbn. lia. }
  destruct (is_high n); [|by eapply H2].
  destruct r2 as [|b [|u [|l1 [|l2 [|l3 [|l4 r3]]]]]]; try by eapply H2.
  destruct (_ && _); [|by eapply H2]. destruct (hex4 l1 l2 l3 l4) as [m|]; [|done]. cbn [mbind option_bind] in E.
  destruct (is_low m); [|by eapply H2]. eapply Hrec, E. cbn. lia.
Qed.
Lemma parse_lit_shorter s t r : parse_lit s = Some (t, r) → (String.length r < String.length s)%nat.
Proof.
  unfold parse_lit. destruct (parse_string s) as [[t' r']|] eqn:E; [|done]. intros [= _ <-].
  by eapply parse_string_shorter.
Qed.

Lemma span_digits_length s : String.length s = (String.length (span_digits s).1 + String.length (span_digits s).2)%nat.
Proof. induction s as [|a s IH]; [done|]. cbn. destruct (is_digit a); cbn; lia. Qed.
Lemma skip_fraction_length s f r : skip_fraction s = Some (f, r) → (String.length r ≤ String.length s)%nat.
Proof.
  unfold skip_fraction. destruct s as [|a s]; [by intros [= _ <-]|].
  destruct (Ascii.eqb_spec a ".") as [->|Ha].
  - pose proof (span_digits_length s). case_bool_decide; [done|]. intros [= _ <-]. cbn. lia.
  - assert (E : ∀ X : option (bool * string), match String a s with String "." r0 => X | _ => Some (false, String a s) end = Some (false, String a s)).
    { intros X. destruct a as [[] [] [] [] [] [] [] []]; done. }
    rewrite E. by intros [= _ <-].
Qed.
Lemma skip_exponent_length s f r : skip_exponent s = Some (f, r) → (String.length r ≤ String.length s)%nat.
Proof.
  unfold skip_exponent. destruct s as [|a s]; [by intros [= _ <-]|]. destruct (_ || _); [|by intros [= _ <-]].
  set (s' := match s with String "+" r' | String "-" r' => r' | _ => s end).
  assert (Hs : (String.length s' ≤ String.length s)%nat).
  { unfold s'. destruct s as [|b s]; [done|]. destruct b as [[] [] [] [] [] [] [] []]; cbn; lia. }
  pose proof (span_digits_length s'). case_bool_decide; [done|]. intros [= _ <-]. cbn. lia.
Qed.
Lemma parse_number_shorter s j r : parse_number s = Some (j, r) → (String.length r < String.length s)%nat.
Proof.
  unfold parse_number.
  assert (Hs : (String.length (strip_sign s).2 ≤ String.length s)%nat).
  { destruct s as [|a s]; [done|]. destruct a as [[] [] [] [] [] [] [] []]; cbn; lia. }
  destruct (strip_sign s) as [neg s']. cbn in Hs. pose proof (span_digits_length s') as Hd.
  destruct (span_digits s') as [ds r1]. cbn in Hd. case_bool_decide as Hne; [done|]. cbn [orb].
  destruct (_ && _); [done|]. destruct (skip_fraction r1) as [[f r2]|] eqn:E1; [|done]. cbn [mbind option_bind].
  destruct (skip_exponent r2) as [[e r3]|] eqn:E2; [|done]. cbn. intros [= _ <-].
  apply skip_fraction_length in E1. apply skip_exponent_length in E2.
  destruct ds; [done|]. cbn in Hd. lia.
Qed.
Lemma strip_word_shorter w j s j' r :
  w ≠ "" → strip_word w j s = Some (j', r) → (String.length r < String.length s)%nat.
Proof.
  unfold strip_word. intros Hw. destruct (has_prefix s w) eqn:E; [|done]. intros [= _ <-]. rewrite length_drop_str.
  destruct w; [done|]. destruct s; [done|]. cbn. lia.
Qed.
