(* ===== verification/Path.v ===== *)
(** path/filepath on Unix: [Clean], [Join], [Base], and [strings.Fields]. *)

From Stdlib Require Import Ascii.
From S2P Require Import Prelude Text.

#[local] Arguments String.append : simpl nomatch.

(** [strings.Join]. *)
Fixpoint join_with (sep : string) (l : list string) : string :=
  match l with
  | [] => ""
  | [x] => x
  | x :: l => x +:+ sep +:+ join_with sep l
  end.

(** The elements [Clean] keeps, latest first. *)
Fixpoint clean_elems (rooted : bool) (parts acc : list string) : list string :=
  match parts with
  | [] => acc
  | p :: parts =>
    if bool_decide (p = "") || bool_decide (p = ".") then clean_elems rooted parts acc
    else if bool_decide (p = "..") then
      match acc with
      | a :: acc' => if bool_decide (a = "..") then clean_elems rooted parts (p :: acc)
                     else clean_elems rooted parts acc'
      | [] => clean_elems rooted parts (if rooted then [] else [".."])
      end
    else clean_elems rooted parts (p :: acc)
  end.

Definition Clean (path : string) : string :=
  let rooted := has_prefix path "/" in
  let body := join_with "/" (rev (clean_elems rooted (split_on slash path) [])) in
  if rooted then "/" +:+ body else if bool_decide (body = "") then "." else body.

Definition Join (elems : list string) : string :=
  let elems := List.filter (λ e, negb (bool_decide (e = ""))) elems in
  match elems with [] => "" | _ => Clean (join_with "/" elems) end.

Definition Base (path : string) : string :=
  if bool_decide (path = "") then "."
  else
    let p := rev_str (trim_left_byte slash (rev_str path)) in
    if bool_decide (p = "") then "/"
    else match last_index_byte p slash with Some i => drop_str (S i) p | None => p end.

(** [strings.Fields] on ASCII white space. *)
Fixpoint fields_go (s cur : string) : list string :=
  let flush := if bool_decide (cur = "") then [] else [rev_str cur] in
  match s with
  | EmptyString => flush
  | String a s => if is_space a then flush ++ fields_go s "" else fields_go s (String a cur)
  end.
Definition Fields (s : string) : list string := fields_go s "".

Example clean_dots : Clean "/a/./b/../c//d/" = "/a/c/d". Proof. reflexivity. Qed.
Example clean_up : Clean "../../x" = "../../x". Proof. reflexivity. Qed.
Example clean_root : Clean "/../x" = "/x". Proof. reflexivity. Qed.
Example base_dir : Base "/run/secrets/db/" = "db". Proof. reflexivity. Qed.
Example base_root : Base "///" = "/". Proof. reflexivity. Qed.
Example join_abs : Join ["/data"; "secret-mounts"; "u1"] = "/data/secret-mounts/u1". Proof. reflexivity. Qed.
Example fields_tab : Fields " a  b " = ["a"; "b"]. Proof. reflexivity. Qed.
