(* ===== verification/Fs.v ===== *)
(** Files: the part of [os] and [path/filepath] the program uses, on a tree of
    regular files, directories and symbolic links.

    A node is addressed by the names on the way to it, deepest first, so the
    directory of a node is the tail of its address.  A path is walked from the
    root as the kernel does: through symbolic links (at most 40), failing
    where a directory is missing.  Permission bits are not kept; [locked] are
    the addresses the process may not create, write or remove. *)

From Stdlib Require Import Ascii.
From S2P Require Import Prelude Text Path.

#[local] Arguments String.append : simpl nomatch.

Inductive node := Reg (data : string) | Dir | Sym (target : string).
#[export] Instance node_eq_dec : EqDecision node.
Proof. solve_decision. Defined.

Abbreviation addr := (list string).
Record fs := mkFs { nodes : gmap addr node; locked : gset addr }.

Definition ENOENT : error := ErrMsg "no such file or directory".
Definition ENOTDIR : error := ErrMsg "not a directory".
Definition EISDIR : error := ErrMsg "is a directory".
Definition EEXIST : error := ErrMsg "file exists".
Definition EACCES : error := ErrMsg "permission denied".
Definition ENOTEMPTY : error := ErrMsg "directory not empty".
Definition ELOOP : error := ErrMsg "too many levels of symbolic links".

(** The names of a path. *)
Definition is_name (p : string) : bool := negb (bool_decide (p = "") || bool_decide (p = ".")).
Definition elems (path : string) : list string := List.filter is_name (split_on slash path).

(** The node at an address; the root is a directory. *)
Definition at_addr (m : gmap addr node) (a : addr) : option node :=
  match a with [] => Some Dir | _ => m !! a end.

(** The address a path leads to, whether or not something is there.  [follow]:
    a symbolic link in the last place is followed too. *)
Fixpoint walk (links : nat) (follow : bool) (m : gmap addr node) (cur : addr) (parts : list string) : res addr :=
  (fix go (cur : addr) (parts : list string) : res addr :=
     match parts with
     | [] => Ok cur
     | p :: rest =>
       if bool_decide (p = "..") then go (tail cur) rest
       else
         let last := match rest with [] => true | _ => false end in
         match at_addr m (p :: cur) with
         | Some (Sym t) =>
           if last && negb follow then Ok (p :: cur)
           else
             match links with
             | O => Err ELOOP
             | S links => walk links follow m (if has_prefix t "/" then [] else cur) (elems t ++ rest)
             end
         | Some Dir => go (p :: cur) rest
         | Some (Reg _) => if last then Ok (p :: cur) else Err ENOTDIR
         | None => if last then Ok (p :: cur) else Err ENOENT
         end
     end) cur parts.
Definition max_links : nat := 40.
Definition resolve (follow : bool) (m : gmap addr node) (parts : list string) : res addr :=
  walk max_links follow m [] parts.

(** [os.Stat] and [os.Lstat]. *)
Definition stat_at (follow : bool) (s : fs) (parts : list string) : res node :=
  a ← resolve follow (nodes s) parts;
  match at_addr (nodes s) a with Some n => Ok n | None => Err ENOENT end.
Definition Stat (path : string) : M fs (res node) := gets (λ s, stat_at true s (elems path)).
Definition Lstat (path : string) : M fs (res node) := gets (λ s, stat_at false s (elems path)).
Definition exists_at (path : string) (s : fs) : bool :=
  match stat_at true s (elems path) with Ok _ => true | Err _ => false end.

Definition set_node (a : addr) (n : node) (s : fs) : fs := mkFs (<[a := n]> (nodes s)) (locked s).

(** Put a new node at an address whose directory must exist. *)
Definition place (a : addr) (n : node) : M fs (option error) := λ s,
  match at_addr (nodes s) (tail a) with
  | Some Dir => if bool_decide (a ∈ locked s) then Ret (Some EACCES) s else Ret None (set_node a n s)
  | Some _ => Ret (Some ENOTDIR) s
  | None => Ret (Some ENOENT) s
  end.

Definition mkdir_at (parts : list string) : M fs (option error) := λ s,
  match resolve false (nodes s) parts with
  | Err e => Ret (Some e) s
  | Ok a => match at_addr (nodes s) a with Some _ => Ret (Some EEXIST) s | None => place a Dir s end
  end.

(** [os.MkdirAll]: the directories on the way, the missing ones made. *)
Fixpoint mkdirs (done parts : list string) : M fs (option error) := λ s,
  match parts with
  | [] => Ret None s
  | p :: rest =>
    let path := done ++ [p] in
    match stat_at true s path with
    | Ok Dir => mkdirs path rest s
    | Ok _ => Ret (Some ENOTDIR) s
    | Err _ =>
      match mkdir_at path s with
      | Ret None s' => mkdirs path rest s'
      | Ret (Some e) s' => Ret (Some e) s'
      | Panic => Panic
      end
    end
  end.
Definition MkdirAll (path : string) : M fs (option error) := mkdirs [] (elems path).

Definition ReadFile (path : string) : M fs (res string) := gets (λ s,
  n ← stat_at true s (elems path);
  match n with Reg d => Ok d | _ => Err EISDIR end).

(** [os.WriteFile]; also [os.Create] or [os.OpenFile] with [O_TRUNC] and what
    is then written. *)
Definition WriteFile (path data : string) : M fs (option error) := λ s,
  match resolve true (nodes s) (elems path) with
  | Err e => Ret (Some e) s
  | Ok a =>
    match at_addr (nodes s) a with
    | Some Dir => Ret (Some EISDIR) s
    | _ => place a (Reg data) s
    end
  end.

Definition Symlink (target path : string) : M fs (option error) := λ s,
  match resolve false (nodes s) (elems path) with
  | Err e => Ret (Some e) s
  | Ok a => match at_addr (nodes s) a with Some _ => Ret (Some EEXIST) s | None => place a (Sym target) s end
  end.

(** The addresses inside a directory, at any depth. *)
Definition below (d a : addr) : bool :=
  (length d <? length a)%nat && bool_decide (drop (length a - length d) a = d).
Definition children (s : fs) (d : addr) : list string :=
  omap (λ kv, match kv.1 with x :: d' => if bool_decide (d' = d) then Some x else None | [] => None end)
    (map_to_list (nodes s)).

Definition remove_at (a : addr) (s : fs) : fs :=
  mkFs (filter (λ kv, negb (bool_decide (kv.1 = a) || below a kv.1) = true) (nodes s)) (locked s).

Definition Remove (path : string) : M fs (option error) := λ s,
  match resolve false (nodes s) (elems path) with
  | Err e => Ret (Some e) s
  | Ok a =>
    match at_addr (nodes s) a with
    | None => Ret (Some ENOENT) s
    | Some n =>
      if bool_decide (n = Dir) && negb (bool_decide (children s a = [])) then Ret (Some ENOTEMPTY) s
      else if bool_decide (a ∈ locked s) then Ret (Some EACCES) s else Ret None (remove_at a s)
    end
  end.
(** A path that is not there is not an error. *)
Definition RemoveAll (path : string) : M fs (option error) := λ s,
  match resolve false (nodes s) (elems path) with
  | Err _ => Ret None s
  | Ok a => if bool_decide (a ∈ locked s) then Ret (Some EACCES) s else Ret None (remove_at a s)
  end.

(** [os.ReadDir]: the names in order and whether each is a directory. *)
Definition ReadDir (path : string) : M fs (res (list (string * bool))) := gets (λ s,
  a ← resolve true (nodes s) (elems path);
  match at_addr (nodes s) a with
  | Some Dir =>
    Ok ((λ x, (x, bool_decide (nodes s !! (x :: a) = Some Dir))) <$> merge_sort str_le (children s a))
  | Some _ => Err ENOTDIR
  | None => Err ENOENT
  end).

(** [filepath.Dir] *)
Definition filepath_Dir (path : string) : string :=
  match last_index_byte path slash with
  | Some i => Clean (take_str (S i) path)
  | None => Clean ""
  end.

Definition empty_fs : fs := mkFs ∅ ∅.

Example fs_write_read :
  eval (MkdirAll "/a/b" ;; WriteFile "/a/b/c" "x" ;; Symlink "../b/c" "/a/b/d" ;; ReadFile "/a/./b/../b/d") empty_fs = Some (Ok "x").
Proof. vm_compute. reflexivity. Qed.
Example fs_loop : eval (Symlink "l" "/l" ;; ReadFile "/l") empty_fs = Some (Err ELOOP).
Proof. vm_compute. reflexivity. Qed.
Example fs_missing : eval (WriteFile "/a/b" "x") empty_fs = Some (Some ENOENT).
Proof. vm_compute. reflexivity. Qed.
Example fs_list :
  eval (MkdirAll "/d/z/y" ;; WriteFile "/d/b" "" ;; RemoveAll "/d/z/y" ;; ReadDir "/d") empty_fs = Some (Ok [("b", false); ("z", true)]).
Proof. vm_compute. reflexivity. Qed.
Example dir_of : filepath_Dir "/srv/a/b" = "/srv/a" ∧ filepath_Dir "b" = "." ∧ filepath_Dir "/b" = "/". Proof. done. Qed.
