(* ===== verification/FsLaws.v ===== *)
(** Laws of paths and files: the names of a cleaned path, and where the
    operations of Fs can have an effect when no symbolic link is in the way. *)

From Stdlib Require Import Ascii.
From S2P Require Import Prelude Text Path Fs.

#[local] Arguments String.append : simpl nomatch.

(** ** Names of paths *)

Definition no_slash (p : string) : Prop := no_byte slash p = true.

Lemma split_on_no_byte c s : Forall (λ p, no_byte c p = true) (split_on c s).
Proof.
  induction s as [|a s IH]; cbn; [by repeat constructor|].
  destruct (a =? c)%char eqn:E; [by constructor|].
  destruct (split_on c s) as [|p l]; [by repeat constructor; unfold no_byte; cbn; rewrite E|].
  inversion_clear IH as [|? ? Hp Hl]. constructor; [|done]. unfold no_byte in *. cbn. rewrite E.
  by destruct (index_byte p c).
Qed.

Lemma split_on_app_sep c s t : split_on c (s +:+ String c t) = split_on c s ++ split_on c t.
Proof.
  induction s as [|a s IH]; cbn; [by rewrite Ascii.eqb_refl|].
  destruct (a =? c)%char; rewrite IH; [done|].
  pose proof (split_on_nonempty c s). by destruct (split_on c s).
Qed.

Lemma elems_app_sep s t : elems (s +:+ String slash t) = elems s ++ elems t.
Proof. unfold elems. by rewrite split_on_app_sep, List.filter_app. Qed.
Lemma elems_slash s : elems (String slash s) = elems s.
Proof. exact (elems_app_sep "" s). Qed.

Lemma elems_join l : Forall no_slash l → elems (join_with "/" l) = List.filter is_name l.
Proof.
  induction l as [|x l IH]; [done|]. intros [Hx Hl]%Forall_cons. destruct l as [|y l].
  - cbn [join_with]. unfold elems. by rewrite split_on_no_sep.
  - change (join_with "/" (x :: y :: l)) with (x +:+ String slash (join_with "/" (y :: l))).
    rewrite elems_app_sep, IH by done. unfold elems. rewrite split_on_no_sep by done.
    cbn. by destruct (is_name x).
Qed.

(** What [Clean] keeps: names, and [..] only at the start of a relative path. *)
Definition dotdots (acc : list string) : Prop :=
  ∃ names k, acc = names ++ replicate k ".." ∧ Forall (λ p, is_name p = true ∧ p ≠ ".." ∧ no_slash p) names.

Lemma clean_elems_shape rooted parts acc :
  Forall no_slash parts → dotdots acc → (rooted = true → ".." ∉ acc) →
  dotdots (clean_elems rooted parts acc) ∧ (rooted = true → ".." ∉ clean_elems rooted parts acc).
Proof.
  revert acc. induction parts as [|p parts IH]; intros acc; [done|].
  intros [Hp Hps]%Forall_cons Hacc Hroot. cbn [clean_elems].
  destruct (bool_decide (p = "") || bool_decide (p = ".")) eqn:En; [by apply IH|].
  destruct (bool_decide (p = "..")) eqn:Ed.
  - apply bool_decide_eq_true in Ed as ->. destruct Hacc as (names & k & -> & Hn).
    destruct names as [|x names]; cbn [app].
    + destruct k as [|k]; cbn [replicate].
      * destruct rooted; (apply IH; [done| |done || by intros]); [by exists [], O|by exists [], 1%nat].
      * rewrite bool_decide_eq_true_2 by done. apply IH; [done|by exists [], (S (S k))|].
        intros Hr. specialize (Hroot Hr). set_solver.
    + apply Forall_cons in Hn as [(_ & Hx & _) Hn]. rewrite bool_decide_eq_false_2 by done.
      apply IH; [done|by exists names, k|]. intros Hr. specialize (Hroot Hr). set_solver.
  - apply bool_decide_eq_false in Ed. destruct Hacc as (names & k & -> & Hn).
    apply IH; [done| |].
    + exists (p :: names), k. split; [done|]. constructor; [|done]. split_and!; [|done|done].
      unfold is_name. by rewrite En.
    + intros Hr. specialize (Hroot Hr). set_solver.
Qed.

(** The names of a cleaned path. *)
Definition clean_names (path : string) : list string :=
  rev (clean_elems (has_prefix path "/") (split_on slash path) []).

Lemma clean_names_shape path :
  ∃ k names, clean_names path = replicate k ".." ++ names ∧
    Forall (λ p, is_name p = true ∧ p ≠ ".." ∧ no_slash p) names ∧ (has_prefix path "/" = true → k = O).
Proof.
  unfold clean_names.
  destruct (clean_elems_shape (has_prefix path "/") (split_on slash path) []) as [(names & k & E & Hn) Hr];
    [apply split_on_no_byte|by exists [], O|set_solver|].
  rewrite E in *. exists k, (rev names). rewrite rev_app_distr. split_and!.
  - f_equal. clear. induction k as [|k IH]; [done|]. cbn. rewrite IH. by rewrite <-replicate_S_end.
  - by apply Forall_rev.
  - intros Hp. specialize (Hr Hp). destruct k; [done|]. set_solver.
Qed.

Lemma is_name_dotdot : is_name ".." = true. Proof. done. Qed.

Lemma elems_Clean path : elems (Clean path) = clean_names path.
Proof.
  unfold Clean. cbv zeta. fold (clean_names path).
  destruct (clean_names_shape path) as (k & names & E & Hn & _). rewrite E.
  assert (Hf : elems (join_with "/" (replicate k ".." ++ names)) = replicate k ".." ++ names).
  { assert (Hall : Forall (λ p, is_name p = true ∧ no_slash p) (replicate k ".." ++ names)).
    { apply Forall_app. split; [by apply Forall_replicate|]. eapply Forall_impl; [done|]. naive_solver. }
    rewrite elems_join by (eapply Forall_impl; [done|naive_solver]).
    clear -Hall. induction Hall as [|x l [Hx _] Hl IH]; [done|]. cbn. by rewrite Hx, IH. }
  destruct (has_prefix path "/"); [etransitivity; [exact (elems_slash _)|exact Hf]|].
  destruct (bool_decide _) eqn:B; [|done]. apply bool_decide_eq_true in B. rewrite B in Hf. by rewrite <-Hf.
Qed.

Lemma has_prefix_self p s : has_prefix (p +:+ s) p = true.
Proof. apply has_prefix_app. Qed.

(** A cleaned path that starts neither with [..] nor with a slash has only
    names in it. *)
Lemma clean_relative path :
  has_prefix (Clean path) ".." = false → has_prefix (Clean path) "/" = false →
  Forall (λ p, is_name p = true ∧ p ≠ ".." ∧ no_slash p) (elems (Clean path)).
Proof.
  intros Hd Hs. rewrite elems_Clean. destruct (clean_names_shape path) as (k & names & E & Hn & _).
  rewrite E. destruct k as [|k]; [done|]. exfalso. revert Hd Hs. unfold Clean. cbv zeta. fold (clean_names path).
  destruct (has_prefix path "/"); [done|]. rewrite E. cbn [replicate app]. intros Hd _.
  destruct (replicate k ".." ++ names) as [|y l]; [done|]. by rewrite bool_decide_eq_false_2 in Hd.
Qed.

Definition plain_names (l : list string) : Prop := Forall (λ p, is_name p = true ∧ p ≠ ".." ∧ no_slash p) l.

Lemma clean_elems_plain rooted parts acc :
  Forall (λ p, p ≠ "..") parts → clean_elems rooted parts acc = rev (List.filter is_name parts) ++ acc.
Proof.
  revert acc. induction parts as [|p parts IH]; intros acc; [done|]. intros [Hp Hps]%Forall_cons. cbn [clean_elems List.filter].
  unfold is_name at 1. destruct (bool_decide (p = "") || bool_decide (p = ".")); cbn [negb]; [by apply IH|].
  rewrite bool_decide_eq_false_2, IH by done. cbn [rev]. by rewrite <-app_assoc.
Qed.

Lemma plain_split path : plain_names (elems path) → Forall (λ p, p ≠ "..") (split_on slash path).
Proof.
  unfold plain_names, elems. intros Hp. apply Forall_forall. intros x Hx ->.
  rewrite Forall_forall in Hp. destruct (Hp "..") as (_ & ? & _); [|done].
  apply list_elem_of_In, List.filter_In. split; [by apply list_elem_of_In|done].
Qed.

(** Cleaning changes no name when there is no [..]. *)
Lemma elems_Clean_plain path : plain_names (elems path) → elems (Clean path) = elems path.
Proof.
  intros Hp%plain_split. rewrite elems_Clean. unfold clean_names.
  rewrite clean_elems_plain, app_nil_r by done. by rewrite rev_involutive.
Qed.

(** [filepath.Join] of two paths with only names in them. *)
Lemma elems_Join d p :
  d ≠ "" → p ≠ "" → plain_names (elems d) → plain_names (elems p) → elems (Join [d; p]) = elems d ++ elems p.
Proof.
  intros Hd Hp Nd Np. unfold Join. cbn [List.filter].
  rewrite !bool_decide_eq_false_2 by done. cbn [negb join_with].
  change (d +:+ "/" +:+ p) with (d +:+ String slash p). rewrite elems_Clean_plain; rewrite elems_app_sep; [done|].
  by apply Forall_app.
Qed.

Lemma last_index_byte_split s c i :
  last_index_byte s c = Some i → s = take_str i s +:+ String c (drop_str (S i) s) ∧ take_str (S i) s = take_str i s +:+ String c "".
Proof.
  revert i. induction s as [|a s IH]; intros i; [done|]. cbn [last_index_byte].
  destruct (last_index_byte s c) as [j|].
  - intros [= <-]. destruct (IH j eq_refl) as [H1 H2]. split.
    + change (String a s = String a (take_str j s +:+ String c (drop_str (S j) s))). by rewrite <-H1.
    + change (take_str (S (S j)) (String a s)) with (String a (take_str (S j) s)). by rewrite H2.
  - destruct (a =? c)%char eqn:E; [|done]. intros [= <-]. apply Ascii.eqb_eq in E as ->. by destruct s.
Qed.

(** The directory of a path is made of the first of its names. *)
Lemma elems_Dir path : plain_names (elems path) → ∃ l, elems path = elems (filepath_Dir path) ++ l.
Proof.
  intros Hp. unfold filepath_Dir. destruct (last_index_byte path slash) as [i|] eqn:E; [|by eexists].
  destruct (last_index_byte_split _ _ _ E) as [H1 H2]. rewrite H2.
  assert (He : elems path = elems (take_str i path) ++ elems (drop_str (S i) path)) by (rewrite H1 at 1; apply elems_app_sep).
  assert (Ht : elems (take_str i path +:+ String slash "") = elems (take_str i path)) by (rewrite elems_app_sep; apply app_nil_r).
  exists (elems (drop_str (S i) path)). rewrite elems_Clean_plain, Ht; [done|].
  rewrite Ht. unfold plain_names in Hp. rewrite He in Hp. by apply Forall_app in Hp as [? _].
Qed.

(** ** Where an operation has an effect *)

(** On the way to the directory [d], or inside it. *)
Definition near (d a : addr) : Prop := d `suffix_of` a ∨ a `suffix_of` d.
Definition no_links (d : addr) (s : fs) : Prop := ∀ a t, near d a → nodes s !! a ≠ Some (Sym t).

Lemma near_tail d a a' : near d a → a' `suffix_of` a → near d a'.
Proof.
  intros [Hd|Ha] Hs; [|right; by etransitivity]. destruct Hd as [k ->], Hs as [k' E].
  apply app_eq_inv in E as [(l & -> & ->)|(l & -> & ->)]; [left|right]; by exists l.
Qed.

(** Without links and without [..], a path leads where it says. *)
Lemma walk_plain links follow d s cur parts a :
  no_links d s → Forall (λ p, p ≠ "..") parts → near d (rev parts ++ cur) →
  walk links follow (nodes s) cur parts = Ok a → a = rev parts ++ cur.
Proof.
  intros Hl. destruct links as [|links].
  all: revert cur; induction parts as [|p parts IH]; intros cur; [by intros _ _ [= <-]|].
  all: intros [Hp Hps]%Forall_cons Hn; cbn; rewrite bool_decide_eq_false_2 by done.
  all: cbn [rev] in Hn |- *; rewrite <-app_assoc in Hn |- *; cbn [app] in Hn |- *.
  all: assert (Hpc : near d (p :: cur)) by (eapply near_tail; [exact Hn|by exists (rev parts)]).
  all: specialize (IH (p :: cur) Hps Hn).
  all: destruct (nodes s !! (p :: cur)) as [[x| |t]|] eqn:E; [|exact IH|by destruct (Hl _ t Hpc)|].
  all: destruct parts; [by intros [= <-]|done].
Qed.

(** Nothing away from [d] changes, and no link appears near it. *)
Definition kept (d : addr) (s s' : fs) : Prop :=
  (∀ a, ¬ near d a → nodes s' !! a = nodes s !! a) ∧ no_links d s' ∧ locked s' = locked s.

Lemma kept_refl d s : no_links d s → kept d s s.
Proof. by intros. Qed.
Lemma kept_trans d s1 s2 s3 : kept d s1 s2 → kept d s2 s3 → kept d s1 s3.
Proof.
  intros (H1 & _ & L1) (H2 & N2 & L2). split_and!; [|done|congruence].
  intros a Ha. by rewrite H2, H1.
Qed.

Lemma set_node_kept d s a n : no_links d s → near d a → (∀ t, n ≠ Sym t) → kept d s (set_node a n s).
Proof.
  intros Hl Ha Hn. split_and!; [| |done]; cbn.
  - intros b Hb. apply lookup_insert_ne. by intros ->.
  - intros b t Hb. cbn. destruct (decide (a = b)) as [->|]; [rewrite lookup_insert_eq; naive_solver|].
    rewrite lookup_insert_ne by done. by apply Hl.
Qed.
Lemma place_kept d s a n : no_links d s → near d a → (∀ t, n ≠ Sym t) → ∃ r s', place a n s = Ret r s' ∧ kept d s s'.
Proof.
  intros Hl Ha Hn. unfold place. pose proof (kept_refl d s Hl).
  destruct (at_addr _ _) as [[]|]; eauto.
  destruct (bool_decide _); eauto using set_node_kept.
Qed.

Definition no_dotdot (parts : list string) : Prop := Forall (λ p, p ≠ "..") parts.

Lemma resolve_plain follow d s parts a :
  no_links d s → no_dotdot parts → near d (rev parts) → resolve follow (nodes s) parts = Ok a → a = rev parts.
Proof.
  intros Hl Hp Hn Hr. rewrite <-(app_nil_r (rev parts)). eapply walk_plain; [done|done| |exact Hr]. by rewrite app_nil_r.
Qed.

Lemma mkdirs_kept d done parts s :
  no_links d s → no_dotdot (done ++ parts) → near d (rev (done ++ parts)) →
  ∃ r s', mkdirs done parts s = Ret r s' ∧ kept d s s'.
Proof.
  revert done s. induction parts as [|p parts IH]; intros done s Hl Hp Hn.
  { eexists _, _. split; [reflexivity|by apply kept_refl]. }
  cbn [mkdirs]. replace (done ++ p :: parts) with ((done ++ [p]) ++ parts) in Hp, Hn by by rewrite <-app_assoc.
  assert (Hp1 : no_dotdot (done ++ [p])) by (by apply Forall_app in Hp as [? _]).
  assert (Hn1 : near d (rev (done ++ [p]))).
  { eapply near_tail; [exact Hn|]. rewrite (rev_app_distr (done ++ [p])). by eexists. }
  destruct (stat_at true s (done ++ [p])) as [[]|e]; [|by apply IH|eexists _, _; split; [reflexivity|by apply kept_refl]|].
  { eexists _, _; split; [reflexivity|by apply kept_refl]. }
  unfold mkdir_at. destruct (resolve false (nodes s) (done ++ [p])) as [a|e'] eqn:R;
    [|eexists _, _; split; [reflexivity|by apply kept_refl]].
  apply (resolve_plain _ d) in R as ->; [|done..].
  destruct (at_addr _ _); [eexists _, _; split; [reflexivity|by apply kept_refl]|].
  destruct (place_kept d s _ Dir Hl Hn1) as (r & s' & -> & Hk); [done|].
  destruct r as [e'|]; [eauto|]. destruct (IH (done ++ [p]) s') as (r & s'' & -> & Hk'); [apply Hk|done..|].
  eexists _, _. split; [reflexivity|by eapply kept_trans].
Qed.

Lemma MkdirAll_kept d path s :
  no_links d s → no_dotdot (elems path) → near d (rev (elems path)) → ∃ r s', MkdirAll path s = Ret r s' ∧ kept d s s'.
Proof. intros. by apply (mkdirs_kept d []). Qed.

Lemma WriteFile_kept d path data s :
  no_links d s → no_dotdot (elems path) → near d (rev (elems path)) → ∃ r s', WriteFile path data s = Ret r s' ∧ kept d s s'.
Proof.
  intros Hl Hp Hn. unfold WriteFile. pose proof (kept_refl d s Hl).
  destruct (resolve true (nodes s) (elems path)) as [a|e] eqn:R; [|eauto].
  apply (resolve_plain _ d) in R as ->; [|done..].
  destruct (at_addr _ _) as [[]|]; eauto; by apply place_kept.
Qed.

(** What was written is read back, through whatever links lead there. *)
Lemma walk_insert links follow m cur parts a d :
  walk links follow m cur parts = Ok a → a ≠ [] → match m !! a with Some (Reg _) | None => True | _ => False end →
  walk links follow (<[a := Reg d]> m) cur parts = Ok a.
Proof.
  intros Hw Hne Ha. revert cur parts Hw. induction links as [|links IHl].
  all: intros cur parts; revert cur; induction parts as [|p parts IH]; intros cur; [done|].
  all: cbn; destruct (bool_decide (p = "..")); [apply IH|].
  all: destruct (decide (a = p :: cur)) as [->|Hne'];
    [rewrite lookup_insert_eq; destruct (m !! _) as [[]|]; try done; by destruct parts|rewrite lookup_insert_ne by done].
  all: destruct (m !! (p :: cur)) as [[]|]; try (by destruct parts); try (by apply IH).
  destruct (_ && _); [done|apply IHl].
Qed.

(** A walk that follows links does not end at one. *)
Definition dirs (m : gmap addr node) (cur : addr) : Prop := ∀ b, b `suffix_of` cur → at_addr m b = Some Dir.
Lemma dirs_tail m cur : dirs m cur → dirs m (tail cur).
Proof. intros Hd b Hb. apply Hd. destruct cur; [done|]. cbn in Hb. by apply suffix_cons_r. Qed.
Lemma dirs_cons m p cur : dirs m cur → m !! (p :: cur) = Some Dir → dirs m (p :: cur).
Proof. intros Hd Hp [|q b]; [done|]. intros [[= -> ->]|Hb]%suffix_cons_inv; [done|by apply Hd]. Qed.
Lemma walk_follow links m cur parts a t :
  dirs m cur → walk links true m cur parts = Ok a → at_addr m a ≠ Some (Sym t).
Proof.
  revert cur parts. induction links as [|links IHl].
  all: intros cur parts; revert cur; induction parts as [|p parts IH]; intros cur Hd;
    [intros [= <-]; by rewrite (Hd cur)|].
  all: cbn; destruct (bool_decide (p = "..")); [by apply IH, dirs_tail|].
  all: destruct (m !! (p :: cur)) as [[]|] eqn:E.
  all: try (by apply IH, dirs_cons).
  all: try (destruct parts; [intros [= <-]; cbn; by rewrite E|done]).
  all: rewrite ?andb_false_r; try done.
  apply IHl. match goal with |- dirs _ (if ?b then _ else _) => destruct b end; [|done]. by intros b ->%suffix_nil_inv.
Qed.

Lemma WriteFile_ok path data s s' :
  WriteFile path data s = Ret None s' →
  ∃ a, a ≠ [] ∧ resolve true (nodes s) (elems path) = Ok a ∧ s' = set_node a (Reg data) s ∧
       match nodes s !! a with Some (Reg _) | None => True | _ => False end.
Proof.
  unfold WriteFile. destruct (resolve true _ _) as [a|] eqn:R; [|done].
  intros Hw. exists a. assert (Hs : ∀ t, at_addr (nodes s) a ≠ Some (Sym t)).
  { intros t. eapply walk_follow, R. by intros b ->%suffix_nil_inv. }
  destruct a as [|p a]; [done|]. cbn [at_addr] in *. unfold place in Hw. cbn [tail] in Hw.
  destruct (nodes s !! (p :: a)) as [[x| |t]|]; [|done|by destruct (Hs t)|].
  all: destruct (at_addr (nodes s) a) as [[]|]; try done; destruct (bool_decide _); try done; by simplify_eq.
Qed.

(** What was written is read back. *)
Lemma WriteFile_ReadFile path data s s' : WriteFile path data s = Ret None s' → ReadFile path s' = Ret (Ok data) s'.
Proof.
  intros (a & Ha & R & -> & Hn)%WriteFile_ok. unfold ReadFile, gets, stat_at, resolve, set_node. cbn [nodes].
  rewrite (walk_insert _ _ _ _ _ a) by done. destruct a; [done|]. cbn. by rewrite lookup_insert_eq.
Qed.

(** ** Files and directories stay

    Making directories and writing files takes nothing away: every directory
    and link stays as it is, every file stays a file. *)

Definition stays (n n' : node) : Prop := match n with Reg _ => ∃ d, n' = Reg d | _ => n' = n end.
Definition grows (s s' : fs) : Prop := ∀ a n, at_addr (nodes s) a = Some n → ∃ n', at_addr (nodes s') a = Some n' ∧ stays n n'.

Lemma stays_refl n : stays n n.
Proof. destruct n; cbn; eauto. Qed.
Lemma grows_refl s : grows s s.
Proof. intros a n Hn. exists n. split; [done|apply stays_refl]. Qed.
Lemma grows_trans s1 s2 s3 : grows s1 s2 → grows s2 s3 → grows s1 s3.
Proof.
  intros H1 H2 a n Hn. destruct (H1 a n Hn) as (n2 & E2 & S2). destruct (H2 a n2 E2) as (n3 & E3 & S3).
  exists n3. split; [done|]. destruct n; cbn in *; [destruct S2 as [d ->]; exact S3|by subst..].
Qed.

Lemma walk_grows links follow s s' cur parts a :
  grows s s' → walk links follow (nodes s) cur parts = Ok a → at_addr (nodes s) a ≠ None →
  walk links follow (nodes s') cur parts = Ok a.
Proof.
  intros Hg Hw Ha. revert cur parts Hw. induction links as [|links IHl].
  all: intros cur parts; revert cur; induction parts as [|p parts IH]; intros cur; [done|].
  all: cbn; destruct (bool_decide (p = "..")); [apply IH|].
  all: destruct (nodes s !! (p :: cur)) as [n|] eqn:E; [|destruct parts; [intros [= <-]; by destruct Ha|done]].
  all: destruct (Hg (p :: cur) n E) as (n' & E' & Hs); cbn in E'; rewrite E'.
  all: destruct n as [x| |t]; cbn in Hs; [destruct Hs as [d ->]|subst n'..]; try done; try apply IH.
  destruct (_ && _); [done|apply IHl].
Qed.

Definition at_dir (parts : list string) (s : fs) : Prop := stat_at true s parts = Ok Dir.
Lemma stat_grows follow s s' parts n :
  grows s s' → stat_at follow s parts = Ok n → ∃ n', stat_at follow s' parts = Ok n' ∧ stays n n'.
Proof.
  intros Hg. unfold stat_at. destruct (resolve follow (nodes s) parts) as [a|] eqn:R; [|done]. cbn [mbind res_bind].
  destruct (at_addr (nodes s) a) as [m|] eqn:E; [|done]. intros [= ->].
  assert (R' : resolve follow (nodes s') parts = Ok a) by (apply (walk_grows _ _ s); [done|exact R|by rewrite E]).
  rewrite R'. cbn [mbind res_bind]. destruct (Hg a n E) as (n' & -> & Hs). by exists n'.
Qed.
Lemma at_dir_grows s s' parts : grows s s' → at_dir parts s → at_dir parts s'.
Proof. intros Hg Hd. destruct (stat_grows _ _ _ _ _ Hg Hd) as (n' & E & Hs). by cbn in Hs; subst n'. Qed.
Lemma exists_grows s s' path : grows s s' → exists_at path s = true → exists_at path s' = true.
Proof.
  intros Hg. unfold exists_at. destruct (stat_at true s _) as [n|] eqn:E; [|done].
  by destruct (stat_grows _ _ _ _ _ Hg E) as (n' & -> & _).
Qed.

Lemma set_node_grows s a n :
  a ≠ [] → match nodes s !! a with None => True | Some n0 => stays n0 n end → grows s (set_node a n s).
Proof.
  intros Hne Hold b m Hm. destruct b as [|q b]; [exists Dir; by injection Hm as <-|]. cbn in *.
  destruct (decide (a = q :: b)) as [->|]; [rewrite Hm in Hold; rewrite lookup_insert_eq; by exists n|].
  rewrite lookup_insert_ne by done. exists m. split; [done|apply stays_refl].
Qed.
Lemma place_grows s a n r s' : at_addr (nodes s) a = None → place a n s = Ret r s' → grows s s'.
Proof.
  intros Ha. unfold place. destruct (at_addr _ (tail a)) as [[]|]; try (intros [= _ <-]; apply grows_refl).
  destruct (bool_decide _); intros [= _ <-]; [apply grows_refl|].
  destruct a as [|p a]; [done|]. apply set_node_grows; [done|]. cbn in Ha. by rewrite Ha.
Qed.

Lemma WriteFile_grows path data s s' : WriteFile path data s = Ret None s' → grows s s'.
Proof.
  intros (a & Ha & _ & -> & Hn)%WriteFile_ok. apply set_node_grows; [done|].
  destruct (nodes s !! a) as [[]|]; [by eexists|done..].
Qed.
Lemma WriteFile_exists path data s s' : WriteFile path data s = Ret None s' → exists_at path s' = true.
Proof.
  intros Hr%WriteFile_ReadFile. unfold ReadFile, gets in Hr. injection Hr as Hr. unfold exists_at.
  by destruct (stat_at true s' (elems path)).
Qed.

Lemma mkdir_at_grows parts s r s' : mkdir_at parts s = Ret r s' → grows s s'.
Proof.
  unfold mkdir_at. destruct (resolve _ _ _) as [a|]; [|intros [= _ <-]; apply grows_refl].
  destruct (at_addr (nodes s) a) eqn:E; [intros [= _ <-]; apply grows_refl|]. by apply place_grows.
Qed.
Lemma mkdirs_grows done parts s r s' : mkdirs done parts s = Ret r s' → grows s s'.
Proof.
  revert done s. induction parts as [|p parts IH]; intros done s; cbn [mkdirs]; [intros [= _ <-]; apply grows_refl|].
  destruct (stat_at _ _ _) as [[]|]; try (intros [= _ <-]; apply grows_refl); [by apply IH|].
  destruct (mkdir_at _ s) as [[e1|] s1|] eqn:E; [intros [= _ <-]; by eapply mkdir_at_grows| |done].
  intros Hr. eapply grows_trans; [by eapply mkdir_at_grows|by eapply IH].
Qed.
Lemma MkdirAll_grows path s r s' : MkdirAll path s = Ret r s' → grows s s'.
Proof. apply mkdirs_grows. Qed.

(** The directory just made is found, through whatever links lead there. *)
Lemma walk_mkdir links m cur parts a :
  walk links false m cur parts = Ok a → at_addr m a = None → walk links true (<[a := Dir]> m) cur parts = Ok a.
Proof.
  intros Hw Ha. revert cur parts Hw. induction links as [|links IHl].
  all: intros cur parts; revert cur; induction parts as [|p parts IH]; intros cur; [done|].
  all: cbn; destruct (bool_decide (p = "..")); [apply IH|].
  all: destruct (decide (a = p :: cur)) as [->|Hne]; [cbn in Ha; rewrite lookup_insert_eq, Ha; by destruct parts|].
  all: rewrite lookup_insert_ne by done.
  all: destruct (m !! (p :: cur)) as [[x| |t]|] eqn:E; try (by destruct parts); try apply IH.
  - destruct parts; [|done]. intros [= <-]. cbn in Ha. by rewrite E in Ha.
  - rewrite !andb_false_r. destruct parts; cbn [negb andb]; [intros [= <-]; cbn in Ha; by rewrite E in Ha|]. apply IHl.
Qed.
Lemma mkdir_at_dir parts s s' : mkdir_at parts s = Ret None s' → at_dir parts s'.
Proof.
  unfold mkdir_at. destruct (resolve _ _ _) as [a|] eqn:R; [|done].
  destruct (at_addr (nodes s) a) eqn:E; [done|]. unfold place.
  destruct (at_addr _ (tail a)) as [[]|]; try done. destruct (bool_decide _); [done|]. intros [= <-].
  unfold at_dir, stat_at. unfold resolve in *. cbn [nodes set_node]. rewrite (walk_mkdir _ _ _ _ _ R E). cbn.
  destruct a; [done|]. cbn. by rewrite lookup_insert_eq.
Qed.

(** After a success every directory on the way is there. *)
Lemma mkdirs_dirs done parts s s' :
  mkdirs done parts s = Ret None s' → ∀ pre, pre ≠ [] → pre `prefix_of` parts → at_dir (done ++ pre) s'.
Proof.
  revert done s. induction parts as [|p parts IH]; intros done s Hm pre Hne Hp.
  { by apply prefix_nil_inv in Hp as ->. }
  destruct pre as [|q pre]; [done|]. pose proof (prefix_cons_inv_1 _ _ _ _ Hp) as ->. apply prefix_cons_inv_2 in Hp.
  cbn [mkdirs] in Hm.
  assert (Hd : ∃ s1, at_dir (done ++ [p]) s1 ∧ mkdirs (done ++ [p]) parts s1 = Ret None s').
  { destruct (stat_at _ _ _) as [[]|] eqn:Es; [done|by exists s|done|].
    destruct (mkdir_at _ s) as [[e1|] s1|] eqn:E; [done| |done]. exists s1. split; [by eapply mkdir_at_dir|done]. }
  destruct Hd as (s1 & Hd & Hm1). destruct pre as [|q pre]; [eapply at_dir_grows; [by eapply mkdirs_grows|exact Hd]|].
  replace (done ++ p :: q :: pre) with ((done ++ [p]) ++ q :: pre) by by rewrite <-app_assoc. by eapply IH.
Qed.
Lemma mkdirs_again path parts s : (∀ pre, pre ≠ [] → pre `prefix_of` parts → at_dir (path ++ pre) s) → mkdirs path parts s = Ret None s.
Proof.
  revert path. induction parts as [|p parts IH]; intros path Hd; [done|]. cbn [mkdirs].
  assert (Hp : at_dir (path ++ [p]) s) by (apply Hd; [done|apply prefix_cons, prefix_nil]).
  unfold at_dir in Hp. rewrite Hp. apply IH. intros pre Hne Hpre. rewrite <-app_assoc.
  apply Hd; [done|by apply prefix_cons].
Qed.
(** Making directories that were made before changes nothing. *)
Lemma MkdirAll_again path s s' s2 : MkdirAll path s = Ret None s' → grows s' s2 → MkdirAll path s2 = Ret None s2.
Proof.
  intros Hm Hg. apply mkdirs_again. intros pre Hne Hp. eapply at_dir_grows; [exact Hg|].
  by eapply (mkdirs_dirs []).
Qed.

(** ** Every call returns *)

Lemma mkdirs_returns done parts : returns (mkdirs done parts).
Proof.
  revert done. induction parts as [|p parts IH]; intros done s; [by eexists _, _|]. cbn [mkdirs].
  destruct (stat_at _ _ _) as [[]|]; [by eexists _, _|by apply IH|by eexists _, _|].
  unfold mkdir_at, place. destruct (resolve _ _ _); [|by eexists _, _].
  destruct (at_addr (nodes s) a); [by eexists _, _|].
  destruct (at_addr _ (tail a)) as [[]|]; try (by eexists _, _). destruct (bool_decide _); [by eexists _, _|apply IH].
Qed.
Lemma MkdirAll_returns p : returns (MkdirAll p).
Proof. apply mkdirs_returns. Qed.
Lemma WriteFile_returns p d : returns (WriteFile p d).
Proof.
  intros s. unfold WriteFile, place. repeat (case_match; try (by eexists _, _)).
Qed.
Lemma RemoveAll_returns p : returns (RemoveAll p).
Proof. intros s. unfold RemoveAll. repeat (case_match; try (by eexists _, _)). Qed.
#[export] Hint Resolve MkdirAll_returns WriteFile_returns RemoveAll_returns : calm.
#[export] Hint Extern 1 (returns (Stat _)) => apply gets_returns : calm.
#[export] Hint Extern 1 (returns (ReadFile _)) => apply gets_returns : calm.
