(* ===== verification/RaftNode.v ===== *)
(** Bringing up a raft node and the calls on it (internal/store/raft.go).

    hashicorp/raft and its BoltDB stores are the class [RaftLib], over what
    they keep ([W]); addresses are resolved by [ResolveTCPAddr], which may ask
    the host's resolver.  [as_raft] is the handle the replicated store and the
    API are verified against, [Raft] of Replication. *)

From Stdlib Require Import Ascii.
From S2P Require Import Prelude GoTime Json Types Bolt Store StoreOps Text Path Fs Replication.

#[local] Arguments String.append : simpl nomatch.

Module RaftNode.

(** ** Addresses *)

(** [net.IP]: four bytes, or a 128-bit number. *)
Inductive IP := V4 (a b c d : Z) | V6 (n : Z).
Record TCPAddr := mkTCPAddr { addr_IP : option IP; addr_Port : Z }.

(** [ip.To4]: the last four bytes of an address below ::ffff:0:0. *)
Definition To4 (ip : IP) : option (Z * Z * Z * Z) :=
  match ip with
  | V4 a b c d => Some (a, b, c, d)
  | V6 n =>
    if Z.shiftr n 32 =? 65535 then
      Some (Z.land (Z.shiftr n 24) 255, Z.land (Z.shiftr n 16) 255, Z.land (Z.shiftr n 8) 255, Z.land n 255)
    else None
  end.
Definition IsUnspecified (ip : IP) : bool :=
  match To4 ip with
  | Some (a, b, c, d) => (a =? 0) && (b =? 0) && (c =? 0) && (d =? 0)
  | None => match ip with V6 n => n =? 0 | _ => false end
  end.
Definition IsLoopback (ip : IP) : bool :=
  match To4 ip with
  | Some (a, _, _, _) => a =? 127
  | None => match ip with V6 n => n =? 1 | _ => false end
  end.
Definition loopback : IP := V4 127 0 0 1.

(** The address advertised for the one bound. *)
Definition advertised (a : TCPAddr) : TCPAddr :=
  match addr_IP a with
  | None => mkTCPAddr (Some loopback) (addr_Port a)
  | Some ip => if IsUnspecified ip || IsLoopback ip then mkTCPAddr (Some loopback) (addr_Port a) else a
  end.

(** ** The library *)

Record RaftConfig := mkRaftConfig { rc_NodeID : string; rc_BindAddr : string; rc_DataDir : string; rc_Bootstrap : bool }.
(** What is set of [raft.DefaultConfig]. *)
Record raft_Config := mkRaft_Config { LocalID : string; SnapshotThreshold : Z; LogLevel : string }.
Record raft_Server := mkServer { Server_ID : string; Server_Address : string }.
Record TransportConfig := mkTransportConfig { MaxPool : Z; Timeout : Z }.

Class RaftLib (W : Type) := {
  db_handle : Type;         (** a BoltDB store *)
  snap_handle : Type;
  transport : Type;
  raft_handle : Type;
  ResolveTCPAddr : string → res TCPAddr;
  NewBoltStore : string → M W (res db_handle);
  NewFileSnapshotStore : string → Z → M W (res snap_handle);
  NewTCPTransport : string → TCPAddr → TransportConfig → M W (res transport);
  LocalAddr : transport → string;
  raft_New : raft_Config → db_handle → db_handle → snap_handle → transport → M W (res raft_handle);
  HasExistingState : db_handle → db_handle → snap_handle → M W (res bool);
  BootstrapCluster : raft_handle → list raft_Server → M W (option error);
  State_Leader : raft_handle → M W bool;
  LeaderWithID : raft_handle → M W (string * string);
  Apply_data : raft_handle → json → Z → M W (option error);
  lib_AddVoter : raft_handle → string → string → Z → M W (option error);
  lib_RemoveServer : raft_handle → string → Z → M W (option error);
  GetConfiguration : raft_handle → M W (res (list raft_Server));
  lib_Shutdown : raft_handle → M W (option error);
}.

Section Node.
Context {W : Type} `{RaftLib W}.
Abbreviation S := (fs * W)%type.

Definition on_disk {A} (m : M fs A) : M S A := λ s, match m s.1 with Ret a f => Ret a (f, s.2) | Panic => Panic end.
Definition on_lib {A} (m : M W A) : M S A := λ s, match m s.2 with Ret a w => Ret a (s.1, w) | Panic => Panic end.
(** [if err != nil { return nil, fmt.Errorf("...: %w", err) }] *)
Definition wrapping {A} (ctx : string) (m : M W (res A)) : M S (res A) :=
  r ← on_lib m; mret match r with Ok a => Ok a | Err e => Err (ErrWrap ctx e) end.

Definition node_conf (cfg : RaftConfig) : raft_Config := mkRaft_Config (rc_NodeID cfg) 1024 "WARN".
Definition transport_conf : TransportConfig := mkTransportConfig 3 (10 * Second).

(** The cluster of one a first node starts. *)
Definition bootstrap (cfg : RaftConfig) (logs stable : db_handle) (snaps : snap_handle) (t : transport) (r : raft_handle) :
    M S (res raft_handle) :=
  if negb (rc_Bootstrap cfg) then mret (Ok r)
  else
    has ←! on_lib (HasExistingState logs stable snaps);
    if (has : bool) then mret (Ok r)
    else
      e ← on_lib (BootstrapCluster r [mkServer (LocalID (node_conf cfg)) (LocalAddr t)]);
      mret match e with Some e => Err (ErrWrap "bootstrap raft" e) | None => Ok r end.

Definition NewRaft (cfg : RaftConfig) : M S (res raft_handle) :=
  if bool_decide (rc_NodeID cfg = "") then mret (Err (ErrMsg "raft node id is required"))
  else
    on_disk (MkdirAll (rc_DataDir cfg)) ;!
    logs ←! wrapping "raft log store" (NewBoltStore (Join [rc_DataDir cfg; "raft-log.db"]));
    stable ←! wrapping "raft stable store" (NewBoltStore (Join [rc_DataDir cfg; "raft-stable.db"]));
    snaps ←! wrapping "raft snapshots" (NewFileSnapshotStore (rc_DataDir cfg) 3);
    match ResolveTCPAddr (rc_BindAddr cfg) with
    | Err e => mret (Err (ErrWrap "resolve raft bind" e))
    | Ok a =>
      t ←! wrapping "raft transport" (NewTCPTransport (rc_BindAddr cfg) (advertised a) transport_conf);
      r ←! wrapping "raft.NewRaft" (raft_New (node_conf cfg) logs stable snaps t);
      bootstrap cfg logs stable snaps t r
    end.

(** ** Calls on a node *)

Definition IsLeader (r : raft_handle) : M W bool := State_Leader r.
Definition LeaderAddr (r : raft_handle) : M W string := a ← LeaderWithID r; mret a.1.
Definition AddVoter (r : raft_handle) (id addr : string) : M W (option error) := lib_AddVoter r id addr (10 * Second).
Definition RemoveServer (r : raft_handle) (id : string) : M W (option error) := lib_RemoveServer r id (10 * Second).
Definition Servers (r : raft_handle) : M W (res (list raft_Server)) := GetConfiguration r.
Definition Shutdown (r : raft_handle) : M W (option error) := lib_Shutdown r.

(** The node at an instant [w], as the rest of the program sees it. *)
Definition as_raft (r : raft_handle) (w : W) : Raft :=
  mkRaft (match eval (Servers r) w with Some (Ok l) => Ok (length l) | Some (Err e) => Err e | None => Err (ErrMsg "raft") end)
         (default false (eval (IsLeader r) w))
         (λ op, default (Some (ErrMsg "raft")) (eval (Apply_data r op (5 * Second)) w)).
End Node.

(** What the library documents: a transport's local address is the one it
    advertises, and a bootstrapped node has state. *)
Class RaftLibLaws (W : Type) `{RaftLib W} := {
  addr_text : TCPAddr → string;
  local_is_advertised : ∀ bind a c w t w', NewTCPTransport bind a c w = Ret (Ok t) w' → LocalAddr t = addr_text a;
  has_state : W → db_handle → db_handle → snap_handle → bool;
  HasExistingState_spec : ∀ l s n w, HasExistingState l s n w = Ret (Ok (has_state w l s n)) w;
}.

(** ** What is advertised *)

(** An address other hosts cannot use. *)
Definition local_only (a : TCPAddr) : bool :=
  match addr_IP a with None => true | Some ip => IsUnspecified ip || IsLoopback ip end.

(** A usable address is advertised as it is; the others all become
    127.0.0.1.  Describes a defect: nodes bound to the wildcard address of
    one port advertise one and the same address, and it is their own host to
    each of them. *)
Lemma advertised_spec a :
  advertised a = if local_only a then mkTCPAddr (Some loopback) (addr_Port a) else a.
Proof. unfold advertised, local_only. by destruct (addr_IP a). Qed.
Lemma wildcard_nodes_share_an_address a b :
  local_only a = true → local_only b = true → addr_Port a = addr_Port b → advertised a = advertised b.
Proof. rewrite !advertised_spec. by intros -> -> ->. Qed.

(** ** Bootstrapping *)

Section Bootstrap.
Context {W : Type} `{RLL : RaftLibLaws W}.
Implicit Types (cfg : RaftConfig) (s : fs * W).

Definition joining cfg : RaftConfig := mkRaftConfig (rc_NodeID cfg) (rc_BindAddr cfg) (rc_DataDir cfg) false.

(** A computation followed by a step that a given final state makes idle. *)
Lemma idle_after {A B} (m : M (fs * W) (res A)) (k k' : A → M (fs * W) (res B)) s :
  (∀ a s1, m s = Ret (Ok a) s1 → k a s1 = k' a s1) → try_bind m k s = try_bind m k' s.
Proof. intros Hk. unfold try_bind, mbind, M_bind. destruct (m s) as [[a|e] s1|] eqn:E; [|done|done]. by apply Hk. Qed.
Lemma idle_guard {B} (m : M (fs * W) (option error)) (k k' : M (fs * W) (res B)) s :
  (∀ s1, m s = Ret None s1 → k s1 = k' s1) → guard_err m k s = guard_err m k' s.
Proof. intros Hk. unfold guard_err, mbind, M_bind. destruct (m s) as [[e|] s1|] eqn:E; [done| |done]. by apply Hk. Qed.

Lemma bootstrap_idle cfg l st n t r s :
  has_state s.2 l st n = true → bootstrap cfg l st n t r s = Ret (Ok r) s.
Proof.
  intros Hs. unfold bootstrap. destruct (rc_Bootstrap cfg); [|done]. cbn.
  unfold try_bind, mbind, M_bind, on_lib. rewrite HasExistingState_spec, Hs. by destruct s.
Qed.

(** A node that has state is never bootstrapped again: wherever every
    state the node may reach keeps that it has one, bringing it up with the
    bootstrap flag is, in result and in effect, bringing it up without; and
    a node without an identifier is refused before anything is touched. *)
Theorem restart_never_bootstraps cfg s
    (Hkept : ∀ r f w l st n, NewRaft (joining cfg) s = Ret (Ok r) (f, w) → has_state w l st n = true) :
  NewRaft cfg s = NewRaft (joining cfg) s ∧
  (rc_NodeID cfg = "" → NewRaft cfg s = Ret (Err (ErrMsg "raft node id is required")) s).
Proof.
  split; [|by intros E; unfold NewRaft; rewrite bool_decide_eq_true_2].
  revert Hkept. unfold NewRaft. cbn [rc_NodeID rc_DataDir rc_BindAddr joining]. case_bool_decide as Hid; [done|].
  change (node_conf (joining cfg)) with (node_conf cfg). intros Hkept.
  assert (Hb : ∀ l st n t r, bootstrap (joining cfg) l st n t r = mret (Ok r)) by done.
  apply idle_guard. intros s1 E1. unfold guard_err in Hkept. rewrite (bind_ret_run _ _ _ _ _ E1) in Hkept.
  apply idle_after. intros logs s2 E2. unfold try_bind in Hkept at 1. rewrite (bind_ret_run _ _ _ _ _ E2) in Hkept.
  apply idle_after. intros stable s3 E3. unfold try_bind in Hkept at 1. rewrite (bind_ret_run _ _ _ _ _ E3) in Hkept.
  apply idle_after. intros snaps s4 E4. unfold try_bind in Hkept at 1. rewrite (bind_ret_run _ _ _ _ _ E4) in Hkept.
  destruct (ResolveTCPAddr (rc_BindAddr cfg)) as [a|e]; [|done].
  apply idle_after. intros t s5 E5. unfold try_bind in Hkept at 1. rewrite (bind_ret_run _ _ _ _ _ E5) in Hkept.
  apply idle_after. intros r s6 E6. unfold try_bind in Hkept. rewrite (bind_ret_run _ _ _ _ _ E6) in Hkept.
  rewrite Hb. destruct s6 as [f w]. apply bootstrap_idle. cbn. by eapply Hkept.
Qed.
End Bootstrap.

(** ** A library in which a cluster is the list of its servers *)

#[local] Instance demo_lib : RaftLib (list raft_Server) := {|
  db_handle := string; snap_handle := string; transport := TCPAddr; raft_handle := string;
  ResolveTCPAddr a := if has_prefix a "0.0.0.0:" then Ok (mkTCPAddr (Some (V4 0 0 0 0)) 7000) else Err (ErrMsg "no such host");
  NewBoltStore p := mret (Ok p);
  NewFileSnapshotStore p _ := mret (Ok p);
  NewTCPTransport _ a _ := mret (Ok a);
  LocalAddr a := if local_only a then "127.0.0.1:7000" else "";
  raft_New c _ _ _ _ := mret (Ok (LocalID c));
  HasExistingState _ _ _ := gets (λ l, Ok (negb (bool_decide (l = []))));
  BootstrapCluster _ l := put_state l;; mret None;
  State_Leader r := gets (existsb (λ x, bool_decide (Server_ID x = r)));
  LeaderWithID r := mret ("127.0.0.1:7000", r);
  Apply_data _ _ _ := mret None;
  lib_AddVoter _ id a _ := modify (λ l, l ++ [mkServer id a]);; mret None;
  lib_RemoveServer _ id _ := modify (List.filter (λ x, negb (bool_decide (Server_ID x = id))));; mret None;
  GetConfiguration _ := gets Ok;
  lib_Shutdown _ := mret None;
|}.
#[local] Instance raft_Server_eq_dec : EqDecision raft_Server.
Proof. solve_decision. Defined.
#[local] Instance demo_lib_laws : RaftLibLaws (list raft_Server).
Proof.
  refine (Build_RaftLibLaws _ _ (λ a, if local_only a then "127.0.0.1:7000" else "") _
            (λ l _ _ _, negb (bool_decide (l = []))) _); [|done].
  intros bind a c w t w' E. cbn in E. by injection E as <- _.
Defined.

Definition demo_cfg : RaftConfig := mkRaftConfig "n1" "0.0.0.0:7000" "/data/raft" true.
Definition demo_servers : list raft_Server := [mkServer "n1" "127.0.0.1:7000"].

(** The first start makes the cluster; the second finds it. *)
Example first_start_bootstraps : snd <$> exec (NewRaft demo_cfg) (empty_fs, []) = Some demo_servers.
Proof. vm_compute. reflexivity. Qed.
Lemma restart_never_bootstraps_witness :
  NewRaft demo_cfg (empty_fs, demo_servers) = NewRaft (joining demo_cfg) (empty_fs, demo_servers).
Proof.
  refine (proj1 (restart_never_bootstraps demo_cfg (empty_fs, demo_servers) _)).
  intros r f w l st n E.
  assert (Hw : snd <$> exec (NewRaft (joining demo_cfg)) (empty_fs, demo_servers) = Some demo_servers) by (vm_compute; reflexivity).
  unfold exec in Hw. rewrite E in Hw. injection Hw as ->. reflexivity.
Defined.
End RaftNode.
