(* ===== verification/Header.v ===== *)
(** [http.Header]: canonical names, and the copy of a message's header map
    into one, as the microVM host, its agent and the wasm runtime do it. *)

From Stdlib Require Import Ascii.
From S2P Require Import Prelude Json Dispatcher.

(** [validHeaderFieldByte]: the bytes of an RFC 7230 token. *)
Definition token_byte (a : ascii) : bool :=
  let n := N_of_ascii a in
  ((48 <=? n) && (n <=? 57) || (65 <=? n) && (n <=? 90) || (97 <=? n) && (n <=? 122))%N ||
  existsb (Ascii.eqb a) (String.list_ascii_of_string "!#$%&'*+-.^_`|~").

(** [textproto.CanonicalMIMEHeaderKey] on any name. *)
Definition CanonicalKey (k : string) : string :=
  if forallb token_byte (String.list_ascii_of_string k) then canonicalKey k else k.

Abbreviation Header := (gmap string (list string)).
Definition Header_Add (k v : string) (h : Header) : Header :=
  let k := CanonicalKey k in <[k := default [] (h !! k) ++ [v]]> h.
Definition Header_Set (k v : string) (h : Header) : Header := <[CanonicalKey k := [v]]> h.
Definition Header_Get (k : string) (h : Header) : string := default "" (head (default [] (h !! CanonicalKey k))).

(** [for k, vs := range m { for _, v := range vs { h.Add(k, v) } }].  Go visits
    the keys in no fixed order: it shows only in the order of the values of
    two names with one canonical form. *)
Definition add_all (k : string) (vs : list string) (h : Header) : Header := foldl (λ h v, Header_Add k v h) h vs.
Definition copy_header (m : gmap string (list string)) (h : Header) : Header :=
  foldl (λ h kv, add_all kv.1 kv.2 h) h (sorted_entries m).

Definition canonical (m : gmap string (list string)) : Prop := map_Forall (λ k vs, CanonicalKey k = k ∧ vs ≠ []) m.
#[export] Instance canonical_dec m : Decision (canonical m).
Proof. unfold canonical. apply _. Defined.

Lemma Header_Add_canonical k v h :
  CanonicalKey k = k → Header_Add k v h = <[k := default [] (h !! k) ++ [v]]> h.
Proof. intros Hk. unfold Header_Add. by rewrite Hk. Qed.

Lemma add_all_lookup k vs h k' :
  CanonicalKey k = k →
  add_all k vs h !! k' = if bool_decide (k' = k ∧ vs ≠ []) then Some (default [] (h !! k) ++ vs) else h !! k'.
Proof.
  intros Hk. unfold add_all. revert h. induction vs as [|v vs IH]; intros h; cbn [foldl].
  - case_bool_decide as Hd; [|done]. by destruct Hd.
  - rewrite IH, Header_Add_canonical by done. rewrite lookup_insert_eq. cbn [default].
    destruct (decide (k' = k)) as [->|Hne].
    + rewrite lookup_insert_eq, (bool_decide_eq_true_2 (k = k ∧ v :: vs ≠ [])) by done.
      destruct vs as [|w vs]; [by rewrite bool_decide_eq_false_2 by naive_solver|].
      rewrite bool_decide_eq_true_2 by done. cbn. by rewrite <-app_assoc.
    + rewrite !bool_decide_eq_false_2 by naive_solver. by rewrite lookup_insert_ne.
Qed.

Lemma copy_entries_lookup l h k :
  Forall (λ kv : string * list string, CanonicalKey kv.1 = kv.1 ∧ kv.2 ≠ []) l → NoDup l.*1 →
  foldl (λ h kv, add_all kv.1 kv.2 h) h l !! k =
  match (list_to_map l : gmap string (list string)) !! k with Some vs => Some (default [] (h !! k) ++ vs) | None => h !! k end.
Proof.
  revert h. induction l as [|[k1 vs] l IH]; intros h; [intros _ _; cbn [list_to_map foldr]; by rewrite lookup_empty|].
  intros [[Hk Hv] Hl]%Forall_cons [Hn Hnd]%NoDup_cons. cbn [foldl list_to_map foldr fst snd] in *. rewrite IH by done.
  cbn. rewrite add_all_lookup by done. destruct (decide (k = k1)) as [->|Hne].
  - rewrite lookup_insert_eq, bool_decide_eq_true_2 by done.
    by rewrite (not_elem_of_list_to_map_1 _ _ Hn).
  - rewrite lookup_insert_ne, bool_decide_eq_false_2 by naive_solver. done.
Qed.

(** A header already in canonical form is copied as it is. *)
Lemma copy_header_canonical m : canonical m → copy_header m ∅ = m.
Proof.
  intros Hm. apply map_eq. intros k. unfold copy_header. rewrite copy_entries_lookup.
  - rewrite <-(list_to_map_to_list m) at 2.
    rewrite (list_to_map_proper (sorted_entries m) (map_to_list m)) by (apply sorted_entries_nodup || apply sorted_entries_perm).
    rewrite lookup_empty. by destruct (_ !! k).
  - rewrite sorted_entries_perm. apply Forall_forall. intros [k' vs] Hin%elem_of_map_to_list. by apply Hm in Hin.
  - apply sorted_entries_nodup.
Qed.
