(* ===== verification/Protocol.v ===== *)
(** The wire format between the host and the agent inside a microVM
    (internal/runtime/firecracker/protocol/protocol.go): the two messages, the
    frame around them, and what a reader does with a stream that arrives in
    arbitrary pieces. *)

From Stdlib Require Import Ascii.
From S2P Require Import Prelude GoTime Json Text Glob Duration JsonText.

#[local] Arguments String.append : simpl nomatch.
#[local] Arguments Marshal : simpl never.
#[local] Arguments utf8 : simpl never.
#[local] Arguments base64 : simpl never.
#[local] Arguments base64_decode : simpl never.

Module Protocol.

Definition VsockPort : Z := 5252.
Definition MaxMessageSize : Z := Z.shiftl 32 20.

(** A [[]byte] field as it is in the text: a JSON string holding base64. *)
Record raw := Raw { raw_str : string }.
#[export] Instance raw_eq_dec : EqDecision raw.
Proof. solve_decision. Defined.
#[export] Instance raw_json : Json raw := {
  enc b := JStr (base64 (raw_str b));
  dec j := match j with JStr s => Raw <$> base64_decode s | JNull => Some (Raw "") | _ => None end;
  zero := Raw "";
  is_empty b := bool_decide (raw_str b = "");
  json_okb _ := true;
}.
#[export] Instance raw_laws : JsonLaws raw.
Proof.
  split; [|done|].
  - intros [s] _. cbn. by rewrite base64_decode_encode.
  - intros [s]. cbn. by intros ->%bool_decide_eq_true.
Qed.

Record Request := mkRequest {
  Request_Method : string;
  Request_Path : string;
  Request_Headers : gmap string (list string);
  Request_Body : raw;
  Request_Env : gmap string string;
  Request_SecretFiles : gmap string raw;
  Request_Mode : string;
}.
#[export] Instance request_json : Json Request := struct_json mkRequest (
  fld "method" Request_Method;
  fld "path" Request_Path;
  ofld "headers" Request_Headers;
  ofld "body" Request_Body;
  ofld "env" Request_Env;
  ofld "secretFiles" Request_SecretFiles;
  ofld "mode" Request_Mode;
  Fnil).
#[export] Instance request_laws : JsonLaws Request.
Proof. struct_laws. Qed.

Record Response := mkResponse {
  Response_Status : Z;
  Response_Headers : gmap string (list string);
  Response_Body : raw;
  Response_Logs : string;
  Response_Error : string;
}.
#[export] Instance response_json : Json Response := struct_json mkResponse (
  fld "status" Response_Status;
  ofld "headers" Response_Headers;
  ofld "body" Response_Body;
  ofld "logs" Response_Logs;
  ofld "error" Response_Error;
  Fnil).
#[export] Instance response_laws : JsonLaws Response.
Proof. struct_laws. Qed.

(** ** Frames *)

(** [binary.BigEndian.PutUint32] and [Uint32]. *)
Definition PutUint32 (n : Z) : string := of_bytes (SHA256.be_bytes 4 n).
Definition Uint32 (s : string) : Z := foldl (λ acc b, acc * 256 + b) 0 (bytes_of s).

(** [io.Writer]. *)
Class Writer (W : Type) := write : string → M W (option error).

Definition too_large (n : Z) : error := ErrMsg ("frame too large: " +:+ itoa n +:+ " bytes").

Definition WriteFrame {W} `{Writer W} {A} `{Json A} (v : A) : M W (option error) :=
  let data := Marshal (enc v) in
  let n := Z.of_nat (String.length data) in
  if MaxMessageSize <? n then mret (Some (too_large n))
  else write (PutUint32 n) ;? write data.

(** A connection, as its reader sees it: the pieces still to come.  [Read]
    returns a part of the first piece; the end of the list is the end of the
    stream. *)
Definition stream : Type := list string.
Definition contents (cs : stream) : string := foldr String.append "" cs.

(** [io.ReadFull] for [n] bytes: [None] when the stream ends before. *)
Fixpoint ReadFull (n : nat) (cs : stream) : option string * stream :=
  match n with
  | O => (Some "", cs)
  | S _ =>
    match cs with
    | [] => (None, [])
    | c :: cs =>
      if (n <=? String.length c)%nat then (Some (take_str n c), drop_str n c :: cs)
      else
        let '(r, cs') := ReadFull (n - String.length c) cs in
        ((λ t, c +:+ t) <$> r, cs')
    end
  end.

Definition EOF : error := ErrMsg "EOF".
Definition ErrUnexpectedEOF : error := ErrMsg "unexpected EOF".
(** Nothing at all read is [io.EOF]. *)
Definition short_read (cs : stream) : error :=
  if bool_decide (contents cs = "") then EOF else ErrUnexpectedEOF.

Definition ReadFrame {A} `{Json A} : M stream (res A) := λ cs,
  match ReadFull 4 cs with
  | (None, cs') => Ret (Err (short_read cs)) cs'
  | (Some hdr, cs) =>
    let n := Uint32 hdr in
    if n =? 0 then Ret (Err (ErrMsg "empty frame")) cs
    else if MaxMessageSize <? n then Ret (Err (too_large n)) cs
    else
      match ReadFull (Z.to_nat n) cs with
      | (None, cs') => Ret (Err (short_read cs)) cs'
      | (Some buf, cs) =>
        match Unmarshal buf with
        | Some v => Ret (Ok v) cs
        | None => Ret (Err (ErrMsg "invalid JSON")) cs
        end
      end
  end.

(** ** A writer that keeps what it is given *)

#[export] Instance buffer_writer : Writer string := λ s w, Ret None (w +:+ s).

(** What [WriteFrame] sends for a value that fits. *)
Definition frame {A} `{Json A} (v : A) : string :=
  PutUint32 (Z.of_nat (String.length (Marshal (enc v)))) +:+ Marshal (enc v).
Definition fits {A} `{Json A} (v : A) : Prop :=
  Z.of_nat (String.length (Marshal (enc v))) ≤ MaxMessageSize.

(** ** Lemmas *)

Lemma contents_app_cons c cs : contents (c :: cs) = c +:+ contents cs.
Proof. done. Qed.

Lemma contents_snoc l x : contents (l ++ [x]) = contents l +:+ x.
Proof.
  induction l as [|y l IH]; [exact (str_app_nil x)|]. cbn [app]. by rewrite !contents_app_cons, IH, str_app_assoc.
Qed.

Lemma str_app_split (a b c d : string) :
  a +:+ b = c +:+ d → String.length a = String.length c → a = c ∧ b = d.
Proof.
  revert c. induction a as [|x a IH]; intros [|y c]; cbn; try lia; [done|].
  intros E L. injection E as -> E. injection L as L. by destruct (IH c E L) as [-> ->].
Qed.

#[local] Arguments take_str : simpl never.
#[local] Arguments drop_str : simpl never.

(** The pieces in which the bytes arrive do not matter. *)
Lemma ReadFull_pieces s n cs t :
  contents cs = s +:+ t → String.length s = n →
  ∃ cs', ReadFull n cs = (Some s, cs') ∧ contents cs' = t.
Proof.
  revert s n t. induction cs as [|c cs IH]; intros s n t Hc Hn.
  - destruct s; [|done]. cbn in Hn, Hc. subst. by exists [].
  - destruct n as [|n]. { destruct s; [|done]. exists (c :: cs). by rewrite Hc. }
    cbn [ReadFull]. destruct (S n <=? String.length c)%nat eqn:E.
    + apply Nat.leb_le in E. rewrite contents_app_cons in Hc.
      assert (take_str (S n) c = s ∧ drop_str (S n) c +:+ contents cs = t) as [-> Ht].
      { apply str_app_split; [|by rewrite length_take_le].
        by rewrite <-str_app_assoc, take_drop_str. }
      eexists. split; [done|]. done.
    + apply Nat.leb_gt in E. rewrite contents_app_cons in Hc.
      assert (∃ s', s = c +:+ s' ∧ contents cs = s' +:+ t) as (s' & -> & Hcs).
      { exists (drop_str (String.length c) s).
        destruct (str_app_split c (contents cs) (take_str (String.length c) s) (drop_str (String.length c) s +:+ t)) as [H1 H2].
        - by rewrite <-str_app_assoc, take_drop_str.
        - rewrite length_take_le; lia.
        - split; [|done]. rewrite H1 at 1. by rewrite take_drop_str. }
      rewrite length_app_str in Hn.
      destruct (IH s' (S n - String.length c)%nat t Hcs ltac:(lia)) as (cs' & -> & Hrest). eauto.
Qed.

(** A stream that is too short is reported as such. *)
Lemma ReadFull_short n cs : (String.length (contents cs) < n)%nat → (ReadFull n cs).1 = None.
Proof.
  revert n. induction cs as [|c cs IH]; intros [|n]; cbn [ReadFull]; try (cbn; lia); [done|].
  rewrite contents_app_cons, length_app_str. intros Hn.
  destruct (S n <=? String.length c)%nat eqn:E; [apply Nat.leb_le in E; lia|].
  specialize (IH (S n - String.length c)%nat ltac:(lia)). by destruct (ReadFull _ cs) as [[] ?].
Qed.

Lemma ReadFull_length n cs s cs' :
  ReadFull n cs = (Some s, cs') → String.length s = n ∧ contents cs = s +:+ contents cs'.
Proof.
  revert n s cs'. induction cs as [|c cs IH]; intros [|n] s cs'; cbn [ReadFull]; try (by intros [= <- <-]).
  destruct (S n <=? String.length c)%nat eqn:E.
  - intros H. simplify_eq H. intros <- <-. apply Nat.leb_le in E. split; [exact (length_take_le (S n) c E)|].
    by rewrite !contents_app_cons, <-str_app_assoc, take_drop_str.
  - apply Nat.leb_gt in E. destruct (ReadFull (S n - String.length c) cs) as [[t|] cs1] eqn:R; [|done].
    intros [= <- <-]. destruct (IH _ _ _ R) as [Hl Hc]. rewrite length_app_str, contents_app_cons, Hc, str_app_assoc.
    split; [lia|done].
Qed.

Lemma Uint32_PutUint32 n : 0 ≤ n < 2 ^ 32 → Uint32 (PutUint32 n) = n.
Proof.
  intros Hn. unfold Uint32, PutUint32, SHA256.be_bytes, of_bytes, bytes_of.
  cbn [seq rev app fmap list_fmap].
  rewrite String.list_ascii_of_string_of_list_ascii. cbn [fmap list_fmap foldl].
  assert (Hb : ∀ k, Z.of_N (N_of_ascii (ascii_of_N (Z.to_N (Z.land (Z.shiftr n k) 255)))) = Z.land (Z.shiftr n k) 255).
  { intros k. change 255 with (Z.ones 8). rewrite Z.land_ones by done.
    pose proof (Z.mod_pos_bound (Z.shiftr n k) (2 ^ 8) ltac:(done)).
    rewrite N_ascii_embedding; lia. }
  rewrite !Hb. change 255 with (Z.ones 8). rewrite !Z.land_ones by done.
  rewrite !Z.shiftr_div_pow2 by lia. repeat match goal with |- context [2 ^ ?e] => let v := eval compute in (2 ^ e) in progress change (2 ^ e) with v end.
  Z.to_euclidean_division_equations; lia.
Qed.
Lemma length_PutUint32 n : String.length (PutUint32 n) = 4%nat.
Proof. done. Qed.

(** ** Types whose encoding is plain JSON text *)

Class JsonText A `{Json A} : Prop := enc_text (a : A) : json_ok a → text_ok (enc a) = true.

#[export] Instance string_text : JsonText string.
Proof. intros s. unfold json_ok. cbn. rewrite !bool_decide_eq_true. congruence. Qed.
#[export] Instance int_text : JsonText Z.
Proof. done. Qed.

Lemma utf8_base64 s : utf8 (base64 s) = base64 s.
Proof.
  apply utf8_ascii.
  assert (Hc : ∀ n, ascii_text (String (b64_char (n mod 64)) "") = true).
  { intros n. assert (H : forallb (λ k, ascii_text (String (b64_char (N.of_nat k)) "")) (seq 0 64) = true) by (vm_compute; reflexivity).
    rewrite forallb_forall in H. specialize (H (N.to_nat (n mod 64))). rewrite N2Nat.id in H. apply H, in_seq.
    pose proof (N.mod_lt n 64 ltac:(done)) as Hb. revert Hb. clear. generalize (n mod 64)%N. lia. }
  assert (Hd : ∀ n t, (n < 64)%N → ascii_text t = true → ascii_text (String (b64_char n) t) = true).
  { intros n t Hn Ht. specialize (Hc n). rewrite N.mod_small in Hc by done. unfold ascii_text in *. cbn in *.
    rewrite andb_true_r in Hc. by rewrite Hc. }
  assert (Hm : ∀ x, (x mod 64 < 64)%N) by (intros x; by apply N.mod_lt).
  assert (Hlt : ∀ a, (N_of_ascii a < 256)%N) by apply N_ascii_bounded.
  assert (Heq : ∀ t, ascii_text t = true → ascii_text (String "=" t) = true) by done.
  remember (String.length s) as k eqn:E. revert s E.
  induction (lt_wf k) as [k _ IH]; intros s ->.
  destruct s as [|a [|b [|c s]]]; [done| | |].
  all: pose proof (Hlt a); try pose proof (Hlt b); try pose proof (Hlt c).
  - cbn [base64]. apply Hd; [zify; Z.to_euclidean_division_equations; lia|]. apply Hd; [apply Hm|]. by repeat apply Heq.
  - cbn [base64]. apply Hd; [zify; Z.to_euclidean_division_equations; lia|]. repeat (apply Hd; [apply Hm|]). by apply Heq.
  - cbn [base64]. apply Hd; [zify; Z.to_euclidean_division_equations; lia|]. repeat (apply Hd; [apply Hm|]).
    eapply IH; [|done]. cbn. lia.
Qed.
#[export] Instance raw_text : JsonText raw.
Proof. intros [s] _. cbn. by rewrite utf8_base64, bool_decide_eq_true. Qed.
#[export] Instance list_text {A} `{JsonText A} : JsonText (list A).
Proof.
  intros l Hl%forallb_json_ok. cbn. apply forallb_forall. intros j Hj%list_elem_of_In.
  apply list_elem_of_fmap in Hj as (a & -> & Ha). apply enc_text. by eapply Forall_forall in Hl.
Qed.

#[export] Instance map_text {A} `{JsonText A} : JsonText (gmap string A).
Proof.
  intros m Hm. unfold json_ok in Hm. cbn in *. apply forallb_forall. intros [k j] Hj%list_elem_of_In.
  apply list_elem_of_fmap in Hj as ([k' a] & [= -> ->] & Ha). rewrite sorted_entries_perm in Ha. cbn.
  rewrite forallb_forall in Hm. specialize (Hm (k', a) (proj1 (list_elem_of_In _ _) Ha)).
  apply andb_true_iff in Hm as [Hk Ha']. apply bool_decide_eq_true in Hk. cbn in Hk, Ha'.
  rewrite bool_decide_eq_true_2 by congruence. by apply enc_text.
Qed.

(** A struct, from its list of fields. *)
Fixpoint text_fields {S X} (fs : fields S X) : Prop :=
  match fs with
  | Fnil => True
  | @Fcons _ A _ JA _ name _ _ rest => ascii_text name = true ∧ @JsonText A JA ∧ text_fields rest
  end.
Lemma enc_fields_text {S X} (fs : fields S X) s :
  text_fields fs → ok_fields fs s = true → text_ok (JObj (enc_fields fs s)) = true.
Proof.
  induction fs as [|A X JA LA name omit get rest IH]; [done|].
  intros (Hn & Ht & Hr) [Hg Hok]%andb_true_iff. cbn [enc_fields].
  destruct (omit && is_empty (get s)); [by apply IH|]. cbn in *. rewrite (Ht _ Hg), utf8_ascii by done.
  rewrite bool_decide_eq_true_2 by done. by apply IH.
Qed.

Ltac struct_text := intros x; apply enc_fields_text; cbn [text_fields]; split_and!; first [exact I | reflexivity | apply _].

#[export] Instance request_text : JsonText Request.
Proof. struct_text. Qed.
#[export] Instance response_text : JsonText Response.
Proof. struct_text. Qed.

(** ** The frame *)

Lemma Marshal_not_empty j : Marshal j ≠ "".
Proof. destruct (Marshal_starts j "") as (a & t & E & _). intros H. by rewrite H in E. Qed.

Lemma frame_header {A} `{Json A} (v : A) :
  fits v → 0 < Z.of_nat (String.length (Marshal (enc v))) ≤ MaxMessageSize.
Proof.
  unfold fits. intros Hf. pose proof (Marshal_not_empty (enc v)). destruct (Marshal (enc v)); [done|].
  cbn [String.length] in *. lia.
Qed.

Lemma WriteFrame_sends {A} `{Json A} (v : A) (w : string) : fits v → WriteFrame v w = Ret None (w +:+ frame v).
Proof.
  unfold fits, WriteFrame, frame. intros Hf. rewrite (proj2 (Z.ltb_ge _ _) Hf).
  unfold check, mbind, M_bind, write, buffer_writer. by rewrite str_app_assoc.
Qed.

Lemma ReadFrame_receives {A} `{JsonLaws A, !JsonText A} (v : A) cs rest :
  json_ok v → fits v → contents cs = frame v +:+ rest →
  ∃ cs', ReadFrame cs = Ret (Ok v) cs' ∧ contents cs' = rest.
Proof.
  intros Hok Hf Hc. pose proof (frame_header v Hf) as Hn. unfold frame in Hc. rewrite str_app_assoc in Hc.
  destruct (ReadFull_pieces _ 4 _ _ Hc (length_PutUint32 _)) as (cs1 & E1 & Hc1).
  destruct (ReadFull_pieces _ _ _ _ Hc1 eq_refl) as (cs2 & E2 & Hc2).
  exists cs2. split; [|done]. unfold ReadFrame. rewrite E1.
  rewrite Uint32_PutUint32 by (change MaxMessageSize with 33554432 in Hn; lia).
  destruct (Z.eqb_spec (Z.of_nat (String.length (Marshal (enc v)))) 0); [lia|].
  rewrite (proj2 (Z.ltb_ge _ _)) by lia. rewrite Nat2Z.id, E2.
  unfold Unmarshal. rewrite Unmarshal_Marshal by by apply enc_text. cbn. by rewrite dec_enc.
Qed.

(** C14 A message written to a connection is read back as it was and the
    stream is left at the first byte after it, whatever the pieces in which
    the network delivers the bytes: for every type with a lawful text
    encoding, every value the encoding keeps and whose text is at most
    [MaxMessageSize] bytes. *)
Theorem frame_roundtrip {A} `{JsonLaws A, !JsonText A} (v : A) (w : string) (cs : stream) (rest : string) :
  json_ok v → fits v → contents cs = frame v +:+ rest →
  WriteFrame v w = Ret None (w +:+ frame v) ∧
  ∃ cs', ReadFrame cs = Ret (Ok v) cs' ∧ contents cs' = rest.
Proof. intros Hok Hf Hc. split; [by apply WriteFrame_sends|by eapply ReadFrame_receives]. Qed.

Definition a_request : Request :=
  mkRequest "POST" "/orders" {["Accept" := ["a"; "b"]]} (Raw (of_bytes [0; 255; 10])) {["MODE" := "stdio"]}
    {["/run/k" := Raw "s3cret"]} "".
Theorem frame_roundtrip_witness :
  ∃ cs', ReadFrame [take_str 3 (frame a_request); take_str 40 (drop_str 3 (frame a_request)); "";
                    drop_str 43 (frame a_request) +:+ "next"] = Ret (Ok a_request) cs' ∧ contents cs' = "next".
Proof.
  apply (frame_roundtrip a_request "" _ "next"); [vm_compute; reflexivity | unfold fits | vm_compute; reflexivity].
  apply Z.leb_le. vm_compute. reflexivity.
Defined.

(** [ReadFrame] on the bytes themselves: what is read and what is left. *)
Definition read_spec {A} `{Json A} (s : string) : res A * string :=
  let short t := if bool_decide (t = "") then EOF else ErrUnexpectedEOF in
  if (String.length s <? 4)%nat then (Err (short s), "")
  else
    let n := Uint32 (take_str 4 s) in
    let b := drop_str 4 s in
    if n =? 0 then (Err (ErrMsg "empty frame"), b)
    else if MaxMessageSize <? n then (Err (too_large n), b)
    else if (String.length b <? Z.to_nat n)%nat then (Err (short b), "")
    else (match Unmarshal (take_str (Z.to_nat n) b) with Some v => Ok v | None => Err (ErrMsg "invalid JSON") end,
          drop_str (Z.to_nat n) b).

Lemma ReadFull_spec n cs :
  if (String.length (contents cs) <? n)%nat then ReadFull n cs = (None, [])
  else ∃ cs', ReadFull n cs = (Some (take_str n (contents cs)), cs') ∧ contents cs' = drop_str n (contents cs).
Proof.
  destruct (String.length (contents cs) <? n)%nat eqn:E.
  - apply Nat.ltb_lt in E. revert n E. induction cs as [|c cs IH]; intros [|n]; cbn [ReadFull]; try (cbn; lia); [done|].
    rewrite contents_app_cons, length_app_str. intros Hn.
    destruct (S n <=? String.length c)%nat eqn:E; [apply Nat.leb_le in E; lia|]. by rewrite IH by lia.
  - apply Nat.ltb_ge in E. eapply ReadFull_pieces; [by rewrite take_drop_str|by apply length_take_le].
Qed.

(** What a reader makes of a stream is decided by its bytes alone, not by
    the pieces they arrive in: too few bytes, a zero length, a length above
    [MaxMessageSize], a text that is no JSON value of the type and a whole
    message are told apart as in [read_spec].  It never panics, and it never
    takes more than a header and [MaxMessageSize] bytes. *)
Theorem read_frame_is_bounded {A} `{Json A} (cs : stream) :
  ∃ cs' : stream,
    ReadFrame cs = Ret (read_spec (A:=A) (contents cs)).1 cs' ∧
    contents cs' = (read_spec (A:=A) (contents cs)).2 ∧
    Z.of_nat (String.length (contents cs)) ≤ 4 + MaxMessageSize + Z.of_nat (String.length (contents cs')).
Proof.
  assert (Hm : 0 < MaxMessageSize) by done.
  assert (Hd : ∀ n s, String.length (drop_str n s) = (String.length s - n)%nat) by (intros; apply length_drop_str).
  unfold ReadFrame, read_spec. pose proof (ReadFull_spec 4 cs) as R.
  destruct (Nat.ltb_spec (String.length (contents cs)) 4).
  { rewrite R. exists []. split_and!; [done..|]. cbn [contents foldr String.length]. lia. }
  destruct R as (cs1 & -> & Hc1). cbv zeta. rewrite <-Hc1. set (n := Uint32 _).
  assert (Hl : (String.length (contents cs1) = String.length (contents cs) - 4)%nat) by (by rewrite Hc1, Hd).
  destruct (Z.eqb_spec n 0); [exists cs1; cbn; split_and!; [done..|lia]|].
  destruct (Z.ltb_spec MaxMessageSize n); [exists cs1; cbn; split_and!; [done..|lia]|].
  pose proof (ReadFull_spec (Z.to_nat n) cs1) as R. destruct (Nat.ltb_spec (String.length (contents cs1)) (Z.to_nat n)).
  { rewrite R. exists []. split_and!; [done..|]. cbn [contents foldr String.length]. lia. }
  destruct R as (cs2 & -> & Hc2). exists cs2. rewrite <-Hc2. split_and!; [by destruct (Unmarshal _)|done|].
  rewrite Hc2, Hd. lia.
Qed.

(** A message whose text is larger than [MaxMessageSize] is refused and
    nothing of it reaches the connection. *)
Theorem oversized_is_not_sent {A} `{Json A} (v : A) (w : string) :
  ¬ fits v → WriteFrame v w = Ret (Some (too_large (Z.of_nat (String.length (Marshal (enc v)))))) w.
Proof. unfold fits, WriteFrame. intros Hn. by rewrite (proj2 (Z.ltb_lt _ _)) by lia. Qed.

End Protocol.
