(* ===== verification/Network.v ===== *)
(** Host networking (internal/network/network.go): the bridge set-up and the
    published ports.

    The commands [ip], [nft] and [sysctl] are run through the parameter
    [Shell]; [nft] itself is a table of rules only where a theorem says so. *)

From S2P Require Import Prelude Text Path.

(** The host: the platform, the commands on the search path, and what running
    one does. *)
Class Shell (S : Type) := {
  linux : bool;
  commandAvailable : string → bool;
  run : string → list string → M S (option error);
}.

Record Manager := mkManager { bridge : string; subnet : string }.

Definition NewManager (bridge subnet : string) : Manager :=
  mkManager (if bool_decide (bridge = "") then "selfcloud0" else bridge)
            (if bool_decide (subnet = "") then "10.42.0.0/16" else subnet).

(** [strings.Replace s old new 1], for a non-empty [old]. *)
Fixpoint replace_first (s old new : string) : string :=
  match s with
  | EmptyString => EmptyString
  | String a s' => if has_prefix s old then new +:+ drop_str (String.length old) s
                   else String a (replace_first s' old new)
  end.

(** The bridge address [Setup] computes from a subnet. *)
Definition gateway (subnet : string) : string :=
  replace_first (nth 0 (split_on slash subnet) "") ".0" ".1".

Section Network.
Context {S : Type} `{Shell S}.

Definition ignore {A} (m : M S A) : M S () := _ ← m; mret ().

(** A subnet without a slash makes the source panic. *)
Definition Setup (m : Manager) : M S (option error) :=
  if negb linux then mret None
  else if negb (commandAvailable "ip") then mret (Some (ErrMsg "`ip` not found; install iproute2"))
  else
    r ← run "ip" ["link"; "show"; bridge m];
    r ← match r with
        | None => mret None
        | Some _ => run "ip" ["link"; "add"; bridge m; "type"; "bridge"]
        end;
    match r with
    | Some e => mret (Some (ErrWrap "create bridge" e))
    | None =>
      match split_on slash (subnet m) with
      | _ :: len :: _ =>
        ignore (run "ip" ["addr"; "add"; gateway (subnet m) +:+ "/" +:+ len; "dev"; bridge m]) ;;
        ignore (run "ip" ["link"; "set"; bridge m; "up"]) ;;
        (if commandAvailable "sysctl" then ignore (run "sysctl" ["-w"; "net.ipv4.ip_forward=1"]) else mret ()) ;;
        mret None
      | _ => panic
      end
    end.

Definition dnatRule (hostPort containerPort : Z) (proto containerIP : string) : string :=
  proto +:+ " dport " +:+ itoa hostPort +:+ " dnat to " +:+ containerIP +:+ ":" +:+ itoa containerPort.

Definition Publish (hostPort containerPort : Z) (proto containerIP : string) : M S (option error) :=
  if negb linux || negb (commandAvailable "nft") then mret None
  else
    let proto := if bool_decide (proto = "") then "tcp" else proto in
    r ← run "nft" ["list"; "table"; "ip"; "selfcloud"];
    (match r with
     | None => mret ()
     | Some _ =>
       ignore (run "nft" ["add"; "table"; "ip"; "selfcloud"]) ;;
       ignore (run "nft" ["add"; "chain"; "ip"; "selfcloud"; "prerouting";
                          "{ type nat hook prerouting priority dstnat ; policy accept ; }"])
     end) ;;
    run "nft" ["add"; "rule"; "ip"; "selfcloud"; "prerouting"; dnatRule hostPort containerPort proto containerIP].

Definition Unpublish (hostPort : Z) (proto : string) : M S (option error) :=
  if negb linux || negb (commandAvailable "nft") then mret None
  else
    ignore (run "nft" ["flush"; "chain"; "ip"; "selfcloud"; "prerouting"]) ;;
    mret None.
End Network.

(** ** What the commands do, as nft documents them

    [list table] fails when the table is absent, [add rule] appends, [flush
    chain] removes every rule of the chain. *)
Section Nft.
Context {S : Type} `{Shell S}.
(** The rules of the chain, [None] before the table exists. *)
Context (rules : S → option (list string)).

Record NftLaws : Prop := {
  nft_list s : ∃ r s', run "nft" ["list"; "table"; "ip"; "selfcloud"] s = Ret r s' ∧
    rules s' = rules s ∧ (r = None ↔ rules s ≠ None);
  nft_table s : ∃ r s', run "nft" ["add"; "table"; "ip"; "selfcloud"] s = Ret r s' ∧
    rules s' = Some (default [] (rules s));
  nft_chain s opts : ∃ r s', run "nft" ["add"; "chain"; "ip"; "selfcloud"; "prerouting"; opts] s = Ret r s' ∧
    rules s' = rules s;
  nft_rule s l rule : rules s = Some l →
    ∃ s', run "nft" ["add"; "rule"; "ip"; "selfcloud"; "prerouting"; rule] s = Ret None s' ∧
          rules s' = Some (l ++ [rule]);
  nft_flush s l : rules s = Some l →
    ∃ r s', run "nft" ["flush"; "chain"; "ip"; "selfcloud"; "prerouting"] s = Ret r s' ∧ rules s' = Some [];
}.
Context (NL : NftLaws) (Hlinux : linux = true) (Hnft : commandAvailable "nft" = true).

Lemma Publish_run s host cont proto ip :
  ∃ s', Publish host cont proto ip s = Ret None s' ∧
    rules s' = Some (default [] (rules s) ++
      [dnatRule host cont (if bool_decide (proto = "") then "tcp" else proto) ip]).
Proof.
  unfold Publish. rewrite Hlinux, Hnft. cbn [negb orb].
  destruct (nft_list NL s) as (r & s1 & Hl & Hr1 & Hr). rewrite (bind_ret_run _ _ _ _ _ Hl).
  destruct r as [e|].
  - destruct (nft_table NL s1) as (r2 & s2 & H2 & Hr2).
    destruct (nft_chain NL s2 "{ type nat hook prerouting priority dstnat ; policy accept ; }")
      as (r3 & s3 & H3 & Hr3).
    destruct (nft_rule NL s3 (default [] (rules s))
                (dnatRule host cont (if bool_decide (proto = "") then "tcp" else proto) ip))
      as (s4 & H4 & Hr4). { by rewrite Hr3, Hr2, Hr1. }
    exists s4. split; [|done]. unfold ignore, mbind, M_bind. rewrite H2. cbn. rewrite H3. exact H4.
  - assert (Hsome : rules s ≠ None) by tauto. destruct (rules s) as [l|] eqn:El; [|done].
    destruct (nft_rule NL s1 l (dnatRule host cont (if bool_decide (proto = "") then "tcp" else proto) ip))
      as (s4 & H4 & Hr4). { by rewrite Hr1. }
    exists s4. split; [|done]. unfold mbind, M_bind. cbn. done.
Qed.

(** Publishing a port appends its rule even when the same port is already
    published (the table gains a duplicate), and unpublishing any one port
    removes the rules of every port of the node. *)
Theorem publish_duplicates_unpublish_flushes (s : S) (host cont : Z) (proto ip : string)
    (host' : Z) (proto' : string) (l : list string) (Hl : rules s = Some l) :
  let rule := dnatRule host cont (if bool_decide (proto = "") then "tcp" else proto) ip in
  ∃ s1 s2 s3, Publish host cont proto ip s = Ret None s1 ∧ rules s1 = Some (l ++ [rule]) ∧
    Publish host cont proto ip s1 = Ret None s2 ∧ rules s2 = Some (l ++ [rule; rule]) ∧
    Unpublish host' proto' s2 = Ret None s3 ∧ rules s3 = Some [].
Proof.
  cbn zeta. destruct (Publish_run s host cont proto ip) as (s1 & H1 & Hr1).
  destruct (Publish_run s1 host cont proto ip) as (s2 & H2 & Hr2).
  rewrite Hl in Hr1. rewrite Hr1 in Hr2. cbn [default] in Hr1, Hr2.
  destruct (nft_flush NL s2 _ Hr2) as (r & s3 & H3 & Hr3).
  exists s1, s2, s3. split_and!; try done.
  - rewrite Hr2. exact (f_equal Some (eq_sym (app_assoc l [_] [_]))).

  - unfold Unpublish. rewrite Hlinux, Hnft. unfold ignore, mbind, M_bind. cbn. by rewrite H3.
Qed.
End Nft.

(** The bridge of the default subnet is given the address 10.42.1.0, not the
    subnet's first host 10.42.0.1: the first ".0" replaced is the third
    number's. *)
Example default_gateway : gateway (subnet (NewManager "" "")) = "10.42.1.0".
Proof. reflexivity. Qed.

(** ** Witness: a host whose only state is the chain *)

#[local] Instance demo_shell : Shell (option (list string)) := {
  linux := true;
  commandAvailable _ := true;
  run name args := λ s,
    match args with
    | ["list"; "table"; _; _] => Ret (match s with Some _ => None | None => Some (ErrMsg "no such table") end) s
    | ["add"; "table"; _; _] => Ret None (Some (default [] s))
    | ["add"; "chain"; _; _; _; _] => Ret None s
    | ["add"; "rule"; _; _; _; rule] =>
      match s with Some l => Ret None (Some (l ++ [rule])) | None => Ret (Some (ErrMsg "no such table")) s end
    | ["flush"; _; _; _; _] => Ret None (match s with Some _ => Some [] | None => None end)
    | _ => Ret None s
    end;
}.
Lemma demo_nft : NftLaws (S:=option (list string)) id.
Proof.
  split.
  - intros [l|]; do 2 eexists; (split; [reflexivity|]); done.
  - intros s. do 2 eexists. split; [reflexivity|]. done.
  - intros s opts. do 2 eexists. split; [reflexivity|]. done.
  - intros s l rule Hs. cbn in Hs. subst s. eexists. split; [reflexivity|]. done.
  - intros s l Hs. cbn in Hs. subst s. do 2 eexists. split; [reflexivity|]. done.
Qed.

Lemma publish_duplicates_unpublish_flushes_witness :
  ∃ s1 s2 s3, Publish (S:=option (list string)) 8080 80 "" "10.42.0.2" (Some []) = Ret None s1 ∧
    id s1 = Some ([] ++ ["tcp dport 8080 dnat to 10.42.0.2:80"]) ∧
    Publish (S:=option (list string)) 8080 80 "" "10.42.0.2" s1 = Ret None s2 ∧
    id s2 = Some ([] ++ ["tcp dport 8080 dnat to 10.42.0.2:80"; "tcp dport 8080 dnat to 10.42.0.2:80"]) ∧
    Unpublish (S:=option (list string)) 9090 "" s2 = Ret None s3 ∧ id s3 = Some [].
Proof.
  exact (publish_duplicates_unpublish_flushes id demo_nft eq_refl eq_refl (Some []) 8080 80 "" "10.42.0.2"
           9090 "" [] eq_refl).
Defined.
