(* ===== verification/Reconciler.v ===== *)
(** The container reconciler (internal/runtime/container/reconcile.go,
    secrets.go) and the in-memory runtime (stub.go).

    The runtime is an interface ([Runtime]); the secret resolver and the port
    publisher are optional, as in the source.  [RSys] is the reconciler's
    world: the store, the runtime's own state, the per-container memory, the
    staged secret files, and the history of what the reconciler did: the
    containers handed to [Start], the containers written to the store, the
    events emitted and the ports published. *)

From S2P Require Import Prelude GoTime Json Types Bolt Store StoreOps StoreLaws Table StoreProps Text Path Secrets.

(** [Runtime] of runtime.go, the operations the reconciler uses.  [IsRunning]
    is the optional liveness hook. *)
Class Runtime (R : Type) := {
  rt_Start : Container → time → M R (res ContainerStatus);
  rt_IsRunning : option (Container → M R (res bool));
}.

Record reconcileState := mkReconcileState {
  lastAttempt : time;
  nextAttempt : time;
  lastAliveCheck : time;
  attempts : Z;
  lastGen : Z;
  startedOK : bool;
}.
Definition fresh_state : reconcileState :=
  mkReconcileState zero_time zero_time zero_time 0 0 false.

(** [SecretResolver], reading the store. *)
Class SecretResolver `{Bolt} := {
  sr_Resolve : string → gmap string string → M World (res (gmap string string));
  sr_Reveal : string → string → M World (res string);
}.

Record RSys `{Bolt} (R : Type) := mkRSys {
  r_world : World;
  r_rt : R;
  r_state : gmap string reconcileState;
  r_files : gmap string string;      (** secret files, by path *)
  r_starts : list Container;
  r_writes : list Container;
  r_events : list EventRecord;
  r_ports : list (PortMapping * string);
}.
Arguments mkRSys {_ _}.
Arguments r_world {_ _}. Arguments r_rt {_ _}. Arguments r_state {_ _}. Arguments r_files {_ _}.
Arguments r_starts {_ _}. Arguments r_writes {_ _}. Arguments r_events {_ _}. Arguments r_ports {_ _}.

(** ** Pure parts *)

(** [backoff := 5s; for i := 1; i < attempts && backoff < 5min; i++ { backoff *= 2 }]. *)
Fixpoint backoff_loop (n : nat) (b : Z) : Z :=
  match n with
  | O => b
  | S n => if b <? 5 * Minute then backoff_loop n (b * 2) else b
  end.
Definition startBackoff (attempts : Z) : Z :=
  let b := backoff_loop (Z.to_nat (attempts - 1)) (5 * Second) in
  if 5 * Minute <? b then 5 * Minute else b.

Definition shouldRestart (p : RestartPolicy) : bool :=
  bool_decide (p = RestartAlways) || bool_decide (p = RestartOnFailure).

Definition shouldVerifyAlive (st : reconcileState) (t : time) : bool :=
  8 * Second <? Sub t (lastAliveCheck st).

Definition stateKey (c : Container) : string :=
  Meta_Project (Container_Meta c) +:+ "/" +:+ Meta_Name (Container_Meta c).

Definition phaseOf (c : Container) : Phase := Status_Phase (ContainerStatus_Status (Container_Status c)).
Definition messageOf (c : Container) : string := Status_Message (ContainerStatus_Status (Container_Status c)).

Definition mountUID (c : Container) : string :=
  let m := Container_Meta c in
  if bool_decide (Meta_UID m = "") then Meta_Project m +:+ "-" +:+ Meta_Name m else Meta_UID m.
(** The file a secret mount is staged in. *)
Definition mountName (mountPath : string) : string :=
  let name := Base mountPath in
  if bool_decide (name = "/") || bool_decide (name = "") || bool_decide (name = ".") then "secret" else name.
Definition secretFile (dataDir : string) (c : Container) (mountPath : string) : string :=
  let dataDir := if bool_decide (dataDir = "") then "/var/lib/selfcloud" else dataDir in
  Join [Join [dataDir; "secret-mounts"; mountUID c]; mountName mountPath].

Section Reconciler.
Context `{Bolt} {R : Type} `{Runtime R}.
Implicit Types s : RSys R.

(** The fields the source's constructor and [With*] options set. *)
Context (secrets : option SecretResolver) (dataDir : string)
  (bus net : bool)
  (writable : bool).   (** whether secret files can be written *)

Definition on_world {A} (m : M World A) : M (RSys R) A := λ s,
  match m (r_world s) with
  | Ret a w => Ret a (mkRSys w (r_rt s) (r_state s) (r_files s) (r_starts s) (r_writes s) (r_events s) (r_ports s))
  | Panic => Panic
  end.
Definition on_rt {A} (m : M R A) : M (RSys R) A := λ s,
  match m (r_rt s) with
  | Ret a r => Ret a (mkRSys (r_world s) r (r_state s) (r_files s) (r_starts s) (r_writes s) (r_events s) (r_ports s))
  | Panic => Panic
  end.
Definition set_rstate (f : gmap string reconcileState → gmap string reconcileState) : M (RSys R) () :=
  modify (λ s, mkRSys (r_world s) (r_rt s) (f (r_state s)) (r_files s) (r_starts s) (r_writes s) (r_events s) (r_ports s)).
Definition log_start (c : Container) : M (RSys R) () :=
  modify (λ s, mkRSys (r_world s) (r_rt s) (r_state s) (r_files s) (r_starts s ++ [c]) (r_writes s) (r_events s) (r_ports s)).
Definition log_write (c : Container) : M (RSys R) () :=
  modify (λ s, mkRSys (r_world s) (r_rt s) (r_state s) (r_files s) (r_starts s) (r_writes s ++ [c]) (r_events s) (r_ports s)).
Definition emit_event (ev : EventRecord) : M (RSys R) () :=
  if bus then
    modify (λ s, mkRSys (r_world s) (r_rt s) (r_state s) (r_files s) (r_starts s) (r_writes s) (r_events s ++ [ev]) (r_ports s))
  else mret ().
Definition write_file (path data : string) : M (RSys R) () :=
  if writable then
    modify (λ s, mkRSys (r_world s) (r_rt s) (r_state s) (<[path := data]> (r_files s)) (r_starts s) (r_writes s) (r_events s) (r_ports s))
  else mret ().

(** [r.get key]: the entry is created on first use. *)
Definition get_rstate (key : string) : M (RSys R) reconcileState := λ s,
  match r_state s !! key with
  | Some st => Ret st s
  | None => (set_rstate (<[key := fresh_state]>) ;; mret fresh_state) s
  end.
Definition put_rstate (key : string) (st : reconcileState) : M (RSys R) () := set_rstate (<[key := st]>).
Definition forget (key : string) : M (RSys R) () := set_rstate (delete key).

(** [_ = r.st.PutContainer(ctx, c)]. *)
Definition store_put (c : Container) : M (RSys R) () :=
  log_write c ;; _ ← on_world (PutContainer c); mret ().

Definition isRunning (c : Container) : M (RSys R) bool :=
  match rt_IsRunning with
  | None => mret true
  | Some f => r ← on_rt (f c); mret match r with Err _ => true | Ok b => b end
  end.

(** ** Secrets

    [cWork := *c] copies the struct, not the map: the working environment is
    the container's own map until [Resolve] gives a new one.  [aliased] says
    the two are still one map. *)

Definition stage_mount (sr : SecretResolver) (c : Container) (sm : SecretMount) : M (RSys R) () :=
  if bool_decide (SecretMount_MountPath sm = "") then mret ()
  else
    r ← on_world (sr_Reveal (Meta_Project (Container_Meta c)) (SecretMount_Secret sm));
    match r with
    | Err _ => mret ()
    | Ok pt => write_file (secretFile dataDir c (SecretMount_MountPath sm)) pt
    end.

Fixpoint inject_env (sr : SecretResolver) (project : string) (mounts : list SecretMount)
    (env : gmap string string) : M (RSys R) (gmap string string) :=
  match mounts with
  | [] => mret env
  | sm :: mounts =>
    if bool_decide (SecretMount_EnvName sm = "") then inject_env sr project mounts env
    else
      r ← on_world (sr_Reveal project (SecretMount_Secret sm));
      match r with
      | Err _ => inject_env sr project mounts env
      | Ok pt => inject_env sr project mounts (<[SecretMount_EnvName sm := pt]> env)
      end
  end.

(** The container as the source holds it afterwards, and the working copy. *)
Definition resolveSecrets (c : Container) : M (RSys R) (Container * Container) :=
  match secrets with
  | None => mret (c, c)
  | Some sr =>
    let project := Meta_Project (Container_Meta c) in
    r ← on_world (sr_Resolve project (Container_Env c));
    (* a nil environment is replaced by a fresh map before it is written to *)
    let env := match r with Ok e => e | Err _ => Container_Env c end in
    let aliased := match r with Ok _ => false | Err _ => negb (bool_decide (Container_Env c = ∅)) end in
    for_each (stage_mount sr c) (Container_SecretMounts c) ;;
    env ← inject_env sr project (Container_SecretMounts c) env;
    mret (if aliased then { c with Container_Env := env } else c, { c with Container_Env := env })
  end.

(** ** One container *)

Definition crash_event (c : Container) (e : error) (attempts : Z) : EventRecord :=
  { (zero (A:=EventRecord)) with
    EventRecord_Type := "container.crash";
    EventRecord_Project := Meta_Project (Container_Meta c);
    EventRecord_Subject := Meta_Name (Container_Meta c);
    EventRecord_Data := {["name" := Meta_Name (Container_Meta c); "image" := Container_Image c;
                          "error" := error_text e; "attempts" := itoa attempts]} }.
Definition start_event (c : Container) : EventRecord :=
  { (zero (A:=EventRecord)) with
    EventRecord_Type := "container.start";
    EventRecord_Project := Meta_Project (Container_Meta c);
    EventRecord_Subject := Meta_Name (Container_Meta c);
    EventRecord_Data := {["name" := Meta_Name (Container_Meta c); "image" := Container_Image c]} }.

Definition failed_status (e : error) (t : time) : ContainerStatus :=
  { (zero (A:=ContainerStatus)) with
    ContainerStatus_Status := mkStatus PhaseFailed (error_text e) "" t }.

(** [rt.Start] failed. *)
Definition start_failed (c : Container) (st : reconcileState) (t : time) (e : error) : M (RSys R) () :=
  let n := wrap64 (attempts st + 1) in
  put_rstate (stateKey c) { st with attempts := n; startedOK := false;
                                    nextAttempt := Add t (startBackoff n) } ;;
  (if negb (bool_decide (phaseOf c = PhaseFailed)) || negb (bool_decide (messageOf c = error_text e)) then
     store_put { c with Container_Status := failed_status e t }
   else mret ()) ;;
  emit_event (crash_event c e n).

Definition publish_ports (c : Container) (ip : string) : M (RSys R) () :=
  if negb net || bool_decide (ip = "") then mret ()
  else modify (λ s, mkRSys (r_world s) (r_rt s) (r_state s) (r_files s) (r_starts s) (r_writes s) (r_events s)
                      (r_ports s ++ ((λ p, (p, ip)) <$> Container_Ports c))).

(** [rt.Start] succeeded. *)
Definition start_succeeded (c : Container) (nodeID : string) (st : reconcileState) (out : ContainerStatus) : M (RSys R) () :=
  put_rstate (stateKey c) { st with attempts := 0; startedOK := true;
                                    lastGen := Meta_Generation (Container_Meta c) } ;;
  (if startedOK st then mret () else emit_event (start_event c)) ;;
  publish_ports c (ContainerStatus_IPAddress out) ;;
  (if negb (bool_decide (phaseOf c = Status_Phase (ContainerStatus_Status out)))
      || negb (bool_decide (Container_NodeID c = nodeID)) then
     store_put { c with Container_Status := out; Container_NodeID := nodeID }
   else mret ()).

(** The start path: backoff, secrets, start. *)
Definition start_path (c : Container) (nodeID : string) (st : reconcileState) (t : time) : M (RSys R) () :=
  if bool_decide (phaseOf c = PhaseFailed) && Before t (nextAttempt st) then put_rstate (stateKey c) st
  else
    let st := { st with lastAttempt := t } in
    put_rstate (stateKey c) st ;;
    cw ← resolveSecrets c;
    log_start cw.2 ;;
    t1 ← on_world now;
    r ← on_rt (rt_Start cw.2 t1);
    match r with
    | Err e => start_failed cw.1 st t e
    | Ok out => start_succeeded cw.1 nodeID st out
    end.

Definition exited_status (c : Container) (t : time) : ContainerStatus :=
  { Container_Status c with
    ContainerStatus_Status -> Status_Phase := PhaseStopped;
    ContainerStatus_Status -> Status_Message :=
      ("exited (restartPolicy=" +:+ Container_RestartPolicy c +:+ ")");
    ContainerStatus_Status -> Status_UpdatedAt := t }.

Definition reconcileOne (c : Container) (nodeID : string) : M (RSys R) () :=
  if negb (bool_decide (Container_NodeID c = "")) && negb (bool_decide (Container_NodeID c = nodeID)) then mret ()
  else if bool_decide (phaseOf c = PhaseStopped) then mret ()
  else
    st ← get_rstate (stateKey c);
    t ← on_world now;
    if startedOK st && (lastGen st =? Meta_Generation (Container_Meta c)) && bool_decide (phaseOf c = PhaseRunning) then
      if negb (shouldVerifyAlive st t) then mret ()
      else
        alive ← isRunning c;
        let st := { st with lastAliveCheck := t } in
        put_rstate (stateKey c) st ;;
        if alive : bool then mret ()
        else if negb (shouldRestart (Container_RestartPolicy c)) then
          store_put { c with Container_Status := exited_status c t } ;;
          put_rstate (stateKey c) { st with startedOK := false }
        else start_path c nodeID { st with startedOK := false } t
    else start_path c nodeID st t.

(** ** The loop of [Run] *)

Definition bootstrap (nodeID : string) : M (RSys R) () :=
  r ← on_world (ListContainers "");
  match r with
  | Err _ => mret ()
  | Ok cs => for_each (λ c, reconcileOne c nodeID) cs
  end.

(** One store notice. *)
Definition on_notice (ev : Event) (nodeID : string) : M (RSys R) () :=
  if negb (bool_decide (Event_Kind ev = KindContainer)) then mret ()
  else if bool_decide (Event_Op ev = "delete") then forget (Event_Project ev +:+ "/" +:+ Event_Name ev)
  else
    r ← on_world (GetContainer (Event_Project ev) (Event_Name ev));
    match r with
    | Err _ => mret ()
    | Ok c => reconcileOne c nodeID
    end.

(** Receiving and handling the notice at the head of subscription [sub];
    [false] when there is none. *)
Definition run_notice (sub : nat) (nodeID : string) : M (RSys R) bool :=
  ev ← on_world (receive sub);
  match ev with
  | None => mret false
  | Some ev => on_notice ev nodeID ;; mret true
  end.
End Reconciler.

(** The secret manager is such a resolver. *)
Definition manager_resolver `{Bolt} (m : Manager) : SecretResolver := {|
  sr_Resolve := Resolve m;
  sr_Reveal := Reveal m;
|}.

(** ** The in-memory runtime *)

Record Stub := mkStub {
  stub_state : gmap string ContainerStatus;
  stub_logs : gmap string string;
  nextIP : Z;   (** a byte *)
}.
Definition NewStub : Stub := mkStub ∅ ∅ 2.

Definition newline : string := String (Ascii.ascii_of_nat 10) "".

Definition stub_Start (c : Container) (t : time) : M Stub (res ContainerStatus) := λ s,
  let st := mkContainerStatus (mkStatus PhaseRunning "started by stub runtime" "" t)
              ("stub-" +:+ Meta_UID (Container_Meta c)) t 0 ("10.42.0." +:+ itoa (nextIP s)) (Container_Image c) in
  Ret (Ok st)
    (mkStub (<[stateKey c := st]> (stub_state s))
       (<[stateKey c := "[stub] container " +:+ Meta_Name (Container_Meta c) +:+ " started with image "
                        +:+ Container_Image c +:+ newline]> (stub_logs s))
       ((nextIP s + 1) mod 256)).

Definition stub_Stop (c : Container) (t : time) : M Stub (option error) := λ s,
  Ret None
    match stub_state s !! stateKey c with
    | None => s
    | Some st =>
      mkStub (<[stateKey c := { st with ContainerStatus_Status -> Status_Phase := PhaseStopped;
                                        ContainerStatus_Status -> Status_UpdatedAt := t }]> (stub_state s))
        (stub_logs s) (nextIP s)
    end.
Definition stub_Remove (c : Container) : M Stub (option error) := λ s,
  Ret None (mkStub (delete (stateKey c) (stub_state s)) (delete (stateKey c) (stub_logs s)) (nextIP s)).
Definition stub_Logs (c : Container) : M Stub string := gets (λ s, default "" (stub_logs s !! stateKey c)).
(** The keys, in an order Go does not specify. *)
Definition stub_List : M Stub (list string) := gets (λ s, (map_to_list (stub_state s)).*1).

#[export] Instance stub_runtime : Runtime Stub := {
  rt_Start := stub_Start;
  rt_IsRunning := None;
}.
