(* ===== verification/ReconcilerProps.v ===== *)
(** What the reconciler guarantees for one container: what it hands to the
    runtime and writes to the store, how failures back off, when it settles,
    and where plaintext secrets can end up. *)

From S2P Require Import Prelude GoTime Json Types Bolt Store StoreOps StoreLaws Table StoreProps Text Path Cipher Random Secrets Reconciler.
Import DemoRandom.

(** ** The history a step leaves *)

Section Adds.
Context `{Bolt} {R : Type}.
Implicit Types s : RSys R.

(** [m] hands at most [ds] containers to the runtime, all in [P], writes at
    most [dw] to the store, all in [Q], and returns a value in [post]. *)
Definition adds (P Q : Container → Prop) (ds dw : nat) {A} (post : A → Prop) (m : M (RSys R) A) : Prop :=
  ∀ s a s', m s = Ret a s' → post a ∧
    ∃ ls lw, r_starts s' = r_starts s ++ ls ∧ r_writes s' = r_writes s ++ lw ∧
             (length ls ≤ ds)%nat ∧ (length lw ≤ dw)%nat ∧ Forall P ls ∧ Forall Q lw.

Context (P Q : Container → Prop).

Lemma adds_weaken {A} ds dw ds' dw' (post post' : A → Prop) m :
  adds P Q ds dw post m → (ds ≤ ds')%nat → (dw ≤ dw')%nat → (∀ a, post a → post' a) →
  adds P Q ds' dw' post' m.
Proof.
  intros Hm Hs Hw Hp s a s' Hrun. destruct (Hm s a s' Hrun) as (Ha & ls & lw & ? & ? & ? & ? & ? & ?).
  split; [auto|]. exists ls, lw. split_and!; try done; lia.
Qed.

Lemma adds_ret {A} (a : A) (post : A → Prop) : post a → adds P Q 0 0 post (mret a).
Proof. intros Ha s b s' [= <- <-]. split; [done|]. exists [], []. by rewrite !app_nil_r. Qed.

Lemma adds_stop {A} (a : A) ds dw : adds P Q ds dw (λ _, True) (mret a).
Proof. eapply adds_weaken; [by apply (adds_ret a (λ _, True))|lia|lia|done]. Qed.

Lemma adds_bind {A B} d1 w1 d2 w2 (p1 : A → Prop) (p2 : B → Prop) m f :
  adds P Q d1 w1 p1 m → (∀ a, p1 a → adds P Q d2 w2 p2 (f a)) →
  adds P Q (d1 + d2) (w1 + w2) p2 (m ≫= f).
Proof.
  intros Hm Hf s b s' Hrun. unfold mbind, M_bind in Hrun. destruct (m s) as [a s1|] eqn:E; [|done].
  destruct (Hm _ _ _ E) as (Ha & ls & lw & Es & Ew & ? & ? & ? & ?).
  destruct (Hf a Ha _ _ _ Hrun) as (Hb & ls2 & lw2 & Es2 & Ew2 & ? & ? & ? & ?).
  split; [done|]. exists (ls ++ ls2), (lw ++ lw2). rewrite Es2, Ew2, Es, Ew, !app_assoc, !length_app.
  split_and!; try done; try lia; by apply Forall_app.
Qed.

(** Steps that only touch the rest of the state. *)
Definition silent {A} (m : M (RSys R) A) : Prop :=
  ∀ s a s', m s = Ret a s' → r_starts s' = r_starts s ∧ r_writes s' = r_writes s.

Lemma adds_silent {A} (m : M (RSys R) A) : silent m → adds P Q 0 0 (λ _, True) m.
Proof.
  intros Hm s a s' Hrun. destruct (Hm _ _ _ Hrun) as [-> ->]. split; [done|].
  exists [], []. by rewrite !app_nil_r.
Qed.

Lemma silent_on_world {A} (m : M World A) : silent (on_world m).
Proof. intros s a s'. unfold on_world. destruct (m _); [|done]. by intros [= <- <-]. Qed.
Lemma silent_on_rt {A} (m : M R A) : silent (on_rt m).
Proof. intros s a s'. unfold on_rt. destruct (m _); [|done]. by intros [= <- <-]. Qed.
Lemma silent_put_rstate k st : silent (put_rstate k st).
Proof. by intros s a s' [= <- <-]. Qed.
Lemma silent_get_rstate k : silent (get_rstate k).
Proof. intros s a s'. unfold get_rstate. destruct (r_state s !! k); by intros [= <- <-]. Qed.
Lemma silent_emit bus ev : silent (emit_event bus ev).
Proof. unfold emit_event. destruct bus; by intros s a s' [= <- <-]. Qed.
Lemma silent_publish net c ip : silent (publish_ports net c ip).
Proof. unfold publish_ports. destruct (_ || _); by intros s a s' [= <- <-]. Qed.
Lemma silent_write_file w p d : silent (write_file w p d).
Proof. unfold write_file. destruct w; by intros s a s' [= <- <-]. Qed.

Lemma silent_bind {A B} (m : M (RSys R) A) (f : A → M (RSys R) B) :
  silent m → (∀ a, silent (f a)) → silent (m ≫= f).
Proof.
  intros Hm Hf s b s' Hrun. unfold mbind, M_bind in Hrun. destruct (m s) as [a s1|] eqn:E; [|done].
  destruct (Hm _ _ _ E) as [<- <-]. by eapply Hf.
Qed.
Lemma silent_ret {A} (a : A) : silent (mret a).
Proof. by intros s b s' [= <- <-]. Qed.

Lemma adds_log_start c : P c → adds P Q 1 0 (λ _, True) (log_start c).
Proof.
  intros Hc s a s' [= <- <-]. split; [done|]. exists [c], []. rewrite app_nil_r.
  split_and!; try done. by constructor.
Qed.

Lemma adds_store_put c : Q c → adds P Q 0 1 (λ _, True) (store_put c).
Proof.
  intros Hc s a s'. unfold store_put, log_write, modify, mbind, M_bind, on_world.
  destruct (PutContainer c _); [|done]. intros [= <- <-]. split; [done|]. exists [], [c].
  rewrite app_nil_r. split_and!; try done. by constructor.
Qed.
End Adds.

Create HintDb reconcile.
#[export] Hint Resolve silent_on_world silent_on_rt silent_put_rstate silent_get_rstate silent_emit
  silent_publish silent_write_file silent_bind silent_ret adds_silent adds_ret : reconcile.

Section Confined.
Context `{Bolt} {R : Type} `{Runtime R}.
Context (secrets : option SecretResolver) (dataDir : string) (bus net writable : bool).
Context (c : Container) (nodeID : string).

(** The same container as far as its owner is concerned: only the status,
    the node, and for the runtime the environment, may differ. *)
Definition sameSpec (x : Container) : Prop :=
  Container_Meta x = Container_Meta c ∧ Container_Image x = Container_Image c ∧
  Container_Command x = Container_Command c ∧ Container_Args x = Container_Args c ∧
  Container_Ports x = Container_Ports c ∧ Container_Volumes x = Container_Volumes c ∧
  Container_SecretMounts x = Container_SecretMounts c ∧ Container_Resources x = Container_Resources c.
Definition eligible : Prop :=
  (Container_NodeID c = "" ∨ Container_NodeID c = nodeID) ∧ phaseOf c ≠ PhaseStopped.

Context (keepEnv : Prop)
  (Hresolve : keepEnv → ∀ sr, secrets = Some sr → ∀ w r w',
     sr_Resolve (Meta_Project (Container_Meta c)) (Container_Env c) w = Ret r w' → ∃ out, r = Ok out).

Definition startable (x : Container) : Prop := sameSpec x ∧ eligible.
Definition writable_spec (x : Container) : Prop :=
  sameSpec x ∧ eligible ∧ (keepEnv → Container_Env x = Container_Env c).

Lemma silent_for_each {A} (f : A → M (RSys R) ()) (l : list A) : (∀ a, silent (f a)) → silent (for_each f l).
Proof. intros Hf. induction l as [|x l IH]; cbn; auto with reconcile. Qed.

Lemma silent_stage sr sm : silent (R:=R) (stage_mount dataDir writable sr c sm).
Proof.
  unfold stage_mount. case_bool_decide; [auto with reconcile|].
  apply silent_bind; [auto with reconcile|]. intros []; auto with reconcile.
Qed.

Lemma silent_inject sr project mounts env : silent (R:=R) (inject_env sr project mounts env).
Proof.
  revert env. induction mounts as [|sm mounts IH]; intros env; cbn [inject_env]; [auto with reconcile|].
  case_bool_decide; [done|]. apply silent_bind; [auto with reconcile|]. intros []; auto.
Qed.

Lemma resolveSecrets_adds :
  eligible →
  adds (R:=R) startable writable_spec 0 0 (λ cw, startable cw.2 ∧ writable_spec cw.1)
    (resolveSecrets secrets dataDir writable c).
Proof.
  intros Hel. unfold resolveSecrets. destruct secrets as [sr|] eqn:Esr.
  2:{ apply adds_ret. by repeat split; try apply Hel. }
  intros s a s' Hrun. unfold mbind, M_bind in Hrun.
  destruct (on_world _ s) as [r s1|] eqn:Er; [|done].
  destruct (for_each _ _ s1) as [[] s2|] eqn:Ef; [|done].
  destruct (inject_env _ _ _ _ s2) as [env s3|] eqn:Ei; [|done]. injection Hrun as <- <-.
  apply silent_on_world in Er as Hs1. apply silent_for_each in Ef as Hs2; [|apply silent_stage].
  apply silent_inject in Ei as Hs3. destruct Hs1 as [? ?], Hs2 as [? ?], Hs3 as [? ?].
  split; [|exists [], []; rewrite !app_nil_r; split_and!; try done; congruence].
  split; [by repeat split; try apply Hel|].
  destruct r as [out|e].
  - by repeat split; try apply Hel.
  - split; [by case_bool_decide; repeat split|]. split; [done|]. intros Hk. exfalso.
    unfold on_world in Er. destruct (sr_Resolve _ _ _) as [r w'|] eqn:E; [|done].
    destruct (Hresolve Hk sr eq_refl _ _ _ E) as [out ->]. by injection Er.
Qed.

Lemma start_path_adds st t :
  eligible → adds startable writable_spec 1 1 (λ _, True)
    (start_path secrets dataDir bus net writable c nodeID st t).
Proof.
  intros Hel. unfold start_path. destruct (_ && _).
  { eapply adds_weaken; [apply adds_silent; auto with reconcile|lia|lia|done]. }
  apply (adds_bind _ _ 0 0 1 1 (λ _, True)); [auto with reconcile|]. intros _ _.
  apply (adds_bind _ _ 0 0 1 1 (λ cw, startable cw.2 ∧ writable_spec cw.1)); [by apply resolveSecrets_adds|].
  intros [c1 c2] [Hc2 Hc1]. cbn [fst snd] in *.
  apply (adds_bind _ _ 1 0 0 1 (λ _, True)); [by apply adds_log_start|]. intros _ _.
  apply (adds_bind _ _ 0 0 0 1 (λ _, True)); [auto with reconcile|]. intros t1 _.
  apply (adds_bind _ _ 0 0 0 1 (λ _, True)); [auto with reconcile|]. intros [out|e] _.
  - unfold start_succeeded.
    apply (adds_bind _ _ 0 0 0 1 (λ _, True)); [auto with reconcile|]. intros _ _.
    apply (adds_bind _ _ 0 0 0 1 (λ _, True)).
    { apply adds_silent. destruct (startedOK _); auto with reconcile. } intros _ _.
    apply (adds_bind _ _ 0 0 0 1 (λ _, True)); [auto with reconcile|]. intros _ _.
    destruct (_ || _); [by apply adds_store_put|].
    apply adds_stop.
  - unfold start_failed.
    apply (adds_bind _ _ 0 0 0 1 (λ _, True)); [auto with reconcile|]. intros _ _.
    apply (adds_bind _ _ 0 1 0 0 (λ _, True)); [|intros _ _; apply adds_silent; auto with reconcile].
    destruct (_ || _); [by apply adds_store_put|].
    apply adds_stop.
Qed.

Lemma reconcileOne_adds :
  adds startable writable_spec 1 1 (λ _, True) (reconcileOne secrets dataDir bus net writable c nodeID).
Proof.
  unfold reconcileOne.
  destruct (bool_decide_reflect (Container_NodeID c = "")) as [Hn|Hn];
    destruct (bool_decide_reflect (Container_NodeID c = nodeID)) as [Hn'|Hn']; cbn [negb andb].
  4: { apply adds_stop. }
  all: destruct (bool_decide_reflect (phaseOf c = PhaseStopped)) as [Hp|Hp];
    [apply adds_stop|];
    assert (Hel : eligible) by (split; tauto);
    apply (adds_bind _ _ 0 0 1 1 (λ _, True)); [auto with reconcile|]; intros st _;
    apply (adds_bind _ _ 0 0 1 1 (λ _, True)); [auto with reconcile|]; intros t _;
    destruct (_ && _ && _); [|by apply start_path_adds];
    (destruct (negb _); [apply adds_stop|]);
    apply (adds_bind _ _ 0 0 1 1 (λ _, True));
      [apply adds_silent; unfold isRunning; destruct rt_IsRunning; auto with reconcile|]; intros alive _;
    apply (adds_bind _ _ 0 0 1 1 (λ _, True)); [auto with reconcile|]; intros _ _;
    (destruct alive; [apply adds_stop|]);
    (destruct (negb _); [|by apply start_path_adds]);
    (eapply adds_weaken; [apply (adds_bind _ _ 0 1 0 0 (λ _, True));
       [apply adds_store_put; by repeat split; try apply Hel|intros _ _; apply adds_silent; auto with reconcile]|lia|lia|done]).
Qed.
End Confined.

(** No secret reference of the container fails to resolve. *)
Definition resolves `{Bolt} (secrets : option SecretResolver) (c : Container) : Prop :=
  ∀ sr, secrets = Some sr → ∀ w r w',
    sr_Resolve (Meta_Project (Container_Meta c)) (Container_Env c) w = Ret r w' → ∃ out, r = Ok out.


(** ** Plaintext after a failed reference *)

Definition leak_manager : Manager := mkManager (zeros 32).
Definition leak_container : Container :=
  { (demo_container "shop" "web" "nginx") with
    Container_Env := {["DB" := "secret://missing"]};
    Container_SecretMounts := [mkSecretMount "db" "DB_PASSWORD" ""] }.

(** The store with secret shop/db and the container. *)
Definition leak_setup : M World (res Secret) :=
  r ← Put leak_manager "shop" "db" "" "hunter2"; PutContainer leak_container ;; mret r.
Definition leak_world : World := default demo_world (exec leak_setup demo_world).
Definition fresh_rsys {R} (w : World) (rt : R) : RSys R := mkRSys w rt ∅ ∅ [] [] [] [].
Definition leak_run : M (RSys Stub) (res (gmap string string)) :=
  r ← on_world (GetContainer "shop" "web");
  match r with
  | Err e => mret (Err e)
  | Ok c =>
    reconcileOne (Some (manager_resolver leak_manager)) "/data" true true true c "n1" ;;
    r ← on_world (GetContainer "shop" "web");
    mret (Container_Env <$> r)
  end.

(** When a reference of the environment cannot be resolved, the working
    copy keeps sharing the container's map, so the value injected for an
    environment-mode secret mount is persisted: the store now holds the
    secret's plaintext in the container. *)
Theorem failed_reference_persists_plaintext :
  eval leak_run (fresh_rsys leak_world NewStub)
  = Some (Ok {["DB" := "secret://missing"; "DB_PASSWORD" := "hunter2"]}).
Proof. vm_compute. reflexivity. Qed.

(** ** Backoff *)

Lemma backoff_loop_min n b :
  0 < b → Z.min (5 * Minute) (backoff_loop n b) = Z.min (5 * Minute) (b * 2 ^ Z.of_nat n).
Proof.
  revert b. induction n as [|n IH]; intros b Hb; cbn [backoff_loop]; [by rewrite Z.mul_1_r|].
  rewrite Nat2Z.inj_succ, Z.pow_succ_r by lia. destruct (Z.ltb_spec b (5 * Minute)).
  - rewrite IH by lia. f_equal. lia.
  - assert (1 <= 2 ^ Z.of_nat n) by (apply Z.pow_le_mono_r with (b:=0); lia). nia.
Qed.

Lemma startBackoff_closed n :
  1 <= n → startBackoff n = Z.min (5 * Minute) (5 * Second * 2 ^ (n - 1)).
Proof.
  intros Hn. unfold startBackoff.
  pose proof (backoff_loop_min (Z.to_nat (n - 1)) (5 * Second) ltac:(unfold Second; lia)) as Hmin.
  rewrite Z2Nat.id in Hmin by lia. rewrite <-Hmin.
  destruct (Z.ltb_spec (5 * Minute) (backoff_loop (Z.to_nat (n - 1)) (5 * Second))); lia.
Qed.

Section Backoff.
Context `{BL : BoltLaws} {R : Type} `{Runtime R} (dataDir : string) (bus net writable : bool).
Implicit Types s : RSys R.

Lemma PutContainer_total w (c : Container) :
  is_Some (bucket_map w "containers") → ∃ r w', PutContainer c w = Ret r w'.
Proof.
  intros [m Hm]. unfold PutContainer, putScoped. case_bool_decide; [eauto|].
  rewrite (bind_ret_run _ _ _ _ _ (mintMeta_run _ _)). unfold mbind, M_bind, put, put_raw.
  cbn [db set_env]. rewrite (bolt_has_true _ _ _ Hm).
  destruct (bolt_put _ _ _ _); eauto.
Qed.

Lemma store_put_total (c : Container) s :
  is_Some (bucket_map (r_world s) "containers") →
  ∃ w', store_put c s = Ret () (mkRSys w' (r_rt s) (r_state s) (r_files s) (r_starts s)
                                  (r_writes s ++ [c]) (r_events s) (r_ports s)).
Proof.
  intros Hb. unfold store_put, log_write, modify, mbind, M_bind, on_world. cbn [r_world].
  destruct (PutContainer_total (r_world s) c Hb) as (r & w' & ->). by exists w'.
Qed.

Lemma on_now s :
  on_world now s = Ret (clock (env (r_world s)) (ticks (env (r_world s))))
    (mkRSys (set_env (mkEnv (clock (env (r_world s))) (S (ticks (env (r_world s))))
               (uids (env (r_world s))) (draws (env (r_world s)))) (r_world s))
       (r_rt s) (r_state s) (r_files s) (r_starts s) (r_writes s) (r_events s) (r_ports s)).
Proof. done. Qed.

Lemma eligible_guard c nodeID : eligible c nodeID →
  (negb (bool_decide (Container_NodeID c = "")) && negb (bool_decide (Container_NodeID c = nodeID))) = false
  ∧ bool_decide (phaseOf c = PhaseStopped) = false.
Proof.
  intros [Hn Hp]. split; [|by apply bool_decide_eq_false_2].
  destruct Hn as [Hn|Hn]; rewrite (bool_decide_eq_true_2 _ Hn); [done|apply andb_false_r].
Qed.

(** The world once the clock has been read. *)
Definition r_ticked s : RSys R :=
  mkRSys (set_env (mkEnv (clock (env (r_world s))) (S (ticks (env (r_world s))))
            (uids (env (r_world s))) (draws (env (r_world s)))) (r_world s))
    (r_rt s) (r_state s) (r_files s) (r_starts s) (r_writes s) (r_events s) (r_ports s).

Lemma get_rstate_run s k st : r_state s !! k = Some st → get_rstate k s = Ret st s.
Proof. intros E. unfold get_rstate. by rewrite E. Qed.

(** A container backing off is left alone. *)
Lemma backoff_waits (c : Container) nodeID s st :
  r_state s !! stateKey c = Some st → startedOK st = false → phaseOf c = PhaseFailed →
  Before (clock (env (r_world s)) (ticks (env (r_world s)))) (nextAttempt st) = true →
  ∃ s', reconcileOne None dataDir bus net writable c nodeID s = Ret () s' ∧
    r_starts s' = r_starts s ∧ r_writes s' = r_writes s ∧ r_events s' = r_events s ∧
    r_state s' = r_state s ∧ r_rt s' = r_rt s ∧ db (r_world s') = db (r_world s).
Proof.
  intros Hs Hok Hf Hb. unfold reconcileOne. destruct (_ && _); [by exists s|].
  rewrite Hf, bool_decide_eq_false_2 by done.
  rewrite (bind_ret_run _ _ _ _ _ (get_rstate_run _ _ _ Hs)), (bind_ret_run _ _ _ _ _ (on_now s)), Hok. cbn [andb].
  unfold start_path. rewrite Hf, Hb, bool_decide_eq_true_2 by done. cbn [andb].
  eexists. split; [done|]. split_and!; try done. cbn. by apply insert_id.
Qed.

(** What [start_failed] does to the memory, the store and the bus. *)
Lemma start_failed_run (c : Container) (st : reconcileState) t e s :
  0 <= attempts st < 2 ^ 63 - 1 → is_Some (bucket_map (r_world s) "containers") →
  let n := attempts st + 1 in
  ∃ s', start_failed bus c st t e s = Ret () s' ∧
    r_state s' = <[stateKey c := { st with attempts := n; startedOK := false;
                                   nextAttempt := Add t (startBackoff n) }]> (r_state s) ∧
    r_starts s' = r_starts s ∧
    r_writes s' = r_writes s ++
      (if bool_decide (phaseOf c = PhaseFailed) && bool_decide (messageOf c = error_text e) then []
       else [{ c with Container_Status := failed_status e t }]) ∧
    r_events s' = r_events s ++ (if bus then [crash_event c e n] else []).
Proof.
  intros Hc Hbucket n. unfold start_failed. rewrite <-negb_andb. fold n.
  assert (wrap64 n = n) as -> by (apply wrap64_id; unfold int64_ok, n; lia).
  unfold put_rstate, set_rstate, modify. unfold mbind, M_bind.
  destruct (bool_decide _ && bool_decide _); cbn [negb].
  - unfold emit_event, modify. destruct bus; eexists; (split; [reflexivity|]); cbn; rewrite ?app_nil_r; done.
  - edestruct (store_put_total { c with Container_Status := failed_status e t }) as [w' Hput];
      [|rewrite Hput]; [exact Hbucket|].
    unfold emit_event, modify. destruct bus; eexists; (split; [reflexivity|]); cbn; rewrite ?app_nil_r; done.
Qed.

(** A due reconciliation is what follows its start, after the clock has been
    read twice. *)
Lemma due_reconcile (c : Container) nodeID s st result rt' :
  let t := clock (env (r_world s)) (ticks (env (r_world s))) in
  eligible c nodeID → r_state s !! stateKey c = Some st →
  startedOK st && (lastGen st =? Meta_Generation (Container_Meta c)) && bool_decide (phaseOf c = PhaseRunning) = false →
  (phaseOf c = PhaseFailed → Before t (nextAttempt st) = false) →
  rt_Start c (clock (env (r_world s)) (S (ticks (env (r_world s))))) (r_rt s) = Ret result rt' →
  ∃ s', reconcileOne None dataDir bus net writable c nodeID s =
          (let st := { st with lastAttempt := t } in
           match result with
           | Err e => start_failed bus c st t e
           | Ok out => start_succeeded bus net c nodeID st out
           end) s' ∧
    r_state s' = <[stateKey c := { st with lastAttempt := t }]> (r_state s) ∧ r_rt s' = rt' ∧
    r_starts s' = r_starts s ++ [c] ∧ r_writes s' = r_writes s ∧ r_events s' = r_events s ∧ r_ports s' = r_ports s ∧
    db (r_world s') = db (r_world s).
Proof.
  intros t Hel Hst Hnot Hdue Hstart. destruct (eligible_guard c nodeID Hel) as [Hg1 Hg2].
  assert (Hnow : on_world now s = Ret t (r_ticked s)) by done.
  assert (Hpast : bool_decide (phaseOf c = PhaseFailed) && Before t (nextAttempt st) = false).
  { destruct (bool_decide_reflect (phaseOf c = PhaseFailed)) as [Hf|Hf]; [|done]. by rewrite (Hdue Hf). }
  unfold reconcileOne.
  rewrite Hg1, Hg2, (bind_ret_run _ _ _ _ _ (get_rstate_run _ _ _ Hst)), (bind_ret_run _ _ _ _ _ Hnow), Hnot.
  unfold start_path. rewrite Hpast.
  unfold put_rstate at 1, set_rstate at 1, modify at 1, log_start at 1, modify at 1, resolveSecrets.
  unfold mbind, M_bind. cbn [mret M_ret fst snd]. rewrite on_now. cbn [r_world r_ticked env set_env clock ticks].
  unfold on_rt. cbn [r_rt r_ticked]. rewrite Hstart. destruct result; (eexists; split; [reflexivity|]; done).
Qed.


(** ** Success *)

(** What [start_succeeded] does. *)
Lemma start_succeeded_run (c : Container) nodeID (st : reconcileState) out s :
  is_Some (bucket_map (r_world s) "containers") →
  ∃ s', start_succeeded bus net c nodeID st out s = Ret () s' ∧
    r_state s' = <[stateKey c := { st with attempts := 0; startedOK := true;
                                   lastGen := Meta_Generation (Container_Meta c) }]> (r_state s) ∧
    r_rt s' = r_rt s ∧ r_starts s' = r_starts s ∧
    r_writes s' = r_writes s ++
      (if bool_decide (phaseOf c = Status_Phase (ContainerStatus_Status out)) && bool_decide (Container_NodeID c = nodeID) then []
       else [{ c with Container_Status := out; Container_NodeID := nodeID }]) ∧
    r_events s' = r_events s ++ (if bus && negb (startedOK st) then [start_event c] else []) ∧
    r_ports s' = r_ports s ++
      (if net && negb (bool_decide (ContainerStatus_IPAddress out = ""))
       then (λ p, (p, ContainerStatus_IPAddress out)) <$> Container_Ports c else []).
Proof.
  intros Hbucket. unfold start_succeeded. rewrite <-negb_andb.
  unfold put_rstate, set_rstate, emit_event, publish_ports, modify.
  unfold mbind, M_bind. set (same := bool_decide _ && bool_decide _).
  destruct same eqn:Hsame; cbn [negb].
  - destruct (startedOK st), bus, net, (bool_decide (ContainerStatus_IPAddress out = ""));
      (eexists; split; [reflexivity|]); cbn; rewrite ?app_nil_r; done.
  - destruct (startedOK st), bus, net, (bool_decide (ContainerStatus_IPAddress out = "")); cbn;
      (edestruct (store_put_total { c with Container_Status := out; Container_NodeID := nodeID }) as [w' ->];
         [exact Hbucket|]);
      (eexists; split; [reflexivity|]); cbn; rewrite ?app_nil_r; done.
Qed.

(** The runtime does not deny that the container runs. *)
Definition alive (c : Container) (x : R) : Prop :=
  match rt_IsRunning with
  | None => True
  | Some f => ∃ r x', f c x = Ret r x' ∧ r ≠ Ok false
  end.
Lemma isRunning_alive c s :
  alive c (r_rt s) →
  ∃ x', isRunning c s = Ret true (mkRSys (r_world s) x' (r_state s) (r_files s) (r_starts s) (r_writes s) (r_events s) (r_ports s)).
Proof.
  unfold alive, isRunning. destruct rt_IsRunning as [f|]; [|by exists (r_rt s); destruct s].
  intros (r & x' & E & Hr). exists x'. unfold mbind, M_bind, on_rt. rewrite E. by destruct r as [[]|].
Qed.

(** A container that runs as it was started is only looked at. *)
Lemma settled_waits (c : Container) nodeID s st :
  r_state s !! stateKey c = Some st → startedOK st = true → lastGen st = Meta_Generation (Container_Meta c) →
  phaseOf c = PhaseRunning → alive c (r_rt s) →
  ∃ s', reconcileOne None dataDir bus net writable c nodeID s = Ret () s' ∧
    r_starts s' = r_starts s ∧ r_writes s' = r_writes s ∧ r_events s' = r_events s ∧ r_ports s' = r_ports s ∧
    db (r_world s') = db (r_world s).
Proof.
  intros Hs Hok Hgen Hp Hal. unfold reconcileOne. destruct (_ && _); [by exists s|].
  rewrite Hp, bool_decide_eq_false_2 by done.
  rewrite (bind_ret_run _ _ _ _ _ (get_rstate_run _ _ _ Hs)), (bind_ret_run _ _ _ _ _ (on_now s)), Hok, Hgen, Z.eqb_refl.
  rewrite bool_decide_eq_true_2 by done. cbn [andb]. fold (r_ticked s).
  destruct (negb _); [by exists (r_ticked s)|].
  destruct (isRunning_alive c (r_ticked s) Hal) as [x' E]. rewrite (bind_ret_run _ _ _ _ _ E).
  eexists. split; [reflexivity|]. done.
Qed.

End Backoff.

(** ** Settling *)

(** One notice of the store, and how many starts and writes there have been. *)
Definition observe : M (RSys Stub) (bool * nat * nat) :=
  b ← run_notice None "/data" true true true 0 "n1";
  s ← get_state;
  mret (b, length (r_starts s), length (r_writes s)).
Definition settle : M (RSys Stub) (list (bool * nat * nat)) :=
  on_world Store.Subscribe ;; on_world (PutContainer demo_web) ;;
  a ← observe; b ← observe; c ← observe; mret [a; b; c].

(** A new container settles, but is started twice: the write of its
    status bumps its generation past the one remembered for the start, so the
    notice of the reconciler's own write starts it again; that second pass
    writes nothing and no notice is left. *)
Theorem new_container_starts_twice :
  eval settle (fresh_rsys demo_world NewStub) = Some [(true, 1, 1); (true, 2, 1); (false, 2, 1)]%nat.
Proof. vm_compute. reflexivity. Qed.

(** ** Witnesses *)

Definition demo_rsys : RSys Stub := fresh_rsys demo_world NewStub.
Definition demo_rsys' : RSys Stub :=
  default demo_rsys (exec (reconcileOne None "/data" true true true demo_web "n1") demo_rsys).


(** A runtime that cannot pull the image. *)
Definition broken_runtime : Runtime () := {|
  rt_Start _ _ := mret (Err (ErrMsg "pull nginx: no route to host"));
  rt_IsRunning := None;
|}.
Definition failing_rsys : RSys () :=
  mkRSys demo_world () {["shop/web" := { fresh_state with attempts := 2 }]} ∅ [] [] [] [].


(** A web server the runtime starts at 10.42.0.2. *)
Definition started_state : reconcileState := { fresh_state with attempts := 2 }.
Definition starting_rsys : RSys Stub := mkRSys demo_world NewStub {["shop/web" := started_state]} ∅ [] [] [] [].
Definition starting_time : time := clock (env (r_world starting_rsys)) (S (ticks (env (r_world starting_rsys)))).
Definition started_out : ContainerStatus :=
  match eval (stub_Start demo_web starting_time) NewStub with Some (Ok o) => o | _ => zero end.
Definition started_stub : Stub := default NewStub (exec (stub_Start demo_web starting_time) NewStub).

