(* ===== verification/Containerd.v ===== *)
(** The containerd runtime (internal/runtime/container/ctr.go): a shim over
    the [ctr] command line.

    Running [ctr] is the parameter [Ctr]: standard output, standard error and
    the exit error of a command; the state behind it is the host's. *)

From Stdlib Require Import Ascii.
From S2P Require Import Prelude GoTime Json Types Bolt Store StoreOps StoreLaws Table StoreProps Text Path Secrets Reconciler.

Record CmdResult := mkCmdResult { cmd_stdout : string; cmd_stderr : string; cmd_err : option error }.
Class Ctr (T : Type) := ctr_exec : list string → M T CmdResult.

(** The fields of [CtrRuntime] (the binary path is part of [Ctr]). *)
Record CtrRuntime := mkCtrRuntime { ctr_socket : string; ctr_namespace : string; ctr_dataDir : string }.

(** [NewCtr], once the binary has been found. *)
Definition NewCtr (found : bool) (socket namespace : string) : res CtrRuntime :=
  if found then
    Ok (mkCtrRuntime (if bool_decide (socket = "") then "/run/containerd/containerd.sock" else socket)
                     (if bool_decide (namespace = "") then "selfcloud" else namespace) "")
  else Err (ErrMsg "ctr not found in PATH").

Definition ctrTaskID (c : Container) : string :=
  "selfcloud-" +:+ Meta_Project (Container_Meta c) +:+ "-" +:+ Meta_Name (Container_Meta c).

Definition lf : ascii := ascii_of_nat 10.
(** The lines of an output, each trimmed. *)
Definition lines (s : string) : list string := trim_space <$> split_on lf (trim_space s).

Section Ctr.
Context {T : Type} `{Ctr T} (rt : CtrRuntime).

Definition ctr_run (args : list string) : M T CmdResult :=
  ctr_exec (["--address"; ctr_socket rt; "--namespace"; ctr_namespace rt] ++ args).

(** ** The arguments of [ctr run] *)

Definition env_args (env : gmap string string) : list string :=
  mjoin ((λ kv, ["--env"; kv.1 +:+ "=" +:+ kv.2]) <$> map_to_list env).
Definition port_args (ports : list PortMapping) : list string :=
  mjoin ((λ p, ["--label"; "selfcloud.port." +:+ itoa (PortMapping_Container p) +:+ "="
                           +:+ itoa (PortMapping_Host p) +:+ "/" +:+ PortMapping_Protocol p]) <$> ports).
Definition bind_mount (src dst options : string) : list string :=
  ["--mount"; "type=bind,src=" +:+ src +:+ ",dst=" +:+ dst +:+ ",options=" +:+ options].
Definition volume_args (vs : list VolumeMount) : list string :=
  mjoin ((λ v, if negb (bool_decide (VolumeMount_Bucket v = "")) || bool_decide (VolumeMount_MountPath v = "")
               then []
               else bind_mount (VolumeMount_MountPath v) (VolumeMount_MountPath v)
                      (if VolumeMount_ReadOnly v then "rbind,ro" else "rbind,rw")) <$> vs).
Definition secret_args (c : Container) : list string :=
  if bool_decide (ctr_dataDir rt = "") then []
  else
    mjoin ((λ sm, if bool_decide (SecretMount_MountPath sm = "") then []
                  else bind_mount
                         (Join [ctr_dataDir rt; "secret-mounts"; mountUID c; mountName (SecretMount_MountPath sm)])
                         (SecretMount_MountPath sm) "rbind,ro") <$> Container_SecretMounts c).
(** [int64] arithmetic wraps; division truncates. *)
Definition cpuQuota (millicores : Z) : Z :=
  let quota := Z.quot (wrap64 (100000 * millicores)) 1000 in
  if quota <? 1000 then 1000 else quota.
Definition resource_args (l : ResourceLimits) : list string :=
  (if 0 <? ResourceLimits_MemoryMB l then
     ["--memory-limit"; itoa (wrap64 (wrap64 (ResourceLimits_MemoryMB l * 1024) * 1024))] else []) ++
  (if 0 <? ResourceLimits_CPUMillicores l then
     ["--cpu-period"; itoa 100000; "--cpu-quota"; itoa (cpuQuota (ResourceLimits_CPUMillicores l))] else []).

Definition run_args (c : Container) : list string :=
  ["run"; "-d"] ++ env_args (Container_Env c) ++ port_args (Container_Ports c)
  ++ volume_args (Container_Volumes c) ++ secret_args c ++ resource_args (Container_Resources c)
  ++ [Container_Image c; ctrTaskID c] ++ Container_Command c ++ Container_Args c.

(** ** Operations *)

Definition running_status (c : Container) (msg : string) (started t : time) : ContainerStatus :=
  mkContainerStatus (mkStatus PhaseRunning msg "" t) (ctrTaskID c) started 0 "" (Container_Image c).

(** [already]: whether the listing names the task id. *)
Definition already (out : CmdResult) (c : Container) : bool :=
  match cmd_err out with
  | Some _ => false
  | None => existsb (λ l, bool_decide (l = ctrTaskID c)) (lines (cmd_stdout out))
  end.

Definition ctr_Start (c : Container) (t : time) : M T (res ContainerStatus) :=
  existing ← ctr_run ["containers"; "list"; "-q"];
  if already existing c then mret (Ok (running_status c "already running" zero_time t))
  else
    pull ← ctr_run ["images"; "pull"; Container_Image c];
    match cmd_err pull with
    | Some e => mret (Err (ErrWrap ("pull " +:+ Container_Image c) e))
    | None =>
      out ← ctr_run (run_args c);
      mret match cmd_err out with
           | Some e => Err (ErrWrap "run" e)
           | None => Ok (running_status c "started" t t)
           end
    end.

Definition ctr_IsRunning (c : Container) : M T (res bool) :=
  out ← ctr_run ["tasks"; "ls"];
  mret match cmd_err out with
       | Some e => Err e
       | None =>
         Ok (existsb (λ line, match Fields (trim_space line) with
                              | f0 :: _ :: f2 :: _ => bool_decide (f0 = ctrTaskID c) && bool_decide (f2 = "RUNNING")
                              | _ => false
                              end) (split_on lf (cmd_stdout out)))
       end.

Definition ctr_Stop (c : Container) : M T (option error) :=
  out ← ctr_run ["tasks"; "kill"; "--signal"; "SIGTERM"; ctrTaskID c]; mret (cmd_err out).
Definition ctr_Remove (c : Container) : M T (option error) :=
  _ ← ctr_run ["tasks"; "delete"; ctrTaskID c];
  out ← ctr_run ["containers"; "delete"; ctrTaskID c]; mret (cmd_err out).
Definition ctr_List : M T (res (list string)) :=
  out ← ctr_run ["containers"; "list"; "-q"];
  mret match cmd_err out with
       | Some e => Err e
       | None => Ok (List.filter (λ l, negb (bool_decide (l = ""))) (lines (cmd_stdout out)))
       end.

(** The reconciler's interface. *)
Definition ctr_runtime : Runtime T := {|
  rt_Start := ctr_Start;
  rt_IsRunning := Some ctr_IsRunning;
|}.
End Ctr.

(** ** A host: containerd keeps containers and, apart, their live tasks *)

Record Host := mkHost {
  h_containers : list string;
  h_tasks : list string;
  h_runs : nat;      (** how often a container has been run *)
}.
Definition newline_list (l : list string) : string := join_with (String lf "") l.
#[export] Instance host_ctr : Ctr Host := λ args h,
  match drop 4 args with
  | ["containers"; "list"; "-q"] => Ret (mkCmdResult (newline_list (h_containers h)) "" None) h
  | ["tasks"; "ls"] =>
    Ret (mkCmdResult (newline_list ("TASK PID STATUS" :: ((λ id, id +:+ " 4242 RUNNING") <$> h_tasks h))) "" None) h
  | "run" :: "-d" :: rest =>
    let id := default "" (last rest) in
    Ret (mkCmdResult "" "" None) (mkHost (id :: h_containers h) (id :: h_tasks h) (S (h_runs h)))
  | _ => Ret (mkCmdResult "" "" None) h
  end.
(** The process of a task exits; its container stays. *)
Definition task_exits (id : string) (h : Host) : Host :=
  mkHost (h_containers h) (List.filter (λ x, negb (bool_decide (x = id))) (h_tasks h)) (h_runs h).

Section Host.
Context (rt : CtrRuntime).
#[local] Instance host_runtime : Runtime Host := ctr_runtime rt.

Definition always_web : Container :=
  { demo_web with Container_RestartPolicy := RestartAlways }.
Definition reconcile_web : M (RSys Host) () :=
  r' ← on_world (GetContainer "shop" "web");
  match r' with
  | Ok c => reconcileOne None "" false false true c "n1"
  | Err _ => mret ()
  end.
Definition web_exits : M (RSys Host) () :=
  modify (λ s, mkRSys (r_world s) (task_exits (ctrTaskID demo_web) (r_rt s)) (r_state s) (r_files s)
                 (r_starts s) (r_writes s) (r_events s) (r_ports s)).
(** The phase in the store, whether the task lives, and the number of runs. *)
Definition web_status : M (RSys Host) (option Phase * bool * nat) :=
  r' ← on_world (GetContainer "shop" "web");
  alive ← on_rt (ctr_IsRunning rt always_web);
  s ← get_state;
  mret (phaseOf <$> res_option r', match alive with Ok b => b | Err _ => false end, h_runs (r_rt s)).

(** Start it, let it settle, let its process exit, and reconcile four times a
    minute apart. *)
Definition exited_scenario : M (RSys Host) (list (option Phase * bool * nat)) :=
  on_world (PutContainer always_web) ;;
  reconcile_web ;; reconcile_web ;; a ← web_status;
  web_exits ;;
  reconcile_web ;; b ← web_status;
  reconcile_web ;; reconcile_web ;; c ← web_status;
  mret [a; b; c].
End Host.

Definition minutes_world : World (H:=MemBolt) :=
  Open (∅ : boltdb) (mkEnv (λ n, of_unix (1700000000 + 60 * Z.of_nat n) 0) 0 (λ _, "u") 0).

(** The restart policy does not restart under containerd: once the task
    of a container has exited, its container record still exists, so [Start]
    reports it running without running anything; with policy Always the store
    keeps showing Running while no task lives and no new run is made, however
    often it is reconciled. *)
Theorem exited_container_is_not_restarted :
  eval (exited_scenario (mkCtrRuntime "" "selfcloud" ""))
    (mkRSys minutes_world (mkHost [] [] 0) ∅ ∅ [] [] [] [])
  = Some [(Some PhaseRunning, true, 1%nat); (Some PhaseRunning, false, 1%nat); (Some PhaseRunning, false, 1%nat)].
Proof. vm_compute. reflexivity. Qed.

(** Two projects can own the same task id. *)
Example task_ids_collide :
  ctrTaskID (demo_container "a-b" "c" "") = ctrTaskID (demo_container "a" "b-c" "").
Proof. reflexivity. Qed.
