(* ===== verification/Runtimes.v ===== *)
(** Which container runtime a node drives (internal/runtime/container:
    factory.go with its Linux and other variants, runtime.go), the reconciler
    built on it (NewReconciler, WithBus, WithSecrets), and the two operations
    of the runtimes that stream: [Logs] and [Exec] (ctr.go, stub.go).

    A command that streams is the parameter [CtrStream]; how os/exec turns
    its end into an error is written out. *)

From S2P Require Import Prelude GoTime Json Types Bolt Store Path Reconciler Containerd.

Module Runtimes.

(** ** os/exec *)

(** How a process ended: it exited, or a signal killed it. *)
Inductive exit_status := Exited (code : Z) | Signaled (signal : string).
#[export] Instance exit_status_eq_dec : EqDecision exit_status.
Proof. solve_decision. Defined.
Definition exit_error (x : exit_status) : error :=
  ErrMsg match x with Exited n => "exit status " +:+ itoa n | Signaled s => "signal: " +:+ s end.

(** [Cmd.Run]: the command may not start at all; once it has run, the error
    of the process is preferred to that of the watcher of the context, which
    kills the process when the context is done. *)
Inductive run_end :=
  | NotStarted (e : error)
  | Ended (x : exit_status) (watch : option error).
Definition Run_error (r : run_end) : option error :=
  match r with
  | NotStarted e => Some e
  | Ended x watch => if bool_decide (x = Exited 0) then watch else Some (exit_error x)
  end.
Definition Canceled : error := ErrMsg "context canceled".
Definition DeadlineExceeded : error := ErrMsg "context deadline exceeded".

(** A command with a time limit in milliseconds, if any: what it writes, in
    order and marked [true] on standard output, and how it ended. *)
Class CtrStream (T : Type) := ctr_stream : list string → option Z → M T (list (bool * string) * run_end).

(** ** Logs and Exec *)

Section Streaming.
Context {T : Type} `{CtrStream T} (rt : CtrRuntime).

Definition ctr_prefix : list string := ["--address"; ctr_socket rt; "--namespace"; ctr_namespace rt].

(** What [Logs] writes to [w], and its error. *)
Definition ctr_Logs (c : Container) (follow : bool) : M T (list string * option error) :=
  '(out, fin) ← ctr_stream (ctr_prefix ++ ["tasks"; "attach"; ctrTaskID c]) (if follow then None else Some 500);
  let err := Run_error fin in
  let expected := match err with
                  | Some e => negb follow && (errors_is e Canceled || errors_is e DeadlineExceeded)
                  | None => false
                  end in
  mret (out.*2, if expected then None else err).

(** [Exec] at time [t]: what it writes to standard output and to standard
    error.  Its reader is not used. *)
Definition exec_args (c : Container) (cmd : list string) (t : time) : list string :=
  ctr_prefix ++ ["tasks"; "exec"; "--exec-id"; "exec-" +:+ itoa (UnixNano t); ctrTaskID c] ++ cmd.
Definition ctr_Exec (c : Container) (cmd : list string) (t : time) : M T (list string * list string * option error) :=
  '(out, fin) ← ctr_stream (exec_args c cmd t) None;
  mret ((List.filter fst out).*2, (List.filter (λ p, negb p.1) out).*2, Run_error fin).
End Streaming.

Definition SetDataDir (dir : string) (rt : CtrRuntime) : CtrRuntime := mkCtrRuntime (ctr_socket rt) (ctr_namespace rt) dir.
Definition ctr_Close : option error := None.

(** [fmt.Fprintf("%v")] of a slice of strings. *)
Definition fmt_slice (l : list string) : string := "[" +:+ join_with " " l +:+ "]".
Definition stub_Exec (c : Container) (cmd : list string) : list string * list string * option error :=
  (["[stub] exec " +:+ fmt_slice cmd +:+ " in " +:+ Meta_Name (Container_Meta c) +:+ newline], [], None).
Definition stub_Close : option error := None.

(** ** The factory *)

Inductive ContainerRt := RtCtr (rt : CtrRuntime) | RtStub (s : Stub).

Definition ErrUnsupported : error := ErrMsg "container runtime unsupported on this platform".
Inductive platform := Linux | OtherOS.
#[export] Instance platform_eq_dec : EqDecision platform.
Proof. solve_decision. Defined.
Definition newPlatform (p : platform) (ctr_in_path : bool) (socket : string) : res CtrRuntime :=
  match p with
  | Linux => NewCtr ctr_in_path socket "selfcloud"
  | OtherOS => Err ErrUnsupported
  end.
Definition New (p : platform) (ctr_in_path : bool) (socket : string) : ContainerRt :=
  match newPlatform p ctr_in_path socket with Ok r => RtCtr r | Err _ => RtStub NewStub end.

(** ** The reconciler's dependencies *)

Record Reconciler := mkReconciler {
  rc_rt : ContainerRt;
  rc_net : bool;                         (** a network manager was given *)
  rc_bus : bool;
  rc_secrets : bool;
  rc_dataDir : string;
  rc_state : gmap string reconcileState;
}.
Definition NewReconciler (rt : ContainerRt) (net : bool) : Reconciler := mkReconciler rt net false false "" ∅.
Definition WithBus (r : Reconciler) : Reconciler :=
  mkReconciler (rc_rt r) (rc_net r) true (rc_secrets r) (rc_dataDir r) (rc_state r).
(** Only the containerd runtime has a [SetDataDir]. *)
Definition WithSecrets (dataDir : string) (r : Reconciler) : Reconciler :=
  mkReconciler (match rc_rt r with RtCtr rt => RtCtr (SetDataDir dataDir rt) | RtStub s => RtStub s end)
    (rc_net r) (rc_bus r) true dataDir (rc_state r).

(** ** What they do *)

(** A node always has a runtime, and only a Linux host with [ctr] has the
    real one, in the namespace "selfcloud". *)
Lemma New_spec p found socket :
  New p found socket =
  if bool_decide (p = Linux) && found then
    RtCtr (mkCtrRuntime (if bool_decide (socket = "") then "/run/containerd/containerd.sock" else socket) "selfcloud" "")
  else RtStub NewStub.
Proof. by destruct p, found. Qed.
End Runtimes.
