(* ===== verification/RuntimesProps.v ===== *)
(** Properties of the container runtimes: the secret files the reconciler
    stages are the ones the containers mount, and what reading the logs of a
    live container ends with. *)

From Stdlib Require Import Ascii.
From S2P Require Import Prelude GoTime Json Types Bolt Store StoreProps Text Path Fs FsLaws Reconciler Containerd Runtimes.
Import Runtimes.

#[local] Arguments String.append : simpl nomatch.

(** ** Joining to a cleaned absolute path *)

Lemma clean_elems_app rooted l1 l2 acc :
  clean_elems rooted (l1 ++ l2) acc = clean_elems rooted l2 (clean_elems rooted l1 acc).
Proof.
  revert acc. induction l1 as [|p l1 IH]; intros acc; [done|]. cbn [clean_elems app].
  repeat case_match; apply IH.
Qed.

Lemma Clean_rooted x : has_prefix x "/" = true → has_prefix (Clean x) "/" = true.
Proof. intros E. unfold Clean. rewrite E. apply (has_prefix_self "/"). Qed.

Lemma clean_elems_Clean x :
  has_prefix x "/" = true → clean_elems true (split_on slash (Clean x)) [] = clean_elems true (split_on slash x) [].
Proof.
  intros Hx. destruct (clean_names_shape x) as (k & names & E & Hn & Hk). specialize (Hk Hx). subst k.
  assert (Hp : plain_names (elems (Clean x))) by (rewrite elems_Clean, E; exact Hn).
  rewrite clean_elems_plain, app_nil_r by by apply plain_split.
  change (List.filter is_name (split_on slash (Clean x))) with (elems (Clean x)).
  rewrite elems_Clean. unfold clean_names. by rewrite Hx, rev_involutive.
Qed.

Lemma has_prefix_rooted_app x y : has_prefix x "/" = true → has_prefix (x +:+ y) "/" = true.
Proof. by destruct x. Qed.

(** [filepath.Join] of a cleaned absolute path. *)
Lemma Clean_absorb x d :
  has_prefix x "/" = true → Clean (Clean x +:+ String slash d) = Clean (x +:+ String slash d).
Proof.
  intros Hx. unfold Clean at 1 3.
  rewrite !has_prefix_rooted_app by (done || by apply Clean_rooted).
  rewrite !split_on_app_sep, !clean_elems_app, clean_elems_Clean by done. done.
Qed.

(** ** Secret files *)

Lemma secretFile_source dataDir c path :
  has_prefix dataDir "/" = true → mountUID c ≠ "" → mountName path ≠ "" →
  secretFile dataDir c path = Join [dataDir; "secret-mounts"; mountUID c; mountName path].
Proof.
  intros Hd Hu Hn. unfold secretFile. cbv zeta.
  assert (dataDir ≠ "") by by intros ->. rewrite (bool_decide_eq_false_2 (dataDir = "")) by done.
  assert (HJ : Join [dataDir; "secret-mounts"; mountUID c] = Clean (join_with "/" [dataDir; "secret-mounts"; mountUID c])).
  { unfold Join. cbn [List.filter]. by rewrite !bool_decide_eq_false_2. }
  assert (Hr : has_prefix (join_with "/" [dataDir; "secret-mounts"; mountUID c]) "/" = true) by by apply has_prefix_rooted_app.
  rewrite HJ. unfold Join. cbn [List.filter]. rewrite !bool_decide_eq_false_2; try done.
  2:{ intros E. apply Clean_rooted in Hr. by rewrite E in Hr. }
  cbn [negb join_with]. etransitivity; [exact (Clean_absorb _ (mountName path) Hr)|].
  cbn [join_with]. by rewrite !str_app_assoc.
Qed.

Lemma mountName_not_empty path : mountName path ≠ "".
Proof.
  unfold mountName. cbv zeta. destruct (_ || _) eqn:E; [done|]. intros E'. rewrite E' in E. done.
Qed.
Lemma mountUID_not_empty c : mountUID c ≠ "".
Proof.
  unfold mountUID. cbv zeta. case_bool_decide as E; [|done].
  destruct (Meta_Project (Container_Meta c)); done.
Qed.

(** C32 The secrets a container mounts are the ones the reconciler staged:
    when it was given an absolute data directory ([WithSecrets], which tells
    the containerd runtime too), then for every mount with a path the command
    that runs the container binds exactly the file [writeSecretFile] wrote for
    that mount, read-only, at the mount's path. *)
Theorem secret_mounts_bind_the_staged_files rt net dataDir c sm :
  has_prefix dataDir "/" = true → sm ∈ Container_SecretMounts c → SecretMount_MountPath sm ≠ "" →
  ∃ rt' before after,
    rc_rt (WithSecrets dataDir (NewReconciler (RtCtr rt) net)) = RtCtr rt' ∧
    run_args rt' c = before
      ++ bind_mount (secretFile (rc_dataDir (WithSecrets dataDir (NewReconciler (RtCtr rt) net))) c (SecretMount_MountPath sm))
           (SecretMount_MountPath sm) "rbind,ro"
      ++ after.
Proof.
  intros Hd Hin Hp. exists (SetDataDir dataDir rt). cbn [rc_rt rc_dataDir WithSecrets NewReconciler].
  assert (dataDir ≠ "") by by intros ->.
  rewrite secretFile_source by (done || apply mountName_not_empty || apply mountUID_not_empty).
  apply list_elem_of_split in Hin as (l1 & l2 & Hsm).
  unfold run_args, secret_args. cbn [ctr_dataDir SetDataDir]. rewrite (bool_decide_eq_false_2 (dataDir = "")) by done.
  rewrite Hsm, fmap_app, fmap_cons, join_app, (bool_decide_eq_false_2 (SecretMount_MountPath sm = "")) by done.
  set (f := λ m : SecretMount, if bool_decide (SecretMount_MountPath m = "") then [] else _).
  generalize (env_args (Container_Env c)) (port_args (Container_Ports c)) (volume_args (Container_Volumes c)); intros e p v.
  exists (["run"; "-d"] ++ e ++ p ++ v ++ mjoin (f <$> l1)). eexists. split; [done|].
  cbn [mjoin list_join]. rewrite <-!app_assoc. reflexivity.
Qed.

Definition mount_at (path : string) : SecretMount := { (zero (A:=SecretMount)) with SecretMount_MountPath := path }.
Definition mounting : Container :=
  { demo_web with Container_SecretMounts := [mount_at "/etc/tls/key"; mount_at "/run/db/password"] }.
Lemma secret_mounts_bind_the_staged_files_witness :
  ∃ rt' before after,
    rc_rt (WithSecrets "/var/lib/selfcloud" (NewReconciler (RtCtr (mkCtrRuntime "" "selfcloud" "")) true)) = RtCtr rt' ∧
    run_args rt' mounting = before
      ++ bind_mount (secretFile "/var/lib/selfcloud" mounting "/run/db/password") "/run/db/password" "rbind,ro"
      ++ after.
Proof.
  refine (secret_mounts_bind_the_staged_files (mkCtrRuntime "" "selfcloud" "") true "/var/lib/selfcloud" mounting
            (mount_at "/run/db/password") eq_refl _ _); [right; left | discriminate].
Defined.

(** Only the last part of a mount's path names its file, so two mounts of a
    container whose paths end alike share one, and both read what was staged
    last. *)
Lemma mounts_that_end_alike_share_a_file dataDir c p q :
  Base p = Base q → secretFile dataDir c p = secretFile dataDir c q.
Proof. intros E. unfold secretFile, mountName. by rewrite E. Qed.

(** ** Logs and Exec *)

Section Streaming.
Context {T : Type} `{CtrStream T} (rt : CtrRuntime).

(** Everything the command wrote comes back in order; only the error
    depends on how it ended. *)
Lemma ctr_Logs_spec c (follow : bool) s (out : list (bool * string)) fin s' :
  ctr_stream (ctr_prefix rt ++ ["tasks"; "attach"; ctrTaskID c]) (if follow then None else Some 500) s = Ret (out, fin) s' →
  ctr_Logs rt c follow s = Ret (out.*2,
    match Run_error fin with
    | Some e => if negb follow && (errors_is e Canceled || errors_is e DeadlineExceeded) then None else Some e
    | None => None
    end) s'.
Proof.
  intros E. unfold ctr_Logs, mbind, M_bind. rewrite E. cbn. by destruct (Run_error fin) as [e|].
Qed.

(** A task that is still running when the half second is over is an error:
    the command was killed, and its exit status is preferred to the deadline
    that caused it. *)
Lemma live_logs_end_in_an_error c s (out : list (bool * string)) watch s' :
  ctr_stream (ctr_prefix rt ++ ["tasks"; "attach"; ctrTaskID c]) (Some 500) s
    = Ret (out, Ended (Signaled "killed") watch) s' →
  ctr_Logs rt c false s = Ret (out.*2, Some (ErrMsg "signal: killed")) s'.
Proof. intros E. rewrite (ctr_Logs_spec c false _ _ _ _ E). done. Qed.

(** [Exec] separates the two streams and loses nothing of either. *)
Lemma ctr_Exec_spec c cmd t s (out : list (bool * string)) fin s' :
  ctr_stream (exec_args rt c cmd t) None s = Ret (out, fin) s' →
  ctr_Exec rt c cmd t s = Ret ((List.filter fst out).*2, (List.filter (λ p, negb p.1) out).*2, Run_error fin) s'.
Proof. intros E. unfold ctr_Exec, mbind, M_bind. by rewrite E. Qed.
End Streaming.
