(* ===== verification/Wasm.v ===== *)
(** The function runtimes' shared machinery (internal/runtime/wasm): the
    content-addressed blob store, the stub runtime, the boot-time rehydrator,
    the cron scheduler and the warm pool.

    The pool is a concurrent object: it is modelled as a step relation over
    the pool's map, the channels it made, and the program counters of the
    calls in flight. *)

From S2P Require Import Prelude GoTime Json Types Bolt Store StoreOps StoreLaws Table StoreProps Text.

Definition ErrFunctionNotReady : error := ErrMsg "function not ready".

(** [http.Header] values by canonical name. *)
Record InvokeRequest := mkInvokeRequest {
  InvokeRequest_Method : string;
  InvokeRequest_Path : string;
  InvokeRequest_Headers : gmap string (list string);
  InvokeRequest_Body : string;
  InvokeRequest_Env : gmap string string;
  InvokeRequest_SecretFiles : gmap string string;
}.
Record InvokeResponse := mkInvokeResponse {
  InvokeResponse_Status : Z;
  InvokeResponse_Headers : gmap string (list string);
  InvokeResponse_Body : string;
  InvokeResponse_Logs : string;
  InvokeResponse_Elapsed : Z;
}.

(** [Runtime] of runtime.go. *)
Class FnRuntime (T : Type) := {
  fn_Deploy : Function → string → M T (option error);
  fn_Remove : Function → M T (option error);
  fn_Invoke : Function → InvokeRequest → M T (res InvokeResponse);
}.

Definition fnKey (f : Function) : string :=
  Meta_Project (Function_Meta f) +:+ "/" +:+ Meta_Name (Function_Meta f).

(** ** Blob store: the files of its directory, and whether it is writable *)

Record BlobStore := mkBlobStore { blobs : gmap string string; blob_writable : bool }.

Definition blob_Put (data : string) : M BlobStore (res string) := λ b,
  let id := hex_encode (Sum256 data) in
  match blobs b !! id with
  | Some _ => Ret (Ok id) b
  | None =>
    if blob_writable b then Ret (Ok id) (mkBlobStore (<[id := data]> (blobs b)) (blob_writable b))
    else Ret (Err (ErrMsg "permission denied")) b
  end.
Definition blob_Get (id : string) : M BlobStore (res string) := gets (λ b,
  match blobs b !! id with Some d => Ok d | None => Err (ErrMsg "no such file") end).
Definition blob_Delete (id : string) : M BlobStore (option error) := λ b,
  match blobs b !! id with
  | None => Ret None b
  | Some _ => if blob_writable b then Ret None (mkBlobStore (delete id (blobs b)) (blob_writable b))
              else Ret (Some (ErrMsg "permission denied")) b
  end.

(** ** Stub runtime *)

Record FnStub := mkFnStub { funcs : gmap string string }.

(** The body of the stub's answer; [%q] on plain text. *)
Definition stub_body (f : Function) (req : InvokeRequest) (size : Z) : string :=
  let q s := String (Ascii.ascii_of_nat 34) (s +:+ String (Ascii.ascii_of_nat 34) "") in
  "{" +:+ q "function" +:+ ":" +:+ q (Meta_Name (Function_Meta f)) +:+ ","
      +:+ q "runtime" +:+ ":" +:+ q "wasm-stub" +:+ "," +:+ q "method" +:+ ":" +:+ q (InvokeRequest_Method req) +:+ ","
      +:+ q "path" +:+ ":" +:+ q (InvokeRequest_Path req) +:+ "," +:+ q "size" +:+ ":" +:+ itoa size +:+ "}".

#[export] Instance stub_fn_runtime : FnRuntime FnStub := {
  fn_Deploy f code := λ s, Ret None (mkFnStub (<[fnKey f := code]> (funcs s)));
  fn_Remove f := λ s, Ret None (mkFnStub (delete (fnKey f) (funcs s)));
  fn_Invoke f req := λ s,
    Ret match funcs s !! fnKey f with
        | None => Err ErrFunctionNotReady
        | Some code =>
          Ok (mkInvokeResponse 200 {["Content-Type" := ["application/json"]]}
                (stub_body f req (Z.of_nat (String.length code))) "[stub] invoked" 0)
        end s;
}.

(** ** Rehydration at boot *)

Section Rehydrate.
Context {T1 T2 : Type} `{FnRuntime T1} `{FnRuntime T2}.
(** The two runtimes; [None] when the server has none. *)
Definition Fleet : Type := (option T1 * option T2).

Definition redeploy (blobs : gmap string string) (f : Function) (fl : Fleet) : option Fleet :=
  if bool_decide (Function_SourceRef f = "") then Some fl
  else
    match blobs !! Function_SourceRef f with
    | None => Some fl
    | Some data =>
      if bool_decide (Function_Runtime f = FunctionRuntimeFirecracker) then
        match fl.2 with
        | None => Some fl
        | Some t => match fn_Deploy f data t with Ret _ t' => Some (fl.1, Some t') | Panic => None end
        end
      else
        match fl.1 with
        | None => Some fl
        | Some t => match fn_Deploy f data t with Ret _ t' => Some (Some t', fl.2) | Panic => None end
        end
    end.

Fixpoint rehydrate (blobs : gmap string string) (fns : list Function) (fl : Fleet) : option Fleet :=
  match fns with
  | [] => Some fl
  | f :: fns => fl' ← redeploy blobs f fl; rehydrate blobs fns fl'
  end.
End Rehydrate.

(** ** Cron scheduler

    robfig/cron is third-party: [cron_valid] says whether it accepts a
    schedule; its table is the list of jobs by entry id. *)

Record Job := mkJob { job_fn : Function; job_schedule : string }.
Record Cron := mkCron {
  jobs : list (nat * Job);
  next_id : nat;
  entries : gmap string nat;
}.

Section CronScheduler.
Context (cron_valid : string → bool).

Definition NewCron : Cron := mkCron [] 1 ∅.

Definition remove_job (id : nat) (l : list (nat * Job)) : list (nat * Job) :=
  List.filter (λ x, negb (x.1 =? id)%nat) l.

Definition removeKey (k : string) (s : Cron) : Cron :=
  match entries s !! k with
  | None => s
  | Some id => mkCron (remove_job id (jobs s)) (next_id s) (delete k (entries s))
  end.

(** The body of the loop over the triggers. *)
Definition add_trigger (f : Function) (s : Cron) (t : FunctionTrigger) : Cron :=
  match FunctionTrigger_Cron t with
  | None => s
  | Some c =>
    let schedule := CronTrigger_Schedule c in
    if bool_decide (schedule = "") then s
    else if cron_valid schedule then
      mkCron (jobs s ++ [(next_id s, mkJob f schedule)]) (S (next_id s)) (<[fnKey f := next_id s]> (entries s))
    else s
  end.

Definition sync (f : Function) (s : Cron) : Cron :=
  foldl (add_trigger f) (removeKey (fnKey f) s) (Function_Triggers f).

(** [Start]: every stored function. *)
Definition sync_all (fns : list Function) (s : Cron) : Cron := foldl (λ s f, sync f s) s fns.

(** A store notice; [f] is the function as stored now, if it is there. *)
Definition cron_notice (ev : Event) (f : option Function) (s : Cron) : Cron :=
  if negb (bool_decide (Event_Kind ev = KindFunction)) then s
  else if bool_decide (Event_Op ev = "delete") then removeKey (Event_Project ev +:+ "/" +:+ Event_Name ev) s
  else match f with Some f => sync f s | None => s end.
End CronScheduler.

(** What firing a job emits and invokes. *)
Definition cron_event (j : Job) : EventRecord :=
  let m := Function_Meta (job_fn j) in
  { (zero (A:=EventRecord)) with
    EventRecord_Type := "cron"; EventRecord_Project := Meta_Project m; EventRecord_Subject := Meta_Name m;
    EventRecord_Data := {["function" := Meta_Name m; "schedule" := job_schedule j]} }.
Definition cron_request (j : Job) : InvokeRequest :=
  mkInvokeRequest "POST" "/cron" ∅ "" (Function_Env (job_fn j)) ∅.

(** ** Warm pool *)

(** A channel of unit values: its capacity, how many it holds, whether it has
    been closed. *)
Record chan := mkChan { c_cap : nat; c_len : nat; c_closed : bool }.

Record pooled := mkPooled { p_chan : chan; p_hits : Z }.

(** The call at each point of [Invoke]; [Some p] is the entry it looked up. *)
Inductive pc :=
  | PLookup (k : string)
  | PAcquire (p : nat)
  | PRun (p : option nat)
  | PRelease (p : nat)
  | PDone
  | PPanicked.

Record Pool := mkPool {
  concurrency : nat;
  hot : gmap string nat;          (** the map of pointers *)
  heap : list pooled;             (** what they point to *)
  calls : list pc;                (** the calls of [Invoke] in flight *)
}.

Definition NewWarmPoolWith (conc : Z) : Pool :=
  mkPool (if conc <=? 0 then 32 else Z.to_nat conc) ∅ [] [].

Definition set_call (i : nat) (c : pc) (s : Pool) : Pool :=
  mkPool (concurrency s) (hot s) (heap s) (<[i := c]> (calls s)).
Definition set_pooled (p : nat) (x : pooled) (s : Pool) : Pool :=
  mkPool (concurrency s) (hot s) (<[p := x]> (heap s)) (calls s).

Definition close_entry (x : pooled) : pooled :=
  mkPooled (mkChan (c_cap (p_chan x)) (c_len (p_chan x)) true) (p_hits x).
Definition close_old (k : string) (s : Pool) : Pool :=
  match hot s !! k with
  | None => s
  | Some p => match heap s !! p with Some x => set_pooled p (close_entry x) s | None => s end
  end.

(** [Deploy] once the inner runtime accepted the code, and [Remove]. *)
Definition pool_Deploy (k : string) (s : Pool) : Pool :=
  let s := close_old k s in
  mkPool (concurrency s) (<[k := length (heap s)]> (hot s))
    (heap s ++ [mkPooled (mkChan (concurrency s) 0 false) 0]) (calls s).
Definition pool_Remove (k : string) (s : Pool) : Pool :=
  let s := close_old k s in mkPool (concurrency s) (delete k (hot s)) (heap s) (calls s).

Inductive pstep : Pool → Pool → Prop :=
  | ps_call k s :
      pstep s (mkPool (concurrency s) (hot s) (heap s) (calls s ++ [PLookup k]))
  | ps_lookup i k s :
      calls s !! i = Some (PLookup k) →
      pstep s (set_call i (match hot s !! k with Some p => PAcquire p | None => PRun None end) s)
  | ps_send i p x s :
      calls s !! i = Some (PAcquire p) → heap s !! p = Some x →
      c_closed (p_chan x) = false → (c_len (p_chan x) < c_cap (p_chan x))%nat →
      pstep s (set_call i (PRun (Some p))
                 (set_pooled p (mkPooled (mkChan (c_cap (p_chan x)) (S (c_len (p_chan x))) false) (p_hits x + 1)) s))
  | ps_send_closed i p x s :   (* send on a closed channel *)
      calls s !! i = Some (PAcquire p) → heap s !! p = Some x → c_closed (p_chan x) = true →
      pstep s (set_call i PPanicked s)
  | ps_cancel i p s :          (* ctx.Done() *)
      calls s !! i = Some (PAcquire p) → pstep s (set_call i PDone s)
  | ps_invoked i p s :         (* the inner call returned *)
      calls s !! i = Some (PRun p) →
      pstep s (set_call i (match p with Some p => PRelease p | None => PDone end) s)
  | ps_receive i p x s :
      calls s !! i = Some (PRelease p) → heap s !! p = Some x →
      c_len (p_chan x) ≠ 0%nat ∨ c_closed (p_chan x) = true →
      pstep s (set_call i PDone
                 (set_pooled p (mkPooled (mkChan (c_cap (p_chan x)) (pred (c_len (p_chan x))) (c_closed (p_chan x)))
                                  (p_hits x)) s))
  | ps_deploy k s : pstep s (pool_Deploy k s)
  | ps_remove k s : pstep s (pool_Remove k s).
