(* ===== verification/WasmProps.v ===== *)
(** Properties of the function runtimes: the warm pool bounds the calls in
    flight and can panic a caller, the cron scheduler keeps one entry per
    function and loses the others, the blob store gives back what it stored. *)

From S2P Require Import Prelude GoTime Json Types Bolt Store StoreOps StoreLaws Table StoreProps Text Wasm.

(** ** Warm pool *)

(** The calls that hold a permit of entry [p]. *)
Definition holds (p : nat) (c : pc) : bool :=
  match c with PRun (Some q) | PRelease q => (q =? p)%nat | _ => false end.
Definition holders (p : nat) (l : list pc) : nat := length (List.filter (holds p) l).

(** The entry a call refers to. *)
Definition entry_of (c : pc) : option nat :=
  match c with PAcquire p | PRun (Some p) | PRelease p => Some p | _ => None end.

Record pool_ok (s : Pool) : Prop := {
  ok_permits p x : heap s !! p = Some x →
    c_len (p_chan x) = holders p (calls s) ∧ (c_len (p_chan x) ≤ c_cap (p_chan x))%nat ∧
    c_cap (p_chan x) = concurrency s;
  ok_refs i c p : calls s !! i = Some c → entry_of c = Some p → is_Some (heap s !! p);
  ok_hot k p : hot s !! k = Some p → ∃ x, heap s !! p = Some x ∧ c_closed (p_chan x) = false;
  ok_inj k k' p : hot s !! k = Some p → hot s !! k' = Some p → k = k';
}.

Lemma holders_insert p l i c c' :
  l !! i = Some c →
  (holders p (<[i := c']> l) + Nat.b2n (holds p c) = holders p l + Nat.b2n (holds p c'))%nat.
Proof.
  unfold holders. revert i; induction l as [|a l IH]; intros [|i] E; simplify_eq/=.
  - destruct (holds p c), (holds p c'); cbn; lia.
  - specialize (IH _ E). destruct (holds p a); cbn; lia.
Qed.
Lemma holders_snoc p l c : holders p (l ++ [c]) = (holders p l + Nat.b2n (holds p c))%nat.
Proof. unfold holders. rewrite List.filter_app, length_app; cbn. destruct (holds p c); done. Qed.
Lemma holders_none p l :
  (∀ i c, l !! i = Some c → entry_of c ≠ Some p) → holders p l = 0%nat.
Proof.
  unfold holders. induction l as [|c l IH]; intros Hn; [done|]. cbn.
  assert (holds p c = false) as ->.
  { specialize (Hn 0%nat c eq_refl). destruct c as [|q|[q|]|q| |]; cbn in *; try done;
      apply Nat.eqb_neq; congruence. }
  apply IH. intros i c' E. exact (Hn (S i) c' E).
Qed.

#[local] Arguments holders : simpl never.

(** Updating one call, and at most the entry it refers to. *)
Lemma pool_ok_call s i c c' :
  pool_ok s → calls s !! i = Some c →
  (∀ p, holds p c = holds p c') → (∀ p, entry_of c' = Some p → is_Some (heap s !! p)) →
  pool_ok (set_call i c' s).
Proof.
  intros [P R H J] E Hh Hr. split; cbn; [| |done|done].
  - intros p x Ex. destruct (P p x Ex) as (-> & ? & ?). split_and!; [|lia|done].
    pose proof (holders_insert p _ _ _ c' E) as K. rewrite (Hh p) in K. lia.
  - intros j d p Ed Ep. destruct (decide (i = j)) as [<-|Hn].
    + rewrite list_lookup_insert_eq in Ed by (apply lookup_lt_is_Some; eauto). simplify_eq. eauto.
    + rewrite list_lookup_insert_ne in Ed by done. eauto.
Qed.

Lemma pool_ok_permit s i p x c c' n hits closed :
  pool_ok s → calls s !! i = Some c → heap s !! p = Some x →
  entry_of c = Some p → (entry_of c' = Some p ∨ entry_of c' = None) →
  (∀ q, q ≠ p → holds q c = holds q c') →
  (n + Nat.b2n (holds p c) = c_len (p_chan x) + Nat.b2n (holds p c'))%nat →
  (n ≤ c_cap (p_chan x))%nat → closed = c_closed (p_chan x) →
  pool_ok (set_call i c' (set_pooled p (mkPooled (mkChan (c_cap (p_chan x)) n closed) hits) s)).
Proof.
  intros [P R H J] E Ex Hc Hc' Hq Hn Hcap ->.
  assert (Hp : (p < length (heap s))%nat) by (apply lookup_lt_is_Some; eauto).
  split; cbn.
  - intros q y Ey. pose proof (holders_insert q _ _ _ c' E) as K.
    destruct (decide (p = q)) as [<-|Hne].
    + rewrite list_lookup_insert_eq in Ey by done. simplify_eq; cbn.
      destruct (P p x Ex) as (? & ? & ?). split_and!; [lia|done|done].
    + rewrite list_lookup_insert_ne in Ey by done. destruct (P q y Ey) as (? & ? & ?).
      rewrite (Hq q) in K by done. split_and!; [lia|done|done].
  - intros j d q Ed Eq. apply lookup_lt_is_Some. rewrite length_insert.
    destruct (decide (i = j)) as [<-|Hne].
    + rewrite list_lookup_insert_eq in Ed by (apply lookup_lt_is_Some; eauto). simplify_eq.
      destruct Hc'; simplify_eq; congruence.
    + rewrite list_lookup_insert_ne in Ed by done. apply lookup_lt_is_Some. eauto.
  - intros k q Eq. destruct (H k q Eq) as (y & Ey & Hy). destruct (decide (p = q)) as [<-|Hne].
    + rewrite list_lookup_insert_eq by done. simplify_eq. eexists; split; [reflexivity|done].
    + rewrite list_lookup_insert_ne by done. eauto.
  - exact J.
Qed.

(** Closing the entry of a key keeps all but the openness of that key. *)
Lemma close_old_heap k s q y :
  heap (close_old k s) !! q = Some y →
  ∃ x, heap s !! q = Some x ∧ c_len (p_chan y) = c_len (p_chan x) ∧ c_cap (p_chan y) = c_cap (p_chan x) ∧
       (hot s !! k ≠ Some q → y = x).
Proof.
  unfold close_old. destruct (hot s !! k) as [p|] eqn:E; [|intros; eauto].
  destruct (heap s !! p) as [x|] eqn:Ex; [|intros; eauto]. cbn.
  destruct (decide (p = q)) as [<-|Hn].
  - rewrite list_lookup_insert_eq by (apply lookup_lt_is_Some; eauto). intros [= <-].
    exists x. split_and!; done.
  - rewrite list_lookup_insert_ne by done. eauto 6.
Qed.
Lemma close_old_same k s :
  concurrency (close_old k s) = concurrency s ∧ hot (close_old k s) = hot s ∧
  calls (close_old k s) = calls s ∧ length (heap (close_old k s)) = length (heap s).
Proof.
  unfold close_old. destruct (hot s !! k) as [p|]; [|done].
  destruct (heap s !! p); [|done]. cbn. by rewrite length_insert.
Qed.

(** Whether the old entry of the key was open or not, a fresh one, or none,
    takes its place. *)
Lemma pool_ok_deploy k s : pool_ok s → pool_ok (pool_Deploy k s).
Proof.
  intros [P R H J]. unfold pool_Deploy. set (s' := close_old k s).
  destruct (close_old_same k s) as (Ec & Eh & El & En). fold s' in Ec, Eh, El, En.
  assert (Hnew : holders (length (heap s)) (calls s) = 0%nat).
  { apply holders_none. intros i c E Ee. destruct (R i c _ E Ee) as [x Ex].
    apply lookup_lt_Some in Ex. lia. }
  split; cbn; rewrite ?Ec, ?Eh, ?El, ?En.
  - intros p y Ey. apply lookup_app_Some in Ey as [Ey|[Hp Ey]].
    + destruct (close_old_heap _ _ _ _ Ey) as (x & Ex & -> & -> & _). eauto.
    + rewrite En in *. apply list_lookup_singleton_Some in Ey as [Hp' <-]; cbn.
      replace p with (length (heap s)) by lia. split_and!; [done|lia|done].
  - intros i c p E Ee. apply lookup_lt_is_Some. rewrite length_app, En; cbn.
    destruct (R i c p E Ee) as [x Ex]. apply lookup_lt_Some in Ex. lia.
  - intros k' p E. destruct (decide (k = k')) as [<-|Hn].
    + rewrite lookup_insert_eq in E. simplify_eq.
      eexists; split; [rewrite <-En; apply list_lookup_middle; done|done].
    + rewrite lookup_insert_ne in E by done. destruct (H _ _ E) as (x & Ex & Hx).
      assert (is_Some (heap s' !! p)) as [y Ey]
        by (apply lookup_lt_is_Some; rewrite En; eapply lookup_lt_Some; eauto).
      destruct (close_old_heap _ _ _ _ Ey) as (x' & Ex' & _ & _ & Hy).
      assert (y = x') as -> by (apply Hy; intros E'; apply Hn; eauto). simplify_eq.
      exists x. split; [by apply lookup_app_l_Some|done].
  - intros k1 k2 p E1 E2.
    assert (Hb : ∀ k', hot s !! k' = Some p → (p < length (heap s))%nat).
    { intros k' E. destruct (H _ _ E) as (x & Ex & _). eapply lookup_lt_Some; eauto. }
    apply lookup_insert_Some in E1 as [[<- <-]|[N1 E1]], E2 as [[<- E2]|[N2 E2]]; eauto.
    + apply Hb in E2. lia.
    + subst. apply Hb in E1. lia.
Qed.

Lemma pool_ok_remove k s : pool_ok s → pool_ok (pool_Remove k s).
Proof.
  intros [P R H J]. unfold pool_Remove. set (s' := close_old k s).
  destruct (close_old_same k s) as (Ec & Eh & El & En). fold s' in Ec, Eh, El, En.
  split; cbn; rewrite ?Ec, ?Eh, ?El.
  - intros p y Ey. destruct (close_old_heap _ _ _ _ Ey) as (x & Ex & -> & -> & _). eauto.
  - intros i c p E Ee. apply lookup_lt_is_Some. rewrite En. apply lookup_lt_is_Some. eauto.
  - intros k' p E. apply lookup_delete_Some in E as [Hn E]. destruct (H _ _ E) as (x & Ex & Hx).
    assert (is_Some (heap s' !! p)) as [y Ey]
      by (apply lookup_lt_is_Some; rewrite En; eapply lookup_lt_Some; eauto).
    destruct (close_old_heap _ _ _ _ Ey) as (x' & Ex' & _ & _ & Hy).
    assert (y = x') as -> by (apply Hy; intros E'; apply Hn; eauto). simplify_eq. eauto.
  - intros k1 k2 p E1 E2. apply lookup_delete_Some in E1 as [_ E1], E2 as [_ E2]. eauto.
Qed.

Lemma pool_ok_step s s' : pstep s s' → pool_ok s → pool_ok s'.
Proof.
  intros Hs Hok. destruct Hs as [k s|i k s E|i p x s E Ex Hc Hl|i p x s E Ex Hc|i p s E|i p s E|i p x s E Ex Hr|k s|k s].
  - destruct Hok as [P R H J]. split; cbn; [| |done|done].
    + intros p x Ex. rewrite holders_snoc. cbn. destruct (P p x Ex) as (? & ? & ?). split_and!; [lia|done|done].
    + intros i c p Ei Ep. apply lookup_app_Some in Ei as [Ei|[_ Ei]]; [eauto|].
      apply list_lookup_singleton_Some in Ei as [_ <-]. done.
  - apply (pool_ok_call _ _ _ _ Hok E); destruct (hot s !! k) as [q|] eqn:Eq; cbn; try done.
    intros p [= <-]. destruct (ok_hot _ Hok _ _ Eq) as (x & -> & _). eauto.
  - apply (pool_ok_permit _ _ _ _ _ _ _ _ _ Hok E Ex); cbn; [done|by left| | |lia|done].
    2: by rewrite Nat.eqb_refl; cbn; lia.
    intros q Hq. symmetry. apply Nat.eqb_neq. congruence.
  - eapply (pool_ok_call _ _ _ _ Hok E); done.
  - eapply (pool_ok_call _ _ _ _ Hok E); done.
  - apply (pool_ok_call _ _ _ _ Hok E); destruct p as [q|]; cbn; try done.
    intros p [= <-]. exact (ok_refs _ Hok i _ _ E eq_refl).
  - destruct (ok_permits _ Hok p x Ex) as (Hn & Hcap & _).
    assert (0 < holders p (calls s))%nat.
    { pose proof (holders_insert p _ _ _ PDone E) as K. cbn in K. rewrite Nat.eqb_refl in K. cbn in K. lia. }
    apply (pool_ok_permit _ _ _ _ _ _ _ _ _ Hok E Ex); cbn; [done|by right| | |lia|done].
    2: by rewrite Nat.eqb_refl; cbn; lia.
    intros q Hq. apply Nat.eqb_neq. congruence.
  - by apply pool_ok_deploy.
  - by apply pool_ok_remove.
Qed.

Lemma pool_ok_new conc : pool_ok (NewWarmPoolWith conc).
Proof. split; cbn; intros; try (rewrite lookup_nil in *; done); try (rewrite lookup_empty in *; done). Qed.

Lemma pool_ok_rtc s s' : rtc pstep s s' → pool_ok s → pool_ok s'.
Proof. induction 1; eauto using pool_ok_step. Qed.

Lemma pstep_concurrency s s' : pstep s s' → concurrency s' = concurrency s.
Proof. destruct 1; cbn; try done; apply close_old_same. Qed.
Lemma rtc_concurrency s s' : rtc pstep s s' → concurrency s' = concurrency s.
Proof. induction 1 as [|a b c S _ IH]; [done|]. rewrite IH. by apply pstep_concurrency. Qed.

(** C16 In every state the warm pool can reach from [NewWarmPoolWith conc],
    whatever the interleaving of calls, cancellations, deploys and removes: at
    most [conc] calls (32 when it is not positive) hold a permit of any one
    entry; the channel of a live entry is open, so a call of a function that
    has just been looked up is never refused outright; and a finished call
    gives its permit back at once, since the receive of the deferred function
    never blocks. *)
Theorem pool_bounds_calls_in_flight (conc : Z) (s : Pool) (Hr : rtc pstep (NewWarmPoolWith conc) s) :
  (∀ p, is_Some (heap s !! p) →
     (holders p (calls s) ≤ (if (conc <=? 0)%Z then 32 else Z.to_nat conc))%nat) ∧
  (∀ k p, hot s !! k = Some p → ∃ x, heap s !! p = Some x ∧ c_closed (p_chan x) = false) ∧
  (∀ i p, calls s !! i = Some (PRelease p) → ∃ s', pstep s s' ∧ calls s' = <[i := PDone]> (calls s)).
Proof.
  pose proof (pool_ok_rtc _ _ Hr (pool_ok_new conc)) as Hok.
  split_and!.
  - intros p [x Ex]. destruct (ok_permits _ Hok p x Ex) as (<- & Hle & Hcap).
    rewrite Hcap, (rtc_concurrency _ _ Hr) in Hle. exact Hle.
  - exact (ok_hot _ Hok).
  - intros i p E. destruct (ok_refs _ Hok i _ p E eq_refl) as [x Ex].
    destruct (ok_permits _ Hok p x Ex) as (Hn & _).
    eexists; split; [eapply ps_receive; [exact E|exact Ex|left]|reflexivity].
    pose proof (holders_insert p _ _ _ PDone E) as K. cbn in K. rewrite Nat.eqb_refl in K. cbn in K. lia.
Qed.

Definition demo_pool : Pool :=
  mkPool 1 {["p/f" := 0%nat]} [mkPooled (mkChan 1 1 false) 1] [PRelease 0].
Lemma demo_pool_reachable : rtc pstep (NewWarmPoolWith 1) demo_pool.
Proof.
  eapply rtc_l; [apply (ps_deploy "p/f")|]. eapply rtc_l; [apply (ps_call "p/f")|].
  eapply rtc_l; [apply (ps_lookup 0%nat "p/f"); reflexivity|].
  eapply rtc_l; [eapply (ps_send 0%nat 0%nat); [reflexivity|reflexivity|reflexivity|vm_compute; lia]|].
  eapply rtc_l; [apply (ps_invoked 0%nat (Some 0%nat)); reflexivity|]. apply rtc_refl.
Qed.
Lemma pool_bounds_calls_in_flight_witness :
  (holders 0 (calls demo_pool) ≤ 1)%nat ∧ ∃ s', pstep demo_pool s' ∧ calls s' = [PDone].
Proof.
  destruct (pool_bounds_calls_in_flight 1 demo_pool demo_pool_reachable) as (B & _ & R).
  split; [exact (B 0%nat (ex_intro _ _ eq_refl))|exact (R 0%nat 0%nat eq_refl)].
Defined.

(** *** A replaced entry *)

Definition stuck_at (i p : nat) (s : Pool) : Prop :=
  (∃ x, heap s !! p = Some x ∧ c_closed (p_chan x) = true) ∧
  (calls s !! i = Some (PAcquire p) ∨ calls s !! i = Some PPanicked ∨ calls s !! i = Some PDone).

(** A closed channel stays closed. *)
Lemma closed_stays s s' p x :
  pstep s s' → heap s !! p = Some x → c_closed (p_chan x) = true →
  ∃ x', heap s' !! p = Some x' ∧ c_closed (p_chan x') = true.
Proof.
  assert (Hc : ∀ k, heap s !! p = Some x → c_closed (p_chan x) = true →
            ∃ x', heap (close_old k s) !! p = Some x' ∧ c_closed (p_chan x') = true).
  { intros k Ex Hx. unfold close_old. destruct (hot s !! k) as [q|]; [|eauto].
    destruct (heap s !! q) as [y|] eqn:Ey; [|eauto]. cbn. destruct (decide (q = p)) as [<-|Hn].
    - rewrite list_lookup_insert_eq by (eapply lookup_lt_Some; eauto). eauto.
    - rewrite list_lookup_insert_ne by done. eauto. }
  assert (Hs : ∀ q y z, heap s !! q = Some y → c_closed (p_chan y) = c_closed (p_chan z) →
            heap s !! p = Some x → c_closed (p_chan x) = true →
            ∃ x', <[q := z]> (heap s) !! p = Some x' ∧ c_closed (p_chan x') = true).
  { intros q y z Ey Hy Ex Hx. destruct (decide (q = p)) as [<-|Hn].
    - rewrite list_lookup_insert_eq by (eapply lookup_lt_Some; eauto). simplify_eq. eexists; split; [done|congruence].
    - rewrite list_lookup_insert_ne by done. eauto. }
  destruct 1 as [| |j q y s E Ey Hy Hl| | | |j q y s E Ey Hr|k s|k s]; intros Ex Hx;
    cbn [heap set_call set_pooled pool_Deploy pool_Remove]; eauto.
  destruct (Hc k Ex Hx) as (z & Ez & Hz). exists z. split; [by apply lookup_app_l_Some|done].
Qed.

Lemma close_old_calls k s : calls (close_old k s) = calls s.
Proof. apply close_old_same. Qed.

Lemma stuck_step i p s s' : pstep s s' → stuck_at i p s → stuck_at i p s'.
Proof.
  intros Hs [(x & Ex & Hx) Hi]. split; [eauto using closed_stays|].
  destruct Hs as [k s|j k s E|j q y s E Ey Hc Hl|j q y s E Ey Hc|j q s E|j q s E|j q y s E Ey Hr|k s|k s];
    cbn; rewrite ?close_old_calls; try done;
    try (destruct (decide (j = i)) as [->|Hn];
         [rewrite list_lookup_insert_eq by (eapply lookup_lt_Some; eauto)|by rewrite list_lookup_insert_ne]).
  - destruct Hi as [Hi|[Hi|Hi]]; eauto 6 using lookup_app_l_Some.
  - destruct Hi as [Hi|[Hi|Hi]]; congruence.
  - destruct Hi as [Hi|[Hi|Hi]]; simplify_eq; congruence.
  - auto.
  - auto.
  - destruct Hi as [Hi|[Hi|Hi]]; congruence.
  - auto.
Qed.

Lemma close_old_closes k s p x :
  hot s !! k = Some p → heap s !! p = Some x →
  ∃ x', heap (close_old k s) !! p = Some x' ∧ c_closed (p_chan x') = true.
Proof.
  intros Ek Ex. unfold close_old. rewrite Ek, Ex. cbn.
  rewrite list_lookup_insert_eq by (eapply lookup_lt_Some; eauto). eauto.
Qed.

(** A call waiting for a permit when its function is deployed again or
    removed never runs: from the replacement on, whatever happens, it is
    waiting, cancelled or panicked, and as long as it waits the panic (a send
    on the closed channel) is the next step it can take. *)
Theorem replaced_entry_fails_its_waiters (conc : Z) (k : string) (i p : nat) (s s0 s' : Pool)
    (Hr : rtc pstep (NewWarmPoolWith conc) s)
    (Hk : hot s !! k = Some p) (Hi : calls s !! i = Some (PAcquire p))
    (H0 : s0 = pool_Deploy k s ∨ s0 = pool_Remove k s) (Hr' : rtc pstep s0 s') :
  (calls s' !! i = Some (PAcquire p) ∧ pstep s' (set_call i PPanicked s')) ∨
  calls s' !! i = Some PPanicked ∨ calls s' !! i = Some PDone.
Proof.
  destruct (ok_hot _ (pool_ok_rtc _ _ Hr (pool_ok_new conc)) _ _ Hk) as (x & Ex & _).
  destruct (close_old_closes _ _ _ _ Hk Ex) as (x' & Ex' & Hx').
  assert (Hs : stuck_at i p s0).
  { destruct H0 as [-> | ->]; (split; cbn; [|rewrite close_old_calls; auto]);
      exists x'; (split; [|done]); [by apply lookup_app_l_Some|done]. }
  assert (Hs' : stuck_at i p s') by (clear -Hr' Hs; induction Hr'; eauto using stuck_step).
  destruct Hs' as [(y & Ey & Hy) [Hc|[Hc|Hc]]]; [left|auto..].
  split; [done|]. eapply ps_send_closed; eauto.
Qed.

Definition waiting_pool : Pool :=
  mkPool 1 {["p/f" := 0%nat]} [mkPooled (mkChan 1 0 false) 0] [PAcquire 0].
Lemma waiting_pool_reachable : rtc pstep (NewWarmPoolWith 1) waiting_pool.
Proof.
  eapply rtc_l; [apply (ps_deploy "p/f")|]. eapply rtc_l; [apply (ps_call "p/f")|].
  eapply rtc_l; [apply (ps_lookup 0%nat "p/f"); reflexivity|]. apply rtc_refl.
Qed.
Lemma replaced_entry_fails_its_waiters_witness :
  let s' := pool_Deploy "p/f" waiting_pool in pstep s' (set_call 0 PPanicked s').
Proof.
  destruct (replaced_entry_fails_its_waiters 1 "p/f" 0 0 _ _ _ waiting_pool_reachable
    eq_refl eq_refl (or_introl eq_refl) (rtc_refl _ _)) as [[_ S]|[E|E]]; [exact S|discriminate E|discriminate E].
Defined.

(** ** Cron *)

Section CronProps.
Context (cron_valid : string → bool).

Definition schedules (t : FunctionTrigger) : bool :=
  match FunctionTrigger_Cron t with
  | Some c => negb (bool_decide (CronTrigger_Schedule c = "")) && cron_valid (CronTrigger_Schedule c)
  | None => false
  end.
Definition scheduled (ts : list FunctionTrigger) : nat := length (List.filter schedules ts).

Record cron_ok (s : Cron) : Prop := {
  ck_nodup : NoDup (map fst (jobs s));
  ck_fresh id : id ∈ map fst (jobs s) → (id < next_id s)%nat;
}.

Lemma remove_job_length id l :
  NoDup (map fst l) → id ∈ map fst l → S (length (remove_job id l)) = length l.
Proof.
  induction l as [|[j x] l IH]; cbn; [by intros _ ?%elem_of_nil|]. intros Hn Hin.
  apply NoDup_cons in Hn as [Hj Hn]. destruct (Nat.eqb_spec j id) as [->|Hd]; cbn.
  - f_equal. clear IH Hin Hn. induction l as [|[j y] l IH]; [done|]. cbn in *.
    apply not_elem_of_cons in Hj as [Hd Hj]. destruct (Nat.eqb_spec j id); [congruence|]. cbn. f_equal. auto.
  - f_equal. apply IH; [done|]. apply elem_of_cons in Hin as [?|?]; [congruence|done].
Qed.
Lemma remove_job_ids id l j : j ∈ map fst (remove_job id l) → j ∈ map fst l.
Proof.
  rewrite !list_elem_of_fmap. intros (x & -> & Hx). exists x. split; [done|].
  apply list_elem_of_In in Hx. apply List.filter_In in Hx as [Hx _]. by apply list_elem_of_In.
Qed.
Lemma remove_job_nodup id l : NoDup (map fst l) → NoDup (map fst (remove_job id l)).
Proof.
  induction l as [|[j x] l IH]; cbn; [done|]. intros [Hj Hn]%NoDup_cons.
  destruct (Nat.eqb_spec j id); cbn; [auto|]. apply NoDup_cons. split; [|auto].
  intros Hc%remove_job_ids. done.
Qed.

Lemma removeKey_ok k s : cron_ok s → cron_ok (removeKey k s).
Proof.
  intros [N F]. unfold removeKey. destruct (entries s !! k); [|done].
  split; cbn; [by apply remove_job_nodup|]. intros j Hj%remove_job_ids. auto.
Qed.
Lemma add_trigger_ok f s t : cron_ok s → cron_ok (add_trigger cron_valid f s t).
Proof.
  intros [N F]. unfold add_trigger. destruct (FunctionTrigger_Cron t) as [c|]; [|done].
  case_bool_decide; [done|]. destruct (cron_valid _); [|done].
  split; cbn; rewrite map_app; cbn.
  - apply NoDup_app. split_and!; [done| |apply NoDup_singleton].
    intros id Hid%F Hid'%list_elem_of_singleton. lia.
  - intros id [Hid%F|Hid%list_elem_of_singleton]%elem_of_app; lia.
Qed.

(** The loop over the triggers adds one job per valid schedule and leaves the
    id of the last one in the entry. *)
Lemma add_triggers f ts s :
  cron_ok s →
  let s' := foldl (add_trigger cron_valid f) s ts in
  cron_ok s' ∧ length (jobs s') = (length (jobs s) + scheduled ts)%nat ∧
  match scheduled ts with
  | O => entries s' !! fnKey f = entries s !! fnKey f
  | S _ => ∃ id, entries s' !! fnKey f = Some id ∧ id ∈ map fst (jobs s')
  end ∧ (∀ id, id ∈ map fst (jobs s) → id ∈ map fst (jobs s')).
Proof.
  revert s; induction ts as [|t ts IH]; intros s Hok; cbn; [split_and!; [done|unfold scheduled; cbn; lia|done|done]|].
  pose proof (add_trigger_ok f s t Hok) as Hok'.
  destruct (IH _ Hok') as (K1 & K2 & K3 & K4).
  unfold scheduled in *; cbn in *.
  assert (Hcase : (schedules t = false ∧ add_trigger cron_valid f s t = s) ∨
    (schedules t = true ∧ ∃ j, jobs (add_trigger cron_valid f s t) = jobs s ++ [(next_id s, j)] ∧
       entries (add_trigger cron_valid f s t) !! fnKey f = Some (next_id s))).
  { unfold schedules, add_trigger. destruct (FunctionTrigger_Cron t) as [c|]; [|auto].
    case_bool_decide; [auto|]. destruct (cron_valid _); cbn; [right|auto].
    split; [done|]. eexists; split; [reflexivity|]. apply lookup_insert_eq. }
  destruct Hcase as [[Hs E]|[Hs (j & Ej & Ee)]]; rewrite Hs.
  - rewrite E in *. auto.
  - split_and!; [done|rewrite K2, Ej, length_app; cbn; lia| |].
    + cbn. destruct (length (List.filter _ ts)); [|done].
      exists (next_id s). split; [congruence|]. apply K4. rewrite Ej, map_app. apply elem_of_app. right. apply list_elem_of_singleton. done.
    + intros id Hid. apply K4. rewrite Ej, map_app. apply elem_of_app. by left.
Qed.

Lemma sync_ok f s : cron_ok s → cron_ok (sync cron_valid f s).
Proof. intros Hok. apply (add_triggers f (Function_Triggers f) _ (removeKey_ok _ _ Hok)). Qed.

Lemma removeKey_length k s id :
  cron_ok s → entries s !! k = Some id → id ∈ map fst (jobs s) →
  S (length (jobs (removeKey k s))) = length (jobs s) ∧ entries (removeKey k s) !! k = None.
Proof.
  intros [N _] Ek Hid. unfold removeKey. rewrite Ek. cbn.
  split; [by apply remove_job_length|apply lookup_delete_eq].
Qed.

Lemma removeKey_new k : removeKey k NewCron = NewCron.
Proof. unfold removeKey, NewCron; cbn [entries]. by rewrite lookup_empty. Qed.

Lemma iter_sync f k n :
  scheduled (Function_Triggers f) = S k →
  let s := Nat.iter (S n) (sync cron_valid f) NewCron in
  cron_ok s ∧ length (jobs s) = (S n * k + 1)%nat ∧
  ∃ id, entries s !! fnKey f = Some id ∧ id ∈ map fst (jobs s).
Proof.
  intros Hk. assert (H0 : cron_ok NewCron) by (split; cbn; [constructor|by intros ? ?%elem_of_nil]).
  induction n as [|n IH].
  - cbn. destruct (add_triggers f (Function_Triggers f) _ (removeKey_ok (fnKey f) _ H0)) as (A & B & C & _).
    unfold sync. rewrite Hk in B, C. split_and!; [exact A|rewrite B, removeKey_new; cbn; lia|exact C].
  - change (Nat.iter (S (S n)) (sync cron_valid f) NewCron)
      with (sync cron_valid f (Nat.iter (S n) (sync cron_valid f) NewCron)).
    revert IH. generalize (Nat.iter (S n) (sync cron_valid f) NewCron). intros s (Hok & Hl & id & Ei & Hi).
    destruct (removeKey_length _ _ _ Hok Ei Hi) as [Hr _].
    destruct (add_triggers f (Function_Triggers f) _ (removeKey_ok (fnKey f) _ Hok)) as (A & B & C & _).
    unfold sync. rewrite Hk in B, C. split_and!; [exact A|rewrite B; lia|exact C].
Qed.
End CronProps.

(** A function with [k+1] valid cron triggers: its [n+1]-th
    synchronisation (one is made at every store notice about it, and the
    reconcilers of its status make many) leaves [(n+1)k + 1] jobs in the cron
    table, and deleting it leaves [(n+1)k] of them firing for ever. With one
    trigger there is one job, and none after the deletion. *)
Theorem cron_sync_leaks_all_but_one (cron_valid : string → bool) (f : Function) (k n : nat)
    (Hk : scheduled cron_valid (Function_Triggers f) = S k) :
  let s := Nat.iter (S n) (sync cron_valid f) NewCron in
  length (jobs s) = (S n * k + 1)%nat ∧
  length (jobs (removeKey (fnKey f) s)) = (S n * k)%nat ∧
  entries (removeKey (fnKey f) s) !! fnKey f = None.
Proof.
  intros s. destruct (iter_sync cron_valid f k n Hk) as (Hok & Hl & id & Ei & Hi). fold s in Hok, Hl, Ei, Hi.
  destruct (removeKey_length _ _ _ Hok Ei Hi) as [Hr He]. split_and!; [done|lia|done].
Qed.

Definition two_crons : Function :=
  let t s := {| FunctionTrigger_HTTP := None; FunctionTrigger_Cron := Some (mkCronTrigger s) |} in
  { (zero (A:=Function)) with Function_Triggers := [t "0 0 * * * *"; t "0 30 * * * *"] }.
Lemma cron_sync_leaks_all_but_one_witness :
  length (jobs (removeKey (fnKey two_crons)
    (Nat.iter 3 (sync (λ _, true) two_crons) NewCron))) = 3%nat.
Proof. exact (proj1 (proj2 (cron_sync_leaks_all_but_one (λ _, true) two_crons 1 2 eq_refl))). Defined.

(** ** Blob store *)

(** Every file is named by the digest of its content. *)
Definition addressed (b : BlobStore) : Prop := ∀ id d, blobs b !! id = Some d → hex_encode (Sum256 d) = id.

(** A blob that was put can be got: what is read has the digest asked for,
    and the directory stays content-addressed. *)
Lemma blob_put_get data b :
  addressed b → blob_writable b = true →
  ∃ b' d, blob_Put data b = Ret (Ok (hex_encode (Sum256 data))) b' ∧ addressed b' ∧
          blob_Get (hex_encode (Sum256 data)) b' = Ret (Ok d) b' ∧
          hex_encode (Sum256 d) = hex_encode (Sum256 data).
Proof.
  intros Hok Hw. unfold blob_Put, blob_Get, gets. destruct (blobs b !! hex_encode (Sum256 data)) as [d|] eqn:E.
  - exists b, d. rewrite E. split_and!; [done|done|done|by apply Hok].
  - rewrite Hw. eexists _, data. split_and!; [reflexivity| |cbn; by rewrite lookup_insert_eq|done].
    intros id d; cbn. intros [[<- <-]|[_ K]]%lookup_insert_Some; [done|by apply Hok].
Qed.
