(* ===== verification/Watchers.v ===== *)
(** The background goroutines, as loops around a select: the bus's worker and
    trimmer (events/bus.go), the log scanner (events/logscan), the sidecar's
    server (events/sidecar), the reconciler's loop
    (runtime/container/reconcile.go), the cron scheduler's (runtime/wasm/
    cron.go), and the warm-up of a deployed function (runtime/wasm/pool.go). *)

From Stdlib Require Import Ascii.
From S2P Require Import Prelude Loops GoTime Json Types Bolt Store StoreOps Text Path Fs Secrets Reconciler Wasm Bus Dispatcher.

#[local] Arguments String.append : simpl nomatch.

(** ** The bus *)

Module BusLoop.
Section BusLoop.
Context `{Bolt}.

(** [run]: an event is received each time it is woken by its queue. *)
Definition run (ws : list (wake ())) : M Sys bool :=
  select_loop run_done (mret ()) (λ _, _ ← run_step; mret ()) ws.
Definition trimLoop (ws : list (wake ())) : M Sys bool :=
  select_loop (mret ()) trim_tick (λ _, mret ()) ws.

(** [safeCallSub]: a panic of the callback is recovered; [left] is the state
    it leaves. *)
Definition safeCallSub {S} (left : S → S) (fn : EventRecord → M S ()) (ev : EventRecord) : M S () := λ s,
  match fn ev s with Ret _ s' => Ret () s' | Panic => Ret () (left s) end.
End BusLoop.
End BusLoop.

(** ** The log scanner *)

Module LogScan.

(** [bufio.ScanLines] with a buffer of at most 1 MiB: the lines, without
    their terminators, up to the first that does not fit. *)
Definition max_token : Z := 2 ^ 20.
Definition drop_cr (line : string) : string :=
  if has_suffix line (String (ascii_of_nat 13) "") then take_str (String.length line - 1) line else line.
Fixpoint scan_tokens (lines : list string) : list string :=
  match lines with
  | [] => []
  | l :: lines => if Z.of_nat (String.length l) <? max_token then drop_cr l :: scan_tokens lines else []
  end.
(** What follows the last newline is a line unless it is empty. *)
Definition scan_text (text : string) : list string :=
  let ls := split_on (ascii_of_nat 10) text in
  scan_tokens (if bool_decide (List.last ls "" = "") then removelast ls else ls).

Section LogScan.
Context `{Regexp} `{Bolt}.

Definition scan_and_emit (c : Container) (line : string) : M Sys () :=
  evs ← lift (scan_line c line); for_each Emit evs.
(** [follow], which ends with the stream, at a line that is too long, or at
    the next line once its context is done: [n] lines are scanned before
    that. *)
Definition follow (c : Container) (text : string) (n : nat) : M Sys () :=
  for_each (scan_and_emit c) (take n (scan_text text)).

(** The scanner: the table [known], and the goroutines that still read and
    were not told to stop. *)
Record Scanner := mkScanner { sc_known : gset string; sc_reading : gset string }.
Definition NewScanner : Scanner := mkScanner ∅ ∅.
Definition reconcile (cs : list Container) (s : Scanner) : Scanner :=
  let f := reconcile_followers cs (sc_known s) in
  mkScanner (known f) ((sc_reading s ∖ cancelled f) ∪ started f).
Definition shutdown (s : Scanner) : Scanner := mkScanner ∅ (sc_reading s ∖ sc_known s).

(** The scanner beside the store: [ListContainers] of every project. *)
Definition tick : M (World * Scanner) () := λ s,
  match ListContainers "" s.1 with
  | Ret (Ok cs) w => Ret () (w, reconcile cs s.2)
  | Ret (Err _) w => Ret () (w, s.2)
  | Panic => Panic
  end.
Definition Run (ws : list (wake Empty_set)) : M (World * Scanner) bool :=
  tick;; select_loop (modify (λ s, (s.1, shutdown s.2))) tick (λ e : Empty_set, match e with end) ws.

(** What happens to the scanner: its ticks, with the containers listed, and
    the end of a stream it follows. *)
Inductive scan_step : Scanner → Scanner → Prop :=
  | ScanTick s cs : scan_step s (reconcile cs s)
  | ScanEnd s k : k ∈ sc_reading s → scan_step s (mkScanner (sc_known s) (sc_reading s ∖ {[k]})).
End LogScan.
End LogScan.

(** ** The sidecar *)

Module SidecarLoop.

(** The unix listener: making the socket file, its mode, and serving. *)
Class UnixServer (N : Type) := {
  Listen : string → M (fs * N) (option error);
  Chmod : string → Z → M (fs * N) (option error);
  Serve : M (fs * N) (option error);
  http_Shutdown : M (fs * N) ();
}.
Definition ErrServerClosed : error := ErrMsg "http: Server closed".

Section Sidecar.
Context {N : Type} `{UnixServer N}.

Definition disk {A} (m : M fs A) : M (fs * N) A := λ s, match m s.1 with Ret a f => Ret a (f, s.2) | Panic => Panic end.

(** [Run], and the goroutine that waits for the context. *)
Definition Run (has_bus : bool) (socket : string) : M (fs * N) (option error) :=
  if negb has_bus then mret (Some (ErrMsg "sidecar: bus is nil"))
  else
    disk (MkdirAll (filepath_Dir socket)) ;?
    (_ ← disk (Remove socket);
     Listen socket ;?
     (_ ← Chmod socket 438;
      e ← Serve;
      mret match e with
           | Some e => if errors_is e ErrServerClosed then None else Some e
           | None => None
           end)).
Definition on_done (socket : string) : M (fs * N) () := http_Shutdown;; _ ← disk (Remove socket); mret ().
End Sidecar.

(** The handler of its two routes: the status, and the event emitted. *)
Definition ServeHTTP (meth path : string) (body : option json) : Z * option EventRecord :=
  if bool_decide (path = "/events") then
    if bool_decide (meth = "POST") then handleEvent body else (405, None)
  else if bool_decide (path = "/healthz") then
    if bool_decide (meth = "GET" ∨ meth = "HEAD") then (204, None) else (405, None)
  else (404, None).
End SidecarLoop.

(** ** The reconciler *)

Module ReconcileLoop.
Section Reconcile.
Context `{Bolt} {R : Type} `{Runtime R}.
Context (secrets : option SecretResolver) (dataDir : string) (has_bus has_net writable : bool).
Definition Run (nodeID : string) (ws : list (wake ())) : M (RSys R) bool :=
  Reconciler.bootstrap secrets dataDir has_bus has_net writable nodeID;;
  sub ← on_world Store.Subscribe;
  select_loop (mret ()) (Reconciler.bootstrap secrets dataDir has_bus has_net writable nodeID)
    (λ _, _ ← run_notice secrets dataDir has_bus has_net writable sub nodeID; mret ()) ws.
End Reconcile.
End ReconcileLoop.

(** ** The cron scheduler *)

Module CronLoop.
Section Cron.
Context `{Bolt} (cron_valid : string → bool).
Abbreviation S := (World * Cron)%type.

Definition reading {A} (m : M World A) : M S A := λ s, match m s.1 with Ret a w => Ret a (w, s.2) | Panic => Panic end.
Definition on_cron (f : Cron → Cron) : M S () := modify (λ s, (s.1, f s.2)).
(** The jobs of the library's scheduler when it is stopped no longer fire. *)
Definition stop : M S () := mret ().

(** One notice from the subscription. *)
Definition on_event (e : Event) : M S () :=
  if bool_decide (Event_Kind e = KindFunction) && negb (bool_decide (Event_Op e = "delete")) then
    f ← reading (GetFunction (Event_Project e) (Event_Name e));
    on_cron (cron_notice cron_valid e (res_option f))
  else on_cron (cron_notice cron_valid e None).
(** [Start], up to the goroutine; [ListFunctions] gives none when it fails. *)
Definition Start : M S () :=
  all ← reading (ListFunctions "");
  on_cron (sync_all cron_valid (default [] (res_option all))).
(** The goroutine, which subscribes first. *)
Definition watch (ws : list (wake ())) : M S bool :=
  sub ← reading Store.Subscribe;
  select_loop stop (mret ())
    (λ _, e ← reading (receive sub); match e with Some e => on_event e | None => mret () end) ws.
End Cron.
End CronLoop.

(** ** Warming a function up *)

Module WarmUp.
Section WarmUp.
Context {T : Type} `{FnRuntime T}.
Definition warm_request : InvokeRequest := mkInvokeRequest "GET" "/__warmup" ∅ "" {["SELFCLOUD_WARMUP" := "1"]} ∅.
Definition DefaultWarmInstances : nat := 2.
(** The goroutine of [Deploy]: the calls it makes on the inner runtime. *)
Definition warm_up (count : nat) (f : Function) : M T () :=
  for_each (λ _, _ ← fn_Invoke f warm_request; mret ()) (seq 0 count).
(** [NewWarmPool], and the hits [Stats] reports. *)
Definition NewWarmPool : Pool := NewWarmPoolWith 32.
Definition Stats (s : Pool) : list (string * Z) :=
  (λ x, (x.1, default 0 (p_hits <$> heap s !! x.2))) <$> map_to_list (hot s).
End WarmUp.
End WarmUp.
