(* ===== verification/WatchersProps.v ===== *)
(** The loops of the background goroutines: the bus's worker drains its queue,
    the log scanner reads whole lines, and what the scanner and the cron
    scheduler miss. *)

From Stdlib Require Import Ascii.
From S2P Require Import Prelude Loops GoTime Json Types Bolt Store StoreOps StoreLaws StoreProps Text Wasm Bus Dispatcher Watchers.

#[local] Arguments String.append : simpl nomatch.

(** ** The worker of the bus *)

Section Worker.
Context `{BoltLaws}.
Implicit Types s : Sys.

Definition log_exists (w : World) : Prop := is_Some (bucket_map w "eventlog").
Lemma put_raw_in_log k j w : log_exists w → ∃ e w', put_raw "eventlog" k j w = Ret e w' ∧ log_exists w'.
Proof.
  intros [m Hm]. destruct (key_ok k) eqn:Hk.
  - destruct (put_raw_run w "eventlog" k j m Hm Hk) as (d & E & Hd). exists None, (set_db d w). split; [done|].
    unfold log_exists, bucket_map. cbn. rewrite Hd, lookup_insert_eq. eauto.
  - rewrite put_raw_bad_key by (done || by exists m). do 2 eexists. split; [done|]. by exists m.
Qed.
Lemma AppendEvent_runs ev w : log_exists w → ∃ r w', AppendEvent ev w = Ret r w' ∧ log_exists w'.
Proof.
  intros Hw. unfold AppendEvent, put.
  assert (Hid : ∃ r1 w1, (if bool_decide (EventRecord_UID ev = "") then
     uid ← newUID; mret { ev with EventRecord_UID := uid } else mret ev) w = Ret r1 w1 ∧ log_exists w1)
    by (case_bool_decide; eauto).
  destruct Hid as (r1 & w1 & E1 & Hw1). rewrite (bind_ret_run _ _ _ _ _ E1).
  assert (Hat : ∃ r2 w2, (if IsZero (EventRecord_At r1) then t ← now; mret { r1 with EventRecord_At := t } else mret r1) w1
     = Ret r2 w2 ∧ log_exists w2) by (destruct (IsZero _); eauto).
  destruct Hat as (r2 & w2 & E2 & Hw2). rewrite (bind_ret_run _ _ _ _ _ E2).
  destruct (put_raw_in_log (eventKey r2) (enc r2) w2 Hw2) as (e & w3 & E3 & Hw3). rewrite (bind_ret_run _ _ _ _ _ E3). eauto.
Qed.

Definition sys_log (s : Sys) : Prop := log_exists (world s).
(** One event through the worker. *)
Lemma run_step_some s ev q :
  sys_log s → queue (bus s) = ev :: q →
  ∃ ev' s', run_step s = Ret true s' ∧ sys_log s' ∧ queue (bus s') = q ∧ handled s' = handled s ++ [ev'] ∧
    (∃ u a, ev' = { ev with EventRecord_UID := u; EventRecord_At := a }) ∧
    calls s' = calls s ++ ((λ i, (i, ev')) <$> bsubs (bus s)) ∧ tasks s' = tasks s ++ ((λ n, (n, ev')) <$> sinks (bus s)) ∧
    bsubs (bus s') = bsubs (bus s) ∧ sinks (bus s') = sinks (bus s).
Proof.
  intros Hs Hq. destruct (AppendEvent_runs ev (world s) Hs) as (r & w' & E & Hw').
  destruct (AppendEvent_rel _ _ _ _ E) as (u & a & Hr & _).
  exists r.1. eexists. split.
  - unfold run_step, mbind at 1, M_bind at 1, get_state. rewrite Hq. unfold dispatch, lift, on_bus, modify, mbind, M_bind.
    cbn [set_bus world]. rewrite E. reflexivity.
  - destruct (bus s). cbn in *. split_and!; try done. eauto.
Qed.
Lemma run_step_none s : queue (bus s) = [] → run_step s = Ret false s.
Proof. intros Hq. unfold run_step, mbind, M_bind, get_state. by rewrite Hq. Qed.

(** The same event, its identifier and instant filled in. *)
Definition completed (e e' : EventRecord) : Prop :=
  ∃ u a, e' = { e with EventRecord_UID := u; EventRecord_At := a }.
Definition delivered_to {X} (xs : list X) (evs : list EventRecord) : list (X * EventRecord) :=
  evs ≫= λ ev, (λ x, (x, ev)) <$> xs.

End Worker.

Definition queued_sys : Sys (H:=MemBolt) :=
  default demo_sys (exec (do_ops [OAddSink "rule-dispatcher"; OSubscribe; OEmit (demo_ev "cron"); OEmit (demo_ev "s3.put")]) demo_sys).

(** ** The log scanner *)

Import LogScan.

Definition scannable (l : string) : Prop :=
  no_byte (ascii_of_nat 10) l = true ∧ has_suffix l (String (ascii_of_nat 13) "") = false ∧ Z.of_nat (String.length l) < max_token.

Lemma split_text_lines ls : Forall (λ l, no_byte (ascii_of_nat 10) l = true) ls →
  split_on (ascii_of_nat 10) (text_lines ls) = ls ++ [""].
Proof.
  induction 1 as [|l ls Hl _ IH]; [done|]. cbn [text_lines foldr]. fold (text_lines ls).
  change (l +:+ eol +:+ text_lines ls) with (l +:+ (String (ascii_of_nat 10) "" +:+ text_lines ls)).
  change (String (ascii_of_nat 10) "" +:+ text_lines ls) with (String (ascii_of_nat 10) (text_lines ls)).
  rewrite split_on_sep by done. by rewrite IH.
Qed.
Lemma scan_tokens_app ls rest : Forall scannable ls → scan_tokens (ls ++ rest) = ls ++ scan_tokens rest.
Proof.
  induction 1 as [|l ls (_ & Hcr & Hlen) _ IH]; [done|]. cbn [app scan_tokens].
  rewrite (proj2 (Z.ltb_lt _ _) Hlen). unfold drop_cr. rewrite Hcr. by rewrite IH.
Qed.

(** What a container writes line by line is scanned line by line; a line of
    1 MiB or more ends the scan. *)
Lemma scanned_lines ls : Forall scannable ls → scan_text (text_lines ls) = ls.
Proof.
  intros Hls. unfold scan_text. rewrite split_text_lines by (eapply Forall_impl; [done|]; by intros ? [? _]).
  rewrite last_last, bool_decide_eq_true_2, removelast_last by done.
  rewrite <-(app_nil_r ls) at 1. rewrite scan_tokens_app by done. cbn. apply app_nil_r.
Qed.
Lemma long_line_ends_the_scan ls l rest :
  Forall scannable ls → no_byte (ascii_of_nat 10) l = true → max_token <= Z.of_nat (String.length l) →
  Forall (λ l, no_byte (ascii_of_nat 10) l = true) rest →
  scan_text (text_lines (ls ++ l :: rest)) = ls.
Proof.
  intros Hls Hl Hlen Hrest. unfold scan_text. rewrite split_text_lines.
  2:{ apply Forall_app. split; [eapply Forall_impl; [done|]; by intros ? [? _]|by constructor]. }
  rewrite last_last, bool_decide_eq_true_2, removelast_last by done.
  rewrite scan_tokens_app by done. cbn [scan_tokens]. rewrite (proj2 (Z.ltb_ge _ _) Hlen). apply app_nil_r.
Qed.

(** ** Followers that ended *)

(** The ticks between which a container stays wanted. *)
Inductive wanting_step (k : string) : Scanner → Scanner → Prop :=
  | WantTick s cs : k ∈ wanted cs → wanting_step k s (reconcile cs s)
  | WantEnd s k' : k' ∈ sc_reading s → wanting_step k s (mkScanner (sc_known s) (sc_reading s ∖ {[k']})).

(** Describes a defect: a follower whose stream ended, because its container
    was restarted or wrote a line of 1 MiB, is not started again while its
    container is listed as running. *)
Lemma ended_follower_is_not_restarted k s s' :
  k ∈ sc_known s → k ∉ sc_reading s → rtc (wanting_step k) s s' → k ∈ sc_known s' ∧ k ∉ sc_reading s'.
Proof.
  intros Hk Hr. apply (rtc_keeps _ (λ x, k ∈ sc_known x ∧ k ∉ sc_reading x)); [|done].
  intros x y [Hx1 Hx2] Hstep. destruct Hstep as [s1 cs Hw|s1 k' Hk'].
  - split; [exact Hw|]. unfold reconcile. cbn. rewrite elem_of_union, !elem_of_difference. tauto.
  - split; [done|]. cbn. rewrite elem_of_difference. tauto.
Qed.
(** It would be after a tick at which the container is not listed. *)
Lemma forgotten_follower_is_restarted k s cs cs' :
  k ∉ wanted cs → k ∈ wanted cs' → k ∈ sc_reading (reconcile cs' (reconcile cs s)).
Proof. unfold reconcile. cbn. set_solver. Qed.
(** No goroutine reads for a container the scanner has let go. *)
Lemma readers_are_known s : rtc scan_step NewScanner s → sc_reading s ⊆ sc_known s.
Proof.
  apply (rtc_keeps _ (λ x, sc_reading x ⊆ sc_known x)); [|done]. intros x y Hx Hstep. destruct Hstep as [s1 cs|s1 k Hk]; unfold reconcile; cbn in *; [|set_solver].
  intros k Hk. destruct (decide (k ∈ wanted cs)); set_solver.
Qed.
(** After [shutdown] none reads at all. *)
Lemma shutdown_stops_every_reader s : rtc scan_step NewScanner s → sc_reading (shutdown s) = ∅.
Proof. intros Hs%readers_are_known. unfold shutdown. cbn. set_solver. Qed.

(** ** What the cron scheduler misses *)

Section CronGap.
Context (cron_valid : string → bool).

Lemma removeKey_other k k' s : k ≠ k' → entries (removeKey k s) !! k' = entries s !! k'.
Proof. intros Hne. unfold removeKey. destruct (entries s !! k); [|done]. cbn. by rewrite lookup_delete_ne. Qed.
Lemma sync_other f k s : fnKey f ≠ k → entries (sync cron_valid f s) !! k = entries s !! k.
Proof.
  intros Hne. unfold sync. rewrite <-(removeKey_other (fnKey f) k s Hne). generalize (removeKey (fnKey f) s). clear s.
  induction (Function_Triggers f) as [|t ts IH]; intros s; [done|]. cbn [foldl]. rewrite IH. unfold add_trigger.
  destruct (FunctionTrigger_Cron t) as [c|]; [|done]. cbv zeta. case_bool_decide; [done|].
  destruct (cron_valid _); [|done]. cbn. by rewrite lookup_insert_ne.
Qed.
Lemma notice_other e f k s :
  Event_Project e +:+ "/" +:+ Event_Name e ≠ k → (∀ g, f = Some g → fnKey g ≠ k) →
  entries (cron_notice cron_valid e f s) !! k = entries s !! k.
Proof.
  intros He Hf. unfold cron_notice. case_bool_decide; [|done]. cbn. case_bool_decide; [by apply removeKey_other|].
  destruct f as [g|]; [|done]. apply sync_other. by apply Hf.
Qed.

(** Describes a defect: a function that was not there when [Start] listed the
    functions and whose notice came before the goroutine subscribed is never
    scheduled, whatever happens to the other functions. *)
Lemma unnoticed_function_is_not_scheduled k s notices :
  entries s !! k = None →
  Forall (λ n : Event * option Function, Event_Project n.1 +:+ "/" +:+ Event_Name n.1 ≠ k ∧ ∀ g, n.2 = Some g → fnKey g ≠ k) notices →
  entries (foldl (λ s n, cron_notice cron_valid n.1 n.2 s) s notices) !! k = None.
Proof.
  intros Hs Hn. revert s Hs. induction Hn as [|[e f] ns [He Hf] _ IH]; intros s Hs; [done|]. cbn [foldl].
  apply IH. by rewrite notice_other.
Qed.
End CronGap.
