(* ===== verification/Agent.v ===== *)
(** The agent inside a microVM (internal/runtime/firecracker/agent/main.go):
    what it mounts and unpacks at boot, and how it answers one framed request
    by running the function's process or by asking its HTTP server.

    The guest's kernel, the processes it starts, its loopback network and the
    reader of tar archives are the class [Guest]; files are those of Fs. *)

From Stdlib Require Import Ascii.
From S2P Require Import Prelude GoTime Json Types Text Duration Glob JsonText Path Fs Header Protocol.
Import Protocol.

#[local] Arguments String.append : simpl nomatch.

Module Agent.

Record manifest := mkManifest {
  manifest_Entrypoint : list string;
  manifest_Env : gmap string string;
  manifest_Mode : string;
  manifest_HTTPPort : Z;
  manifest_WorkDir : string;
}.
#[export] Instance manifest_json : Json manifest := struct_json mkManifest (
  ofld "entrypoint" manifest_Entrypoint;
  ofld "env" manifest_Env;
  ofld "mode" manifest_Mode;
  ofld "httpPort" manifest_HTTPPort;
  ofld "workDir" manifest_WorkDir;
  Fnil).
#[export] Instance manifest_laws : JsonLaws manifest.
Proof. struct_laws. Qed.
Definition stdio_manifest : manifest := mkManifest [] ∅ "stdio" 0 "".

(** ** The guest *)

Inductive tarType := TypeDir | TypeReg | TypeSymlink | TypeOther.
Record tarEntry := mkTarEntry {
  hdr_Name : string;
  hdr_Typeflag : tarType;
  hdr_Linkname : string;
  hdr_Data : string;
  hdr_Short : bool;   (** the archive ends inside the data *)
}.

Class Guest (T : Type) := {
  Environ : T → list string;
  (** [mount(2)]: source, target, type, read-only; [true]: the error is EBUSY *)
  Mount : string → string → string → bool → M (fs * T) (option (bool * error));
  (** [tar.Reader.Next] until the end or an error *)
  tar_entries : string → list tarEntry * option error;
  (** a process run to its end: arguments, directory, environment, standard
      input, time limit; its output, its errors and the error of [Run] *)
  run_process : list string → string → list string → string → option Z → M (fs * T) (string * string * option error);
  (** a process started: its pid *)
  start_process : list string → string → list string → M (fs * T) (res Z);
  (** [http.NewRequest] refuses a method or a URL *)
  bad_request : string → string → option error;
  (** [http.Client.Do]: method, URL, header, body; status, header, body *)
  http_Do : string → string → Header → string → M (fs * T) (res (Z * Header * string));
}.

(** A connection: what is still to come, what was sent, and whether the other
    end has gone (writes then fail). *)
Record conn := mkConn { conn_in : stream; conn_out : string; conn_gone : bool }.

Section Agent.
Context {T : Type} `{Guest T}.

(** The agent: its files, its system, the process it keeps in [http] mode and
    the connection it is serving. *)
Record agent := mkAgent { ag_fs : fs; ag_sys : T; ag_child : option Z; ag_conn : conn }.

Definition on_fs {A} (m : M fs A) : M agent A := λ s,
  match m (ag_fs s) with Ret a f => Ret a (mkAgent f (ag_sys s) (ag_child s) (ag_conn s)) | Panic => Panic end.
Definition on_sys {A} (m : M (fs * T) A) : M agent A := λ s,
  match m (ag_fs s, ag_sys s) with
  | Ret a ft => Ret a (mkAgent ft.1 ft.2 (ag_child s) (ag_conn s))
  | Panic => Panic
  end.
Definition set_child (c : option Z) : M agent () := modify (λ s, mkAgent (ag_fs s) (ag_sys s) c (ag_conn s)).

#[export] Instance conn_writer : Writer agent := λ data s,
  let c := ag_conn s in
  if conn_gone c then Ret (Some (ErrMsg "broken pipe")) s
  else Ret None (mkAgent (ag_fs s) (ag_sys s) (ag_child s) (mkConn (conn_in c) (conn_out c +:+ data) false)).
Definition read_conn {A} `{Json A} : M agent (res A) := λ s,
  match ReadFrame (A:=A) (conn_in (ag_conn s)) with
  | Ret r cs => Ret r (mkAgent (ag_fs s) (ag_sys s) (ag_child s) (mkConn cs (conn_out (ag_conn s)) (conn_gone (ag_conn s))))
  | Panic => Panic
  end.

Definition orDefault (v d : string) : string := if bool_decide (v = "") then d else v.

(** ** Boot *)

Definition mounts : list (string * string * string) :=
  [("proc", "/proc", "proc"); ("sysfs", "/sys", "sysfs"); ("devtmpfs", "/dev", "devtmpfs");
   ("tmpfs", "/tmp", "tmpfs"); ("tmpfs", "/run", "tmpfs")].
Fixpoint mount_all (l : list (string * string * string)) (firstErr : option error) : M agent (option error) :=
  match l with
  | [] => mret firstErr
  | (src, target, fstype) :: l =>
    on_fs (MkdirAll target) ;;
    e ← on_sys (Mount src target fstype false);
    mount_all l match firstErr, e with
                | None, Some (false, e) => Some (ErrWrap ("mount " +:+ target) e)
                | _, _ => firstErr
                end
  end.
Definition mountFilesystems : M agent (option error) := mount_all mounts None.

(** The cleaned name of an archive entry that is unpacked. *)
Definition tar_name (name : string) : option string :=
  let clean := Clean name in
  if has_prefix clean ".." || has_prefix clean "/" then None else Some clean.

Definition unpack_entry (dest : string) (e : tarEntry) : M fs (option error) :=
  match tar_name (hdr_Name e) with
  | None => mret None
  | Some clean =>
    let target := Join [dest; clean] in
    match hdr_Typeflag e with
    | TypeDir => MkdirAll target ;; mret None
    | TypeReg =>
      MkdirAll (filepath_Dir target) ;;
      WriteFile target (hdr_Data e) ;?
      mret (if hdr_Short e then Some ErrUnexpectedEOF else None)
    | TypeSymlink => Symlink (hdr_Linkname e) target ;; mret None
    | TypeOther => mret None
    end
  end.
Fixpoint unpack (dest : string) (l : list tarEntry) (last : option error) : M fs (option error) :=
  match l with
  | [] => mret last
  | e :: l => unpack_entry dest e ;? unpack dest l last
  end.
Definition extractTar (path dest : string) : M fs (option error) :=
  MkdirAll dest ;?
  r ← ReadFile path;
  match r with
  | Err e => mret (Some e)
  | Ok data => let '(l, last) := tar_entries data in unpack dest l last
  end.

(** [json.Unmarshal] into a manifest whose mode is already [stdio]. *)
Definition decode_manifest (text : string) : option manifest :=
  j ← Unmarshal_value text;
  mf ← dec j;
  let has_mode := match j with JObj kvs => match assoc "mode" kvs with None | Some JNull => false | _ => true end | _ => false end in
  Some (if has_mode then mf else mkManifest (manifest_Entrypoint mf) (manifest_Env mf) "stdio" (manifest_HTTPPort mf) (manifest_WorkDir mf)).

Definition ErrUnmarshal : error := ErrMsg "invalid JSON".
Definition read_manifest : M agent (res manifest) :=
  r ← on_fs (ReadFile "/srv/manifest.json");
  mret match r with
       | Ok text => match decode_manifest text with Some mf => Ok mf | None => Err (ErrWrap "manifest.json" ErrUnmarshal) end
       | Err e => if bool_decide (e = ENOENT) then Ok stdio_manifest else Err (ErrWrap "read manifest" e)
       end.

(** The archive: on a mounted code drive, or the drive itself. *)
Definition code_archive : M agent (res string) :=
  e1 ← on_sys (Mount "/dev/vdb" "/code" "ext4" true);
  e2 ← match e1 with None => mret None | Some _ => on_sys (Mount "/dev/vdb" "/code" "ext2" true) end;
  match e2 with
  | None => mret (Ok "/code/code.tar")
  | Some _ =>
    data ←! on_fs (ReadFile "/dev/vdb");
    on_fs (WriteFile "/tmp/code.tar" data) ;! mret (Ok "/tmp/code.tar")
  end.

Definition mountCodeDrive : M agent (res manifest) :=
  on_fs (MkdirAll "/code") ;!
  dev ←! on_fs (Stat "/dev/vdb");
  tarPath ←! code_archive;
  st ← on_fs (Stat tarPath);
  match st with
  | Ok _ =>
    e ← on_fs (extractTar tarPath "/srv");
    match e with Some e => mret (Err (ErrWrap "extract" e)) | None => read_manifest end
  | Err _ => on_fs (Symlink "/code" "/srv") ;; read_manifest
  end.

(** The part of [main] that settles the manifest. *)
Definition configure : M agent manifest :=
  r ← mountCodeDrive;
  let mf := match r with Ok mf => mf | Err _ => stdio_manifest end in
  mret (mkManifest (manifest_Entrypoint mf) (manifest_Env mf) (orDefault (manifest_Mode mf) "stdio")
          (if manifest_HTTPPort mf =? 0 then 8080 else manifest_HTTPPort mf) (manifest_WorkDir mf)).

(** ** Environments *)

(** Appended after the ones before; Go visits a map in no fixed order. *)
Definition mergeEnv (base : list string) (overlays : list (gmap string string)) : list string :=
  base ++ (m ← overlays; (λ kv, kv.1 +:+ "=" +:+ kv.2) <$> sorted_entries m).

(** The value a process finds: os/exec passes on the last entry of a name. *)
Definition env_entry (k e : string) : option string :=
  if has_prefix e (k +:+ "=") then Some (drop_str (S (String.length k)) e) else None.
Definition getenv (k : string) (env : list string) : option string := head (omap (env_entry k) (reverse env)).

(** [fmt.Sscanf(v, "%d", &ms)]: spaces, a sign, digits; the rest is ignored. *)
Fixpoint skip_blank (s : string) : string :=
  match s with
  | String a r => if is_space a && negb (N_of_ascii a =? 10)%N then skip_blank r else s
  | EmptyString => ""
  end.
Definition scan_int (s : string) : option Z :=
  let s := skip_blank s in
  let neg := has_prefix s "-" in
  let '(ds, _) := span_digits (if neg || has_prefix s "+" then drop_str 1 s else s) in
  if bool_decide (ds = "") then None
  else let z := if neg then - number 0 ds else number 0 ds in if int64_ok z then Some z else None.

Definition Millisecond : Z := 1000000.
Definition deadlineFromEnv (req : Request) : option Z :=
  v ← Request_Env req !! "SELFCLOUD_TIMEOUT_MS";
  ms ← scan_int v;
  if ms <=? 0 then None else Some (wrap64 (ms * Millisecond)).

(** ** Secrets *)

Definition stage : string := "/run/selfcloud/secrets".
Definition stage_file (guestPath data : string) : M fs () :=
  if bool_decide (guestPath = "") then mret ()
  else
    e ← MkdirAll (filepath_Dir guestPath);
    match e with None => WriteFile guestPath data ;; mret () | Some _ => mret () end ;;
    let base := Base guestPath in
    if bool_decide (base = "") || bool_decide (base = "/") || bool_decide (base = ".") then mret ()
    else
      let canonical := Join [stage; base] in
      Remove canonical ;;
      e ← Symlink guestPath canonical;
      match e with None => mret () | Some _ => WriteFile canonical data ;; mret () end.
Definition stageSecretFiles (req : Request) : M fs (option error) :=
  let files := sorted_entries (Request_SecretFiles req) in
  match files with
  | [] => mret None
  | _ => MkdirAll stage ;? (for_each (λ kv, stage_file kv.1 (raw_str kv.2)) files ;; mret None)
  end.

(** ** Envelopes *)

Record stdinEnvelope := mkStdinEnvelope {
  stdin_Method : string;
  stdin_Path : string;
  stdin_Headers : gmap string (list string);
  stdin_Body : string;
  stdin_Env : gmap string string;
}.
#[export] Instance stdin_json : Json stdinEnvelope := struct_json mkStdinEnvelope (
  fld "method" stdin_Method;
  fld "path" stdin_Path;
  ofld "headers" stdin_Headers;
  ofld "body" stdin_Body;
  ofld "env" stdin_Env;
  Fnil).
#[export] Instance stdin_laws : JsonLaws stdinEnvelope.
Proof. struct_laws. Qed.

Definition newline : string := String (ascii_of_N 10) "".
Definition stdin_of (req : Request) : stdinEnvelope :=
  mkStdinEnvelope (Request_Method req) (Request_Path req) (Request_Headers req) (raw_str (Request_Body req)) (Request_Env req).
Definition encodeStdinEnvelope (req : Request) : string := Marshal (enc (stdin_of req)) +:+ newline.

Record stdoutEnvelope := mkStdoutEnvelope {
  stdout_Status : Z;
  stdout_Headers : gmap string (list string);
  stdout_Body : string;
}.
#[export] Instance stdout_json : Json stdoutEnvelope := struct_json mkStdoutEnvelope (
  fld "status" stdout_Status;
  ofld "headers" stdout_Headers;
  ofld "body" stdout_Body;
  Fnil).
#[export] Instance stdout_laws : JsonLaws stdoutEnvelope.
Proof. struct_laws. Qed.

Definition text_plain : Header := {["Content-Type" := ["text/plain; charset=utf-8"]]}.
Definition decodeStdoutEnvelope (stdout : string) : Response :=
  let stdout := trim_space stdout in
  if bool_decide (stdout = "") then mkResponse 204 ∅ (Raw "") "" ""
  else
    match Unmarshal (A:=stdoutEnvelope) stdout with
    | None => mkResponse 200 text_plain (Raw stdout) "" ""
    | Some env =>
      mkResponse (if stdout_Status env =? 0 then 200 else stdout_Status env) (stdout_Headers env) (Raw (stdout_Body env)) "" ""
    end.

(** ** Requests *)

Definition writeErr (msg : string) : M agent () :=
  WriteFrame (mkResponse 500 ∅ (Raw "") "" msg) ;; mret ().

(** The process's answer, with its errors and the error of [Run]. *)
Definition stdio_response (stdout stderr : string) (err : option error) : Response :=
  let resp := decodeStdoutEnvelope stdout in
  let resp := mkResponse (Response_Status resp) (Response_Headers resp) (Response_Body resp) stderr (Response_Error resp) in
  match err with
  | Some e =>
    if Response_Status resp =? 0
    then mkResponse 500 (Response_Headers resp) (Response_Body resp) (Response_Logs resp) (error_text e) else resp
  | None => resp
  end.

Definition request_vars (req : Request) : gmap string string :=
  {["SELFCLOUD_REQUEST_METHOD" := Request_Method req; "SELFCLOUD_REQUEST_PATH" := Request_Path req]}.
Definition child_env (req : Request) (mf : manifest) (environ : list string) : list string :=
  mergeEnv environ [manifest_Env mf; Request_Env req; request_vars req].

Definition entrypoint (mf : manifest) : M agent (option (list string)) :=
  match manifest_Entrypoint mf with
  | [] => st ← on_fs (Stat "/srv/handler"); mret (match st with Ok _ => Some ["/srv/handler"] | Err _ => None end)
  | entry => mret (Some entry)
  end.

Definition serveStdio (req : Request) (mf : manifest) : M agent () :=
  entry ← entrypoint mf;
  match entry with
  | None => writeErr "no entrypoint configured"
  | Some entry =>
    environ ← gets (λ s, Environ (ag_sys s));
    '(stdout, stderr, err) ← on_sys (run_process entry (orDefault (manifest_WorkDir mf) "/srv")
                               (child_env req mf environ) (encodeStdinEnvelope req) (deadlineFromEnv req));
    WriteFrame (stdio_response stdout stderr err) ;; mret ()
  end.

Definition spawnHTTPChild (mf : manifest) : M agent (res Z) :=
  match manifest_Entrypoint mf with
  | [] => mret (Err (ErrMsg "manifest.entrypoint required for http mode"))
  | argv =>
    environ ← gets (λ s, Environ (ag_sys s));
    on_sys (start_process argv (orDefault (manifest_WorkDir mf) "/srv") (mergeEnv environ [manifest_Env mf]))
  end.
Definition need_child (mf : manifest) : M agent (option error) :=
  c ← gets ag_child;
  match c with
  | Some _ => mret None
  | None => r ← spawnHTTPChild mf; match r with Ok pid => set_child (Some pid) ;; mret None | Err e => mret (Some e) end
  end.

(** The server may not be listening yet: [n] attempts. *)
Fixpoint proxy (n : nat) (last : error) (method url : string) (h : Header) (body : string) : M agent (res (Z * Header * string)) :=
  match n with
  | O => mret (Err last)
  | S n =>
    r ← on_sys (http_Do method url h body);
    match r with Ok resp => mret (Ok resp) | Err e => proxy n e method url h body end
  end.

Definition serveHTTP (req : Request) (mf : manifest) : M agent () :=
  e ← need_child mf;
  match e with
  | Some e => writeErr ("spawn http child: " +:+ error_text e)
  | None =>
    let url := "http://127.0.0.1:" +:+ itoa (manifest_HTTPPort mf) +:+ Request_Path req in
    match bad_request (Request_Method req) url with
    | Some e => writeErr ("build http request: " +:+ error_text e)
    | None =>
      r ← proxy 30 EOF (Request_Method req) url (copy_header (Request_Headers req) ∅) (raw_str (Request_Body req));
      match r with
      | Err e => writeErr ("proxy: " +:+ error_text e)
      | Ok (status, h, body) =>
        WriteFrame (mkResponse status h (Raw (if MaxMessageSize <? Z.of_nat (String.length body)
                                              then take_str (Z.to_nat MaxMessageSize) body else body)) "" "") ;; mret ()
      end
    end
  end.

Definition handleConn (mf : manifest) : M agent () :=
  r ← read_conn (A:=Request);
  match r with
  | Err e => writeErr ("read request: " +:+ error_text e)
  | Ok req =>
    on_fs (stageSecretFiles req) ;;
    let mode := orDefault (Request_Mode req) (manifest_Mode mf) in
    if bool_decide (mode = "http") then serveHTTP req mf else serveStdio req mf
  end.

(** [main] up to the loop that accepts connections. *)
Definition boot : M agent manifest :=
  mountFilesystems ;;
  mf ← configure;
  (if bool_decide (manifest_Mode mf = "http") && negb (bool_decide (manifest_Entrypoint mf = [])) then
     r ← spawnHTTPChild mf; match r with Ok pid => set_child (Some pid) | Err _ => mret () end
   else mret ()) ;;
  mret mf.

End Agent.
Arguments agent T : clear implicits.
End Agent.
