(* ===== verification/AgentProps.v ===== *)
(** The agent's promises: unpacking stays inside its directory, what a process
    is told, and how one connection is answered. *)

From Stdlib Require Import Ascii.
From S2P Require Import Prelude GoTime Json Types Text Duration Glob JsonText Path Fs FsLaws Header Protocol Agent.
Import Protocol.
Import Agent.

#[local] Arguments String.append : simpl nomatch.
#[local] Arguments WriteFile : simpl never.
#[local] Arguments MkdirAll : simpl never.
#[local] Arguments Clean : simpl never.
#[local] Arguments Join : simpl never.

(** ** Unpacking *)

Lemma Clean_not_empty path : Clean path ≠ "".
Proof.
  unfold Clean. cbv zeta. destruct (has_prefix path "/"); [done|].
  destruct (bool_decide _) eqn:E; [done|by apply bool_decide_eq_false in E].
Qed.

Definition no_symlink (e : tarEntry) : Prop := hdr_Typeflag e ≠ TypeSymlink.

Section Unpack.
Context {T : Type} `{Guest T}.
Variable dest : string.
Hypotheses (Hdest : dest ≠ "") (Hplain : plain_names (elems dest)).
Let d : addr := rev (elems dest).

Lemma plain_no_dotdot l : plain_names l → no_dotdot l.
Proof. intros Hp. eapply Forall_impl; [exact Hp|]. naive_solver. Qed.

Lemma target_inside name clean :
  tar_name name = Some clean →
  plain_names (elems (Join [dest; clean])) ∧ near d (rev (elems (Join [dest; clean]))).
Proof.
  unfold tar_name. destruct (has_prefix (Clean name) "..") eqn:E1; [done|].
  destruct (has_prefix (Clean name) "/") eqn:E2; [done|]. intros [= <-].
  pose proof (clean_relative name E1 E2) as Hn.
  rewrite elems_Join by (done || apply Clean_not_empty). split; [by apply Forall_app|].
  left. rewrite rev_app_distr. by eexists.
Qed.

Lemma unpack_entry_kept e s :
  no_links d s → no_symlink e → ∃ r s', unpack_entry dest e s = Ret r s' ∧ kept d s s'.
Proof.
  intros Hl He. unfold unpack_entry. pose proof (kept_refl d s Hl) as Hk.
  destruct (tar_name (hdr_Name e)) as [clean|] eqn:Et; [|by eexists _, _].
  apply target_inside in Et as [Hp Hn]. set (target := Join [dest; clean]) in *.
  destruct (hdr_Typeflag e) eqn:Ety; [| |by destruct He|by eexists _, _].
  - destruct (MkdirAll_kept d target s Hl) as (r & s' & Em & Hk'); [by apply plain_no_dotdot|done|].
    exists None, s'. split; [|done]. by rewrite (bind_ret_run _ _ _ _ _ Em).
  - destruct (elems_Dir target Hp) as [l El].
    destruct (MkdirAll_kept d (filepath_Dir target) s Hl) as (r & s1 & Em & Hk1).
    { apply plain_no_dotdot in Hp. unfold no_dotdot in *. rewrite El in Hp. by apply Forall_app in Hp as [? _]. }
    { eapply near_tail; [exact Hn|]. rewrite El, rev_app_distr. by eexists. }
    destruct (WriteFile_kept d target (hdr_Data e) s1) as (r' & s2 & Ew & Hk2); [apply Hk1|by apply plain_no_dotdot|done|].
    rewrite (bind_ret_run _ _ _ _ _ Em). unfold check. rewrite (bind_ret_run _ _ _ _ _ Ew).
    exists match r' with Some e' => Some e' | None => if hdr_Short e then Some ErrUnexpectedEOF else None end, s2.
    split; [by destruct r'|by eapply kept_trans].
Qed.

Lemma unpack_kept l last s :
  no_links d s → Forall no_symlink l → ∃ r s', unpack dest l last s = Ret r s' ∧ kept d s s'.
Proof.
  revert s. induction l as [|e l IH]; intros s Hl; [intros _; eexists _, _; split; [done|by apply kept_refl]|].
  intros [He Hls]%Forall_cons. cbn [unpack]. unfold check.
  destruct (unpack_entry_kept e s Hl He) as (r & s1 & E & Hk). rewrite (bind_ret_run _ _ _ _ _ E).
  destruct r as [e'|]; [by eexists _, _|]. destruct (IH s1) as (r & s2 & -> & Hk'); [apply Hk|done|].
  eexists _, _. split; [done|by eapply kept_trans].
Qed.
End Unpack.

Section AgentProps.
Context {T : Type} `{Guest T}.

(** C15 Unpacking an archive that holds no symbolic links changes nothing
    outside its destination, whatever the names in the archive say ([..],
    rooted names, both): every file that is neither in the destination nor on
    the way to it is what it was, and no symbolic link appears. *)
Theorem extract_stays_inside (path dest : string) (s : fs) :
  dest ≠ "" → plain_names (elems dest) → no_links (rev (elems dest)) s →
  (∀ data s1, MkdirAll dest s = Ret None s1 → ReadFile path s1 = Ret (Ok data) s1 → Forall no_symlink (tar_entries data).1) →
  ∃ r s', extractTar path dest s = Ret r s' ∧ no_links (rev (elems dest)) s' ∧
    ∀ a, ¬ near (rev (elems dest)) a → nodes s' !! a = nodes s !! a.
Proof.
  intros Hd Hp Hl Ha. set (d := rev (elems dest)) in *.
  enough (∃ r s', extractTar path dest s = Ret r s' ∧ kept d s s') as (r & s' & E & K1 & K2 & _) by (by exists r, s').
  destruct (MkdirAll_kept d dest s Hl) as (r & s1 & Em & Hk); [by apply plain_no_dotdot|by left|].
  unfold extractTar, check. rewrite (bind_ret_run _ _ _ _ _ Em).
  destruct r as [e|]; [by eexists _, _|].
  assert (Hr : ∃ x, ReadFile path s1 = Ret x s1) by (by eexists). destruct Hr as [x Er].
  rewrite (bind_ret_run _ _ _ _ _ Er). destruct x as [data|e]; [|by eexists _, _].
  specialize (Ha data s1 Em Er). destruct (tar_entries data) as [l last].
  destruct (unpack_kept dest Hd Hp l last s1) as (r & s2 & -> & Hk'); [apply Hk|done|].
  eexists _, _. split; [done|by eapply kept_trans].
Qed.

(** ** What a process is told *)

Definition plain_keys (m : gmap string string) : Prop := map_Forall (λ k _, no_byte "=" k = true) m.

#[local] Instance plain_keys_dec m : Decision (plain_keys m).
Proof. unfold plain_keys. apply _. Defined.

Lemma env_entry_pair k k' v :
  no_byte "=" k = true → no_byte "=" k' = true → env_entry k (k' +:+ "=" +:+ v) = if bool_decide (k' = k) then Some v else None.
Proof.
  intros Hk Hk'. unfold env_entry. change (k' +:+ "=" +:+ v) with (k' +:+ String "=" v).
  destruct (has_prefix (k' +:+ String "=" v) (k +:+ "=")) eqn:E.
  - apply has_prefix_true in E as [r E]. rewrite str_app_assoc in E. change ("=" +:+ r) with (String "=" r) in E.
    destruct (sep_inj _ _ _ _ _ Hk' Hk E) as [-> ->]. rewrite bool_decide_eq_true_2 by done. f_equal.
    replace (S (String.length k)) with (String.length (k +:+ "=")) by (rewrite length_app_str; cbn; lia).
    change (k +:+ String "=" r) with (k +:+ "=" +:+ r). rewrite <-str_app_assoc. apply drop_str_app.
  - rewrite bool_decide_eq_false_2; [done|]. intros ->.
    assert (has_prefix (k +:+ String "=" v) (k +:+ "=") = true) as Ht; [|by rewrite Ht in E].
    apply has_prefix_true. exists v. by rewrite str_app_assoc.
Qed.

Lemma head_omap_entries k (l : list (string * string)) :
  no_byte "=" k = true → Forall (λ kv, no_byte "=" kv.1 = true) l →
  head (omap (env_entry k) ((λ kv, kv.1 +:+ "=" +:+ kv.2) <$> l)) = (list_to_map l : gmap string string) !! k.
Proof.
  intros Hk. induction l as [|[k' v] l IH]; [done|]. intros [Hk' Hl]%Forall_cons. cbn [fst snd] in Hk'.
  cbn [fmap list_fmap fst snd omap list_omap list_to_map foldr curry]. rewrite env_entry_pair by done.
  destruct (decide (k' = k)) as [->|Hne].
  - rewrite bool_decide_eq_true_2 by done. cbn. by rewrite lookup_insert_eq.
  - rewrite bool_decide_eq_false_2 by done. cbn in IH |- *. rewrite lookup_insert_ne by done. by apply IH.
Qed.

Lemma head_app {A} (l1 l2 : list A) : head (l1 ++ l2) = match head l1 with Some x => Some x | None => head l2 end.
Proof. by destruct l1. Qed.

Lemma getenv_overlay k base (m : gmap string string) ms :
  no_byte "=" k = true → plain_keys m →
  getenv k (mergeEnv base (ms ++ [m])) = match m !! k with Some v => Some v | None => getenv k (mergeEnv base ms) end.
Proof.
  intros Hk Hm. unfold mergeEnv, getenv. rewrite bind_app, app_assoc. cbn [mbind list_bind]. rewrite app_nil_r.
  set (l := base ++ _). rewrite reverse_app, omap_app, head_app, <-fmap_reverse.
  rewrite head_omap_entries; [|done|].
  - rewrite (list_to_map_proper (reverse (sorted_entries m)) (map_to_list m)).
    + by rewrite list_to_map_to_list.
    + rewrite fmap_reverse, reverse_Permutation. apply sorted_entries_nodup.
    + rewrite reverse_Permutation. apply sorted_entries_perm.
  - rewrite reverse_Permutation, sorted_entries_perm. apply Forall_forall. intros [k' v] Hin%elem_of_map_to_list. by apply Hm in Hin.
Qed.

(** What a process finds under a name: the request's method and path under
    their own names, then the request's environment, then the manifest's, then
    the agent's.  So the request overrides the manifest. *)
Theorem child_env_precedence (req : Request) (mf : manifest) (environ : list string) (k : string) :
  no_byte "=" k = true → plain_keys (Request_Env req) → plain_keys (manifest_Env mf) →
  getenv k (child_env req mf environ) =
  match request_vars req !! k with
  | Some v => Some v
  | None =>
    match Request_Env req !! k with
    | Some v => Some v
    | None => match manifest_Env mf !! k with Some v => Some v | None => getenv k environ end
    end
  end.
Proof.
  intros Hk Hr Hm. unfold child_env.
  change [manifest_Env mf; Request_Env req; request_vars req] with ((([] ++ [manifest_Env mf]) ++ [Request_Env req]) ++ [request_vars req]).
  rewrite getenv_overlay; [|done|].
  - rewrite !getenv_overlay by done.
    unfold mergeEnv at 1. cbn [mbind list_bind]. by rewrite app_nil_r.
  - unfold request_vars. apply map_Forall_insert_2; [done|]. apply map_Forall_insert_2; [done|]. apply map_Forall_empty.
Qed.

(** A process reads on its standard input exactly the method, path, header,
    environment and body of the request, one JSON value ended by a newline,
    when they are valid UTF-8; other bytes of a body do not survive. *)
Theorem stdin_carries_the_request (req : Request) :
  json_ok (stdin_of req) → Unmarshal (encodeStdinEnvelope req) = Some (stdin_of req).
Proof.
  intros Hok. unfold Unmarshal, Unmarshal_value, encodeStdinEnvelope. set (j := enc (stdin_of req)).
  assert (Ht : text_ok j = true).
  { apply enc_fields_text; [|exact Hok]. cbn [text_fields]; split_and!; first [exact I | reflexivity | apply _]. }
  pose proof (parses_all j (2 * String.length (Marshal j +:+ newline) + 1)%nat newline Ht) as Hp.
  replace (2 * String.length (Marshal j +:+ newline) + 2)%nat with (S (2 * String.length (Marshal j +:+ newline) + 1)) by lia.
  rewrite Hp; [|rewrite length_app_str; lia|done]. cbn [skip_ws newline].
  rewrite bool_decide_eq_true_2 by reflexivity. cbn [mbind option_bind]. unfold j. by apply dec_enc.
Qed.

(** ** Answers *)

Lemma decoded_status_not_zero stdout : Response_Status (decodeStdoutEnvelope stdout) ≠ 0.
Proof.
  unfold decodeStdoutEnvelope. case_bool_decide; [done|]. destruct (Unmarshal _) as [env|]; [|done].
  cbn. by destruct (Z.eqb_spec (stdout_Status env) 0).
Qed.

(** The error of a process never reaches the response: a process that could
    not be started, was killed at its time limit or exited with a failure is
    answered as if it had succeeded with the output it gave, a 204 if it gave
    none. *)
Theorem process_failure_is_dropped (stdout stderr : string) (err : error) :
  stdio_response stdout stderr (Some err) = stdio_response stdout stderr None ∧
  Response_Error (stdio_response stdout stderr (Some err)) = "" ∧
  (trim_space stdout = "" → Response_Status (stdio_response stdout stderr (Some err)) = 204).
Proof.
  pose proof (decoded_status_not_zero stdout) as Hs. unfold stdio_response. cbn [Response_Status Response_Error].
  destruct (Z.eqb_spec (Response_Status (decodeStdoutEnvelope stdout)) 0); [done|]. split_and!; [done| |].
  - cbn. unfold decodeStdoutEnvelope. case_bool_decide; [done|]. by destruct (Unmarshal _).
  - intros E. cbn. unfold decodeStdoutEnvelope. by rewrite bool_decide_eq_true_2.
Qed.

Lemma stdio_status_not_zero out err e : Response_Status (stdio_response out err e) ≠ 0.
Proof.
  pose proof (decoded_status_not_zero out) as Hs. unfold stdio_response. cbn [Response_Status].
  destruct e as [e|]; [|done]. by destruct (Z.eqb_spec (Response_Status (decodeStdoutEnvelope out)) 0).
Qed.

Lemma agent_sends {A} `{Json A} (v : A) (s : agent T) :
  fits v → conn_gone (ag_conn s) = false →
  WriteFrame v s = Ret None (mkAgent (ag_fs s) (ag_sys s) (ag_child s)
                               (mkConn (conn_in (ag_conn s)) (conn_out (ag_conn s) +:+ frame v) false)).
Proof.
  unfold fits, WriteFrame, frame. intros Hf Hg. rewrite (proj2 (Z.ltb_ge _ _) Hf).
  unfold check, mbind, M_bind, write, conn_writer. rewrite Hg. cbn. by rewrite str_app_assoc.
Qed.

(** One connection, end to end: the agent takes one request off the
    connection, whatever the pieces it comes in, leaves the rest, stages its
    secrets, runs the manifest's process once with the request's environment,
    standard input and time limit, and sends one frame, the process's answer. *)
Lemma handleConn_stdio (req : Request) (mf : manifest) (s : agent T) (rest : string)
    (staged : option error) (f : fs) (out err : string) (e : option error) (after : fs * T) :
  json_ok req → fits req → contents (conn_in (ag_conn s)) = frame req +:+ rest → conn_gone (ag_conn s) = false →
  orDefault (Request_Mode req) (manifest_Mode mf) ≠ "http" → manifest_Entrypoint mf ≠ [] →
  stageSecretFiles req (ag_fs s) = Ret staged f →
  run_process (manifest_Entrypoint mf) (orDefault (manifest_WorkDir mf) "/srv") (child_env req mf (Environ (ag_sys s)))
    (encodeStdinEnvelope req) (deadlineFromEnv req) (f, ag_sys s) = Ret (out, err, e) after →
  fits (stdio_response out err e) →
  ∃ cs', contents cs' = rest ∧
    handleConn mf s = Ret () (mkAgent after.1 after.2 (ag_child s)
                       (mkConn cs' (conn_out (ag_conn s) +:+ frame (stdio_response out err e)) false)).
Proof.
  intros Hok Hf Hc Hg Hm He Hs Hp Hr. destruct (ReadFrame_receives req _ rest Hok Hf Hc) as (cs' & Er & Hrest).
  exists cs'. split; [done|]. unfold handleConn.
  assert (E1 : read_conn s = Ret (Ok req) (mkAgent (ag_fs s) (ag_sys s) (ag_child s) (mkConn cs' (conn_out (ag_conn s)) false))).
  { unfold read_conn. by rewrite Er, Hg. }
  rewrite (bind_ret_run _ _ _ _ _ E1). cbv beta iota.
  rewrite (bind_ret_run _ _ _ staged (mkAgent f (ag_sys s) (ag_child s) (mkConn cs' (conn_out (ag_conn s)) false)))
    by (unfold on_fs; cbn [ag_fs]; by rewrite Hs).
  rewrite bool_decide_eq_false_2 by done. unfold serveStdio, entrypoint.
  destruct (manifest_Entrypoint mf) as [|a argv]; [done|].
  unfold mbind, M_bind, mret, M_ret, gets, on_sys. cbn [ag_sys ag_fs ag_child ag_conn]. rewrite Hp.
  by rewrite agent_sends.
Qed.
End AgentProps.

(** ** Witnesses *)

(** A guest whose only archives are the texts [code] and [links], and whose
    process answers with the variable [K]. *)
#[local] Instance demo_guest : Guest () := {
  Environ _ := ["K=agent"];
  Mount src _ _ _ := mret (if bool_decide (src = "/dev/vdb") then Some (false, ErrMsg "invalid argument") else None);
  tar_entries data :=
    if bool_decide (data = "links") then
      ([mkTarEntry "out" TypeSymlink "/etc" "" false; mkTarEntry "out/passwd" TypeReg "" "mine" false], None)
    else
      ([mkTarEntry "../etc/passwd" TypeReg "" "mine" false; mkTarEntry "/etc/passwd" TypeReg "" "mine" false;
        mkTarEntry "a/../../etc/passwd" TypeReg "" "mine" false; mkTarEntry "a/./b" TypeReg "" "code" false], None);
  run_process _ _ env _ _ := mret ("{" +:+ quoted "status" +:+ ":201," +:+ quoted "body" +:+ ":" +:+ quoted (default "" (getenv "K" env)) +:+ "}", "log", None);
  start_process _ _ _ := mret (Ok 7);
  bad_request _ _ := None;
  http_Do _ _ _ _ := mret (Err (ErrMsg "connection refused"));
}.

Definition guest_files (archive : string) : fs :=
  mkFs {[["etc"] := Dir; ["passwd"; "etc"] := Reg "root"; ["tmp"] := Dir; ["t"; "tmp"] := Reg archive]} ∅.
Definition file_at (a : addr) (s : option fs) : option node := s ≫= λ s, nodes s !! a.

(** With a symbolic link in it an archive does reach outside: the names are
    checked, not where the links made by earlier entries lead. *)
Theorem extract_follows_its_own_links :
  file_at ["passwd"; "etc"] (exec (extractTar "/tmp/t" "/srv") (guest_files "links")) = Some (Reg "mine").
Proof. vm_compute. reflexivity. Qed.

(** A secret mounted in the staging directory itself is lost: the file just
    written is replaced by a symbolic link to itself. *)
Theorem secret_in_the_staging_directory_is_lost :
  let req := mkRequest "GET" "/" ∅ (Raw "") ∅ {["/run/selfcloud/secrets/db" := Raw "pw"]} "" in
  eval (stageSecretFiles req ;; ReadFile "/run/selfcloud/secrets/db") empty_fs = Some (Err ELOOP).
Proof. vm_compute. reflexivity. Qed.
(** Anywhere else it is readable at its path and in the staging directory. *)
Example staged_secret_is_readable :
  let req := mkRequest "GET" "/" ∅ (Raw "") ∅ {["/etc/app/db" := Raw "pw"]} "" in
  eval (stageSecretFiles req ;; x ← ReadFile "/etc/app/db"; y ← ReadFile "/run/selfcloud/secrets/db"; mret (x, y)) empty_fs
  = Some (Ok "pw", Ok "pw").
Proof. vm_compute. reflexivity. Qed.

Lemma no_links_check d s :
  forallb (λ kv, match kv.2 with Sym _ => false | _ => true end) (map_to_list (nodes s)) = true → no_links d s.
Proof.
  rewrite forallb_forall. intros Hf a t _ Ha. apply elem_of_map_to_list in Ha.
  by specialize (Hf _ (proj1 (list_elem_of_In _ _) Ha)).
Qed.

Theorem extract_stays_inside_witness :
  ∃ r s', extractTar "/tmp/t" "/srv" (guest_files "code") = Ret r s' ∧ no_links ["srv"] s' ∧
    ∀ a, ¬ near ["srv"] a → nodes s' !! a = nodes (guest_files "code") !! a.
Proof.
  apply (extract_stays_inside (T:=()) "/tmp/t" "/srv"); [done| | |].
  - by repeat constructor.
  - apply no_links_check. vm_compute. reflexivity.
  - intros data s1 Hm Hr. unfold tar_entries, demo_guest, no_symlink. destruct (decide (data = "links")) as [->|Hne].
    + exfalso. revert Hm Hr. unfold check. intros Hm Hr.
      assert (Hx : exec (MkdirAll "/srv") (guest_files "code") = Some s1) by (unfold exec; by rewrite Hm).
      assert (Hy : eval (ReadFile "/tmp/t") s1 = Some (Ok "links")) by (unfold eval; by rewrite Hr).
      assert (Hz : (exec (MkdirAll "/srv") (guest_files "code") ≫= eval (ReadFile "/tmp/t")) = Some (Ok "links")) by by rewrite Hx.
      revert Hz. vm_compute. discriminate.
    + rewrite bool_decide_eq_false_2 by done. repeat constructor; done.
Defined.
Example extract_writes_inside :
  file_at ["b"; "a"; "srv"] (exec (extractTar "/tmp/t" "/srv") (guest_files "code")) = Some (Reg "code") ∧
  file_at ["passwd"; "etc"] (exec (extractTar "/tmp/t" "/srv") (guest_files "code")) = Some (Reg "root").
Proof. vm_compute. done. Qed.

Definition demo_manifest : manifest := mkManifest ["/srv/app"] {["K" := "manifest"]} "stdio" 8080 "".
Definition demo_request : Request :=
  mkRequest "POST" "/x" {["Accept" := ["*/*"]]} (Raw "hi") {["K" := "request"; "SELFCLOUD_TIMEOUT_MS" := "250"]} {["/etc/app/db" := Raw "pw"]} "".
Theorem child_env_precedence_witness : getenv "K" (child_env demo_request demo_manifest ["K=agent"]) = Some "request".
Proof.
  rewrite (child_env_precedence demo_request demo_manifest ["K=agent"] "K"); [reflexivity|reflexivity| |].
  - apply (bool_decide_eq_true_1 (plain_keys _)). vm_compute. reflexivity.
  - apply (bool_decide_eq_true_1 (plain_keys _)). vm_compute. reflexivity.
Defined.
Theorem stdin_carries_the_request_witness :
  Unmarshal (encodeStdinEnvelope demo_request) = Some (stdin_of demo_request).
Proof. apply (stdin_carries_the_request demo_request). vm_compute. reflexivity. Defined.

Definition demo_agent : agent () :=
  mkAgent empty_fs () None (mkConn [take_str 9 (frame demo_request); drop_str 9 (frame demo_request)] "" false).
Definition demo_answer : Response := mkResponse 201 ∅ (Raw "request") "log" "".
Example handleConn_stdio_runs :
  ∃ cs' s', contents cs' = "" ∧ handleConn demo_manifest demo_agent = Ret () s' ∧ conn_out (ag_conn s') = frame demo_answer ∧
            conn_in (ag_conn s') = cs'.
Proof.
  destruct (handleConn_stdio demo_request demo_manifest demo_agent "" None
    (default empty_fs (exec (stageSecretFiles demo_request) empty_fs))
    ("{" +:+ quoted "status" +:+ ":201," +:+ quoted "body" +:+ ":" +:+ quoted "request" +:+ "}") "log" None
    (default empty_fs (exec (stageSecretFiles demo_request) empty_fs), ())) as (cs' & Hc & E).
  - vm_compute. reflexivity.
  - unfold fits. apply Z.leb_le. vm_compute. reflexivity.
  - vm_compute. reflexivity.
  - reflexivity.
  - discriminate.
  - discriminate.
  - apply run_eval. vm_compute. reflexivity.
  - unfold run_process, demo_guest, mret, M_ret. do 3 f_equal.
  - unfold fits. apply Z.leb_le. vm_compute. reflexivity.
  - eexists cs', _. split_and!; [exact Hc|exact E| |reflexivity]. vm_compute. reflexivity.
Qed.
