(* ===== verification/AgentLife.v ===== *)
(** The life of the agent in the guest (internal/runtime/firecracker/agent:
    main.go, main_other.go): what it does as process 1, the loop that accepts
    connections, signals, and shutting the machine down.

    Connections are served one after another here; the agent serves each in a
    goroutine of its own. *)

From S2P Require Import Prelude Loops GoTime Json Fs Wasm Protocol Agent.
Import Agent.

#[local] Arguments String.append : simpl nomatch.

Module AgentLife.

(** ** Process 1

    [setupInitDuties] waits for any child in a loop ([Wait4(-1)]) while
    [cmd.Run] waits for its own; the kernel gives the status of a process to
    the one who asks first, and the other is told there is no such child. *)
Inductive waited := Waiting | Got (code : Z) | NoChild.
#[export] Instance waited_eq_dec : EqDecision waited.
Proof. solve_decision. Defined.
Record process := mkProcess {
  pr_status : option Z;      (** its exit status, once it has exited *)
  pr_taken : bool;           (** someone has waited for it *)
  pr_cmd : waited;           (** [cmd.Run] *)
}.
Definition spawned : process := mkProcess None false Waiting.
Inductive process_step (init : bool) : process → process → Prop :=
  | ProcExit p code : pr_status p = None → process_step init p (mkProcess (Some code) (pr_taken p) (pr_cmd p))
  | ProcRun p code :
      pr_status p = Some code → pr_taken p = false → pr_cmd p = Waiting →
      process_step init p (mkProcess (Some code) true (Got code))
  | ProcReaped p code :
      init = true → pr_status p = Some code → pr_taken p = false →
      process_step init p (mkProcess (Some code) true (pr_cmd p))
  | ProcLost p :
      pr_taken p = true → pr_cmd p = Waiting →
      process_step init p (mkProcess (pr_status p) true NoChild).

(** What [Run] returns. *)
Definition Run_result (w : waited) : option (option error) :=
  match w with
  | Waiting => None
  | Got 0 => Some None
  | Got n => Some (Some (ErrMsg ("exit status " +:+ itoa n)))
  | NoChild => Some (Some (ErrMsg "waitid: no child processes"))
  end.

(** ** Shutting down *)

Inductive syscall := Sync | Reboot_PowerOff | Exit (code : Z).
Definition shutdown (linux : bool) (code : Z) : list syscall :=
  (if linux then [Sync; Reboot_PowerOff] else []) ++ [Exit code].
Definition logf (msg : string) : string := "[fc-agent] " +:+ msg +:+ newline.
(** The agent of any other system: what it prints, and its exit status. *)
Definition main_other : string * Z :=
  ("fc-agent: this binary only runs on Linux (inside a Firecracker microVM)" +:+ newline, 1).

(** ** Accepting connections *)

(** What happens to the agent: a connection is made, accepting fails, or one
    of the signals of [signalContext] arrives. *)
Inductive signal := SIGTERM | SIGINT | SIGHUP.
#[export] Instance signal_eq_dec : EqDecision signal.
Proof. solve_decision. Defined.
Definition signalContext : list signal := [SIGTERM; SIGINT].
Inductive arrival := Accepted (c : conn) | AcceptFails | Signal (s : signal).

Section Accept.
Context {T : Type} `{Guest T}.

Definition serve (mf : manifest) (c : conn) : M (agent T) () :=
  modify (λ s, mkAgent (ag_fs s) (ag_sys s) (ag_child s) c) ;; handleConn mf.

(** [done]: the context is.  [false]: the agent still waits in [Accept]. *)
Fixpoint accept_loop (mf : manifest) (done : bool) (l : list arrival) : M (agent T) bool :=
  match l with
  | [] => mret false
  | Accepted c :: l => serve mf c ;; accept_loop mf done l
  | AcceptFails :: l => if done then mret true else accept_loop mf done l
  | Signal s :: l => accept_loop mf (done || bool_decide (s ∈ signalContext)) l
  end.

(** [main]; [listens]: whether the vsock port could be listened on.  The
    system calls are those of [shutdown]. *)
Definition main (listens : bool) (l : list arrival) : M (agent T) (list syscall) :=
  mf ← boot;
  if listens then _ ← accept_loop mf false l; mret [] else mret (shutdown true 1).
End Accept.

(** ** What it does *)

(** Without init duties a command always learns its own status. *)
Lemma unshared_wait p :
  rtc (process_step false) spawned p →
  match pr_cmd p with Waiting => pr_taken p = false | Got code => pr_status p = Some code | NoChild => False end.
Proof.
  apply (rtc_keeps _ (λ p, match pr_cmd p with Waiting => pr_taken p = false | Got code => pr_status p = Some code | NoChild => False end));
    [|done].
  intros q q' Hq Hstep. destruct Hstep as [q code E|q code E1 E2 E3|q code E|q E1 E2]; cbn in *; try done.
  - destruct (pr_cmd q); try done. congruence.
  - rewrite E2 in Hq. congruence.
Qed.

(** As process 1 the agent takes the status away from its own command: one
    that exited with status 0 can be reported as failed. *)
Lemma reaper_steals_the_status :
  ∃ p, rtc (process_step true) spawned p ∧ pr_status p = Some 0 ∧
       Run_result (pr_cmd p) = Some (Some (ErrMsg "waitid: no child processes")).
Proof.
  exists (mkProcess (Some 0) true NoChild). split_and!; try done.
  eapply rtc_l; [by apply ProcExit|]. eapply rtc_l; [by apply (ProcReaped true (mkProcess (Some 0) false Waiting) 0)|].
  eapply rtc_l; [by apply (ProcLost true (mkProcess (Some 0) true Waiting))|]. done.
Qed.

(** A signal is noticed only when accepting fails, and nothing closes the
    listener: however many signals come, the agent goes on accepting. *)
Lemma signals_do_not_end_the_agent `{Guest T} mf done l (s : agent T) b s' :
  Forall (λ a, a ≠ AcceptFails) l → accept_loop mf done l s = Ret b s' → b = false.
Proof.
  intros Hl. revert done s. induction Hl as [|a l Ha Hl IH]; intros done s; [by intros [= <- _]|].
  destruct a as [c| |sig]; cbn [accept_loop]; [|done|by apply IH].
  unfold mbind, M_bind. destruct (serve mf c s) as [[] s1|]; [by apply IH|done].
Qed.

(** Accepting that fails does not end it either before a signal. *)
Lemma accepting_goes_on `{Guest T} mf (l : list conn) (s : agent T) :
  accept_loop mf false (AcceptFails :: (Accepted <$> l)) s = (for_each (serve mf) l ;; mret false) s.
Proof.
  cbn [accept_loop]. revert s. induction l as [|c l IH]; intros s; [done|].
  cbn. unfold mbind, M_bind in *. destruct (serve mf c s) as [[] s1|]; [|done]. by rewrite IH.
Qed.
End AgentLife.
