(* ===== verification/Firecracker.v ===== *)
(** The microVM function runtime on the host (internal/runtime/firecracker):
    the stub, the catalogue of root filesystems, and the jailer that boots or
    restores a microVM for every call and talks to the agent inside it.

    The firecracker binary, the virtual machines and their sockets are the
    class [Vmm]; the byte stream to an agent is the class [Link]. *)

From Stdlib Require Import Ascii.
From S2P Require Import Prelude GoTime Json Types Text Duration Glob JsonText Path Wasm Fs Header Protocol.
Import Protocol.

#[local] Arguments String.append : simpl nomatch.

Module Firecracker.

(** ** Stub *)

Record FcStub := mkFcStub { fc_funcs : gmap string string }.
Definition fc_stub_body (f : Function) (req : InvokeRequest) (size : Z) : string :=
  let q s := String quote (s +:+ String quote "") in
  "{" +:+ q "function" +:+ ":" +:+ q (Meta_Name (Function_Meta f)) +:+ ","
      +:+ q "runtime" +:+ ":" +:+ q "firecracker-stub" +:+ "," +:+ q "method" +:+ ":" +:+ q (InvokeRequest_Method req) +:+ ","
      +:+ q "path" +:+ ":" +:+ q (InvokeRequest_Path req) +:+ "," +:+ q "size" +:+ ":" +:+ itoa size +:+ "}".
#[export] Instance fc_stub_runtime : FnRuntime FcStub := {
  fn_Deploy f code := λ s, Ret None (mkFcStub (<[fnKey f := code]> (fc_funcs s)));
  fn_Remove f := λ s, Ret None (mkFcStub (delete (fnKey f) (fc_funcs s)));
  fn_Invoke f req := λ s,
    Ret match fc_funcs s !! fnKey f with
        | None => Err ErrFunctionNotReady
        | Some code =>
          Ok (mkInvokeResponse 200 {["Content-Type" := ["application/json"]]}
                (fc_stub_body f req (Z.of_nat (String.length code))) "[stub] firecracker" 0)
        end s;
}.

(** ** Templates *)

Record Template := mkTemplate {
  Template_Name : string;
  Template_Description : string;
  Template_KernelPath : string;
  Template_RootFSPath : string;
  Template_BootArgs : string;
  Template_Bootstrap : string;
  Template_Available : bool;
}.
Definition Refresh (s : fs) (t : Template) : Template :=
  mkTemplate (Template_Name t) (Template_Description t) (Template_KernelPath t) (Template_RootFSPath t) (Template_BootArgs t)
    (Template_Bootstrap t) (exists_at (Template_KernelPath t) s && exists_at (Template_RootFSPath t) s).
Definition boot_args : string := "console=ttyS0 reboot=k panic=1 pci=off init=/sbin/init".
Definition template (baseDir name descr image : string) : Template :=
  mkTemplate name descr (baseDir +:+ "/kernel/vmlinux") (baseDir +:+ "/rootfs/" +:+ name +:+ ".ext4") boot_args
    ("make firecracker-templates  # builds " +:+ name +:+ " from " +:+ image) false.
Definition DefaultTemplates (s : fs) (baseDir : string) : list Template :=
  Refresh s <$> [template baseDir "node-22" "Node.js 22 on Alpine" "node:22-alpine";
                 template baseDir "python-3.12" "Python 3.12 on Alpine" "python:3.12-alpine";
                 template baseDir "go-1.23" "Go 1.23 statically linked on Alpine" "golang:1.23-alpine"].

(** ** Limits *)

Definition fnMemMB (f : Function) : Z := if 0 <? Function_MemoryMB f then Function_MemoryMB f else 128.
Definition fnTimeoutMS (f : Function) : Z := if 0 <? Function_TimeoutMS f then Function_TimeoutMS f else 5000.
Definition Millisecond : Z := 1000000.
Definition fnTimeout (f : Function) : Z := wrap64 (fnTimeoutMS f * Millisecond).

(** The later map wins. *)
Definition mergeEnv (a b : gmap string string) : gmap string string := b ∪ a.

(** ** One call over an agent's stream *)

Class Link (V : Type) := {
  (** [Write] on the connection *)
  link_write : string → M V (option error);
  (** what the agent sends until it closes the connection or time is up *)
  link_read : M V stream;
  (** [time.Now] *)
  link_now : V → Z;
}.

Section Exchange.
Context {V : Type} `{Link V}.

#[export] Instance link_writer : Writer V := link_write.

Definition to_agent (f : Function) (req : InvokeRequest) : Request :=
  mkRequest (InvokeRequest_Method req) (InvokeRequest_Path req) (InvokeRequest_Headers req) (Raw (InvokeRequest_Body req))
    (<["SELFCLOUD_TIMEOUT_MS" := itoa (fnTimeoutMS f)]> (mergeEnv (Function_Env f) (InvokeRequest_Env req)))
    (Raw <$> InvokeRequest_SecretFiles req) (default "" (Function_Env f !! "MODE")).

Definition from_agent (presp : Response) (elapsed : Z) : InvokeResponse :=
  let h := copy_header (Response_Headers presp) ∅ in
  let h := if bool_decide (Header_Get "content-type" h = "") then Header_Set "content-type" "application/octet-stream" h else h in
  mkInvokeResponse (if Response_Status presp =? 0 then 200 else Response_Status presp) h
    (raw_str (Response_Body presp)) (Response_Logs presp) elapsed.

(** [wrap] is what the caller puts in front of an error. *)
Definition exchange (wrap : string → error → error) (f : Function) (req : InvokeRequest) : M V (res InvokeResponse) :=
  start ← gets link_now;
  e ← WriteFrame (to_agent f req);
  match e with
  | Some e => mret (Err (wrap "write request" e))
  | None =>
    cs ← link_read;
    match ReadFrame (A:=Response) cs with
    | Ret (Ok presp) _ => finish ← gets link_now; mret (Ok (from_agent presp (finish - start)))
    | Ret (Err e) _ => mret (Err (wrap "read response" e))
    | Panic => panic
    end
  end.
End Exchange.

(** ** Files of a call *)

(** [copyAndPad]: the copy, filled with zero bytes to whole blocks. *)
Definition zeros (n : nat) : string := String.string_of_list_ascii (replicate n (ascii_of_N 0)).
Definition padded (block : Z) (data : string) : string :=
  let rem := Z.of_nat (String.length data) mod block in
  if rem =? 0 then data else data +:+ zeros (Z.to_nat (block - rem)).
Definition copyAndPad (src dst : string) (block : Z) : M fs (option error) :=
  r ← ReadFile src;
  match r with Err e => mret (Some e) | Ok data => WriteFile dst (padded block data) end.

Definition buildVMConfig (tpl : Template) (codeImg vsockUDS : string) (memMB vcpus : Z) : json :=
  let s x := JStr x in
  JObj [("boot-source", JObj [("boot_args", s (Template_BootArgs tpl)); ("kernel_image_path", s (Template_KernelPath tpl))]);
        ("drives", JArr [
           JObj [("drive_id", s "rootfs"); ("is_read_only", JBool true); ("is_root_device", JBool true); ("path_on_host", s (Template_RootFSPath tpl))];
           JObj [("drive_id", s "code"); ("is_read_only", JBool true); ("is_root_device", JBool false); ("path_on_host", s codeImg)]]);
        ("machine-config", JObj [("mem_size_mib", JNum memMB); ("vcpu_count", JNum vcpus)]);
        ("vsock", JObj [("guest_cid", JNum 3); ("uds_path", s vsockUDS); ("vsock_id", s "selfcloud-vsock")])].

(** [json.MarshalIndent(v, "", "  ")], at a depth. *)
Definition line (depth : nat) : string := String (ascii_of_N 10) (String.concat "" (replicate depth "  ")).
Fixpoint MarshalIndent (depth : nat) (j : json) : string :=
  match j with
  | JArr (x :: l) =>
    "[" +:+ line (S depth) +:+ MarshalIndent (S depth) x +:+
      (fix go (l : list json) : string :=
         match l with [] => "" | x :: l => "," +:+ line (S depth) +:+ MarshalIndent (S depth) x +:+ go l end) l +:+
      line depth +:+ "]"
  | JObj ((k, x) :: kvs) =>
    "{" +:+ line (S depth) +:+ quoted k +:+ ": " +:+ MarshalIndent (S depth) x +:+
      (fix go (kvs : list (string * json)) : string :=
         match kvs with [] => "" | (k, x) :: kvs => "," +:+ line (S depth) +:+ quoted k +:+ ": " +:+ MarshalIndent (S depth) x +:+ go kvs end) kvs +:+
      line depth +:+ "}"
  | _ => Marshal j
  end.

(** [strconv.FormatInt(n, 36)] for [n] from 0; thirteen digits hold 63 bits. *)
Definition digit36 (d : Z) : ascii := ascii_of_N (Z.to_N (if d <? 10 then 48 + d else 87 + d)).
Fixpoint format36_go (fuel : nat) (n : Z) (acc : string) : string :=
  match fuel with
  | O => acc
  | S fuel => let acc := String (digit36 (n mod 36)) acc in if n / 36 =? 0 then acc else format36_go fuel (n / 36) acc
  end.
Definition FormatInt36 (n : Z) : string := if n <? 0 then "-" +:+ format36_go 13 (- n) "" else format36_go 13 n "".

(** ** The host *)

Definition vm : Type := nat.
Definition connid : Type := nat.
Definition Host (V : Type) : Type := (fs * V)%type.

Class Vmm (V : Type) := {
  now : V → time;
  sleep : Z → M (Host V) ();
  (** the caller has gone *)
  cancelled : V → option error;
  firecracker_installed : V → bool;
  (** the process: its arguments and the time it is killed at *)
  vm_start : list string → time → M (Host V) (res vm);
  (** SIGTERM, then SIGKILL after two seconds, and [Wait] *)
  vm_stop : vm → M (Host V) ();
  (** a request to its API socket: socket, method, path, body; status code, status line, body *)
  vm_api : string → string → string → string → M (Host V) (res (Z * string * string));
  (** a unix socket: connect, write, one read of at most [n] bytes, deadline, all that comes, close *)
  sock_dial : string → M (Host V) (res connid);
  sock_write : connid → string → M (Host V) (option error);
  sock_read : connid → nat → M (Host V) string;
  sock_deadline : connid → option time → M (Host V) ();
  sock_rest : connid → M (Host V) stream;
  sock_close : connid → M (Host V) ();
}.

Record jailer := mkJailer { dataDir : string; templates : gmap string Template; snapshots : gmap string string }.

Section Jailer.
Context {V : Type} `{Vmm V}.

Record J := mkJ { j_jailer : jailer; j_host : Host V }.
Definition on_host {A} (m : M (Host V) A) : M J A := λ s,
  match m (j_host s) with Ret a h => Ret a (mkJ (j_jailer s) h) | Panic => Panic end.
Definition host_fs {A} (m : M fs A) : M (Host V) A := λ s,
  match m s.1 with Ret a f => Ret a (f, s.2) | Panic => Panic end.
Definition files {A} (m : M fs A) : M J A := on_host (host_fs m).

(** *** Waiting *)

(** A [context.WithTimeout]. *)
Definition ctx_err (deadline : time) (h : Host V) : option error :=
  match cancelled h.2 with
  | Some e => Some e
  | None => if After (now h.2) deadline || (ns deadline =? ns (now h.2)) then Some (ErrMsg "context deadline exceeded") else None
  end.

(** Both loops give up at a time; [fuel] bounds the turns. *)
Fixpoint waitForFile_loop (fuel : nat) (cctx : time) (path : string) (deadline : time) : M (Host V) (option (option error)) :=
  match fuel with
  | O => mret None
  | S fuel => λ h,
    if exists_at path h.1 then Ret (Some None) h
    else if After (now h.2) deadline then Ret (Some (Some (ErrMsg ("timeout waiting for " +:+ path)))) h
    else
      match ctx_err cctx h with
      | Some e => Ret (Some (Some e)) h
      | None => (sleep (50 * Millisecond) ;; waitForFile_loop fuel cctx path deadline) h
      end
  end.

(** Firecracker answers [OK] to [CONNECT <port>]. *)
Definition handshake (c : connid) : M (Host V) bool :=
  e ← sock_write c ("CONNECT " +:+ itoa VsockPort +:+ String (ascii_of_N 10) "");
  match e with
  | Some _ => mret false
  | None =>
    t ← gets (λ h, now h.2);
    sock_deadline c (Some (Add t (2 * Second))) ;;
    r ← sock_read c 32;
    if has_prefix r "OK" then sock_deadline c None ;; mret true else mret false
  end.

Fixpoint dialAgent_loop (fuel : nat) (cctx : time) (path : string) (deadline : time) : M (Host V) (option (res connid)) :=
  match fuel with
  | O => mret None
  | S fuel => λ h,
    if After (now h.2) deadline then Ret (Some (Err (ErrMsg ("timeout waiting for " +:+ path)))) h
    else
      match ctx_err cctx h with
      | Some e => Ret (Some (Err e)) h
      | None =>
        (r ← sock_dial path;
         let again := sleep (100 * Millisecond) ;; dialAgent_loop fuel cctx path deadline in
         match r with
         | Err _ => again
         | Ok c => ok ← handshake c; if ok : bool then mret (Some (Ok c)) else sock_close c ;; again
         end) h
      end
  end.

(** Turns enough for a wait of [max], and one to spare (proved below). *)
Definition turns (max step : Z) : nat := Z.to_nat (max / step + 2).
Definition waitForFile (cctx : time) (path : string) (max : Z) : M (Host V) (option error) :=
  t ← gets (λ h, now h.2);
  r ← waitForFile_loop (turns max (50 * Millisecond)) cctx path (Add t max);
  match r with Some e => mret e | None => panic end.
Definition dialAgent (cctx : time) (path : string) (max : Z) : M (Host V) (res connid) :=
  t ← gets (λ h, now h.2);
  r ← dialAgent_loop (turns max (100 * Millisecond)) cctx path (Add t max);
  match r with Some r => mret r | None => panic end.

(** *** Functions *)

Definition fnDir (f : Function) (s : J) : string :=
  Join [dataDir (j_jailer s); "fns"; Meta_Project (Function_Meta f); Meta_Name (Function_Meta f)].

Definition Deploy (f : Function) (code : string) : M J (option error) :=
  dir ← gets (fnDir f);
  files (MkdirAll dir) ;? files (WriteFile (Join [dir; "code.tar"]) code).

Definition set_snapshots (g : gmap string string → gmap string string) : M J () := modify (λ s,
  mkJ (mkJailer (dataDir (j_jailer s)) (templates (j_jailer s)) (g (snapshots (j_jailer s)))) (j_host s)).
Definition Remove (f : Function) : M J (option error) :=
  set_snapshots (delete (fnKey f)) ;;
  dir ← gets (fnDir f);
  files (RemoveAll dir).

Definition lookupSnapshot (f : Function) : M J (option string) := gets (λ s, snapshots (j_jailer s) !! fnKey f).

(** *** Snapshots *)

Definition fcAPI (sock method path : string) (body : json) : M J (option error) :=
  r ← on_host (vm_api sock method path (Marshal body));
  mret match r with
       | Err e => Some e
       | Ok (code, status, text) =>
         if 300 <=? code then Some (ErrMsg ("firecracker " +:+ method +:+ " " +:+ path +:+ ": " +:+ status +:+ ": " +:+ text)) else None
       end.
(** [fmt.Errorf(ctx + ": %w", err)] around a call. *)
Definition wrapped {S} (ctx : string) (m : M S (option error)) : M S (option error) := e ← m; mret (ErrWrap ctx <$> e).

Record snapMeta := mkSnapMeta { meta_Chroot : string }.
#[export] Instance snapmeta_json : Json snapMeta := struct_json mkSnapMeta (fld "chroot" meta_Chroot; Fnil).

Definition snapshot (f : Function) (apiSock chroot : string) : M J (option error) :=
  data ← gets (λ s, dataDir (j_jailer s));
  let snapDir := Join [data; "snapshots"; fnKey f] in
  files (MkdirAll snapDir) ;?
  wrapped "pause vm" (fcAPI apiSock "PATCH" "/vm" (JObj [("state", JStr "Paused")])) ;?
  wrapped "create snapshot" (fcAPI apiSock "PUT" "/snapshot/create"
    (JObj [("mem_file_path", enc (Join [snapDir; "mem.bin"])); ("snapshot_path", enc (Join [snapDir; "state.bin"]));
           ("snapshot_type", JStr "Full")])) ;?
  files (WriteFile (Join [snapDir; "meta.json"]) (Marshal (enc (mkSnapMeta chroot)))) ;?
  (set_snapshots (insert (fnKey f) snapDir) ;; mret None).

(** *** Calls *)

Definition conn_link (c : connid) : Link (Host V) :=
  {| link_write := sock_write c; link_read := sock_rest c; link_now h := ns (now h.2) |}.

(** The call over a connection to the agent, closed at the end. *)
Definition call (c : connid) (wrap : string → error → error) (f : Function) (req : InvokeRequest) : M J (res InvokeResponse) :=
  t ← gets (λ s, now (j_host s).2);
  on_host (sock_deadline c (Some (Add t (fnTimeout f)))) ;;
  on_host (exchange (H:=conn_link c) wrap f req).

Definition agent_path (vsockUDS : string) : string := vsockUDS +:+ "_" +:+ itoa VsockPort.
Definition call_deadline (f : Function) : M J time := gets (λ s, Add (now (j_host s).2) (wrap64 (fnTimeout f + 10 * Second))).

Definition restored (f : Function) (snapDir chroot apiSock : string) (cctx : time) (req : InvokeRequest) : M J (res InvokeResponse) :=
  wrapped "api socket never appeared" (on_host (waitForFile cctx apiSock (3 * Second))) ;!
  wrapped "load snapshot" (fcAPI apiSock "PUT" "/snapshot/load"
    (JObj [("enable_diff_snapshots", JBool false); ("mem_file_path", enc (Join [snapDir; "mem.bin"]));
           ("resume_vm", JBool true); ("snapshot_path", enc (Join [snapDir; "state.bin"]))])) ;!
  (r ← on_host (dialAgent cctx (agent_path (Join [chroot; "v.sock"])) (5 * Second));
   match r with
   | Err e => mret (Err (ErrWrap "connect to restored agent" e))
   | Ok c => r ← call c (λ _ e, e) f req; on_host (sock_close c) ;; mret r
   end).

Definition restore (f : Function) (snapDir : string) (req : InvokeRequest) : M J (res InvokeResponse) :=
  r ← files (ReadFile (Join [snapDir; "meta.json"]));
  match r with
  | Err e => mret (Err (ErrWrap "read snapshot meta" e))
  | Ok text =>
    match Unmarshal text with
    | None => mret (Err (ErrMsg "invalid JSON"))
    | Some meta =>
      let chroot := meta_Chroot meta in
      if bool_decide (chroot = "") then mret (Err (ErrMsg "snapshot meta missing chroot"))
      else
        st ← files (Stat chroot);
        match st with
        | Err e => mret (Err (ErrWrap "snapshot chroot missing" e))
        | Ok _ =>
          let apiSock := Join [chroot; "fc-restore.sock"] in
          files (Fs.Remove apiSock) ;;
          cctx ← call_deadline f;
          r ← on_host (vm_start ["firecracker"; "--api-sock"; apiSock] cctx);
          match r with
          | Err e => mret (Err (ErrWrap "start firecracker" e))
          | Ok v => r ← restored f snapDir chroot apiSock cctx req; on_host (vm_stop v) ;; mret r
          end
        end
    end
  end.

Definition stage_code (f : Function) (codeImg : string) : M J (option error) :=
  dir ← gets (fnDir f);
  let codePath := Join [dir; "code.tar"] in
  there ← gets (λ s, exists_at codePath (j_host s).1);
  if there : bool then wrapped "stage code drive" (files (copyAndPad codePath codeImg 512))
  else files (WriteFile codeImg (zeros 4096)).

(** The answer, and whether the directory must be kept for the snapshot. *)
Definition answered (f : Function) (apiSock chroot : string) (c : connid) (req : InvokeRequest) : M J (res InvokeResponse * bool) :=
  r ← call c ErrWrap f req;
  match r with
  | Err e => mret (Err e, false)
  | Ok resp =>
    has ← lookupSnapshot f;
    match has with
    | Some _ => mret (Ok resp, false)
    | None => e ← snapshot f apiSock chroot; mret (Ok resp, bool_decide (e = None))
    end
  end.

Definition booted (f : Function) (tpl : Template) (chroot : string) (req : InvokeRequest) : M J (res InvokeResponse * bool) :=
  let codeImg := Join [chroot; "code.img"] in
  let apiSock := Join [chroot; "fc.sock"] in
  let vsockUDS := Join [chroot; "v.sock"] in
  let configPath := Join [chroot; "vm.json"] in
  e ← (stage_code f codeImg ;?
       files (WriteFile configPath (MarshalIndent 0 (buildVMConfig tpl codeImg vsockUDS (fnMemMB f) 1))));
  match e with
  | Some e => mret (Err e, false)
  | None =>
    cctx ← call_deadline f;
    r ← on_host (vm_start ["firecracker"; "--api-sock"; apiSock; "--config-file"; configPath] cctx);
    match r with
    | Err e => mret (Err (ErrWrap "start firecracker" e), false)
    | Ok v =>
      r ← on_host (dialAgent cctx (agent_path vsockUDS) (8 * Second));
      r ← match r with
          | Err e => mret (Err (ErrWrap "connect to agent" e), false)
          | Ok c => r ← answered f apiSock chroot c req; on_host (sock_close c) ;; mret r
          end;
      on_host (vm_stop v) ;; mret r
    end
  end.

Definition cold (f : Function) (tpl : Template) (req : InvokeRequest) : M J (res InvokeResponse) :=
  t ← gets (λ s, now (j_host s).2);
  data ← gets (λ s, dataDir (j_jailer s));
  let chroot := Join [data; "jail"; Meta_UID (Function_Meta f) +:+ "-" +:+ FormatInt36 (UnixNano t)] in
  files (MkdirAll chroot) ;!
  ('(r, keepChroot) ← booted f tpl chroot req;
   (if keepChroot : bool then mret () else files (RemoveAll chroot) ;; mret ()) ;;
   mret r).

(** A failed restore, whatever it did, falls through to a cold boot. *)
Definition warm (f : Function) (req : InvokeRequest) : M J (option InvokeResponse) :=
  snap ← lookupSnapshot f;
  match snap with
  | None => mret None
  | Some dir => r ← restore f dir req; mret (res_option r)
  end.

Definition missing (what path : string) : error :=
  ErrMsg (what +:+ " not found at " +:+ path +:+ " (run `make firecracker-templates`)").
Definition Invoke (f : Function) (req : InvokeRequest) : M J (res InvokeResponse) :=
  let tplName := if bool_decide (Function_Handler f = "") then "node-22" else Function_Handler f in
  tpl ← gets (λ s, templates (j_jailer s) !! tplName);
  match tpl with
  | None => mret (Err (ErrMsg ("unknown rootfs template " +:+ quoted tplName)))
  | Some tpl =>
    kernel ← gets (λ s, exists_at (Template_KernelPath tpl) (j_host s).1);
    rootfs ← gets (λ s, exists_at (Template_RootFSPath tpl) (j_host s).1);
    if negb kernel then mret (Err (missing "kernel" (Template_KernelPath tpl)))
    else if negb rootfs then mret (Err (missing "rootfs" (Template_RootFSPath tpl)))
    else
      r ← warm f req;
      match r with Some resp => mret (Ok resp) | None => cold f tpl req end
  end.

#[export] Instance jailer_runtime : FnRuntime J := { fn_Deploy := Deploy; fn_Remove := Remove; fn_Invoke := Invoke }.
Definition Templates (s : J) : list Template := (map_to_list (templates (j_jailer s))).*2.

(** *** Start *)

(** The snapshots a restarted server finds: every directory under
    [snapshots] that has a [state.bin]. *)
Definition rediscover (data : string) (s : fs) : gmap string string :=
  match eval (ReadDir (Join [data; "snapshots"])) s with
  | Some (Ok entries) =>
    list_to_map (omap (λ e : string * bool,
      let dir := Join [data; "snapshots"; e.1] in
      if e.2 && exists_at (Join [dir; "state.bin"]) s then Some (e.1, dir) else None) entries)
  | _ => ∅
  end.
Definition jailer_dirs (data : string) : list string :=
  [Join [data; "jail"]; Join [data; "snapshots"]; Join [data; "templates"; "kernel"]; Join [data; "templates"; "rootfs"]].
Definition ErrUnsupported : error := ErrMsg "firecracker not available on this host".
Definition NewJailer (data : string) : M (Host V) (res jailer) := λ h,
  if negb (firecracker_installed h.2) then Ret (Err ErrUnsupported) h
  else
    (host_fs (foldr (λ dir k, MkdirAll dir ;? k) (mret None) (jailer_dirs data)) ;!
     s ← gets fst;
     let tmpls := list_to_map ((λ t, (Template_Name t, t)) <$> DefaultTemplates s (Join [data; "templates"])) in
     mret (Ok (mkJailer data tmpls (rediscover data s)))) h.
End Jailer.
Arguments J V : clear implicits.

Definition newJailer {V} `{Vmm V} (linux : bool) (data : string) : M (Host V) (res jailer) :=
  if linux then NewJailer data else mret (Err ErrUnsupported).
(** [New]: the jailer where it can run, else the stub. *)
Definition NewStub : FcStub := mkFcStub ∅.
Definition New {V} `{Vmm V} (linux : bool) (data : string) : M (Host V) (FcStub + jailer) := λ h,
  if negb (firecracker_installed h.2) then Ret (inl NewStub) h
  else (r ← newJailer linux data; mret (match r with Ok j => inr j | Err _ => inl NewStub end)) h.

(** ** Log lines *)

(** [prefixWriter.Write]: what stays in the buffer, and the lines logged. *)
Fixpoint flush_lines (fuel : nat) (prefix buf : string) : string * list string :=
  match fuel with
  | O => (buf, [])
  | S fuel =>
    match index_byte buf (ascii_of_N 10) with
    | None => (buf, [])
    | Some i =>
      let '(rest, lines) := flush_lines fuel prefix (drop_str (S i) buf) in (rest, (prefix +:+ take_str i buf) :: lines)
    end
  end.
Definition prefix_write (prefix : string) (buf b : string) : string * list string :=
  flush_lines (S (String.length (buf +:+ b))) prefix (buf +:+ b).

End Firecracker.
