(* ===== verification/FirecrackerProps.v ===== *)
(** The microVM runtime's promises: its waits end, a call reaches the
    process inside and brings its answer back, code drives are whole blocks,
    log lines are complete; and what its snapshots do to a new deployment. *)

From Stdlib Require Import Ascii.
From S2P Require Import Prelude GoTime Json Types Text Duration Glob JsonText Path Wasm Fs FsLaws Header Protocol Agent AgentProps Firecracker.
Import Protocol.
Import Agent.
Import Firecracker.

#[local] Arguments String.append : simpl nomatch.

(** ** Waiting ends *)

(** What the host relies on of its clock and its sockets: a call returns, the
    clock does not go back, and a sleep lasts as long as asked. *)
Definition steady {V} `{Vmm V} {A} (m : M (Host V) A) : Prop :=
  ∀ h, ∃ a h', m h = Ret a h' ∧ ns (now h.2) ≤ ns (now h'.2).
Class ClockLaws (V : Type) `{Vmm V} : Prop := {
  sleep_lasts d h : ∃ u h', sleep (V:=V) d h = Ret u h' ∧ ns (now h.2) + d ≤ ns (now h'.2);
  dial_steady path : steady (sock_dial (V:=V) path);
  write_steady c s : steady (sock_write (V:=V) c s);
  read_steady c n : steady (sock_read (V:=V) c n);
  deadline_steady c t : steady (sock_deadline (V:=V) c t);
  close_steady c : steady (sock_close (V:=V) c);
}.

Section Waits.
Context {V : Type} `{ClockLaws V}.

Lemma steady_ret {A} (a : A) : steady (V:=V) (mret a).
Proof. intros h. eexists _, h. split; [reflexivity|lia]. Qed.
Lemma steady_bind {A B} (m : M (Host V) A) (k : A → M (Host V) B) :
  steady m → (∀ a, steady (k a)) → steady (m ≫= k).
Proof.
  intros Hm Hk h. destruct (Hm h) as (a & h1 & E1 & L1). destruct (Hk a h1) as (b & h2 & E2 & L2).
  exists b, h2. rewrite (bind_ret_run _ _ _ _ _ E1). split; [done|lia].
Qed.
Lemma steady_gets {A} (g : Host V → A) : steady (gets g).
Proof. intros h. eexists _, h. split; [reflexivity|lia]. Qed.

Lemma handshake_steady c : steady (handshake (V:=V) c).
Proof.
  unfold handshake. apply steady_bind; [apply write_steady|]. intros [e|]; [apply steady_ret|].
  apply steady_bind; [apply steady_gets|]. intros t. apply steady_bind; [apply deadline_steady|]. intros _.
  apply steady_bind; [apply read_steady|]. intros r. destruct (has_prefix r "OK"); [|apply steady_ret].
  apply steady_bind; [apply deadline_steady|]. intros _. apply steady_ret.
Qed.

(** Each turn that goes on takes [step] off what is left. *)
Lemma dialAgent_loop_ends fuel cctx path deadline h :
  ns deadline - ns (now h.2) < (Z.of_nat fuel - 1) * (100 * Millisecond) → (0 < fuel)%nat →
  ∃ r h', dialAgent_loop fuel cctx path deadline h = Ret (Some r) h'.
Proof.
  revert h. induction fuel as [|fuel IH]; intros h Hf; [lia|]. intros _. cbn [dialAgent_loop].
  destruct (After (now h.2) deadline) eqn:Ea; [by eexists _, _|].
  destruct (ctx_err cctx h) as [e|]; [by eexists _, _|].
  assert (Hnot : ns (now h.2) ≤ ns deadline) by (unfold After in Ea; apply Z.ltb_ge in Ea; lia).
  assert (Hagain : ∀ h1, ns (now h.2) ≤ ns (now h1.2) →
            ∃ r h', (sleep (100 * Millisecond) ;; dialAgent_loop fuel cctx path deadline) h1 = Ret (Some r) h').
  { intros h1 L1. destruct (sleep_lasts (100 * Millisecond) h1) as (u & h2 & E2 & L2). rewrite (bind_ret_run _ _ _ _ _ E2).
    unfold Millisecond in *. apply IH; lia. }
  destruct (dial_steady path h) as (r & h1 & E1 & L1). rewrite (bind_ret_run _ _ _ _ _ E1). cbv zeta.
  destruct r as [c|e]; [|by apply Hagain].
  destruct (handshake_steady c h1) as (ok & h2 & E2 & L2). rewrite (bind_ret_run _ _ _ _ _ E2).
  destruct ok; [by eexists _, _|].
  destruct (close_steady c h2) as (u & h3 & E3 & L3). rewrite (bind_ret_run _ _ _ _ _ E3). apply Hagain. lia.
Qed.

Lemma waitForFile_loop_ends fuel cctx path deadline h :
  ns deadline - ns (now h.2) < (Z.of_nat fuel - 1) * (50 * Millisecond) → (0 < fuel)%nat →
  ∃ r h', waitForFile_loop fuel cctx path deadline h = Ret (Some r) h'.
Proof.
  revert h. induction fuel as [|fuel IH]; intros h Hf; [lia|]. intros _. cbn [waitForFile_loop].
  destruct (exists_at path h.1); [by eexists _, _|].
  destruct (After (now h.2) deadline) eqn:Ea; [by eexists _, _|].
  destruct (ctx_err cctx h) as [e|]; [by eexists _, _|].
  assert (Hnot : ns (now h.2) ≤ ns deadline) by (unfold After in Ea; apply Z.ltb_ge in Ea; lia).
  destruct (sleep_lasts (50 * Millisecond) h) as (u & h2 & E2 & L2). rewrite (bind_ret_run _ _ _ _ _ E2).
  unfold Millisecond in *. apply IH; lia.
Qed.

Lemma turns_enough max step : 0 ≤ max → 0 < step → max < (Z.of_nat (turns max step) - 1) * step ∧ (0 < turns max step)%nat.
Proof.
  intros Hm Hs. unfold turns. pose proof (Z.div_pos max step Hm Hs). pose proof (Z.mul_succ_div_gt max step Hs).
  rewrite Z2Nat.id by lia. split; [lia|]. lia.
Qed.

(** Waiting for a virtual machine ends: whatever the sockets do, whether
    the file appears or not, whether the agent answers, both loops return a
    result; [max / step + 2] turns are always enough. *)
Theorem waits_end (cctx : time) (path : string) (max : Z) (h : Host V) :
  0 ≤ max →
  (∃ r h', dialAgent cctx path max h = Ret r h') ∧ (∃ r h', waitForFile cctx path max h = Ret r h').
Proof.
  intros Hm. split.
  - destruct (turns_enough max (100 * Millisecond) Hm ltac:(done)) as [H1 H2].
    destruct (dialAgent_loop_ends (turns max (100 * Millisecond)) cctx path (Add (now h.2) max) h) as (r & h' & E);
      [cbn [Add ns]; lia|done|].
    exists r, h'. unfold dialAgent, gets, mbind, M_bind. by rewrite E.
  - destruct (turns_enough max (50 * Millisecond) Hm ltac:(done)) as [H1 H2].
    destruct (waitForFile_loop_ends (turns max (50 * Millisecond)) cctx path (Add (now h.2) max) h) as (r & h' & E);
      [cbn [Add ns]; lia|done|].
    exists r, h'. unfold waitForFile, gets, mbind, M_bind. by rewrite E.
Qed.
End Waits.

(** ** Code drives *)

Lemma length_zeros n : String.length (zeros n) = n.
Proof. unfold zeros. rewrite length_string_of_list. apply length_replicate. Qed.

(** A code drive is the archive followed by fewer than a block of zero
    bytes, and its size is a whole number of blocks. *)
Theorem padded_is_whole_blocks (block : Z) (data : string) :
  0 < block →
  Z.of_nat (String.length (padded block data)) mod block = 0 ∧
  ∃ n, padded block data = data +:+ zeros n ∧ Z.of_nat n < block.
Proof.
  intros Hb. unfold padded. cbv zeta. set (n := Z.of_nat (String.length data)).
  pose proof (Z.mod_pos_bound n block Hb). destruct (Z.eqb_spec (n mod block) 0) as [E|E].
  - split; [done|]. exists O. cbn. rewrite str_app_nil. split; [done|lia].
  - split; [|exists (Z.to_nat (block - n mod block)); split; [done|lia]].
    rewrite length_app_str, length_zeros, Nat2Z.inj_add, Z2Nat.id by lia. fold n.
    replace (n + (block - n mod block)) with ((n / block + 1) * block); [by apply Z_mod_mult|].
    pose proof (Z.div_mod n block). lia.
Qed.
Theorem padded_is_whole_blocks_witness : Z.of_nat (String.length (padded 512 "abc")) mod 512 = 0.
Proof. destruct (padded_is_whole_blocks 512 "abc") as [E _]; [reflexivity|exact E]. Defined.

(** ** Log lines *)

Definition nl : ascii := ascii_of_N 10.
Definition unlines (ls : list string) : string := foldr (λ l t, l +:+ String nl t) "" ls.
Lemma unlines_app l1 l2 : unlines (l1 ++ l2) = unlines l1 +:+ unlines l2.
Proof.
  induction l1 as [|l l1 IH]; [done|]. cbn [app].
  change (l +:+ String nl (unlines (l1 ++ l2)) = (l +:+ String nl (unlines l1)) +:+ unlines l2).
  by rewrite IH, str_app_assoc.
Qed.

Lemma flush_lines_spec fuel prefix buf :
  (String.length buf < fuel)%nat →
  ∃ raws, (flush_lines fuel prefix buf).2 = (String.append prefix) <$> raws ∧
    buf = unlines raws +:+ (flush_lines fuel prefix buf).1 ∧
    no_byte nl (flush_lines fuel prefix buf).1 = true ∧ Forall (λ l, no_byte nl l = true) raws.
Proof.
  revert buf. induction fuel as [|fuel IH]; intros buf Hf; [lia|]. cbn [flush_lines].
  destruct (index_byte buf (ascii_of_N 10)) as [i|] eqn:E.
  - destruct (index_byte_split _ _ _ E) as [H1 H2]. specialize (IH (drop_str (S i) buf)).
    assert (Hl : (String.length (drop_str (S i) buf) < fuel)%nat).
    { apply (f_equal String.length) in H1. rewrite length_app_str in H1. cbn [String.length] in H1. lia. }
    destruct (IH Hl) as (raws & R1 & R2 & R3 & R4). destruct (flush_lines fuel prefix (drop_str (S i) buf)) as [rest ls].
    cbn [fst snd] in *. exists (take_str i buf :: raws). split_and!; [by rewrite R1| |done|by constructor].
    change (buf = (take_str i buf +:+ String nl (unlines raws)) +:+ rest). rewrite str_app_assoc.
    change (String nl (unlines raws) +:+ rest) with (String nl (unlines raws +:+ rest)). by rewrite <-R2.
  - exists []. split_and!; [done|done| |done]. unfold no_byte. unfold nl. cbn [fst]. by rewrite E.
Qed.

(** Every [Write], in order: what is left in the buffer and all lines logged. *)
Definition write_all (prefix : string) (bs : list string) : string * list string :=
  foldl (λ st b, let '(buf, ls) := prefix_write prefix st.1 b in (buf, st.2 ++ ls)) ("", []) bs.

(** The console of a virtual machine is logged completely and in order, one
    log entry for each line however the bytes are cut into writes: the lines
    logged and the unfinished one add up to all that was written. *)
Theorem console_is_logged_by_lines (prefix : string) (bs : list string) :
  ∃ raws, (write_all prefix bs).2 = (String.append prefix) <$> raws ∧
    contents bs = unlines raws +:+ (write_all prefix bs).1 ∧
    no_byte nl (write_all prefix bs).1 = true ∧ Forall (λ l, no_byte nl l = true) raws.
Proof.
  induction bs as [|b bs IH] using rev_ind; [by exists []|].
  unfold write_all in *. rewrite foldl_app. cbn [foldl]. destruct (foldl _ _ bs) as [buf ls]. cbn [fst snd] in *.
  destruct IH as (raws & -> & Hc & _ & Hr). unfold prefix_write.
  destruct (flush_lines_spec (S (String.length (buf +:+ b))) prefix (buf +:+ b)) as (raws' & R1 & R2 & R3 & R4); [lia|].
  destruct (flush_lines _ _ _) as [buf' ls']. cbn [fst snd] in *. exists (raws ++ raws').
  rewrite R1, fmap_app, unlines_app, str_app_assoc, <-R2. split_and!; [done| |done|by apply Forall_app].
  by rewrite contents_snoc, Hc, str_app_assoc.
Qed.

(** ** A call, from the host to the process and back *)

(** A connection whose other end is the agent: it answers once the host has
    written its request and reads. *)
Record wire (T : Type) := mkWire { w_agent : agent T; w_manifest : manifest; w_clock : Z }.
Arguments mkWire {T} _ _ _.
Arguments w_agent {T} _.
Arguments w_manifest {T} _.
Arguments w_clock {T} _.

Section Call.
Context {T : Type} `{Guest T}.

Definition feed (data : string) (a : agent T) : agent T :=
  mkAgent (ag_fs a) (ag_sys a) (ag_child a) (mkConn (conn_in (ag_conn a) ++ [data]) (conn_out (ag_conn a)) (conn_gone (ag_conn a))).
#[export] Instance wire_link : Link (wire T) := {
  link_write data := λ w, Ret None (mkWire (feed data (w_agent w)) (w_manifest w) (w_clock w));
  link_read := λ w,
    match handleConn (w_manifest w) (w_agent w) with
    | Ret _ a => Ret [conn_out (ag_conn a)] (mkWire a (w_manifest w) (w_clock w))
    | Panic => Panic
    end;
  link_now := w_clock;
}.

Lemma WriteFrame_feeds (v : Request) (w : wire T) :
  fits v → ∃ a, WriteFrame v w = Ret None (mkWire a (w_manifest w) (w_clock w)) ∧
    contents (conn_in (ag_conn a)) = contents (conn_in (ag_conn (w_agent w))) +:+ frame v ∧
    ag_fs a = ag_fs (w_agent w) ∧ ag_sys a = ag_sys (w_agent w) ∧
    conn_out (ag_conn a) = conn_out (ag_conn (w_agent w)) ∧ conn_gone (ag_conn a) = conn_gone (ag_conn (w_agent w)).
Proof.
  intros Hf. unfold WriteFrame. rewrite (proj2 (Z.ltb_ge _ _) Hf). eexists. split; [reflexivity|]. cbn.
  split_and!; [|done..]. unfold frame.
  by rewrite !contents_snoc, str_app_assoc.
Qed.

(** C13 A call of a function, composed from the host's side and the agent's:
    over a fresh connection the process runs once, is given the request's
    method, path, header, body and environment (the function's own variables
    under the caller's, and the time limit), and what it answers, status,
    header, body and logs, is what the host returns. *)
Theorem call_reaches_the_process wrap (f : Function) (req : InvokeRequest) (w : wire T)
    (staged : option error) (s : fs) (out err : string) (e : option error) (after : fs * T) :
  let preq := mkRequest (InvokeRequest_Method req) (InvokeRequest_Path req) (InvokeRequest_Headers req) (Raw (InvokeRequest_Body req))
    (<["SELFCLOUD_TIMEOUT_MS" := itoa (fnTimeoutMS f)]> (InvokeRequest_Env req ∪ Function_Env f))
    (Raw <$> InvokeRequest_SecretFiles req) (default "" (Function_Env f !! "MODE")) in
  let mf := w_manifest w in
  let answer := stdio_response out err e in
  json_ok preq → fits preq → ag_conn (w_agent w) = mkConn [] "" false →
  orDefault (Request_Mode preq) (manifest_Mode mf) ≠ "http" → manifest_Entrypoint mf ≠ [] →
  stageSecretFiles preq (ag_fs (w_agent w)) = Ret staged s →
  run_process (manifest_Entrypoint mf) (orDefault (manifest_WorkDir mf) "/srv") (child_env preq mf (Environ (ag_sys (w_agent w))))
    (encodeStdinEnvelope preq) (deadlineFromEnv preq) (s, ag_sys (w_agent w)) = Ret (out, err, e) after →
  fits answer → json_ok answer →
  ∃ w' r, exchange wrap f req w = Ret (Ok r) w' ∧ (ag_fs (w_agent w'), ag_sys (w_agent w')) = after ∧
    InvokeResponse_Status r = Response_Status answer ∧ InvokeResponse_Body r = raw_str (Response_Body answer) ∧
    InvokeResponse_Logs r = Response_Logs answer ∧
    InvokeResponse_Headers r =
      (let h := copy_header (Response_Headers answer) ∅ in
       if bool_decide (Header_Get "content-type" h = "") then Header_Set "content-type" "application/octet-stream" h else h).
Proof.
  intros preq mf answer. change preq with (to_agent f req). clear preq. set (preq := to_agent f req). intros Hok Hf Hc Hm He Hs Hp Hfa Hoka.
  destruct (WriteFrame_feeds preq w Hf) as (a & Ew & Hin & Hfs & Hsys & Hout & Hgone).
  rewrite Hc in Hin, Hout, Hgone. cbn [conn_in conn_out conn_gone contents foldr] in Hin, Hout, Hgone.
  change (contents (conn_in (ag_conn a)) = frame preq) in Hin. rewrite <-Hfs in Hs. rewrite <-Hsys in Hp.
  rewrite <-(str_app_nil (frame preq)) in Hin.
  destruct (handleConn_stdio preq mf a "" staged s out err e after) as (cs' & _ & Eh); [done..|].
  rewrite Hout in Eh. fold answer in Eh. cbn [String.append] in Eh.
  assert (El : link_read (mkWire a mf (w_clock w)) =
    Ret [frame answer] (mkWire (mkAgent after.1 after.2 (ag_child a) (mkConn cs' (frame answer) false)) mf (w_clock w))).
  { unfold link_read, wire_link. cbn [w_agent w_manifest w_clock]. rewrite Eh. by cbn [ag_conn conn_out]. }
  destruct (ReadFrame_receives answer [frame answer] "" Hoka Hfa eq_refl) as (cs & Er & _).
  unfold exchange. rewrite (bind_ret_run _ _ w (w_clock w) w) by reflexivity.
  rewrite (bind_ret_run _ _ _ _ _ Ew). cbv beta iota. rewrite (bind_ret_run _ _ _ _ _ El). rewrite Er. cbv beta iota.
  eexists _, _. split; [etransitivity; [apply bind_ret_run; reflexivity|reflexivity]|]. split; [by destruct after|].
  assert (Hz : Response_Status answer ≠ 0) by apply stdio_status_not_zero.
  unfold from_agent. cbn. split_and!; [|done..]. by destruct (Z.eqb_spec (Response_Status answer) 0).
Qed.
End Call.

(** ** Snapshots *)

(** Names have no slash in them. *)
Definition names_ok (s : fs) : Prop := ∀ a x n, nodes s !! a = Some n → x ∈ a → no_slash x.

Lemma fnKey_has_slash f : ¬ no_slash (fnKey f).
Proof.
  unfold no_slash, no_byte, fnKey. induction (Meta_Project (Function_Meta f)) as [|a p IH]; [done|].
  cbn. destruct (a =? slash)%char; [done|]. by destruct (index_byte (p +:+ _) slash).
Qed.

(** A restarted server has no snapshot for any function: snapshots are saved
    two levels deep, under the project and the name, and looked for one level
    deep, by names no function has.  Every function boots cold once more. *)
Theorem restart_forgets_snapshots {V} `{Vmm V} (data : string) (h h' : Host V) (j : jailer) (f : Function) :
  NewJailer data h = Ret (Ok j) h' → names_ok h'.1 → snapshots j !! fnKey f = None.
Proof.
  unfold NewJailer. destruct (negb _); [done|]. unfold guard_err. cbv zeta. unfold mbind, M_bind.
  destruct (host_fs _ h) as [[e|] h1|]; [done| |done]. unfold gets, mret, M_ret. intros [= <- <-] Hok. cbn [snapshots].
  unfold rediscover. destruct (eval _ _) as [[entries|]|] eqn:Er; [|done..].
  apply not_elem_of_list_to_map_1. intros Hin. apply list_elem_of_fmap in Hin as ([k dir] & Ek & Hin). cbn in Ek. subst k.
  apply list_elem_of_omap in Hin as ([x b] & Hx & E). cbn [fst snd] in E. destruct (b && _); [|done]. injection E as -> _.
  apply (fnKey_has_slash f). revert Er. unfold ReadDir, gets, eval. intros [= Er].
  destruct (resolve _ _ _) as [a|]; [|done]. cbn [mbind res_bind] in Er.
  destruct (at_addr (nodes h1.1) a) as [[]|]; try done. injection Er as <-.
  apply list_elem_of_fmap in Hx as (y & [= <- _] & Hy). rewrite merge_sort_Permutation in Hy.
  unfold children in Hy. apply list_elem_of_omap in Hy as ([[|z d'] n] & Hn & E); [done|]. cbn in E.
  case_bool_decide; [|done]. injection E as ->. apply elem_of_map_to_list in Hn.
  eapply Hok; [exact Hn|by left].
Qed.

(** ** Witnesses *)

(** A host on which a virtual machine answers with its code drive, a snapshot
    holds the drive, and every wait is over at once. *)
Record demoVm := mkDemoVm { demo_clock : Z; demo_running : option string }.
Definition json_field (k : string) (body : string) : string :=
  match Unmarshal_value body with Some (JObj kvs) => match assoc k kvs with Some (JStr s) => s | _ => "" end | _ => "" end.
#[local] Instance demo_vmm : Vmm demoVm := {
  now v := Time (demo_clock v);
  sleep d := λ h, Ret () (h.1, mkDemoVm (demo_clock h.2 + Z.max 0 d) (demo_running h.2));
  cancelled _ := None;
  firecracker_installed _ := true;
  vm_start args _ := λ h,
    match args with
    | [_; _; sock] => Ret (Ok 1%nat) (match WriteFile sock "" h.1 with Ret _ s => s | Panic => h.1 end, mkDemoVm (demo_clock h.2) None)
    | [_; _; _; _; cfg] =>
      Ret (Ok 1%nat) (h.1, mkDemoVm (demo_clock h.2)
        match eval (ReadFile (Join [filepath_Dir cfg; "code.img"])) h.1 with Some (Ok c) => Some (take_str 2 c) | _ => None end)
    | _ => Ret (Err (ErrMsg "bad arguments")) h
    end;
  vm_stop _ := λ h, Ret () (h.1, mkDemoVm (demo_clock h.2) None);
  vm_api _ _ path body := λ h,
    let p := json_field "snapshot_path" body in
    if bool_decide (path = "/snapshot/create") then
      Ret (Ok (204, "204 No Content", "")) (match WriteFile p (default "" (demo_running h.2)) h.1 with Ret _ s => s | Panic => h.1 end, h.2)
    else if bool_decide (path = "/snapshot/load") then
      Ret (Ok (204, "204 No Content", "")) (h.1, mkDemoVm (demo_clock h.2)
        match eval (ReadFile p) h.1 with Some (Ok c) => Some c | _ => None end)
    else Ret (Ok (204, "204 No Content", "")) h;
  sock_dial _ := λ h, Ret (match demo_running h.2 with Some _ => Ok 0%nat | None => Err (ErrMsg "connection refused") end) h;
  sock_write _ _ := mret None;
  sock_read _ _ := mret "OK 1073741824";
  sock_deadline _ _ := mret ();
  sock_rest _ := λ h, Ret [frame (mkResponse 200 ∅ (Raw (default "" (demo_running h.2))) "" "")] h;
  sock_close _ := mret ();
}.
#[local] Instance demo_clock_laws : ClockLaws demoVm.
Proof.
  split; try (intros; intros h; eexists _, _; split; [reflexivity|lia]).
  intros d h. eexists _, _. split; [reflexivity|]. cbn [now demo_vmm ns demo_clock snd]. lia.
Qed.

Definition demo_files : fs :=
  default empty_fs (exec (MkdirAll "/data/templates/kernel" ;; MkdirAll "/data/templates/rootfs" ;;
    WriteFile "/data/templates/kernel/vmlinux" "k" ;; WriteFile "/data/templates/rootfs/node-22.ext4" "r") empty_fs).
Definition demo_host : Host demoVm := (demo_files, mkDemoVm 1000000000 None).
Definition demo_fn : Function := mkFunction
  (mkMeta "p" "hi" "uid-1" 1 zero_time zero_time ∅) FunctionRuntimeFirecracker "" "" zero [] ∅ [] 0 0 "" zero.
Definition demo_req : InvokeRequest := mkInvokeRequest "GET" "/" ∅ "" ∅ ∅.

Theorem waits_end_witness :
  (∃ r h', dialAgent (Time 0) "/x" (8 * Second) demo_host = Ret r h') ∧
  (∃ r h', waitForFile (Time 0) "/x" (8 * Second) demo_host = Ret r h').
Proof. apply (waits_end (V:=demoVm)). discriminate. Defined.

Definition body_of (r : res InvokeResponse) : option string := InvokeResponse_Body <$> res_option r.
Definition with_jailer {A} (m : M (J demoVm) A) : option A :=
  match NewJailer "/data" demo_host with Ret (Ok j) h => eval m (mkJ j h) | _ => None end.

(** A new deployment of a function that has been called once is not served:
    deploying writes the new archive, and every later call restores the
    snapshot of the machine that booted the old one. *)
Theorem redeployed_function_serves_old_code :
  with_jailer (Firecracker.Deploy demo_fn "v1" ;; r1 ← Firecracker.Invoke demo_fn demo_req;
               e ← Firecracker.Deploy demo_fn "v2"; r2 ← Firecracker.Invoke demo_fn demo_req;
               mret (body_of r1, e, body_of r2)) = Some (Some "v1", None, Some "v1").
Proof. vm_compute. reflexivity. Qed.

Definition demo_jailer : jailer := mkJailer "/data" ∅ ∅.
Definition named (name : string) : Function := mkFunction
  (mkMeta "p" name "uid-2" 1 zero_time zero_time ∅) FunctionRuntimeFirecracker "" "" zero [] ∅ [] 0 0 "" zero.

(** Names are not checked where they become paths: removing a function
    named [..] removes the code of every function of every project. *)
Theorem remove_follows_dotdot :
  with_jailer (Firecracker.Deploy demo_fn "v1" ;; Firecracker.Remove (named "..") ;;
               gets (λ s, exists_at "/data/fns/p/hi/code.tar" (j_host s).1)) = Some false ∧
  with_jailer (Firecracker.Deploy demo_fn "v1" ;; Firecracker.Remove (named "other") ;;
               gets (λ s, exists_at "/data/fns/p/hi/code.tar" (j_host s).1)) = Some true.
Proof. vm_compute. done. Qed.

Definition slash_free (s : fs) : bool :=
  forallb (λ kv : list string * node, forallb (no_byte slash) kv.1) (map_to_list (nodes s)).
Lemma names_ok_check s : slash_free s = true → names_ok s.
Proof.
  unfold slash_free.
  rewrite forallb_forall. intros Hf a x n Ha Hx. apply elem_of_map_to_list in Ha.
  specialize (Hf _ (proj1 (list_elem_of_In _ _) Ha)). cbn in Hf. rewrite forallb_forall in Hf.
  by apply Hf, list_elem_of_In.
Qed.
Theorem restart_forgets_snapshots_witness :
  ∃ j h', NewJailer "/data" demo_host = Ret (Ok j) h' ∧ snapshots j !! "p/hi" = None.
Proof.
  destruct (NewJailer "/data" demo_host) as [[j|e] h'|] eqn:E.
  - exists j, h'. split; [reflexivity|]. apply (restart_forgets_snapshots (V:=demoVm) "/data" demo_host h' j demo_fn E).
    assert (Ex : exec (NewJailer "/data") demo_host = Some h') by (unfold exec; by rewrite E).
    assert (Hc : slash_free <$> (fst <$> exec (NewJailer "/data") demo_host) = Some true) by (vm_compute; reflexivity).
    rewrite Ex in Hc. apply names_ok_check. by injection Hc.
  - exfalso. apply (f_equal (λ o, match o with Ret (Err _) _ => true | _ => false end)) in E. vm_compute in E. discriminate E.
  - exfalso. apply (f_equal (λ o, match o with Panic => true | _ => false end)) in E. vm_compute in E. discriminate E.
Defined.

#[local] Existing Instance demo_guest.
Definition call_fn : Function := mkFunction
  (mkMeta "p" "hi" "uid-1" 1 zero_time zero_time ∅) FunctionRuntimeFirecracker "" "" zero [] {["K" := "function"]} [] 0 250 "" zero.
Definition call_req : InvokeRequest := mkInvokeRequest "POST" "/x" ∅ "hi" ∅ {["/etc/app/db" := "pw"]}.
Definition call_wire : wire () := mkWire (mkAgent empty_fs () None (mkConn [] "" false)) demo_manifest 5.
Definition call_staged : fs := default empty_fs (exec (stageSecretFiles (to_agent call_fn call_req)) empty_fs).
Theorem call_reaches_the_process_witness :
  ∃ w' r, exchange ErrWrap call_fn call_req call_wire = Ret (Ok r) w' ∧
    InvokeResponse_Status r = 201 ∧ InvokeResponse_Body r = "function" ∧ InvokeResponse_Logs r = "log".
Proof.
  destruct (call_reaches_the_process ErrWrap call_fn call_req call_wire None call_staged
    ("{" +:+ quoted "status" +:+ ":201," +:+ quoted "body" +:+ ":" +:+ quoted "function" +:+ "}") "log" None
    (call_staged, ())) as (w' & r & E & _ & Hst & Hb & Hl & _).
  - vm_compute. reflexivity.
  - unfold fits. apply Z.leb_le. vm_compute. reflexivity.
  - reflexivity.
  - discriminate.
  - discriminate.
  - apply run_eval. vm_compute. reflexivity.
  - unfold run_process, demo_guest, mret, M_ret. do 3 f_equal.
  - unfold fits. apply Z.leb_le. vm_compute. reflexivity.
  - vm_compute. reflexivity.
  - exists w', r. split; [exact E|]. clear E. rewrite Hst, Hb, Hl. split; [|split]; vm_compute; reflexivity.
Defined.
