(* ===== verification/Wazero.v ===== *)
(** The wasm runtime (internal/runtime/wasm/wazero.go): compiled modules and
    their limits, the envelope a guest reads and the one it answers with, and
    one invocation from staged secrets to response.

    The wazero engine is third-party: the class [Engine].  A file staged for a
    guest is a file of Fs. *)

From Stdlib Require Import Ascii.
From S2P Require Import Prelude GoTime Json Types Text Duration Glob JsonText Path Wasm Fs Header Protocol.

#[local] Arguments String.append : simpl nomatch.

Module Wazero.

(** ** Envelopes *)

Record wasmRequest := mkWasmRequest {
  wreq_Method : string;
  wreq_Path : string;
  wreq_Headers : gmap string (list string);
  wreq_Body : string;
  wreq_Env : gmap string string;
}.
#[export] Instance wasmrequest_json : Json wasmRequest := struct_json mkWasmRequest (
  fld "method" wreq_Method;
  fld "path" wreq_Path;
  fld "headers" wreq_Headers;
  fld "body" wreq_Body;
  fld "env" wreq_Env;
  Fnil).
#[export] Instance wasmrequest_laws : JsonLaws wasmRequest.
Proof. struct_laws. Qed.

Record wasmResponse := mkWasmResponse {
  wresp_Status : Z;
  wresp_Headers : gmap string (list string);
  wresp_Body : string;
}.
#[export] Instance wasmresponse_json : Json wasmResponse := struct_json mkWasmResponse (
  fld "status" wresp_Status;
  fld "headers" wresp_Headers;
  fld "body" wresp_Body;
  Fnil).
#[export] Instance wasmresponse_laws : JsonLaws wasmResponse.
Proof. struct_laws. Qed.

Definition text_plain : Header := Header_Set "content-type" "text/plain; charset=utf-8" ∅.

(** [decodeResponse]; the position of a base64 error is not kept. *)
Definition decodeResponse (stdout stderr : string) (elapsed : Z) : res InvokeResponse :=
  let stdout := trim_space stdout in
  if bool_decide (stdout = "") then Ok (mkInvokeResponse 204 ∅ "" stderr elapsed)
  else
    match Unmarshal (A:=wasmResponse) stdout with
    | None => Ok (mkInvokeResponse 200 text_plain stdout stderr elapsed)
    | Some env =>
      match base64_decode (wresp_Body env) with
      | None => Err (ErrWrap "wasm response body not valid base64" (ErrMsg "illegal base64 data"))
      | Some body =>
        let h := copy_header (wresp_Headers env) ∅ in
        let h := if bool_decide (Header_Get "content-length" h = "") then Header_Set "content-length" (itoa (Z.of_nat (String.length body))) h else h in
        Ok (mkInvokeResponse (if wresp_Status env =? 0 then 200 else wresp_Status env) h body stderr elapsed)
      end
    end.

Definition errResponse (stderr : string) (err : error) (elapsed : Z) : InvokeResponse :=
  mkInvokeResponse 500 (Header_Set "content-type" "application/json" ∅)
    (Marshal (JObj [("error", enc (error_text err))])) stderr elapsed.

(** ** The engine *)

Record ModuleConfig := mkModuleConfig {
  cfg_Stdin : string;
  cfg_Env : gmap string string;
  cfg_Secrets : option string;   (** the host directory mounted at [/secrets] *)
}.
Inductive call_error := ExitError (code : Z) | DeadlineExceeded | OtherError (msg : string).

Class Engine (W Mod Inst : Type) := {
  CompileModule : string → M (fs * W) (res Mod);
  CloseModule : Mod → M (fs * W) (option error);
  (** with the time limit of the call *)
  InstantiateModule : Mod → ModuleConfig → Z → M (fs * W) (res Inst);
  MemorySize : Inst → option Z;
  Exported : Inst → string → bool;
  Call : Inst → string → M (fs * W) (option call_error);
  (** what it has written to its standard output and error *)
  Outputs : Inst → M (fs * W) (string * string);
  CloseInstance : Inst → M (fs * W) ();
  CloseRuntime : M (fs * W) (option error);
  MkdirTemp : M (fs * W) (res string);
  clock : W → Z;
}.

Record compiledFn (Mod : Type) := mkCompiledFn { cf_mod : Mod; cf_memMB : Z; cf_deadline : Z }.
Arguments mkCompiledFn {Mod} _ _ _.
Arguments cf_mod {Mod} _.
Arguments cf_memMB {Mod} _.
Arguments cf_deadline {Mod} _.

(** Arithmetic on [uint32]. *)
Definition u32 (z : Z) : Z := z mod 2 ^ 32.

(** The bytes an instance may have: [maxPages*65536], both of 32 bits. *)
Definition memory_cap (memMB : Z) : Z := u32 (u32 (memMB * 16) * 65536).

Definition Millisecond : Z := 1000000.
Definition compiled {Mod} (f : Function) (m : Mod) : compiledFn Mod :=
  let deadline := wrap64 (Function_TimeoutMS f * Millisecond) in
  mkCompiledFn m (if Function_MemoryMB f <=? 0 then 128 else Function_MemoryMB f)
    (if deadline <=? 0 then 5 * Second else deadline).
Definition wasm_magic : string := String (ascii_of_N 0) "asm".
Definition is_wasm (code : string) : bool := (8 <=? String.length code)%nat && has_prefix code wasm_magic.

Section Wazero.
Context {W Mod Inst : Type} `{Engine W Mod Inst}.

Record wazero := mkWazero { wz_funcs : gmap string (compiledFn Mod); wz_host : fs * W }.
(** [NewWazero]: the engine is set up and no function is there. *)
Definition NewWazero (host : fs * W) : wazero := mkWazero ∅ host.
Definition on_host {A} (m : M (fs * W) A) : M wazero A := λ s,
  match m (wz_host s) with Ret a h => Ret a (mkWazero (wz_funcs s) h) | Panic => Panic end.
Definition on_files {A} (m : M fs A) : M wazero A := on_host (λ h, match m h.1 with Ret a f => Ret a (f, h.2) | Panic => Panic end).
Definition set_funcs (g : gmap string (compiledFn Mod) → gmap string (compiledFn Mod)) : M wazero () :=
  modify (λ s, mkWazero (g (wz_funcs s)) (wz_host s)).

Definition Deploy (f : Function) (code : string) : M wazero (option error) :=
  if negb (is_wasm code) then mret (Some (ErrMsg "not a wasm module (bad magic header)"))
  else
    r ← on_host (CompileModule code);
    match r with
    | Err e => mret (Some (ErrWrap "wasm compile" e))
    | Ok m =>
      old ← gets (λ s, wz_funcs s !! fnKey f);
      match old with Some c => on_host (CloseModule (cf_mod c)) ;; mret () | None => mret () end ;;
      set_funcs (insert (fnKey f) (compiled f m)) ;; mret None
    end.

Definition Remove (f : Function) : M wazero (option error) :=
  c ← gets (λ s, wz_funcs s !! fnKey f);
  set_funcs (delete (fnKey f)) ;;
  match c with Some c => on_host (CloseModule (cf_mod c)) | None => mret None end.

Definition Close : M wazero (option error) :=
  fs ← gets wz_funcs;
  for_each (λ c, on_host (CloseModule (cf_mod c)) ;; mret ()) (map_to_list fs).*2 ;;
  set_funcs (λ _, ∅) ;; on_host CloseRuntime.

(** *** Invocation *)

Definition stdin_of (req : InvokeRequest) : string :=
  Marshal (enc (mkWasmRequest (InvokeRequest_Method req) (InvokeRequest_Path req) (InvokeRequest_Headers req)
                  (base64 (InvokeRequest_Body req)) (InvokeRequest_Env req))).
(** The guest's variables: the request's, under the runtime's own. *)
Definition guest_env (f : Function) (req : InvokeRequest) : gmap string string :=
  <["SELFCLOUD_REQUEST_PATH" := InvokeRequest_Path req]> (<["SELFCLOUD_REQUEST_METHOD" := InvokeRequest_Method req]>
  (<["SELFCLOUD_PROJECT" := Meta_Project (Function_Meta f)]> (<["SELFCLOUD_FN" := Meta_Name (Function_Meta f)]> (InvokeRequest_Env req)))).

(** The name a secret has in [/secrets]. *)
Definition secret_name (guestPath : string) : string :=
  let name := Base guestPath in
  if bool_decide (name = "") || bool_decide (name = ".") || bool_decide (name = "/") then "secret" else name.
(** The staging directory, when there are secrets and it could be made. *)
Definition stage_secrets (req : InvokeRequest) : M wazero (option string) :=
  match sorted_entries (InvokeRequest_SecretFiles req) with
  | [] => mret None
  | files =>
    r ← on_host MkdirTemp;
    match r with
    | Err _ => mret None
    | Ok tmp =>
      for_each (λ kv, on_files (WriteFile (Join [tmp; secret_name kv.1]) kv.2) ;; mret ()) files ;; mret (Some tmp)
    end
  end.

(** A WASI command, or a reactor with its [handle]. *)
Definition start (i : Inst) : M wazero (option call_error) :=
  if Exported i "_start" then on_host (Call i "_start")
  else if Exported i "_initialize" then
    e ← on_host (Call i "_initialize");
    match e with
    | None => if Exported i "handle" then on_host (Call i "handle") else mret None
    | Some e => mret (Some e)
    end
  else mret (Some (OtherError "wasm module does not export _start or _initialize")).

Definition exit_text (code : Z) : error := ErrMsg ("wasm exited with code " +:+ itoa code).
(** The response, whatever the guest did. *)
Definition answer (limit : string) (e : option call_error) (stdout stderr : string) (elapsed : Z) : InvokeResponse :=
  match e with
  | Some DeadlineExceeded => errResponse stderr (ErrMsg ("wasm timed out after " +:+ limit)) elapsed
  | Some (OtherError msg) => errResponse stderr (ErrMsg msg) elapsed
  | Some (ExitError code) =>
    if code =? 0 then match decodeResponse stdout stderr elapsed with Ok r => r | Err e => errResponse stderr e elapsed end
    else errResponse stderr (exit_text code) elapsed
  | None => match decodeResponse stdout stderr elapsed with Ok r => r | Err e => errResponse stderr e elapsed end
  end.

Definition exceeds_cap (c : compiledFn Mod) (i : Inst) : option Z :=
  match MemorySize i with
  | Some cur => if (0 <? cf_memMB c) && (memory_cap (cf_memMB c) <? cur) then Some cur else None
  | None => None
  end.

Definition run (c : compiledFn Mod) (cfg : ModuleConfig) : M wazero (res InvokeResponse) :=
  t0 ← gets (λ s, clock (wz_host s).2);
  r ← on_host (InstantiateModule (cf_mod c) cfg (cf_deadline c));
  match r with
  | Err e => mret (Err (ErrWrap "wasm instantiate" e))
  | Ok i =>
    r ← match exceeds_cap c i with
        | Some cur =>
          mret (Err (ErrMsg ("wasm: instance memory " +:+ itoa cur +:+ "B exceeds cap " +:+ itoa (cf_memMB c) +:+ "MB")))
        | None =>
          e ← start i;
          t1 ← gets (λ s, clock (wz_host s).2);
          '(stdout, stderr) ← on_host (Outputs i);
          mret (Ok (answer (duration_text (cf_deadline c)) e stdout stderr (t1 - t0)))
        end;
    on_host (CloseInstance i) ;; mret r
  end.

Definition Invoke (f : Function) (req : InvokeRequest) : M wazero (res InvokeResponse) :=
  c ← gets (λ s, wz_funcs s !! fnKey f);
  match c with
  | None => mret (Err ErrFunctionNotReady)
  | Some c =>
    tmp ← stage_secrets req;
    r ← run c (mkModuleConfig (stdin_of req) (guest_env f req) tmp);
    match tmp with Some d => on_files (RemoveAll d) ;; mret () | None => mret () end ;;
    mret r
  end.

#[export] Instance wazero_runtime : FnRuntime wazero := { fn_Deploy := Deploy; fn_Remove := Remove; fn_Invoke := Invoke }.
End Wazero.
End Wazero.
