(* ===== verification/WazeroProps.v ===== *)
(** The wasm runtime's promises: limits that are limits, the guest's answer
    returned byte for byte, and where the memory cap wraps around. *)

From Stdlib Require Import Ascii.
From S2P Require Import Prelude GoTime Json Types Text Duration Glob JsonText Path Wasm Fs Header Protocol Wazero.
Import Protocol Wazero.

#[local] Arguments String.append : simpl nomatch.
#[local] Arguments base64 : simpl never.
#[local] Arguments base64_decode : simpl never.

(** ** Trimming *)

Lemma rev_str_go_app s acc : rev_str_go s acc = rev_str s +:+ acc.
Proof.
  unfold rev_str. revert acc. induction s as [|a s IH]; intros acc; [done|]. cbn [rev_str_go].
  rewrite IH, (IH (String a "")). by rewrite str_app_assoc.
Qed.
Lemma rev_str_cons a s : rev_str (String a s) = rev_str s +:+ String a "".
Proof. unfold rev_str at 1. cbn [rev_str_go]. apply rev_str_go_app. Qed.
Lemma rev_str_snoc s a : rev_str (s +:+ String a "") = String a (rev_str s).
Proof. induction s as [|b s IH]; [done|]. cbn [String.append]. rewrite !rev_str_cons, IH. done. Qed.
Lemma rev_str_rev s : rev_str (rev_str s) = s.
Proof. induction s as [|a s IH]; [done|]. by rewrite rev_str_cons, rev_str_snoc, IH. Qed.

(** Text between two bytes that are not white space. *)
Lemma trim_space_between a s c :
  is_space a = false → is_space c = false → trim_space (String a (s +:+ String c "")) = String a (s +:+ String c "").
Proof.
  intros Ha Hc. unfold trim_space. cbn [trim_left_space]. rewrite Ha.
  change (String a (s +:+ String c "")) with (String a s +:+ String c "").
  rewrite rev_str_snoc. cbn [trim_left_space]. rewrite Hc, <-rev_str_snoc. apply rev_str_rev.
Qed.

(** ** Limits *)

Definition limited {Mod} (c : compiledFn Mod) : Prop := 0 < cf_memMB c ∧ 0 < cf_deadline c ∧ int64_ok (cf_deadline c) = true.

Lemma compiled_limited {Mod} f (m : Mod) : limited (compiled f m).
Proof.
  unfold compiled. split_and!; cbn [cf_memMB cf_deadline].
  - by destruct (Z.leb_spec (Function_MemoryMB f) 0).
  - by destruct (Z.leb_spec (wrap64 (Function_TimeoutMS f * Millisecond)) 0).
  - destruct (_ <=? _); [done|apply wrap64_ok].
Qed.

Section Limits.
Context {W Mod Inst : Type} `{Engine W Mod Inst}.
Abbreviation Wz := (wazero (W:=W) (Mod:=Mod)).

Inductive wz_op := WDeploy (f : Function) (code : string) | WRemove (f : Function) | WInvoke (f : Function) (req : InvokeRequest) | WClose.
Definition wz_step (o : wz_op) (s : Wz) : option Wz :=
  match o with
  | WDeploy f code => exec (Deploy f code) s
  | WRemove f => exec (Remove f) s
  | WInvoke f req => exec (Invoke f req) s
  | WClose => exec Close s
  end.
Definition wz_run (os : list wz_op) (s : Wz) : option Wz := foldl (λ r o, r ≫= wz_step o) (Some s) os.

Abbreviation keeps_funcs := (frames (λ s : Wz, wz_funcs s)).
Lemma table_host {A} (m : M (fs * W) A) : keeps_funcs (on_host m).
Proof. intros s a s'. unfold on_host. destruct (m (wz_host s)); [|done]. by intros [= _ <-]. Qed.
Lemma table_files {A} (m : M fs A) : keeps_funcs (on_files m).
Proof. apply table_host. Qed.
Ltac keeps := frames_with ltac:(first [apply table_host | apply table_files]).

Lemma Invoke_keeps_table f req : keeps_funcs (Invoke f req).
Proof. unfold Invoke, stage_secrets, run, start. keeps. Qed.

Lemma step_limited o s s' :
  wz_step o s = Some s' → map_Forall (λ _ c, limited c) (wz_funcs s) → map_Forall (λ _ c, limited c) (wz_funcs s').
Proof.
  destruct o as [f code|f|f req|]; cbn [wz_step]; unfold exec; intros E Hs.
  - unfold Deploy in E. destruct (negb (is_wasm code)); [by injection E as <-|]. unfold mbind, M_bind in E.
    destruct (on_host (CompileModule code) s) as [[m|e] s1|] eqn:E1; [|by injection E as <-; rewrite (table_host _ _ _ _ E1)|done].
    unfold gets, set_funcs, modify in E. apply table_host in E1.
    destruct (wz_funcs s1 !! fnKey f) as [c0|].
    + unfold mret, M_ret in E. destruct (on_host (CloseModule (cf_mod c0)) s1) as [u s2|] eqn:E2; [|done].
      apply table_host in E2. injection E as <-. cbn. apply map_Forall_insert_2; [apply compiled_limited|]. by rewrite E2, E1.
    + injection E as <-. cbn. apply map_Forall_insert_2; [apply compiled_limited|]. by rewrite E1.
  - unfold Remove, mbind, M_bind, gets, set_funcs, modify in E.
    destruct (wz_funcs s !! fnKey f) as [c|].
    + destruct (on_host _ _) as [u s1|] eqn:E1; [|done]. injection E as <-. rewrite (table_host _ _ _ _ E1). cbn.
      by apply map_Forall_delete.
    + injection E as <-. cbn. by apply map_Forall_delete.
  - destruct (Invoke f req s) as [r s1|] eqn:E1; [|done]. injection E as <-. by rewrite (Invoke_keeps_table _ _ _ _ _ E1).
  - destruct (Close s) as [u s1|] eqn:E1; [|done]. injection E as <-. revert E1. unfold Close, mbind, M_bind, gets.
    destruct (for_each _ _ s); [|done]. unfold set_funcs, modify. intros E1%table_host. rewrite E1. cbn. by apply map_Forall_empty.
Qed.

End Limits.

(** The cap on an instance's memory is computed in 32 bits: the megabytes
    asked for as long as they are fewer than 4096; at 4096 it is zero, so an
    instance with any memory is refused, and above it starts again from zero. *)
Theorem memory_cap_wraps (memMB : Z) :
  memory_cap memMB = (memMB * 2 ^ 20) mod 2 ^ 32 ∧
  (0 ≤ memMB < 4096 → memory_cap memMB = memMB * 2 ^ 20) ∧ memory_cap 4096 = 0 ∧ memory_cap (4096 + memMB) = memory_cap memMB.
Proof.
  assert (Hc : ∀ n, memory_cap n = (n * 2 ^ 20) mod 2 ^ 32).
  { intros n. unfold memory_cap, u32. rewrite Zmult_mod_idemp_l. f_equal. lia. }
  split_and!; [apply Hc| |done|].
  - intros Hn. rewrite Hc. apply Z.mod_small. lia.
  - rewrite !Hc. replace ((4096 + memMB) * 2 ^ 20) with (memMB * 2 ^ 20 + 1 * 2 ^ 32) by lia. apply Z_mod_plus_full.
Qed.

(** ** Answers *)

#[export] Instance wasmresponse_text : JsonText wasmResponse.
Proof. struct_text. Qed.

(** What a guest answers is what the caller gets: a status, a header in
    canonical form and a body of any bytes, encoded on standard output as the
    guests do, come back as they were, with [Content-Length] added when it is
    missing; a zero status reads as 200. *)
Theorem guest_answer_is_returned (status : Z) (h : Header) (body stderr : string) (elapsed : Z) :
  json_ok (mkWasmResponse status h (base64 body)) → canonical h →
  decodeResponse (Marshal (enc (mkWasmResponse status h (base64 body)))) stderr elapsed =
    Ok (mkInvokeResponse (if status =? 0 then 200 else status)
          (if bool_decide (Header_Get "content-length" h = "") then Header_Set "content-length" (itoa (Z.of_nat (String.length body))) h else h)
          body stderr elapsed).
Proof.
  intros Hok Hc. unfold decodeResponse. set (r := mkWasmResponse status h (base64 body)) in *.
  assert (Ht : trim_space (Marshal (enc r)) = Marshal (enc r)).
  { unfold enc, wasmresponse_json, struct_json. rewrite Marshal_obj.
    change ("{" +:+ ?x +:+ "}") with (String "{" (x +:+ String "}" "")). by apply trim_space_between. }
  rewrite Ht, bool_decide_eq_false_2 by apply Marshal_not_empty.
  unfold Unmarshal. rewrite Unmarshal_Marshal by by apply enc_text. cbn [mbind option_bind].
  rewrite dec_enc by done. cbn [wresp_Body wresp_Headers wresp_Status r].
  by rewrite base64_decode_encode, copy_header_canonical.
Qed.

(** ** An engine for the examples: a guest that answers with a fixed text *)

Section Demo.
Context (stdout : string) (size : Z).
Definition demo_engine : Engine Z string unit := {|
  CompileModule code := λ h, Ret (Ok code) h;
  CloseModule _ := λ h, Ret None h;
  InstantiateModule _ _ _ := λ h, Ret (Ok ()) h;
  MemorySize _ := Some size;
  Exported _ name := bool_decide (name = "_start");
  Call _ _ := λ h, Ret None h;
  Outputs _ := λ h, Ret (stdout, "") h;
  CloseInstance _ := λ h, Ret () h;
  CloseRuntime := λ h, Ret None h;
  MkdirTemp := λ h, Ret (Err (ErrMsg "no space left on device")) h;
  clock w := w;
|}.
End Demo.
Definition demo_code : string := wasm_magic +:+ "0000".

(** A negative amount of memory, and a time limit that overflows. *)
Definition greedy : Function := { (zero (A:=Function)) with
  Function_Meta := { (zero (A:=Meta)) with Meta_Project := "p"; Meta_Name := "f" };
  Function_MemoryMB := (-1); Function_TimeoutMS := 2 ^ 44 }.
Definition greedy_run : option (wazero (Mod:=string)) :=
  @wz_run _ _ _ (demo_engine "hello" 65536) [WDeploy greedy demo_code; WInvoke greedy (mkInvokeRequest "GET" "/" ∅ "" ∅ ∅)] (mkWazero ∅ (empty_fs, 0)).


Lemma memory_cap_wraps_witness : memory_cap 64 = 64 * 2 ^ 20 ∧ memory_cap 4160 = memory_cap 64.
Proof. destruct (memory_cap_wraps 64) as (_ & H & _ & Hw). split; [apply H; lia|exact Hw]. Defined.

Definition demo_header : Header := Header_Set "content-type" "text/html" ∅.
Lemma guest_answer_is_returned_witness :
  decodeResponse (Marshal (enc (mkWasmResponse 0 demo_header (base64 "<p>")))) "" 7 =
    Ok (mkInvokeResponse 200 (Header_Set "content-length" "3" demo_header) "<p>" "" 7).
Proof.
  rewrite (guest_answer_is_returned 0 demo_header "<p>" "" 7); [reflexivity|reflexivity|].
  refine (bool_decide_eq_true_1 (canonical demo_header) _). vm_compute. reflexivity.
Defined.
