(* ===== verification/Builder.v ===== *)
(** Builds of git-backed functions (internal/runtime/functions/builder): the
    log of a running build and its subscribers, the choice of a recipe, the
    clone, the sandbox, and the life of one build from its record to the
    deployment; and the slots that keep two builds of a function apart.

    The git library, the commands run and the temporary directories are the
    class [BuildEnv]; files are those of Fs, resources those of the store. *)

From Stdlib Require Import Ascii.
From S2P Require Import Prelude GoTime Json Types Bolt Store StoreOps Text Duration Glob Path Wasm Secrets Fs.

#[local] Arguments String.append : simpl nomatch.

Module Builder.

(** ** Log streams (queue.go) *)

Definition logBufferLines : nat := 256.

(** A channel of capacity 256 and whether it was closed. *)
Record chan := mkChan { ch_items : list string; ch_closed : bool }.
Definition chan_cap : nat := 256.

Record logStream := mkLogStream {
  ls_file : option addr;      (** the open file *)
  ls_subs : gmap nat chan;
  ls_nextID : nat;
  ls_closed : bool;
  ls_buffer : list string;    (** the last writes, for late subscribers *)
}.

Definition send_or_drop (text : string) (c : chan) : chan :=
  if (length (ch_items c) <? chan_cap)%nat then mkChan (ch_items c ++ [text]) (ch_closed c) else c.
Definition keep_last (l : list string) : list string := drop (length l - logBufferLines) l.

(** [File.WriteString] at the end of the open file. *)
Definition append_file (f : option addr) (text : string) (s : fs) : fs :=
  match f with
  | None => s
  | Some a => set_node a (Reg (match nodes s !! a with Some (Reg t) => t | _ => "" end +:+ text)) s
  end.

Definition appendLines (text : string) (s : logStream) : logStream :=
  if ls_closed s then s
  else mkLogStream (ls_file s) (send_or_drop text <$> ls_subs s) (ls_nextID s) false (keep_last (ls_buffer s ++ [text])).
(** The subscriber's identifier. [None]: the buffer does not fit in the new
    channel, so the call blocks with the lock held. *)
Definition subscribe (s : logStream) : option (nat * logStream) :=
  if (length (ls_buffer s) <=? chan_cap)%nat then
    Some (ls_nextID s, mkLogStream (ls_file s) (<[ls_nextID s := mkChan (ls_buffer s) false]> (ls_subs s)) (S (ls_nextID s)) (ls_closed s) (ls_buffer s))
  else None.
Definition unsubscribe (id : nat) (s : logStream) : logStream :=
  mkLogStream (ls_file s) (delete id (ls_subs s)) (ls_nextID s) (ls_closed s) (ls_buffer s).
(** A subscriber takes a line. *)
Definition take_line (id : nat) (s : logStream) : option string * logStream :=
  match ls_subs s !! id with
  | Some (mkChan (x :: l) c) => (Some x, mkLogStream (ls_file s) (<[id := mkChan l c]> (ls_subs s)) (ls_nextID s) (ls_closed s) (ls_buffer s))
  | _ => (None, s)
  end.
Definition close_stream (s : logStream) : logStream :=
  mkLogStream (ls_file s) ((λ c, mkChan (ch_items c) true) <$> ls_subs s) (ls_nextID s) true (ls_buffer s).

(** ** Recipes (detect.go) *)

Record recipe := mkRecipe { Image : string; Commands : list string; Output : string; Language : string }.
Definition orDefault (v d : string) : string := if bool_decide (v = "") then d else v.
Definition fileExists (s : fs) (dir file : string) : bool := exists_at (Join [dir; file]) s.

Definition rust_build : string :=
  "rustup target add wasm32-wasi >/dev/null 2>&1 || true; cd /src && cargo build --release --target wasm32-wasi && " +:+
  "cp target/wasm32-wasi/release/*.wasm /out/handler.wasm".
Definition tinygo_build : string := "cd /src && tinygo build -o /out/handler.wasm -target wasi .".
Definition node_build : string :=
  "cd /src && (npm ci --no-audit --no-fund || npm install --no-audit --no-fund) && " +:+
  "if npm run | grep -q '^  build'; then npm run build; fi && tar -cf /out/code.tar --exclude=node_modules/.cache .".
Definition python_build : string :=
  "cd /src && (test -f requirements.txt && pip install --no-cache-dir -r requirements.txt -t vendor || true) && tar -cf /out/code.tar .".

Definition detect (s : fs) (srcDir : string) (rt : FunctionRuntime) (spec : BuildSpec) : res recipe :=
  let image := BuildSpec_BuildImage spec in
  let output := BuildSpec_Output spec in
  let shell cmd := ["sh"; "-lc"; cmd] in
  match BuildSpec_Commands spec with
  | _ :: _ => Ok (mkRecipe (orDefault image "docker.io/library/debian:stable-slim") (BuildSpec_Commands spec) (orDefault output ".") (BuildSpec_Language spec))
  | [] =>
    if fileExists s srcDir "Cargo.toml" then
      Ok (mkRecipe (orDefault image "docker.io/library/rust:1-bookworm") (shell rust_build) (orDefault output "/out/handler.wasm") "rust")
    else if fileExists s srcDir "go.mod" then
      Ok (mkRecipe (orDefault image "docker.io/tinygo/tinygo:latest") (shell tinygo_build) (orDefault output "/out/handler.wasm") "tinygo")
    else if fileExists s srcDir "package.json" then
      Ok (mkRecipe (orDefault image "docker.io/library/node:22-bookworm") (shell node_build)
            (orDefault output (if bool_decide (rt = FunctionRuntimeFirecracker) then "/out/code.tar" else "dist/handler.wasm")) "node")
    else if fileExists s srcDir "requirements.txt" || fileExists s srcDir "pyproject.toml" then
      Ok (mkRecipe (orDefault image "docker.io/library/python:3.12-slim-bookworm") (shell python_build) (orDefault output "/out/code.tar") "python")
    else Err (ErrMsg "could not detect build pipeline (no go.mod, Cargo.toml, package.json, requirements.txt or pyproject.toml found)")
  end.

(** ** The world of a build *)

Record CloneOptions := mkCloneOptions {
  clone_URL : string;
  clone_Depth : Z;
  clone_Branch : string;                    (** "" for none *)
  clone_SingleBranch : bool;
  clone_Auth : option (string * string);
}.

Class BuildEnv (E Repo : Type) := {
  (** [os.MkdirTemp] in a directory *)
  MkdirTemp : string → M (fs * E) (res string);
  (** go-git *)
  PlainClone : string → CloneOptions → M (fs * E) (res Repo);
  ResolveRevision : Repo → string → M (fs * E) (res string);
  Worktree : Repo → option error;
  Checkout : Repo → string → M (fs * E) (option error);
  Head : Repo → M (fs * E) (res string);
  (** [exec.LookPath("ctr")] *)
  has_ctr : E → bool;
  (** a command with its directory and added environment: what it writes to
      the stream, write by write, and the error of [Run] *)
  run_cmd : option string → list string → list string → M (fs * E) (list string * option error);
  (** [tar -cf - .] in a directory *)
  run_tar : string → M (fs * E) (res string);
}.

(** [shaShort]: the first four bytes of the digest. *)
Definition shaShort (b : string) : string := hex_encode (take_str 4 (Sum256 b)).

Section Builder.
Context `{Bolt} {E Repo T1 T2 : Type} `{BuildEnv E Repo} `{FnRuntime T1} `{FnRuntime T2}.
(** [New]: the secret manager if any, whether there is a bus, the data directory. *)
Context (secrets : option Manager) (has_bus : bool) (dataDir : string).

Record B := mkB {
  b_world : World;
  b_blobs : BlobStore;
  b_host : fs * E;
  b_wasm : option T1;
  b_fc : option T2;
  b_events : list EventRecord;         (** what was emitted, latest last *)
  b_queue : gmap string nat;           (** the slot of each function: what its channel holds *)
  b_streams : gmap string logStream;   (** the open streams *)
  b_closed : gmap string logStream;    (** the streams closed since *)
}.
(** [New]: nothing runs, no stream is open. *)
Definition New (w : World) (blobs : BlobStore) (host : fs * E) (wasm : option T1) (fc : option T2) : B :=
  mkB w blobs host wasm fc [] ∅ ∅ ∅.
Definition on_world {A} (m : M World A) : M B A := λ b,
  match m (b_world b) with
  | Ret a w => Ret a (mkB w (b_blobs b) (b_host b) (b_wasm b) (b_fc b) (b_events b) (b_queue b) (b_streams b) (b_closed b))
  | Panic => Panic
  end.
Definition on_host {A} (m : M (fs * E) A) : M B A := λ b,
  match m (b_host b) with
  | Ret a h => Ret a (mkB (b_world b) (b_blobs b) h (b_wasm b) (b_fc b) (b_events b) (b_queue b) (b_streams b) (b_closed b))
  | Panic => Panic
  end.
Definition on_files {A} (m : M fs A) : M B A := on_host (λ h, match m h.1 with Ret a f => Ret a (f, h.2) | Panic => Panic end).
Definition on_blobs {A} (m : M BlobStore A) : M B A := λ b,
  match m (b_blobs b) with
  | Ret a x => Ret a (mkB (b_world b) x (b_host b) (b_wasm b) (b_fc b) (b_events b) (b_queue b) (b_streams b) (b_closed b))
  | Panic => Panic
  end.
Definition set_streams (f : gmap string logStream → gmap string logStream) (g : gmap string logStream → gmap string logStream) : M B () :=
  modify (λ b, mkB (b_world b) (b_blobs b) (b_host b) (b_wasm b) (b_fc b) (b_events b) (b_queue b) (f (b_streams b)) (g (b_closed b))).
Definition set_queue (f : gmap string nat → gmap string nat) : M B () :=
  modify (λ b, mkB (b_world b) (b_blobs b) (b_host b) (b_wasm b) (b_fc b) (b_events b) (f (b_queue b)) (b_streams b) (b_closed b)).
(** [bus.Emit], when there is a bus. *)
Definition emit_event (type project subject : string) (data : gmap string string) : M B () :=
  if has_bus then
    modify (λ b, mkB (b_world b) (b_blobs b) (b_host b) (b_wasm b) (b_fc b)
      (b_events b ++ [mkEventRecord "" type project subject zero_time data (Bytes "")]) (b_queue b) (b_streams b) (b_closed b))
  else mret ().

(** *** Streams of builds *)

Definition log_path (uid : string) : string := Join [dataDir; "functions"; "build-logs"; uid +:+ ".log"].
(** The file stays closed when it cannot be created. *)
Definition newLogStream (path : string) : M B logStream :=
  on_files (MkdirAll (filepath_Dir path)) ;;
  e ← on_files (WriteFile path "");
  file ← gets (λ b, match e with
                    | Some _ => None
                    | None => res_option (resolve true (nodes (b_host b).1) (elems path))
                    end);
  mret (mkLogStream file ∅ 0 false []).
Definition openStream (uid : string) : M B () :=
  stream ← newLogStream (log_path uid);
  set_streams (insert uid stream) id.
(** One write to the stream of a running build. *)
Definition stream_write (uid text : string) : M B () := λ b,
  match b_streams b !! uid with
  | None => Ret () b
  | Some s =>
    let h := if ls_closed s then b_host b else (append_file (ls_file s) text (b_host b).1, (b_host b).2) in
    Ret () (mkB (b_world b) (b_blobs b) h (b_wasm b) (b_fc b) (b_events b) (b_queue b)
              (<[uid := appendLines text s]> (b_streams b)) (b_closed b))
  end.
Definition logf (uid line : string) : M B () := stream_write uid (line +:+ String (ascii_of_N 10) "").
Definition closeStream (uid : string) : M B () :=
  s ← gets (λ b, b_streams b !! uid);
  match s with
  | None => mret ()
  | Some s => set_streams (delete uid) (insert uid (close_stream s))
  end.

(** [StreamLogs]: a subscription to the running build, or the lines of its
    log on disk. *)
Definition StreamLogs (uid : string) : M B (nat + list string) := λ b,
  match b_streams b !! uid with
  | Some s =>
    match subscribe s with
    | Some (id, s') => Ret (inl id) (mkB (b_world b) (b_blobs b) (b_host b) (b_wasm b) (b_fc b) (b_events b) (b_queue b) (<[uid := s']> (b_streams b)) (b_closed b))
    | None => Panic
    end
  | None =>
    Ret (inr match eval (ReadFile (log_path uid)) (b_host b).1 with
             | Some (Ok text) => split_on (ascii_of_N 10) text
             | _ => []
             end) b
  end.

(** *** Slots *)

(** A token in the function's channel of capacity one. [false]: it is full and
    the build waits. *)
Definition acquire (key : string) : M B bool :=
  n ← gets (λ b, default O (b_queue b !! key));
  if (n <? 1)%nat then set_queue (insert key (S n)) ;; mret true else mret false.
Definition release (key : string) : M B () := set_queue (λ q, match q !! key with Some n => <[key := pred n]> q | None => q end).

(** *** Clone (git.go) *)

Definition spec_of (f : Function) : GitSourceSpec := default zero (FunctionSource_Git (Function_Source f)).

(** A second clone, whole, to look the reference up in. *)
Definition clone_by_revision (spec : GitSourceSpec) (opts : CloneOptions) (into : string) : M B (res Repo) :=
  on_files (RemoveAll into) ;;
  on_files (MkdirAll into) ;!
  (r ← on_host (PlainClone into (mkCloneOptions (clone_URL opts) 0 "" false (clone_Auth opts)));
   match r with
   | Err e => mret (Err (ErrWrap "clone" e))
   | Ok repo =>
     r ← on_host (ResolveRevision repo (GitSourceSpec_Ref spec));
     match r with
     | Err e => mret (Err (ErrWrap ("resolve ref " +:+ quoted (GitSourceSpec_Ref spec)) e))
     | Ok hash =>
       match Worktree repo with
       | Some e => mret (Err e)
       | None =>
         e ← on_host (Checkout repo hash);
         mret (match e with Some e => Err (ErrWrap ("checkout " +:+ GitSourceSpec_Ref spec) e) | None => Ok repo end)
       end
     end
   end).

Definition clone_auth (f : Function) (spec : GitSourceSpec) : M B (res (option (string * string))) :=
  match secrets with
  | Some m =>
    if bool_decide (GitSourceSpec_AuthSecret spec = "") then mret (Ok None)
    else
      r ← on_world (Reveal m (Meta_Project (Function_Meta f)) (GitSourceSpec_AuthSecret spec));
      mret match r with
           | Ok token => Ok (Some ("x-access-token", token))
           | Err e => Err (ErrWrap ("resolve auth secret " +:+ quoted (GitSourceSpec_AuthSecret spec)) e)
           end
  | None => mret (Ok None)
  end.

(** The checkout: its directory and the commit. *)
Definition clone (f : Function) (into : string) : M B (res (string * string)) :=
  match FunctionSource_Git (Function_Source f) with
  | None => mret (Err (ErrMsg ("function " +:+ quoted (Meta_Name (Function_Meta f)) +:+ " has no git source")))
  | Some spec =>
    if bool_decide (GitSourceSpec_URL spec = "") then mret (Err (ErrMsg "git source has no URL"))
    else
      on_files (MkdirAll into) ;!
      (auth ←! clone_auth f spec;
       let ref := GitSourceSpec_Ref spec in
       let has_ref := negb (bool_decide (ref = "")) in
       let opts := mkCloneOptions (GitSourceSpec_URL spec) 1 (if has_ref then "refs/heads/" +:+ ref else "") has_ref auth in
       r ← on_host (PlainClone into opts);
       repo ←! match r with
               | Ok repo => mret (Ok repo)
               | Err e => if has_ref then clone_by_revision spec opts into else mret (Err (ErrWrap "clone" e))
               end;
       h ← on_host (Head repo);
       match h with
       | Err e => mret (Err (ErrWrap "head" e))
       | Ok sha =>
         if bool_decide (GitSourceSpec_SubPath spec = "") then mret (Ok (into, sha))
         else
           let src := Join [into; GitSourceSpec_SubPath spec] in
           st ← on_files (Stat src);
           mret match st with
                | Ok _ => Ok (src, sha)
                | Err e => Err (ErrWrap ("subPath " +:+ quoted (GitSourceSpec_SubPath spec)) e)
                end
       end)
  end.

(** The temporary directory to remove, if one was made, and the checkout. *)
Definition cloneToTemp (uid : string) (f : Function) : M B (option string * res (string * string)) :=
  let base := Join [dataDir; "functions"; "build-src"] in
  r ← on_host (MkdirTemp base);
  r ← match r with
      | Ok tmp => mret (Ok tmp)
      | Err _ => on_files (MkdirAll base) ;; on_host (MkdirTemp base)
      end;
  match r with
  | Err e => mret (None, Err (ErrWrap "temp dir" e))
  | Ok tmp =>
    logf uid ("==> cloning " +:+ GitSourceSpec_URL (spec_of f) +:+ " ref=" +:+ orDefault (GitSourceSpec_Ref (spec_of f)) "HEAD") ;;
    r ← clone f tmp;
    match r with
    | Err e => mret (Some tmp, Err e)
    | Ok (dir, sha) => logf uid ("==> cloned commit " +:+ sha) ;; mret (Some tmp, Ok (dir, sha))
    end
  end.

(** *** Sandbox (runner.go) *)

(** A command whose output goes to the stream. *)
Definition streamed (uid : string) (dir : option string) (env argv : list string) : M B (option error) :=
  '(writes, e) ← on_host (run_cmd dir env argv);
  for_each (stream_write uid) writes ;; mret e.

Definition ctr_args (srcDir outDir taskID : string) (r : recipe) : list string :=
  ["ctr"; "--namespace"; "selfcloud"; "run"; "--rm";
   "--mount"; "type=bind,src=" +:+ srcDir +:+ ",dst=/src,options=rbind:ro";
   "--mount"; "type=bind,src=" +:+ outDir +:+ ",dst=/out,options=rbind:rw";
   "--env"; "HOME=/tmp"; "--cwd"; "/src"; Image r; taskID] ++ Commands r.
Definition wrap_err (ctx : string) (e : option error) : option error := ErrWrap ctx <$> e.
Definition runWithCtr (uid srcDir outDir : string) (r : recipe) : M B (option error) :=
  logf uid ("==> pulling " +:+ Image r) ;;
  (e ← streamed uid None [] ["ctr"; "--namespace"; "selfcloud"; "images"; "pull"; Image r]; mret (wrap_err "pull build image" e)) ;?
  (e ← streamed uid None [] (ctr_args srcDir outDir ("selfcloud-build-" +:+ Base outDir) r); mret (wrap_err "build" e)).
Definition runOnHost (uid srcDir outDir : string) (r : recipe) : M B (option error) :=
  match Commands r with
  | [] => mret (Some (ErrMsg "no build commands defined"))
  | argv => streamed uid (Some srcDir) ["SRC=" +:+ srcDir; "OUT=" +:+ outDir; "HOME=/tmp"] argv
  end.
Definition runSandbox (uid srcDir outDir : string) (r : recipe) : M B (option error) :=
  ctr ← gets (λ b, has_ctr (b_host b).2);
  if ctr : bool then runWithCtr uid srcDir outDir r
  else
    logf uid "==> ctr not found on host; running build commands directly (development mode)" ;;
    runOnHost uid srcDir outDir r.

(** The archive of a directory, from the [tar] of the host. *)
Definition tarDir (dir : string) : M (fs * E) (res string) := run_tar dir.
(** The path an output names. *)
Definition artifact_path (srcDir outDir out : string) : string :=
  if has_prefix out "/out/" then Join [outDir; trim_prefix out "/out/"]
  else if has_prefix out "/" then out
  else Join [srcDir; out].
Definition readArtifact (srcDir outDir out : string) : M B (res string) :=
  if bool_decide (out = "") then mret (Err (ErrMsg "recipe has no output path"))
  else
    let path := artifact_path srcDir outDir out in
    st ← on_files (Stat path);
    match st with
    | Err e => mret (Err (ErrWrap ("output " +:+ path) e))
    | Ok Dir => on_host (tarDir path)
    | Ok _ => on_files (ReadFile path)
    end.

(** *** One build *)

Definition PutBuildRec (x : Build) : M B Build := '(x, _) ← on_world (PutBuild x); mret x.

Definition failBuild (f : Function) (build : Build) (err : error) : M B () :=
  let uid := Meta_UID (Build_Meta build) in
  logf uid ("==> FAILED: " +:+ error_text err) ;;
  t ← on_world now;
  PutBuildRec { build with Build_Status := PhaseFailed; Build_Message := error_text err; Build_FinishedAt := t } ;;
  emit_event "build.failed" (Meta_Project (Function_Meta f)) (Meta_Name (Function_Meta f))
    {["build" := uid; "function" := Meta_Name (Function_Meta f); "error" := error_text err]}.

Definition deploy (f : Function) (artifact : string) : M B (option error) := λ b,
  if bool_decide (Function_Runtime f = FunctionRuntimeFirecracker) then
    match b_fc b with
    | None => Ret (Some (ErrMsg ("no runtime available for " +:+ Function_Runtime f))) b
    | Some t =>
      match fn_Deploy f artifact t with
      | Ret e t' => Ret (wrap_err "deploy" e) (mkB (b_world b) (b_blobs b) (b_host b) (b_wasm b) (Some t') (b_events b) (b_queue b) (b_streams b) (b_closed b))
      | Panic => Panic
      end
    end
  else
    match b_wasm b with
    | None => Ret (Some (ErrMsg ("no runtime available for " +:+ Function_Runtime f))) b
    | Some t =>
      match fn_Deploy f artifact t with
      | Ret e t' => Ret (wrap_err "deploy" e) (mkB (b_world b) (b_blobs b) (b_host b) (Some t') (b_fc b) (b_events b) (b_queue b) (b_streams b) (b_closed b))
      | Panic => Panic
      end
    end.

(** From the sandbox to the deployed artifact: its blob. *)
Definition produce (uid : string) (f : Function) (srcDir outDir : string) (r : recipe) : M B (res string) :=
  runSandbox uid srcDir outDir r ;!
  (artifact ←! readArtifact srcDir outDir (Output r);
   if bool_decide (artifact = "") then mret (Err (ErrMsg "build produced empty artifact"))
   else
     i ← on_blobs (blob_Put artifact);
     match i with
     | Err e => mret (Err (ErrWrap "store blob" e))
     | Ok id =>
       logf uid ("==> stored artifact (" +:+ itoa (Z.of_nat (String.length artifact)) +:+ " bytes, sha=" +:+ take_str 8 id +:+ ")") ;;
       (deploy f artifact ;! mret (Ok id))
     end).

Definition succeedBuild (f : Function) (build : Build) (id sha : string) : M B () :=
  let uid := Meta_UID (Build_Meta build) in
  t ← on_world now;
  let st := Function_Status f in
  let phase := if bool_decide (Status_Phase st = "") || bool_decide (Status_Phase st = PhaseFailed) then PhaseRunning else Status_Phase st in
  let f := { f with Function_SourceRef := id; Function_LatestBuild := uid;
                    Function_Status := { st with Status_Phase := phase; Status_UpdatedAt := t } } in
  '(_, e) ← on_world (PutFunction f);
  match e with None => mret () | Some e => logf uid ("==> warning: failed to update function: " +:+ error_text e) end ;;
  t ← on_world now;
  let build := { build with Build_Status := PhaseSucceeded; Build_ArtifactRef := id; Build_FinishedAt := t; Build_Message := "build succeeded" } in
  PutBuildRec build ;;
  logf uid ("==> SUCCESS in " +:+ duration_text (Sub (Build_FinishedAt build) (Build_StartedAt build))) ;;
  emit_event "build.succeeded" (Meta_Project (Function_Meta f)) (Meta_Name (Function_Meta f))
    {["build" := uid; "function" := Meta_Name (Function_Meta f); "sha" := sha]}.

(** Up to the slot: the record is [Running], the stream is open. *)
Definition begin_build (f : Function) (build : Build) : M B Build :=
  t ← on_world now;
  build ← PutBuildRec { build with Build_Status := PhaseRunning; Build_StartedAt := t };
  let uid := Meta_UID (Build_Meta build) in
  openStream uid ;;
  logf uid ("==> build " +:+ uid +:+ " (function " +:+ Meta_Name (Function_Meta f) +:+ ", trigger " +:+ Build_Trigger build +:+ ")") ;;
  emit_event "build.started" (Meta_Project (Function_Meta f)) (Meta_Name (Function_Meta f))
    {["build" := uid; "function" := Meta_Name (Function_Meta f)]} ;;
  mret build.

(** With the checkout there: the output directory to remove, if one was made. *)
Definition build_checkout (f : Function) (build : Build) (srcDir sha : string) : M B (option string) :=
  let uid := Meta_UID (Build_Meta build) in
  build ← PutBuildRec { build with Build_CommitSHA := sha };
  files ← gets (λ b, (b_host b).1);
  match detect files srcDir (Function_Runtime f) (GitSourceSpec_Build (spec_of f)) with
  | Err e => failBuild f build e ;; mret None
  | Ok r =>
    logf uid ("==> build pipeline: language=" +:+ Language r +:+ " image=" +:+ Image r) ;;
    match Commands r with [] => mret () | cmds => logf uid ("==> commands: " +:+ join_with " " cmds) end ;;
    let outDir := Join [dataDir; "functions"; "build-out"; uid] in
    e ← on_files (MkdirAll outDir);
    match e with
    | Some e => failBuild f build e ;; mret None
    | None =>
      p ← produce uid f srcDir outDir r;
      match p with Err e => failBuild f build e | Ok id => succeedBuild f build id sha end ;;
      mret (Some outDir)
    end
  end.

(** With the slot: everything else, and what is cleaned up after. *)
Definition in_slot (f : Function) (build : Build) : M B () :=
  let uid := Meta_UID (Build_Meta build) in
  '(tmp, r) ← cloneToTemp uid f;
  out ← match r with
        | Err e => failBuild f build e ;; mret None
        | Ok (srcDir, sha) => build_checkout f build srcDir sha
        end;
  match out with Some d => on_files (RemoveAll d) ;; mret () | None => mret () end ;;
  match tmp with Some d => on_files (RemoveAll d) ;; mret () | None => mret () end ;;
  release (fnKey f) ;;
  closeStream uid.

(** [runBuild]; [false]: the slot is taken, the build waits for it. *)
Definition runBuild (f : Function) (build : Build) : M B bool :=
  build ← begin_build f build;
  got ← acquire (fnKey f);
  if got : bool then in_slot f build ;; mret true else mret false.

(** [newID]: the clock, in eight bytes. *)
Definition newID (t : time) : string := hex_encode (of_bytes (SHA256.be_bytes 8 (UnixNano t))).

(** [Trigger]: the record and the run to start. *)
Definition Trigger (f : Function) (trigger : string) : M B (res (Build * M B bool)) :=
  if negb (bool_decide (FunctionSource_Type (Function_Source f) = "git")) || bool_decide (FunctionSource_Git (Function_Source f) = None)
  then mret (Err (ErrMsg "function does not have a git source"))
  else
    t0 ← on_world now;
    let uid := newID t0 in
    t ← on_world now;
    let build := { (zero (A:=Build)) with
                   Build_Meta := { (zero (A:=Meta)) with Meta_Project := Meta_Project (Function_Meta f); Meta_Name := "build-" +:+ uid; Meta_UID := uid };
                   Build_FunctionRef := Meta_Name (Function_Meta f); Build_Trigger := trigger;
                   Build_Status := PhasePending; Build_StartedAt := t } in
    '(build, e) ← on_world (PutBuild build);
    mret match e with Some e => Err e | None => Ok (build, runBuild f build) end.
End Builder.

(** ** Slots under concurrency

    Builds run in goroutines of their own; what they share is the map of
    slots.  A build waits, holds its function's slot, or is done. *)

Inductive pc := Waiting | Holding | Done.
#[export] Instance pc_eq_dec : EqDecision pc.
Proof. solve_decision. Defined.
Record slots := mkSlots { queue : gmap string nat; builds : list (string * pc) }.

Inductive slot_step : slots → slots → Prop :=
  | step_trigger q bs key : slot_step (mkSlots q bs) (mkSlots q (bs ++ [(key, Waiting)]))
  | step_acquire q bs i key :
      bs !! i = Some (key, Waiting) → (default O (q !! key) < 1)%nat →
      slot_step (mkSlots q bs) (mkSlots (<[key := S (default O (q !! key))]> q) (<[i := (key, Holding)]> bs))
  | step_release q bs i key n :
      bs !! i = Some (key, Holding) → q !! key = Some (S n) →
      slot_step (mkSlots q bs) (mkSlots (<[key := n]> q) (<[i := (key, Done)]> bs))
  | step_release_none q bs i key :
      bs !! i = Some (key, Holding) → q !! key = None → slot_step (mkSlots q bs) (mkSlots q (<[i := (key, Done)]> bs)).
End Builder.
