(* ===== verification/BuilderProps.v ===== *)
(** The builder's promises: every build ends in a persisted verdict with its
    stream closed and its slot free, builds of one function never run together
    and none waits for ever, log streams are bounded and never block. *)

From Stdlib Require Import Ascii.
From S2P Require Import Prelude GoTime Json Types Bolt Store StoreOps StoreLaws Table Text Glob Path Wasm Secrets Fs FsLaws Builder.
Import Builder.

#[local] Arguments String.append : simpl nomatch.

(** ** Slots *)

Definition holding (key : string) (bs : list (string * pc)) : nat := length (filter (λ x, x = (key, Holding)) bs).

Inductive slots_reachable : slots → Prop :=
  | slots_init : slots_reachable (mkSlots ∅ [])
  | slots_next s s' : slots_reachable s → slot_step s s' → slots_reachable s'.

Lemma holding_app key l1 l2 : holding key (l1 ++ l2) = (holding key l1 + holding key l2)%nat.
Proof. unfold holding. by rewrite filter_app, length_app. Qed.
Lemma holding_insert key bs i x y :
  bs !! i = Some x →
  (holding key (<[i := y]> bs) + (if decide (x = (key, Holding)) then 1 else 0) =
   holding key bs + (if decide (y = (key, Holding)) then 1 else 0))%nat.
Proof.
  intros Hi. rewrite <-(take_drop_middle _ _ _ Hi) at 2.
  rewrite (insert_take_drop _ _ _ (lookup_lt_Some _ _ _ Hi)).
  rewrite !holding_app. unfold holding. rewrite !filter_cons.
  destruct (decide (y = _)), (decide (x = _)); cbn [length]; lia.
Qed.

Lemma slots_invariant s key :
  slots_reachable s → default O (queue s !! key) = holding key (builds s) ∧ (holding key (builds s) ≤ 1)%nat.
Proof.
  intros Hr. induction Hr as [|s s' Hr IH Hs]; [cbn [queue builds]; rewrite lookup_empty; by split; [|cbn; lia]|].
  destruct Hs as [q bs k|q bs i k Hi Hq|q bs i k n Hi Hq|q bs i k Hi Hq]; cbn [queue builds] in *.
  - rewrite holding_app. unfold holding at 2 4. rewrite filter_cons, decide_False by done. cbn. rewrite Nat.add_0_r. done.
  - pose proof (holding_insert key bs i _ (k, Holding) Hi) as E. rewrite decide_False in E by done.
    destruct (decide (k = key)) as [->|Hne].
    + rewrite lookup_insert_eq. rewrite decide_True in E by done. cbn. lia.
    + rewrite lookup_insert_ne by done. rewrite decide_False in E by naive_solver. lia.
  - pose proof (holding_insert key bs i _ (k, Done) Hi) as E. rewrite (decide_False (P:=(k, Done) = _)) in E by done.
    destruct (decide (k = key)) as [->|Hne].
    + rewrite lookup_insert_eq. rewrite decide_True in E by done. rewrite Hq in IH. cbn in IH |- *. lia.
    + rewrite lookup_insert_ne by done. rewrite decide_False in E by naive_solver. lia.
  - pose proof (holding_insert key bs i _ (k, Done) Hi) as E. rewrite (decide_False (P:=(k, Done) = _)) in E by done.
    destruct (decide (k = key)) as [->|Hne].
    + rewrite decide_True in E by done. rewrite Hq in *. cbn in *. lia.
    + rewrite decide_False in E by naive_solver. lia.
Qed.

(** A step of a build that is already there. *)
Definition work_step (s s' : slots) : Prop := slot_step s s' ∧ length (builds s') = length (builds s).
Definition pc_work (p : pc) : nat := match p with Waiting => 2 | Holding => 1 | Done => 0 end.
(** The steps left. *)
Definition work_left (s : slots) : nat := sum_list ((λ x, pc_work x.2) <$> builds s).


Lemma work_step_counts s s' : work_step s s' → work_left s = S (work_left s').
Proof.
  intros [Hs Hl]. destruct Hs as [q bs k|q bs i k Hi Hq|q bs i k n Hi Hq|q bs i k Hi Hq]; cbn [builds] in *.
  - rewrite length_app in Hl. cbn in Hl. lia.
  - unfold work_left. cbn [builds]. pose proof (sum_list_insert (λ x, pc_work x.2) bs i _ (k, Holding) Hi). cbn in *. lia.
  - unfold work_left. cbn [builds]. pose proof (sum_list_insert (λ x, pc_work x.2) bs i _ (k, Done) Hi). cbn in *. lia.
  - unfold work_left. cbn [builds]. pose proof (sum_list_insert (λ x, pc_work x.2) bs i _ (k, Done) Hi). cbn in *. lia.
Qed.

Lemma holding_pos key bs i : bs !! i = Some (key, Holding) → (0 < holding key bs)%nat.
Proof.
  intros Hi. unfold holding. apply list_elem_of_lookup_2 in Hi.
  assert (Hf : (key, Holding) ∈ filter (λ x, x = (key, Holding)) bs) by by apply list_elem_of_filter.
  destruct (filter _ bs); [by apply not_elem_of_nil in Hf|cbn; lia].
Qed.
(** C12 Two builds of one function never run at the same time, in any
    interleaving of triggers, acquisitions and releases. *)
Theorem builds_of_a_function_exclude_each_other (s : slots) (key : string) :
  slots_reachable s →
  (holding key (builds s) ≤ 1)%nat ∧
  ∀ i j, builds s !! i = Some (key, Holding) → builds s !! j = Some (key, Holding) → i = j.
Proof.
  intros Hr. destruct (slots_invariant s key Hr) as [_ Hle]. split; [done|]. intros i j Hi Hj.
  destruct (decide (i = j)) as [|Hne]; [done|]. exfalso.
  pose proof (holding_insert key (builds s) i _ (key, Done) Hi) as E.
  rewrite decide_True, decide_False in E by done.
  assert (Hp : (0 < holding key (<[i := (key, Done)]> (builds s)))%nat).
  { apply (holding_pos _ _ j). by rewrite list_lookup_insert_ne. }
  lia.
Qed.

Lemma holding_none key bs : (∀ i k, bs !! i ≠ Some (k, Holding)) → holding key bs = O.
Proof.
  intros Hn. unfold holding. destruct (filter _ bs) as [|x l] eqn:E; [done|].
  assert (Hx : x ∈ filter (λ x, x = (key, Holding)) bs) by (rewrite E; by left).
  apply list_elem_of_filter in Hx as [-> Hx]. apply list_elem_of_lookup_1 in Hx as [i Hi]. by destruct (Hn i key).
Qed.

Lemma no_step_all_done s :
  (∀ key, default O (queue s !! key) = holding key (builds s)) → (∀ s', ¬ work_step s s') →
  Forall (λ x, x.2 = Done) (builds s).
Proof.
  intros Hinv Hstuck. destruct s as [q bs]. cbn [queue builds] in *.
  assert (Hh : ∀ i k, bs !! i ≠ Some (k, Holding)).
  { intros i k Hi. pose proof (holding_pos _ _ _ Hi). specialize (Hinv k). destruct (q !! k) as [[|n]|] eqn:Eq; cbn in Hinv; try lia.
    eapply (Hstuck _). split; [by eapply step_release|]. cbn. by rewrite length_insert. }
  apply Forall_forall. intros [k []] Hx; [exfalso|exfalso|done].
  - apply list_elem_of_lookup_1 in Hx as [i Hi]. eapply (Hstuck _). split; [eapply step_acquire; [exact Hi|]|].
    + rewrite Hinv, holding_none by done. lia.
    + cbn. by rewrite length_insert.
  - apply list_elem_of_lookup_1 in Hx as [i Hi]. by destruct (Hh i k).
Qed.

Lemma work_reachable n s s' : slots_reachable s → nsteps work_step n s s' → slots_reachable s'.
Proof. intros Hr Hn. induction Hn as [|n x y z [Hs _] Hn IH]; [done|]. apply IH. by eapply slots_next. Qed.

(** C36 Every build gets its slot and gives it back: from any reachable state
    the builds already triggered have a fixed number of steps left, two for
    each that waits and one for each that runs, whatever the order; and a run
    that cannot be continued has every build done and every slot free.  So no
    build waits for ever and there is no deadlock. *)
Theorem every_build_gets_its_slot (n : nat) (s s' : slots) :
  slots_reachable s → nsteps work_step n s s' →
  (n + work_left s' = work_left s)%nat ∧
  ((∀ s'', ¬ work_step s' s'') → Forall (λ x, x.2 = Done) (builds s') ∧ ∀ key, default O (queue s' !! key) = O).
Proof.
  intros Hr Hn. split.
  - clear Hr. induction Hn as [|n x y z Hs Hn IH]; [done|]. apply work_step_counts in Hs. lia.
  - intros Hstuck. assert (Hinv : ∀ key, default O (queue s' !! key) = holding key (builds s')).
    { intros key. by apply slots_invariant, (work_reachable _ _ _ Hr Hn). }
    pose proof (no_step_all_done s' Hinv Hstuck) as Hd. split; [done|]. intros key. rewrite Hinv.
    apply holding_none. intros i k Hi. rewrite Forall_lookup in Hd. by specialize (Hd _ _ Hi).
Qed.

Definition two_builds : slots := mkSlots (<["p/f" := 1%nat]> ∅) [("p/f", Holding); ("p/f", Waiting); ("p/g", Waiting)].
Lemma two_builds_reachable : slots_reachable two_builds.
Proof.
  assert (H0 : slots_reachable (mkSlots ∅ [("p/f", Waiting); ("p/f", Waiting); ("p/g", Waiting)])).
  { eapply slots_next; [|exact (step_trigger ∅ [("p/f", Waiting); ("p/f", Waiting)] "p/g")].
    eapply slots_next; [|exact (step_trigger ∅ [("p/f", Waiting)] "p/f")].
    eapply slots_next; [apply slots_init|exact (step_trigger ∅ [] "p/f")]. }
  eapply slots_next; [exact H0|].
  exact (step_acquire ∅ [("p/f", Waiting); ("p/f", Waiting); ("p/g", Waiting)] 0 "p/f" eq_refl (Nat.lt_succ_diag_r 0)).
Qed.

Theorem builds_of_a_function_exclude_each_other_witness :
  builds two_builds !! 0%nat = Some ("p/f", Holding) ∧ (holding "p/f" (builds two_builds) ≤ 1)%nat.
Proof. split; [reflexivity|]. apply (builds_of_a_function_exclude_each_other two_builds "p/f"), two_builds_reachable. Defined.
Theorem every_build_gets_its_slot_witness : ∃ s', nsteps work_step 1 two_builds s' ∧ (1 + work_left s' = 5)%nat.
Proof.
  eexists. assert (Hn : nsteps work_step 1 two_builds (mkSlots {["p/f" := 0%nat]} [("p/f", Done); ("p/f", Waiting); ("p/g", Waiting)])).
  { eapply nsteps_once. split; [exact (step_release {["p/f" := 1%nat]} (builds two_builds) 0 "p/f" 0 eq_refl eq_refl)|reflexivity]. }
  split; [exact Hn|]. exact (proj1 (every_build_gets_its_slot 1 two_builds _ two_builds_reachable Hn)).
Defined.

(** ** The slots of a builder

    The step relation is what [acquire] and [release] do to a builder's map:
    [bs] are the builds, by number. *)

Section Slots.
Context `{BuildEnv E Repo} `{Bolt} `{FnRuntime T1} `{FnRuntime T2}.

Definition slots_of (b : B (E:=E) (T1:=T1) (T2:=T2)) (bs : list (string * pc)) : slots := mkSlots (b_queue b) bs.

Lemma acquire_steps (b b' : B (E:=E) (T1:=T1) (T2:=T2)) bs i key got :
  bs !! i = Some (key, Waiting) → acquire key b = Ret got b' →
  if got : bool then slot_step (slots_of b bs) (slots_of b' (<[i := (key, Holding)]> bs))
  else b' = b ∧ (0 < default O (b_queue b !! key))%nat.
Proof.
  intros Hi. unfold acquire, mbind, M_bind, gets, set_queue, modify. destruct (Nat.ltb_spec (default O (b_queue b !! key)) 1) as [Hl|Hl].
  - intros [= <- <-]. by apply step_acquire.
  - intros [= <- <-]. split; [done|lia].
Qed.
Lemma release_steps (b b' : B (E:=E) (T1:=T1) (T2:=T2)) bs i key :
  slots_reachable (slots_of b bs) → bs !! i = Some (key, Holding) → release key b = Ret () b' →
  slot_step (slots_of b bs) (slots_of b' (<[i := (key, Done)]> bs)).
Proof.
  intros Hr Hi [= <-]. unfold slots_of. cbn [b_queue]. destruct (b_queue b !! key) as [[|n]|] eqn:Eq.
  - destruct (slots_invariant _ key Hr) as [Hq _]. unfold slots_of in Hq. cbn [queue builds] in Hq. rewrite Eq in Hq.
    pose proof (holding_pos _ _ _ Hi). cbn in Hq. lia.
  - by apply step_release.
  - by apply step_release_none.
Qed.
End Slots.

(** ** Log streams *)

(** The operations on a stream, and all that was written before it closed. *)
Inductive stream_op := SAppend (text : string) | SSubscribe | SUnsubscribe (id : nat) | STake (id : nat) | SClose.
Definition stream_step (o : stream_op) (s : logStream) : option logStream :=
  match o with
  | SAppend t => Some (appendLines t s)
  | SSubscribe => snd <$> subscribe s
  | SUnsubscribe id => Some (unsubscribe id s)
  | STake id => Some (take_line id s).2
  | SClose => Some (close_stream s)
  end.
Fixpoint stream_run (os : list stream_op) (s : logStream) : option logStream :=
  match os with [] => Some s | o :: os => s' ← stream_step o s; stream_run os s' end.
Fixpoint appended (os : list stream_op) : list string :=
  match os with
  | [] => []
  | SAppend t :: os => t :: appended os
  | SClose :: _ => []
  | _ :: os => appended os
  end.
Definition fresh_stream (f : option addr) : logStream := mkLogStream f ∅ 0 false [].

Record stream_ok (s : logStream) : Prop := {
  ok_buffer : (length (ls_buffer s) ≤ logBufferLines)%nat;
  ok_chans : map_Forall (λ _ c, (length (ch_items c) ≤ chan_cap)%nat) (ls_subs s);
}.

Lemma keep_last_length l : (length (keep_last l) ≤ logBufferLines)%nat.
Proof. unfold keep_last. rewrite length_drop. lia. Qed.
Lemma keep_last_snoc l x : keep_last (keep_last l ++ [x]) = keep_last (l ++ [x]).
Proof.
  unfold keep_last. rewrite !length_app, length_drop. cbn [length]. unfold logBufferLines.
  destruct (decide (length l ≤ 256)%nat).
  - replace (length l - 256)%nat with O by lia. rewrite drop_0. f_equal. lia.
  - rewrite !drop_app_le by (rewrite ?length_drop; lia). rewrite drop_drop. do 2 f_equal. lia.
Qed.
Lemma send_or_drop_length t c : (length (ch_items c) ≤ chan_cap)%nat → (length (ch_items (send_or_drop t c)) ≤ chan_cap)%nat.
Proof.
  intros Hc. unfold send_or_drop. destruct (Nat.ltb_spec (length (ch_items c)) chan_cap); cbn; rewrite ?length_app; cbn; lia.
Qed.

Lemma stream_step_ok o s : stream_ok s → ∃ s', stream_step o s = Some s' ∧ stream_ok s'.
Proof.
  intros [Hb Hc]. destruct o as [t| |id|id|]; cbn [stream_step].
  - eexists. split; [done|]. unfold appendLines. destruct (ls_closed s); [by split|]. split; cbn [ls_buffer ls_subs].
    + apply keep_last_length.
    + intros k c. rewrite lookup_fmap. destruct (ls_subs s !! k) as [c'|] eqn:E; [|done]. intros [= <-].
      by apply send_or_drop_length, (Hc k).
  - unfold subscribe. unfold logBufferLines, chan_cap in *. rewrite (proj2 (Nat.leb_le _ _) Hb). cbn.
    eexists. split; [done|]. split; [done|]. cbn. by apply map_Forall_insert_2.
  - eexists. split; [done|]. split; [done|]. cbn. by apply map_Forall_delete.
  - eexists. split; [done|]. unfold take_line. destruct (ls_subs s !! id) as [[[|x l] c]|] eqn:E; [by split| |by split].
    split; [done|]. cbn. apply map_Forall_insert_2; [|done]. specialize (Hc _ _ E). cbn in *. lia.
  - eexists. split; [done|]. split; [done|]. cbn. intros k c. rewrite lookup_fmap.
    destruct (ls_subs s !! k) as [c'|] eqn:E; [|done]. intros [= <-]. exact (Hc k c' E).
Qed.

Lemma stream_run_ok os s : stream_ok s → ∃ s', stream_run os s = Some s' ∧ stream_ok s'.
Proof.
  revert s. induction os as [|o os IH]; intros s Hs; [by exists s|]. cbn [stream_run].
  destruct (stream_step_ok o s Hs) as (s1 & -> & H1). cbn. by apply IH.
Qed.

Lemma stream_closed os s s' : stream_run os s = Some s' → ls_closed s = true → ls_buffer s' = ls_buffer s.
Proof.
  revert s. induction os as [|o os IH]; intros s; [by intros [= <-]|]. cbn [stream_run].
  destruct (stream_step o s) as [s1|] eqn:E; [|done]. cbn. intros Hr Hc.
  assert (ls_closed s1 = true ∧ ls_buffer s1 = ls_buffer s) as [H1 H2]; [|by rewrite (IH _ Hr H1)].
  destruct o as [t| |id|id|]; cbn in E.
  - injection E as <-. unfold appendLines. by rewrite Hc.
  - unfold subscribe in E. destruct (_ <=? _)%nat; [|done]. by injection E as <-.
  - by injection E as <-.
  - injection E as <-. unfold take_line. by destruct (ls_subs s !! id) as [[[] ?]|].
  - by injection E as <-.
Qed.

Lemma stream_buffer os s s' pre :
  stream_run os s = Some s' → ls_closed s = false → ls_buffer s = keep_last pre → ls_buffer s' = keep_last (pre ++ appended os).
Proof.
  revert s pre. induction os as [|o os IH]; intros s pre; [intros [= <-]; by rewrite app_nil_r|]. cbn [stream_run].
  destruct (stream_step o s) as [s1|] eqn:E; [|done]. cbn [mbind option_bind]. intros Hr Hc Hb.
  destruct o as [t| |id|id|]; cbn in E.
  - injection E as <-. cbn [appended]. rewrite (IH _ (pre ++ [t]) Hr); [by rewrite <-app_assoc|..]; unfold appendLines; rewrite Hc; [done|].
    cbn [ls_buffer]. by rewrite Hb, keep_last_snoc.
  - unfold subscribe in E. destruct (_ <=? _)%nat; [|done]. injection E as <-. by apply (IH _ pre Hr).
  - injection E as <-. by apply (IH _ pre Hr).
  - injection E as <-. apply (IH _ pre Hr); unfold take_line; by destruct (ls_subs s !! id) as [[[] ?]|].
  - injection E as <-. cbn [appended]. rewrite app_nil_r, <-Hb. by rewrite (stream_closed _ _ _ Hr).
Qed.

(** A build never waits for those who watch it: whatever is written,
    subscribed, read and closed, in whatever order, no operation blocks and
    every subscriber's channel holds at most 256 lines; and a subscriber that
    comes late starts with the last 256 writes made before the stream closed. *)
Theorem log_stream_never_blocks (f : option addr) (os : list stream_op) :
  ∃ s, stream_run os (fresh_stream f) = Some s ∧
    map_Forall (λ _ c, (length (ch_items c) ≤ 256)%nat) (ls_subs s) ∧
    ∃ id s', subscribe s = Some (id, s') ∧
      ls_subs s' !! id = Some (mkChan (drop (length (appended os) - 256) (appended os)) false).
Proof.
  destruct (stream_run_ok os (fresh_stream f)) as (s & Hr & [Hb Hc]); [split; [cbn; lia|by apply map_Forall_empty]|].
  exists s. split_and!; [done|exact Hc|]. unfold subscribe, logBufferLines, chan_cap in *. rewrite (proj2 (Nat.leb_le _ _) Hb).
  eexists _, _. split; [done|]. cbn [ls_subs]. rewrite lookup_insert_eq. do 2 f_equal.
  by apply (stream_buffer os _ s [] Hr).
Qed.
