(* ===== verification/BuildLife.v ===== *)
(** The life of one build: whatever the repository, the commands and the
    runtimes do, as long as they return, the run returns, with the verdict in
    the store, the stream closed and the slot free.

    [calm] and [quiet] computations return and leave the slots alone; the
    second kind leaves the store alone too.  The database [calm] derives both
    for the builder's operations. *)

From Stdlib Require Import Ascii.
From S2P Require Import Prelude GoTime Json Types Bolt Store StoreOps StoreLaws Singleton Table Text Glob Path Wasm Secrets Fs FsLaws Builder BuilderProps.
Import Builder.

#[local] Arguments String.append : simpl nomatch.

(** What is outside returns: the git library, the commands, the runtimes. *)
Class EnvReturns (E Repo T1 T2 : Type) `{BuildEnv E Repo} `{FnRuntime T1} `{FnRuntime T2} : Prop := {
  temp_returns d : returns (MkdirTemp (Repo:=Repo) d);
  clone_returns p o : returns (PlainClone p o);
  resolve_returns r s : returns (ResolveRevision r s);
  checkout_returns r s : returns (Checkout r s);
  head_returns r : returns (Head r);
  cmd_returns d e a : returns (run_cmd (Repo:=Repo) d e a);
  tar_returns p : returns (run_tar (Repo:=Repo) p);
  deploy1_returns f c : returns (fn_Deploy (T:=T1) f c);
  deploy2_returns f c : returns (fn_Deploy (T:=T2) f c);
}.

(** ** The store *)

Section World.
Context `{BL : BoltLaws}.

Definition world_safe {A} (m : M World A) : Prop := ∀ w, opened w → ∃ a w', m w = Ret a w' ∧ opened w'.

Lemma opened_insert w w' b (m : gmap string json) :
  opened w → contents (db w') = <[b := m]> (contents (db w)) → opened w'.
Proof.
  unfold opened. rewrite !Forall_forall. intros Ho E x Hx. unfold bucket_map. rewrite E.
  destruct (decide (b = x)) as [->|]; [rewrite lookup_insert_eq; eauto|]. rewrite lookup_insert_ne by done. by apply Ho.
Qed.
Lemma opened_db w w' : db w' = db w → opened w → opened w'.
Proof. intros E. unfold opened, bucket_map. by rewrite E. Qed.

Lemma now_safe : world_safe now.
Proof. intros w Ho. eexists _, _. split; [reflexivity|]. by apply (opened_db w). Qed.

(** A write to a bucket: stored when the name and the key are good, refused otherwise. *)
Lemma putScoped_safe {A} `{PS : projectScoped A, SL : !ScopedLaws A, JA : Json A, JL : !JsonLaws A, RA : Resource A} b kind (v : A) :
  b ∈ rootBuckets → world_safe (putScoped b kind v).
Proof.
  intros Hb w Ho. destruct (opened_bucket w b Ho Hb) as [m Hm].
  destruct (decide (Meta_Name (getMeta v) = "")) as [Hn|Hn].
  { eexists _, _. split; [by apply putScoped_noname|done]. }
  destruct (key_ok (keyOf (final (env w) v))) eqn:Hk.
  - destruct (putScoped_run b kind v w m Hm Hn Hk) as (d & -> & Hd). eexists _, _. split; [reflexivity|].
    by eapply opened_insert.
  - unfold putScoped.
    rewrite bool_decide_eq_false_2 by (unfold defaultProject; by case_bool_decide).
    rewrite (bind_ret_run _ _ _ _ _ (mintMeta_run _ _)). fold (finalMeta (env w) (getMeta v)).
    unfold keyOf, final in Hk. rewrite get_set_meta in Hk. unfold put.
    rewrite (bind_ret_run _ _ _ _ _ (put_raw_bad_key (set_env _ w) b _ _ (ex_intro _ m Hm) Hk)).
    eexists _, _. split; [reflexivity|]. by apply (opened_db w).
Qed.
Lemma Reveal_safe mgr p n : world_safe (Reveal mgr p n).
Proof.
  intros w Ho. destruct (opened_bucket w "secrets" Ho) as [m Hm]; [set_solver|].
  unfold Reveal, GetSecret, try_bind. rewrite (bind_ret_run _ _ _ _ _ (get_run w "secrets" (keyFor p n) m Hm)).
  repeat case_match; (eexists _, _; split; [reflexivity|done]).
Qed.

(** The key a build is stored under. *)
Definition build_key (x : Build) : string :=
  keyFor (if bool_decide (Meta_Project (Build_Meta x) = "") then "default" else Meta_Project (Build_Meta x)) (Meta_Name (Build_Meta x)).
Definition storable (x : Build) : Prop :=
  Meta_Name (Build_Meta x) ≠ "" ∧ Meta_UID (Build_Meta x) ≠ "" ∧ key_ok (build_key x) = true.
Lemma final_key e (x : Build) : keyOf (final e x) = build_key x.
Proof. unfold keyOf, build_key. by rewrite final_name, final_project. Qed.

Lemma PutBuild_stores (x : Build) w :
  opened w → storable x →
  ∃ w', PutBuild x w = Ret (final (env w) x, None) w' ∧ opened w' ∧ stored w' "builds" (build_key x) = Some (enc (final (env w) x)).
Proof.
  intros Ho (Hn & Hu & Hk). destruct (opened_bucket w "builds" Ho) as [m Hm]; [set_solver|].
  change (Meta_Name (getMeta x) ≠ "") in Hn. destruct (putScoped_run "builds" KindBuild x w m Hm Hn) as (d & E & Hd); [by rewrite final_key|].
  eexists. split; [exact E|]. split; [by eapply opened_insert|].
  unfold stored, bucket_map, after_put. cbn [db]. rewrite Hd, lookup_insert_eq. cbn [mbind option_bind].
  by rewrite final_key, lookup_insert_eq.
Qed.
Lemma final_storable e x : storable x → storable (final e x) ∧ build_key (final e x) = build_key x ∧
  Meta_UID (Build_Meta (final e x)) = Meta_UID (Build_Meta x) ∧ Build_Status (final e x) = Build_Status x.
Proof.
  intros (Hn & Hu & Hk).
  assert (Hkey : build_key (final e x) = build_key x).
  { destruct x as [[p n u g c t l] ? ? ? ? ? ? ? ? ?]. unfold build_key, final, finalMeta, minted, defaultProject. cbn.
    destruct (bool_decide (p = "")) eqn:Ep; cbn; by rewrite ?Ep. }
  assert (Huid : Meta_UID (Build_Meta (final e x)) = Meta_UID (Build_Meta x)).
  { destruct x as [[p n u g c t l] ? ? ? ? ? ? ? ? ?]. unfold final, finalMeta, minted, defaultProject, is_fresh. cbn in *.
    destruct (bool_decide (p = "")); cbn; by rewrite bool_decide_eq_false_2. }
  split_and!; [|done|done|by destruct x]. split_and!; [|by rewrite Huid|by rewrite Hkey].
  change (Meta_Name (getMeta (final e x)) ≠ ""). by rewrite final_name.
Qed.
End World.

(** ** Builders *)

Section Life.
Context `{BL : BoltLaws} {E Repo T1 T2 : Type} `{BE : BuildEnv E Repo} `{R1 : FnRuntime T1} `{R2 : FnRuntime T2}.
Context `{ER : !EnvReturns E Repo T1 T2}.
Context (secrets : option Manager) (has_bus : bool) (dataDir : string).
Abbreviation B := (B (E:=E) (T1:=T1) (T2:=T2)).
Implicit Types (b : B).

Definition bopened b : Prop := opened (b_world b).
(** Returns, keeps the buckets and the slots. *)
Definition calm {A} (m : M B A) : Prop := ∀ b, bopened b → ∃ a b', m b = Ret a b' ∧ bopened b' ∧ b_queue b' = b_queue b.
(** And leaves the store alone. *)
Definition quiet {A} (m : M B A) : Prop := ∀ b, ∃ a b', m b = Ret a b' ∧ b_world b' = b_world b ∧ b_queue b' = b_queue b.

Lemma quiet_calm {A} (m : M B A) : quiet m → calm m.
Proof. intros Hq b Ho. destruct (Hq b) as (a & b' & E1 & E2 & E3). exists a, b'. unfold bopened in *. by rewrite E2. Qed.
Lemma quiet_ret {A} (a : A) : quiet (mret a).
Proof. intros b. by exists a, b. Qed.
Lemma quiet_gets {A} (g : B → A) : quiet (gets g).
Proof. intros b. by exists (g b), b. Qed.
Lemma quiet_bind {A C} (m : M B A) (k : A → M B C) : quiet m → (∀ a, quiet (k a)) → quiet (m ≫= k).
Proof.
  intros Hm Hk b. destruct (Hm b) as (a & b1 & E1 & W1 & Q1). destruct (Hk a b1) as (c & b2 & E2 & W2 & Q2).
  exists c, b2. rewrite (bind_ret_run _ _ _ _ _ E1). split_and!; [done|congruence..].
Qed.
Lemma calm_bind {A C} (m : M B A) (k : A → M B C) : calm m → (∀ a, calm (k a)) → calm (m ≫= k).
Proof.
  intros Hm Hk b Ho. destruct (Hm b Ho) as (a & b1 & E1 & O1 & Q1). destruct (Hk a b1 O1) as (c & b2 & E2 & O2 & Q2).
  exists c, b2. rewrite (bind_ret_run _ _ _ _ _ E1). split_and!; [done|done|congruence].
Qed.
Lemma quiet_for_each {A} (f : A → M B ()) l : (∀ a, quiet (f a)) → quiet (for_each f l).
Proof. intros Hf. induction l as [|a l IH]; [apply quiet_ret|]. cbn. by apply quiet_bind. Qed.

Lemma quiet_host {A} (m : M (fs * E) A) : returns m → quiet (on_host m).
Proof. intros Hm b. destruct (Hm (b_host b)) as (a & h & Eh). unfold on_host. rewrite Eh. by eexists _, _. Qed.
Lemma quiet_files {A} (m : M fs A) : returns m → quiet (on_files m).
Proof.
  intros Hm. apply quiet_host. intros [f e]. destruct (Hm f) as (a & f' & Ef). cbn [fst]. rewrite Ef. by eexists _, _.
Qed.
Lemma quiet_write uid t : quiet (stream_write uid t).
Proof. intros b. unfold stream_write. destruct (b_streams b !! uid); by eexists _, _. Qed.
Lemma quiet_logf uid t : quiet (logf uid t).
Proof. apply quiet_write. Qed.
Lemma quiet_emit t p s d : quiet (emit_event has_bus t p s d).
Proof. intros b. unfold emit_event. destruct has_bus; by eexists _, _. Qed.
Lemma quiet_streams f g : quiet (set_streams f g).
Proof. intros b. by eexists _, _. Qed.
Lemma quiet_blob d : quiet (on_blobs (blob_Put d)).
Proof.
  intros b. unfold on_blobs, blob_Put. destruct (blobs _ !! _); [|destruct (blob_writable _)];
    (eexists _, _; split; [reflexivity|done]).
Qed.
Lemma quiet_deploy f c : quiet (deploy f c).
Proof.
  intros b. unfold deploy. destruct (bool_decide _).
  - destruct (b_fc b) as [t|]; [|by eexists _, _]. destruct (deploy2_returns f c t) as (e & t' & ->). by eexists _, _.
  - destruct (b_wasm b) as [t|]; [|by eexists _, _]. destruct (deploy1_returns f c t) as (e & t' & ->). by eexists _, _.
Qed.
Lemma calm_world {A} (m : M World A) : world_safe m → calm (on_world m).
Proof. intros Hm b Ho. destruct (Hm _ Ho) as (a & w & Ew & Ow). unfold on_world. rewrite Ew. by eexists _, _. Qed.
Lemma calm_now : calm (on_world now).
Proof. apply calm_world, now_safe. Qed.
Lemma calm_put_function f : calm (on_world (PutFunction f)).
Proof. apply calm_world, putScoped_safe. set_solver. Qed.
Lemma calm_put_build x : calm (on_world (PutBuild x)).
Proof. apply calm_world, putScoped_safe. set_solver. Qed.
Lemma calm_reveal m p n : calm (on_world (Reveal m p n)).
Proof. apply calm_world, Reveal_safe. Qed.

Let e_temp := temp_returns (E:=E) (Repo:=Repo) (T1:=T1) (T2:=T2).
Let e_clone := clone_returns (E:=E) (Repo:=Repo) (T1:=T1) (T2:=T2).
Let e_resolve := resolve_returns (E:=E) (Repo:=Repo) (T1:=T1) (T2:=T2).
Let e_checkout := checkout_returns (E:=E) (Repo:=Repo) (T1:=T1) (T2:=T2).
Let e_head := head_returns (E:=E) (Repo:=Repo) (T1:=T1) (T2:=T2).
Let e_cmd := cmd_returns (E:=E) (Repo:=Repo) (T1:=T1) (T2:=T2).
Let e_tar := tar_returns (E:=E) (Repo:=Repo) (T1:=T1) (T2:=T2).
#[local] Hint Resolve e_temp e_clone e_resolve e_checkout e_head e_cmd e_tar : calm.
#[local] Hint Resolve quiet_ret quiet_gets quiet_host quiet_files quiet_write quiet_logf quiet_emit quiet_streams quiet_blob quiet_deploy quiet_for_each : calm.
#[local] Hint Resolve calm_now calm_put_function calm_put_build calm_reveal : calm.
#[local] Hint Extern 5 (calm _) => apply quiet_calm; solve [eauto 4 with calm] : calm.

(** One operation after the other, whatever the branches. *)
Ltac go_step :=
  match goal with
  | |- quiet (mbind _ _) => apply quiet_bind; [|intros ?]
  | |- calm (mbind _ _) => apply calm_bind; [|intros ?]
  | |- quiet (match ?x with _ => _ end) => destruct x
  | |- calm (match ?x with _ => _ end) => destruct x
  | |- quiet (try_bind _ _) => unfold try_bind
  | |- calm (try_bind _ _) => unfold try_bind
  | |- quiet (check _ _) => unfold check
  | |- calm (check _ _) => unfold check
  | |- quiet (guard_err _ _) => unfold guard_err
  | |- calm (guard_err _ _) => unfold guard_err
  | |- _ => solve [eauto 4 with calm]
  end.
Ltac go := cbv zeta; repeat go_step.

Lemma openStream_quiet uid : quiet (openStream dataDir uid).
Proof. unfold openStream, newLogStream. go. Qed.
Lemma closeStream_quiet uid : quiet (closeStream uid).
Proof. unfold closeStream. go. Qed.
Lemma streamed_quiet uid d e a : quiet (streamed uid d e a).
Proof. unfold streamed. go. Qed.
Lemma runSandbox_quiet uid s o r : quiet (runSandbox uid s o r).
Proof.
  assert (H1 := streamed_quiet). unfold runSandbox, runWithCtr, runOnHost. go.
Qed.
Lemma readArtifact_quiet s o p : quiet (readArtifact s o p).
Proof. unfold readArtifact. go. Qed.
Lemma produce_quiet uid f s o r : quiet (produce uid f s o r).
Proof. assert (H1 := runSandbox_quiet). assert (H2 := readArtifact_quiet). unfold produce. go. Qed.
Lemma clone_calm f into : calm (clone secrets f into).
Proof. unfold clone, clone_auth, clone_by_revision. go. Qed.
Lemma cloneToTemp_calm uid f : calm (cloneToTemp secrets dataDir uid f).
Proof. assert (H1 := clone_calm). unfold cloneToTemp. go. Qed.

(** *** The verdict *)

(** The store holds a finished record under the key. *)
Definition verdict (k : string) b : Prop :=
  ∃ x : Build, stored (b_world b) "builds" k = Some (enc x) ∧ (Build_Status x = PhaseSucceeded ∨ Build_Status x = PhaseFailed).
Definition ends (k : string) {A} (m : M B A) : Prop :=
  ∀ b, bopened b → ∃ a b', m b = Ret a b' ∧ bopened b' ∧ b_queue b' = b_queue b ∧ verdict k b'.

Lemma ends_after {A C} k (m : M B A) (f : A → M B C) : calm m → (∀ a, ends k (f a)) → ends k (m ≫= f).
Proof.
  intros Hm Hf b Ho. destruct (Hm b Ho) as (a & b1 & E1 & O1 & Q1). destruct (Hf a b1 O1) as (c & b2 & E2 & O2 & Q2 & V).
  exists c, b2. rewrite (bind_ret_run _ _ _ _ _ E1). split_and!; [done|done|congruence|done].
Qed.
Lemma ends_before {A C} k (m : M B A) (f : A → M B C) : ends k m → (∀ a, quiet (f a)) → ends k (m ≫= f).
Proof.
  intros Hm Hf b Ho. destruct (Hm b Ho) as (a & b1 & E1 & O1 & Q1 & x & V). destruct (Hf a b1) as (c & b2 & E2 & W2 & Q2).
  exists c, b2. rewrite (bind_ret_run _ _ _ _ _ E1). unfold bopened, verdict in *. rewrite W2.
  split_and!; [done|done|congruence|eauto].
Qed.

Lemma PutBuildRec_run (x : Build) b :
  bopened b → storable x →
  ∃ b', PutBuildRec x b = Ret (final (env (b_world b)) x) b' ∧ bopened b' ∧ b_queue b' = b_queue b ∧ b_streams b' = b_streams b ∧
    stored (b_world b') "builds" (build_key x) = Some (enc (final (env (b_world b)) x)).
Proof.
  intros Ho Hx. destruct (PutBuild_stores x (b_world b) Ho Hx) as (w & Ew & Ow & Hst).
  unfold PutBuildRec, mbind, M_bind, on_world. rewrite Ew. by eexists _.
Qed.
Lemma ends_put (x : Build) : storable x → Build_Status x = PhaseSucceeded ∨ Build_Status x = PhaseFailed → ends (build_key x) (PutBuildRec x).
Proof.
  intros Hx Ht b Ho. destruct (PutBuildRec_run x b Ho Hx) as (b' & Ep & O & Q & _ & Hst).
  eexists _, b'. split_and!; [exact Ep|done|done|]. eexists. split; [exact Hst|].
  by destruct (final_storable (env (b_world b)) x Hx) as (_ & _ & _ & ->).
Qed.
Lemma ends_put_then {C} k (x : Build) (f : Build → M B C) :
  storable x →
  (∀ x', storable x' → build_key x' = build_key x → Meta_UID (Build_Meta x') = Meta_UID (Build_Meta x) → ends k (f x')) →
  ends k (PutBuildRec x ≫= f).
Proof.
  intros Hx Hf b Ho. destruct (PutBuildRec_run x b Ho Hx) as (b1 & E1 & O1 & Q1 & _ & _).
  destruct (final_storable (env (b_world b)) x Hx) as (Hx' & Hk & Hu & _).
  destruct (Hf _ Hx' Hk Hu b1 O1) as (c & b2 & E2 & O2 & Q2 & V). exists c, b2.
  rewrite (bind_ret_run _ _ _ _ _ E1). split_and!; [done|done|congruence|done].
Qed.

(** The record written has the key of [x]. *)
Ltac apply_ends_put :=
  match goal with |- ends (build_key ?x) (PutBuildRec ?y) => change (build_key x) with (build_key y) end; apply ends_put.

Lemma failBuild_ends f x err : storable x → ends (build_key x) (failBuild has_bus f x err).
Proof.
  intros Hx. unfold failBuild. apply ends_after; [eauto with calm|intros _]. apply ends_after; [eauto with calm|intros t].
  apply ends_before; [|intros _; eauto with calm]. apply_ends_put; [exact Hx|by right].
Qed.
Lemma succeedBuild_ends f x id sha : storable x → ends (build_key x) (succeedBuild has_bus f x id sha).
Proof.
  intros Hx. unfold succeedBuild. cbv zeta.
  apply ends_after; [eauto with calm|intros t]. apply ends_after; [eauto with calm|intros [f' e]].
  apply ends_after; [go|intros _]. apply ends_after; [eauto with calm|intros t'].
  apply ends_before; [apply_ends_put; [exact Hx|by left]|intros _; go].
Qed.

Lemma build_checkout_ends f x src sha : storable x → ends (build_key x) (build_checkout has_bus dataDir f x src sha).
Proof.
  intros Hx. unfold build_checkout. cbv zeta. apply ends_put_then; [exact Hx|].
  intros x' Hx' Hk _. change (build_key { x with Build_CommitSHA := sha }) with (build_key x) in Hk. rewrite <-Hk.
  apply ends_after; [eauto with calm|intros files].
  assert (Hfail : ∀ err, ends (build_key x') (failBuild has_bus f x' err ;; mret (M:=M B) (None : option string))).
  { intros err. apply ends_before; [by apply failBuild_ends|intros _; eauto with calm]. }
  destruct (detect _ _ _ _) as [r|err]; [|apply Hfail].
  apply ends_after; [eauto with calm|intros _]. apply ends_after; [go|intros _].
  apply ends_after; [eauto with calm|intros [err|]]; [apply Hfail|].
  apply ends_after; [apply quiet_calm, produce_quiet|intros p].
  apply ends_before; [|intros _; eauto with calm].
  destruct p; [by apply succeedBuild_ends|by apply failBuild_ends].
Qed.

Definition cleaned (x : Build) (tmp out : option string) : M B () :=
  match out with Some d => on_files (RemoveAll d) ;; mret () | None => mret () end ;;
  match tmp with Some d => on_files (RemoveAll d) ;; mret () | None => mret () end.

(** Everything done with the slot. *)
Lemma in_slot_run f x b :
  bopened b → storable x →
  ∃ b', in_slot secrets has_bus dataDir f x b = Ret () b' ∧ bopened b' ∧ verdict (build_key x) b' ∧
    b_queue b' = (match b_queue b !! fnKey f with Some n => <[fnKey f := pred n]> (b_queue b) | None => b_queue b end) ∧
    b_streams b' !! Meta_UID (Build_Meta x) = None.
Proof.
  intros Ho Hx. set (uid := Meta_UID (Build_Meta x)).
  pose (body := ('(tmp, r) ← cloneToTemp secrets dataDir uid f;
                 out ← match r with
                       | Err e => failBuild has_bus f x e ;; mret None
                       | Ok (src, sha) => build_checkout has_bus dataDir f x src sha
                       end;
                 cleaned x tmp out) : M B ()).
  assert (He : ends (build_key x) body).
  { unfold body. apply ends_after; [apply cloneToTemp_calm|]. intros [tmp r]. apply ends_before.
    - destruct r as [[src sha]|e]; [by apply build_checkout_ends|].
      apply ends_before; [by apply failBuild_ends|intros _; eauto with calm].
    - intros out. unfold cleaned. go. }
  destruct (He b Ho) as (u & b1 & E1 & O1 & Q1 & V1). destruct u.
  assert (E2 : in_slot secrets has_bus dataDir f x b = (release (fnKey f) ;; closeStream uid) b1).
  { transitivity ((body ;; (release (fnKey f) ;; closeStream uid)) b); [|by rewrite (bind_ret_run _ _ _ _ _ E1)].
    unfold in_slot, body, cleaned, mbind, M_bind. cbv zeta. fold uid.
    destruct (cloneToTemp _ _ _ _ _) as [[tmp r] b2|]; [|done].
    destruct r as [[src sha]|e]; [destruct (build_checkout _ _ _ _ _ _ _) as [out b3|]; [|done]|].
    2: destruct (failBuild _ _ _ _ _) as [out b3|]; [|done]; unfold mret, M_ret.
    all: destruct out, tmp; unfold mret, M_ret; repeat case_match; by simplify_eq. }
  rewrite E2. unfold release, set_queue, modify, mbind, M_bind. unfold closeStream, gets, mbind, M_bind. cbn [b_streams].
  destruct (b_streams b1 !! uid) eqn:Es; (eexists; split; [reflexivity|]); unfold bopened, verdict in *; cbn [b_world b_queue b_streams] in *;
    rewrite Q1; split_and!; try done.
  by rewrite lookup_delete_eq.
Qed.

Lemma begin_build_run f x b :
  bopened b → storable x →
  ∃ x' b', begin_build has_bus dataDir f x b = Ret x' b' ∧ bopened b' ∧ b_queue b' = b_queue b ∧ storable x' ∧
    build_key x' = build_key x ∧ Meta_UID (Build_Meta x') = Meta_UID (Build_Meta x).
Proof.
  intros Ho Hx. unfold begin_build. destruct (calm_now b Ho) as (t & b1 & E1 & O1 & Q1). rewrite (bind_ret_run _ _ _ _ _ E1).
  set (y := { x with Build_Status := PhaseRunning; Build_StartedAt := t }).
  destruct (PutBuildRec_run y b1 O1 Hx) as (b2 & E2 & O2 & Q2 & _). rewrite (bind_ret_run _ _ _ _ _ E2). cbv zeta.
  destruct (final_storable (env (b_world b1)) y Hx) as (Hx' & Hk & Hu & _). set (x' := final _ y) in *.
  assert (Hq : calm (openStream dataDir (Meta_UID (Build_Meta x')) ;;
    logf (Meta_UID (Build_Meta x')) ("==> build " +:+ Meta_UID (Build_Meta x') +:+ " (function " +:+ Meta_Name (Function_Meta f) +:+ ", trigger " +:+ Build_Trigger x' +:+ ")") ;;
    emit_event has_bus "build.started" (Meta_Project (Function_Meta f)) (Meta_Name (Function_Meta f))
      {["build" := Meta_UID (Build_Meta x'); "function" := Meta_Name (Function_Meta f)]} ;; mret (M:=M B) x')).
  { assert (H1 := openStream_quiet). go. }
  destruct (Hq b2 O2) as (x'' & b3 & E3 & O3 & Q3). assert (x'' = x') as ->.
  { unfold mbind, M_bind in E3. repeat (case_match; try done). by injection E3 as <- _. }
  exists x', b3. split_and!; [exact E3|done|congruence|done|exact Hk|exact Hu].
Qed.

(** C11 A build whose slot is free always comes to an end, whatever the
    repository holds, however the commands, the git library, the file system
    and the runtimes fail, as long as they return: the run returns, its record
    in the store says [Succeeded] or [Failed], its log stream is no longer
    open and its function's slot is free again. *)
Theorem build_reaches_a_verdict (f : Function) (x : Build) b :
  bopened b → storable x → default O (b_queue b !! fnKey f) = O →
  ∃ b', runBuild secrets has_bus dataDir f x b = Ret true b' ∧ verdict (build_key x) b' ∧
    default O (b_queue b' !! fnKey f) = O ∧ b_streams b' !! Meta_UID (Build_Meta x) = None.
Proof.
  intros Ho Hx Hfree. unfold runBuild.
  destruct (begin_build_run f x b Ho Hx) as (x' & b1 & E1 & O1 & Q1 & Hx' & Hk & Hu). rewrite (bind_ret_run _ _ _ _ _ E1).
  assert (Ea : acquire (fnKey f) b1 = Ret true (mkB (b_world b1) (b_blobs b1) (b_host b1) (b_wasm b1) (b_fc b1) (b_events b1)
                (<[fnKey f := 1%nat]> (b_queue b1)) (b_streams b1) (b_closed b1))).
  { rewrite <-Q1 in Hfree. unfold acquire, gets, mbind, M_bind. by rewrite Hfree. }
  rewrite (bind_ret_run _ _ _ _ _ Ea). cbv beta iota.
  match goal with |- context [mkB ?w ?bl ?h ?t1 ?t2 ?ev ?q ?st ?cl] => set (b2 := mkB w bl h t1 t2 ev q st cl) end.
  destruct (in_slot_run f x' b2 O1 Hx') as (b3 & E3 & O3 & V3 & Q3 & S3). rewrite (bind_ret_run _ _ _ _ _ E3).
  exists b3. rewrite Hk in V3. rewrite Hu in S3. split_and!; [done|done| |done].
  rewrite Q3. unfold b2. cbn [b_queue]. rewrite lookup_insert_eq. cbv beta iota. by rewrite lookup_insert_eq.
Qed.
End Life.

(** ** Witnesses *)

(** A repository of one file, [go.mod]; a tool chain that leaves [wasm] in the
    output directory mounted in the sandbox. *)
Definition bind_src (m : string) : string :=
  let t := trim_prefix m "type=bind,src=" in match index_byte t "," with Some i => take_str i t | None => t end.
#[local] Instance demo_env : BuildEnv unit unit := {
  MkdirTemp d := λ h, match MkdirAll (Join [d; "src-1"]) h.1 with Ret _ f => Ret (Ok (Join [d; "src-1"])) (f, h.2) | Panic => Panic end;
  PlainClone into _ := λ h, match WriteFile (Join [into; "go.mod"]) "module m" h.1 with Ret _ f => Ret (Ok ()) (f, h.2) | Panic => Panic end;
  ResolveRevision _ _ := mret (Err (ErrMsg "reference not found"));
  Worktree _ := None;
  Checkout _ _ := mret None;
  Head _ := mret (Ok "0123456789abcdef0123456789abcdef01234567");
  has_ctr _ := true;
  run_cmd _ _ argv := λ h,
    match argv !! 8%nat with
    | Some m => match WriteFile (Join [bind_src m; "handler.wasm"]) "wasm" h.1 with Ret _ f => Ret (["ok"], None) (f, h.2) | Panic => Panic end
    | None => Ret ([], None) h
    end;
  run_tar _ := mret (Err (ErrMsg "exit status 2"));
}.
Lemma demo_returns : EnvReturns unit unit FnStub FnStub.
Proof.
  split; try (intros; intros ?; eexists _, _; reflexivity).
  - intros d h. unfold MkdirTemp, demo_env. destruct (MkdirAll_returns (Join [d; "src-1"]) h.1) as (e & f & ->). by eexists _, _.
  - intros p o h. unfold PlainClone, demo_env. destruct (WriteFile_returns (Join [p; "go.mod"]) "module m" h.1) as (e & f & ->). by eexists _, _.
  - intros d e argv h. unfold run_cmd, demo_env. destruct (argv !! 8%nat) as [m|]; [|by eexists _, _].
    destruct (WriteFile_returns (Join [bind_src m; "handler.wasm"]) "wasm" h.1) as (e' & f & ->). by eexists _, _.
Qed.

Definition demo_source (output : string) (commands : list string) : FunctionSource :=
  mkFunctionSource "git" (Some (mkGitSourceSpec "https://git.example/m" "" "" "" "" "" (mkBuildSpec "" "" commands output [] ""))).
Definition demo_function (output : string) (commands : list string) : Function := mkFunction
  (mkMeta "p" "hi" "uid-1" 1 zero_time zero_time ∅) FunctionRuntimeWasm "" "" (demo_source output commands) [] ∅ [] 0 0 "" zero.
Definition demo_builder : B (E:=unit) (T1:=FnStub) (T2:=FnStub) :=
  mkB (Open bolt_new (mkEnv (λ n, Time (Z.of_nat n)) 0 (λ n, pretty (N.of_nat n)) 0)) (mkBlobStore ∅ true)
    (default empty_fs (exec (MkdirAll "/etc" ;; WriteFile "/etc/secret" "host") empty_fs), ()) (Some (mkFnStub ∅)) None [] ∅ ∅ ∅.
Definition demo_build : Build := { (zero (A:=Build)) with Build_Meta := mkMeta "p" "build-1" "1" 0 zero_time zero_time ∅; Build_Trigger := "manual" }.

Theorem build_reaches_a_verdict_witness :
  ∃ b', runBuild None true "/data" (demo_function "" []) demo_build demo_builder = Ret true b' ∧ verdict "p/build-1" b'.
Proof.
  destruct (build_reaches_a_verdict (ER:=demo_returns) None true "/data" (demo_function "" []) demo_build demo_builder) as (b' & E & V & _).
  - apply Open_opened.
  - split_and!; [discriminate|discriminate|vm_compute; reflexivity].
  - reflexivity.
  - exists b'. split; [exact E|exact V].
Defined.

(** What a run leaves: the record, the runtime, the temporary files. *)
Definition outcome_of (f : Function) : option (option string * option (gmap string string)) :=
  match runBuild None true "/data" f demo_build demo_builder with
  | Ret _ b => Some (match stored (b_world b) "builds" "p/build-1" ≫= dec (A:=Build) with Some x => Some (Build_Status x) | None => None end,
                     funcs <$> b_wasm b)
  | Panic => None
  end.
Example demo_build_succeeds : outcome_of (demo_function "" []) = Some (Some "Succeeded", Some {["p/hi" := "wasm"]}).
Proof. vm_compute. reflexivity. Qed.

(** A rooted output path is read as it is: a build may name any file of the
    host, and what it holds becomes the function's code. *)
Theorem output_may_name_any_host_file :
  outcome_of (demo_function "/etc/secret" ["true"]) = Some (Some "Succeeded", Some {["p/hi" := "host"]}).
Proof. vm_compute. reflexivity. Qed.

(** A build writes back the function it was triggered with: what was
    changed since (here its environment, while the build waited) is lost. *)
Theorem build_overwrites_later_edits :
  let f := demo_function "" [] in
  let run : M (B (E:=unit) (T1:=FnStub) (T2:=FnStub)) (res Function) :=
    (on_world (PutFunction f) ;;
     on_world (PutFunction { f with Function_Env := {["K" := "new"]} }) ;;
     runBuild None true "/data" f demo_build ;;
     on_world (GetFunction "p" "hi")) in
  (λ r, Function_Env <$> res_option r) <$> eval run demo_builder = Some (Some ∅).
Proof. vm_compute. reflexivity. Qed.
