(* ===== verification/Http.v ===== *)
(** The API server's frame (internal/api/server.go, runtime.go, readiness.go
    and the helpers of handlers.go): requests and responses, the two
    middlewares that decide who is served and where, the error mapping, the
    ring of recent invocations and the readiness tracker.

    net/http is the Go library: a request is what a handler reads of it (its
    JSON body already parsed, since the syntax is encoding/json's), a response
    what it writes. *)

From S2P Require Import Prelude GoTime Json Types Bolt Store StoreOps Text Random Secrets Auth Bus Replication Wasm Dispatcher.

(** ** Requests and responses *)

Record HttpRequest := mkHttpRequest {
  r_Method : string;
  r_Path : string;                        (** [r.URL.Path] *)
  r_RequestURI : string;
  r_Query : gmap string string;           (** the first value of each key *)
  r_Header : gmap string (list string);   (** by canonical name *)
  r_Body : string;
  r_Json : option json;                   (** the body as JSON, if it is JSON *)
}.

(** [r.Header.Get] and [r.URL.Query().Get] *)
Definition header_get (r : HttpRequest) (name : string) : string :=
  default "" (head (default [] (r_Header r !! canonicalKey name))).
Definition query_get (r : HttpRequest) (name : string) : string := default "" (r_Query r !! name).

(** [io.LimitReader(r.Body, n)] *)
Definition limit_reader (n : Z) (s : string) : string :=
  if Z.of_nat (String.length s) <=? n then s else take_str (Z.to_nat n) s.

Inductive RespBody := BNone | BJson (j : json) | BRaw (s : string).
Record Response := mkResponse {
  resp_Status : Z;
  resp_Header : gmap string (list string);
  resp_Body : RespBody;
}.

Definition json_header : gmap string (list string) := {["Content-Type" := ["application/json"]]}.
Definition writeJSON (status : Z) (j : json) : Response := mkResponse status json_header (BJson j).
(** A map literal marshals with its keys sorted. *)
Definition httpError (status : Z) (msg : string) : Response :=
  writeJSON status (JObj [("error", enc msg); ("status", JNum status)]).
Definition noContent : Response := mkResponse 204 ∅ BNone.

Definition decodeJSON {A} `{Json A} (r : HttpRequest) : res A :=
  match r_Json r ≫= dec with Some v => Ok v | None => Err ErrUnmarshal end.

(** [mapStoreErr] *)
Definition storeErrStatus (e : error) : Z :=
  if errors_is e ErrNotFound then 404
  else if errors_is e ErrAlreadyExists then 409
  else if errors_is e ErrConflict then 409
  else if errors_is e ErrNotLeader then 503
  else 500.
Definition mapStoreErr (e : error) : Response := httpError (storeErrStatus e) (error_text e).

(** [CopyResponse] of wasm/runtime.go *)
Definition CopyResponse (r : InvokeResponse) : Response :=
  mkResponse (if InvokeResponse_Status r =? 0 then 200 else InvokeResponse_Status r)
    (InvokeResponse_Headers r) (BRaw (InvokeResponse_Body r)).

(** ** Recent invocations *)

Record invocationRecord := mkInvocationRecord {
  inv_At : time;
  inv_Method : string;
  inv_Path : string;
  inv_Status : Z;
  inv_DurMS : Z;
  inv_BodyKB : Z;
  inv_Error : string;
  inv_LogsTail : string;
}.
Record invocationRing := mkRing { rings : gmap string (list invocationRecord); ring_size : Z }.

Definition newInvocationRing (size : Z) : invocationRing := mkRing ∅ (if size <=? 0 then 100 else size).

Definition ring_record (key : string) (rec : invocationRecord) (r : invocationRing) : invocationRing :=
  let buf := default [] (rings r !! key) ++ [rec] in
  let buf := if ring_size r <? Z.of_nat (length buf)
             then drop (Z.to_nat (Z.of_nat (length buf) - ring_size r)) buf else buf in
  mkRing (<[key := buf]> (rings r)) (ring_size r).
Definition ring_list (key : string) (r : invocationRing) : list invocationRecord :=
  reverse_in_place (default [] (rings r !! key)).

(** U+2026, in UTF-8. *)
Definition ellipsis : string := of_bytes [226; 128; 166].
Definition tailString (s : string) (n : nat) : string :=
  if (String.length s <=? n)%nat then s else ellipsis +:+ drop_str (String.length s - n) s.

(** ** Readiness *)

Record readyState := mkReadyState { rs_required : bool; rs_ready : bool; rs_message : string; rs_updated : time }.
Definition readiness := gmap string readyState.

Definition Require (name : string) (t : time) (r : readiness) : readiness :=
  match r !! name with
  | Some _ => r
  | None => <[name := mkReadyState true false "" t]> r
  end.
Definition Mark (name : string) (ok : bool) (msg : string) (t : time) (r : readiness) : readiness :=
  let required := match r !! name with Some st => rs_required st | None => true end in
  <[name := mkReadyState required ok msg t]> r.
Definition readySnapshot (r : readiness) : bool * list (string * readyState) :=
  (forallb (λ x, negb (rs_required x.2 && negb (rs_ready x.2))) (map_to_list r), sorted_entries r).
Definition handleReady (r : option readiness) : Z * bool :=
  match r with
  | None => (200, true)
  | Some r => let overall := (readySnapshot r).1 in (if overall then 200 else 503, overall)
  end.

(** ** The server

    [T1] and [T2] are the states of the Wasm and Firecracker runtimes, absent
    ([None]) when the server has none; [New] always makes the ring. *)

Record Srv `{Bolt} (T1 T2 : Type) := mkSrv {
  srv_sys : Sys;
  srv_wasm : option T1;
  srv_fcracker : option T2;
  srv_blobs : option BlobStore;
  srv_invocations : invocationRing;
}.
Arguments mkSrv {_ _ _} _ _ _ _ _.
Arguments srv_sys {_ _ _} _.
Arguments srv_wasm {_ _ _} _.
Arguments srv_fcracker {_ _ _} _.
Arguments srv_blobs {_ _ _} _.
Arguments srv_invocations {_ _ _} _.

(** The optional git builder. *)
Class BuilderHook `{Bolt} := Trigger : Function → string → M World (res Build).

Section Server.
Context `{Bolt} {T1 T2 : Type}.
Implicit Types s : Srv T1 T2.

Definition on_sys {A} (m : M Sys A) : M (Srv T1 T2) A := λ s,
  match m (srv_sys s) with
  | Ret a y => Ret a (mkSrv y (srv_wasm s) (srv_fcracker s) (srv_blobs s) (srv_invocations s))
  | Panic => Panic
  end.
Definition on_store {A} (m : M World A) : M (Srv T1 T2) A := on_sys (lift m).

Definition record_invocation (key : string) (rec : invocationRecord) : M (Srv T1 T2) () :=
  modify (λ s, mkSrv (srv_sys s) (srv_wasm s) (srv_fcracker s) (srv_blobs s)
                 (ring_record key rec (srv_invocations s))).
Definition handleListFunctionInvocations (project name : string) : M (Srv T1 T2) (list invocationRecord) :=
  gets (λ s, ring_list (project +:+ "/" +:+ name) (srv_invocations s)).

(** [if mapStoreErr(w, err) { return }] around a call that returns a value,
    and around one that returns only an error. *)
Definition or_store_err {A} (m : M (Srv T1 T2) (res A)) (k : A → M (Srv T1 T2) Response) : M (Srv T1 T2) Response :=
  r ← m; match r with Ok a => k a | Err e => mret (mapStoreErr e) end.
Definition or_error {A} (status : Z) (m : M (Srv T1 T2) (res A)) (k : A → M (Srv T1 T2) Response) :
    M (Srv T1 T2) Response :=
  r ← m; match r with Ok a => k a | Err e => mret (httpError status (error_text e)) end.

(** ** Authentication middleware *)

Definition bearer : string := "bearer ".
Definition requestToken (r : HttpRequest) : string :=
  let header := header_get r "authorization" in
  if has_prefix (to_lower header) bearer then trim_space (drop_str (String.length bearer) header)
  else query_get r "access_token".

Definition requireAuth `{Crypto} (next : Identity → HttpRequest → M (Srv T1 T2) Response) (adminOnly : bool)
    (r : HttpRequest) : M (Srv T1 T2) Response :=
  let token := requestToken r in
  if bool_decide (token = "") then mret (httpError 401 "missing bearer token")
  else
    id ← on_store (ResolveToken token);
    match id with
    | Err _ => mret (httpError 401 "invalid token")
    | Ok id => if adminOnly && negb (Identity_IsAdmin id) then mret (httpError 403 "admin only") else next id r
    end.

(** ** Leader redirection *)

Definition exempt_prefixes : list string :=
  ["/healthz"; "/readyz"; "/api/v1/meta"; "/api/v1/setup/"; "/api/v1/auth/login"; "/api/v1/cluster/join";
   "/fn/"; "/webhooks/"; "/s3/"; "/assets"].
Definition exempt (path : string) : bool :=
  existsb (has_prefix path) exempt_prefixes || bool_decide (path = "/") || negb (has_prefix path "/api/").

Definition leaderAPIAddr (raftAddr : string) : M (Srv T1 T2) string :=
  nodes ← on_store ListNodes;
  mret match nodes with
       | Err _ => ""
       | Ok nodes =>
         match List.find (λ n, bool_decide (Node_RaftAddress n = raftAddr) && negb (bool_decide (Node_APIAddress n = "")))
                 nodes with
         | Some n => Node_APIAddress n
         | None => ""
         end
       end.

(** The raft handle together with the address [LeaderAddr] reports. *)
Definition leaderRedirect (raft : option (Raft * string)) (next : HttpRequest → M (Srv T1 T2) Response)
    (r : HttpRequest) : M (Srv T1 T2) Response :=
  match raft with
  | None => next r
  | Some (raft, leaderAddr) =>
    if bool_decide (r_Method r ∈ ["GET"; "HEAD"; "OPTIONS"]) then next r
    else if exempt (r_Path r) then next r
    else if raft_leader raft then next r
    else if bool_decide (leaderAddr = "") then mret (httpError 503 "no raft leader yet")
    else
      apiAddr ← leaderAPIAddr leaderAddr;
      if bool_decide (apiAddr = "") then mret (httpError 503 "leader api address unknown")
      else mret (mkResponse 307 {["Location" := ["https://" +:+ apiAddr +:+ r_RequestURI r]]} BNone)
  end.

(** ** CORS *)

Definition cors_headers (origin : string) : gmap string (list string) :=
  <["Access-Control-Allow-Origin" := [origin]]> (
  <["Access-Control-Allow-Credentials" := ["true"]]> (
  <["Access-Control-Allow-Headers" := ["authorization, content-type"]]> (
  {["Access-Control-Allow-Methods" := ["GET,POST,PUT,DELETE,PATCH,OPTIONS"]]}))).
Definition cors (next : HttpRequest → M (Srv T1 T2) Response) (r : HttpRequest) : M (Srv T1 T2) Response :=
  let origin := header_get r "origin" in
  let hs := if bool_decide (origin = "") then ∅ else cors_headers origin in
  if bool_decide (r_Method r = "OPTIONS") then mret (mkResponse 204 hs BNone)
  else
    resp ← next r;
    mret (mkResponse (resp_Status resp) (resp_Header resp ∪ hs) (resp_Body resp)).
End Server.
