(* ===== verification/Routes.v ===== *)
(** The URL space (internal/api/routes.go): which handler serves a request,
    with which path values, and behind which middlewares.

    [http.ServeMux] is the Go library's: patterns with a method, literal and
    named segments and a trailing slash; a literal wins over a name, a name
    over a trailing slash, a pattern for the method over one for any method. *)

From Stdlib Require Import Ascii.
From S2P Require Import Prelude GoTime Json Types Bolt Store StoreOps Text Random Secrets Auth Replication Path Http.

#[local] Arguments String.append : simpl nomatch.

Module Routes.

(** ** net/http: patterns and paths *)

Inductive pseg := Lit (s : string) | Wild (name : string) | Multi.
Record pattern (T : Type) := mkPattern { pat_Method : string; pat_Segs : list pseg; pat_Target : T }.
Arguments mkPattern {T} _ _ _.
Arguments pat_Method {T} _.
Arguments pat_Segs {T} _.
Arguments pat_Target {T} _.

Definition parse_seg (last : bool) (s : string) : pseg :=
  if last && bool_decide (s = "") then Multi
  else match s with
       | String "{" r => Wild (take_str (String.length r - 1) r)
       | _ => Lit s
       end.
Fixpoint parse_segs (l : list string) : list pseg :=
  match l with [] => [] | [s] => [parse_seg true s] | s :: l => parse_seg false s :: parse_segs l end.
(** ["GET /a/{b}/"]; without a method, every method. *)
Definition parse_pattern {T} (x : string * T) : pattern T :=
  match index_byte x.1 (ascii_of_N 32) with
  | Some i => mkPattern (take_str i x.1) (parse_segs (split_on slash (drop_str (i + 2) x.1))) x.2
  | None => mkPattern "" (parse_segs (split_on slash (drop_str 1 x.1))) x.2
  end.

(** [cleanPath] *)
Definition cleanPath (p : string) : string :=
  if bool_decide (p = "") then "/"
  else
    let p := if has_prefix p "/" then p else "/" +:+ p in
    let np := Clean p in
    if has_suffix p "/" && negb (bool_decide (np = "/")) then np +:+ "/" else np.

(** [url.PathUnescape]; a text that is not valid is left as it is. *)
Fixpoint unescape_go (s : string) : option string :=
  match s with
  | EmptyString => Some ""
  | String a r =>
    if (a =? "%")%char then
      match r with
      | String x (String y r') => hi ← unhex x; lo ← unhex y; String (ascii_of_N (16 * hi + lo)) <$> unescape_go r'
      | _ => None
      end
    else String a <$> unescape_go r
  end.
Definition pathUnescape (s : string) : string := default s (unescape_go s).

(** The segments of a path, its trailing slash one of them. *)
Definition path_segs (p : string) : list string :=
  (λ x, if bool_decide (x = "") then "/" else pathUnescape x) <$> split_on slash (drop_str 1 p).

(** The patterns still possible after a segment. *)
Definition after_lit {T} (s : string) (c : list pseg * T) : option (list pseg * T) :=
  match c.1 with Lit l :: r => if bool_decide (l = s) then Some (r, c.2) else None | _ => None end.
Definition after_wild {T} (c : list pseg * T) : option (list pseg * T) :=
  match c.1 with Wild _ :: r => Some (r, c.2) | _ => None end.
Definition at_end {T} (c : list pseg * T) : option T := match c.1 with [] => Some c.2 | _ => None end.
Definition at_multi {T} (c : list pseg * T) : option T := match c.1 with Multi :: _ => Some c.2 | _ => None end.

(** [matchPath]: the target and the path values, in order. *)
Fixpoint match_path {T} (cands : list (list pseg * T)) (segs : list string) : option (T * list string) :=
  match segs with
  | [] => (λ t, (t, [])) <$> head (omap at_end cands)
  | seg :: rest =>
    match match_path (omap (after_lit seg) cands) rest with
    | Some r => Some r
    | None =>
      match (if bool_decide (seg = "/") then None else match_path (omap after_wild cands) rest) with
      | Some (t, vs) => Some (t, seg :: vs)
      | None => (λ t, (t, [])) <$> head (omap at_multi cands)
      end
    end
  end.
Definition candidates {T} (meth : string) (ps : list (pattern T)) : list (list pseg * T) :=
  (λ p, (pat_Segs p, pat_Target p)) <$> List.filter (λ p, bool_decide (pat_Method p = meth)) ps.
(** [matchMethodAndPath] *)
Definition match_mux {T} (ps : list (pattern T)) (meth : string) (segs : list string) : option (T * list string) :=
  let at_method m := match_path (candidates m ps) segs in
  match at_method meth with
  | Some r => Some r
  | None =>
    match (if bool_decide (meth = "HEAD") then at_method "GET" else None) with
    | Some r => Some r
    | None => at_method ""
    end
  end.
Definition matching_methods {T} (ps : list (pattern T)) (segs : list string) : list string :=
  List.filter (λ m, bool_decide (is_Some (match_path (candidates m ps) segs))) ["DELETE"; "GET"; "PATCH"; "POST"; "PUT"].

(** ** The table *)

Definition public_routes : list (string * string) := [
  ("GET /healthz", "handleHealth");
  ("GET /readyz", "handleReady");
  ("GET /api/v1/meta", "handleMeta");
  ("POST /api/v1/setup/initialize", "handleInitialize");
  ("GET /api/v1/setup/status", "handleSetupStatus");
  ("POST /api/v1/cluster/join", "handleClusterJoin");
  ("POST /api/v1/auth/login", "handleLogin");
  ("/fn/", "handleFunctionInvoke");
  ("POST /webhooks/git/{token}", "handleGitWebhook");
  ("/s3/", "handleS3Proxy")].
Definition guarded_prefixes : list string := ["GET /api/v1/"; "POST /api/v1/"; "PUT /api/v1/"; "DELETE /api/v1/"; "PATCH /api/v1/"].
Definition auth_routes : list (string * string) := [
  ("GET /api/v1/auth/me", "handleMe");
  ("POST /api/v1/auth/tokens", "handleCreateToken");
  ("GET /api/v1/auth/tokens", "handleListTokens");
  ("DELETE /api/v1/auth/tokens/{name}", "handleDeleteToken");
  ("GET /api/v1/projects", "handleListProjects");
  ("POST /api/v1/projects", "handlePutProject");
  ("GET /api/v1/projects/{name}", "handleGetProject");
  ("DELETE /api/v1/projects/{name}", "handleDeleteProject");
  ("GET /api/v1/projects/{project}/containers", "handleListContainers");
  ("POST /api/v1/projects/{project}/containers", "handlePutContainer");
  ("GET /api/v1/projects/{project}/containers/{name}", "handleGetContainer");
  ("DELETE /api/v1/projects/{project}/containers/{name}", "handleDeleteContainer");
  ("POST /api/v1/projects/{project}/containers/{name}/start", "handleStartContainer");
  ("POST /api/v1/projects/{project}/containers/{name}/stop", "handleStopContainer");
  ("GET /api/v1/projects/{project}/containers/{name}/logs", "handleContainerLogs");
  ("GET /api/v1/projects/{project}/containers/{name}/logs/ws", "handleContainerLogsWS");
  ("GET /api/v1/projects/{project}/containers/{name}/exec", "handleContainerExecWS");
  ("GET /api/v1/projects/{project}/buckets", "handleListBuckets");
  ("POST /api/v1/projects/{project}/buckets", "handlePutBucket");
  ("GET /api/v1/projects/{project}/buckets/{name}", "handleGetBucket");
  ("DELETE /api/v1/projects/{project}/buckets/{name}", "handleDeleteBucket");
  ("GET /api/v1/projects/{project}/buckets/{name}/objects", "handleListObjects");
  ("PUT /api/v1/projects/{project}/buckets/{name}/objects", "handlePutObject");
  ("GET /api/v1/projects/{project}/buckets/{name}/object", "handleGetObject");
  ("DELETE /api/v1/projects/{project}/buckets/{name}/object", "handleDeleteObject");
  ("GET /api/v1/projects/{project}/access-keys", "handleListAccessKeys");
  ("POST /api/v1/projects/{project}/access-keys", "handleCreateAccessKey");
  ("GET /api/v1/projects/{project}/access-keys/{name}", "handleGetAccessKey");
  ("DELETE /api/v1/projects/{project}/access-keys/{name}", "handleDeleteAccessKey");
  ("GET /api/v1/projects/{project}/functions", "handleListFunctions");
  ("POST /api/v1/projects/{project}/functions", "handlePutFunction");
  ("GET /api/v1/projects/{project}/functions/{name}", "handleGetFunction");
  ("DELETE /api/v1/projects/{project}/functions/{name}", "handleDeleteFunction");
  ("POST /api/v1/projects/{project}/functions/{name}/code", "handleUploadFunctionCode");
  ("POST /api/v1/projects/{project}/functions/{name}/invoke", "handleInvokeFunction");
  ("GET /api/v1/projects/{project}/functions/{name}/invoke", "handleInvokeFunction");
  ("PUT /api/v1/projects/{project}/functions/{name}/invoke", "handleInvokeFunction");
  ("DELETE /api/v1/projects/{project}/functions/{name}/invoke", "handleInvokeFunction");
  ("PATCH /api/v1/projects/{project}/functions/{name}/invoke", "handleInvokeFunction");
  ("GET /api/v1/projects/{project}/functions/{name}/invocations", "handleListFunctionInvocations");
  ("GET /api/v1/projects/{project}/functions/{name}/builds", "handleListBuilds");
  ("POST /api/v1/projects/{project}/functions/{name}/builds", "handleTriggerBuild");
  ("GET /api/v1/projects/{project}/functions/{name}/builds/{id}", "handleGetBuild");
  ("GET /api/v1/projects/{project}/functions/{name}/builds/{id}/logs/ws", "handleBuildLogsWS");
  ("GET /api/v1/runtime/firecracker/templates", "handleListFirecrackerTemplates");
  ("GET /api/v1/projects/{project}/secrets", "handleListSecrets");
  ("POST /api/v1/projects/{project}/secrets", "handlePutSecret");
  ("GET /api/v1/projects/{project}/secrets/{name}", "handleGetSecret");
  ("DELETE /api/v1/projects/{project}/secrets/{name}", "handleDeleteSecret");
  ("POST /api/v1/projects/{project}/secrets/{name}/reveal", "handleRevealSecret");
  ("GET /api/v1/projects/{project}/event-rules", "handleListEventRules");
  ("POST /api/v1/projects/{project}/event-rules", "handlePutEventRule");
  ("GET /api/v1/projects/{project}/event-rules/{name}", "handleGetEventRule");
  ("DELETE /api/v1/projects/{project}/event-rules/{name}", "handleDeleteEventRule");
  ("GET /api/v1/projects/{project}/event-rules/{name}/deliveries", "handleListDeliveries");
  ("POST /api/v1/projects/{project}/event-rules/{name}/test", "handleTestRule");
  ("GET /api/v1/projects/{project}/events", "handleListEvents");
  ("GET /api/v1/projects/{project}/events/ws", "handleEventsWS");
  ("GET /api/v1/cluster", "handleGetCluster");
  ("GET /api/v1/cluster/nodes", "handleListNodes");
  ("POST /api/v1/cluster/join-tokens", "handleIssueJoinToken");
  ("GET /api/v1/cluster/join-tokens", "handleListJoinTokens");
  ("PUT /api/v1/cluster", "handlePutCluster")].

Inductive target := Handler (name : string) | RequireAuth | Dashboard.
Definition mux : list (pattern target) :=
  ((λ x, parse_pattern (x.1, Handler x.2)) <$> public_routes) ++
  ((λ p, parse_pattern (p, RequireAuth)) <$> guarded_prefixes) ++ [parse_pattern ("/", Dashboard)].
Definition auth_mux : list (pattern string) := parse_pattern <$> auth_routes.

(** What a request comes to. *)
Inductive refusal := Moved (path : string) | NoRoute | WrongMethod (allowed : list string).
Inductive route :=
  | Refused (x : refusal)
  | Open (handler : string) (values : list string)
  | Authenticated (inner : refusal + string * list string).
Definition auth_route (meth : string) (segs : list string) : refusal + string * list string :=
  match match_mux auth_mux meth segs with
  | Some r => inr r
  | None => inl (match matching_methods auth_mux segs with [] => NoRoute | ms => WrongMethod ms end)
  end.
Definition route_segs (meth : string) (segs : list string) : route :=
  match match_mux mux meth segs with
  | Some (Handler h, vs) => Open h vs
  | Some (RequireAuth, _) => Authenticated (auth_route meth segs)
  | Some (Dashboard, _) => Open "dashboardHandler" []
  | None => Refused NoRoute
  end.
Definition route_of (meth path : string) : route :=
  let cleaned := cleanPath path in
  if bool_decide (cleaned = path) then route_segs meth (path_segs path) else Refused (Moved cleaned).

(** ** Serving *)

Section Serve.
Context `{Crypto} `{Bolt} {T1 T2 : Type}.
Abbreviation S := (Srv T1 T2).
(** The handlers, by name, and the replies of net/http itself. *)
Context (dispatch : string → list string → option Identity → HttpRequest → M S Response) (reply : refusal → HttpRequest → Response).

Definition escaped_path (r : HttpRequest) : string :=
  match index_byte (r_RequestURI r) "?"%char with Some i => take_str i (r_RequestURI r) | None => r_RequestURI r end.
Definition routes (r : HttpRequest) : M S Response :=
  match route_of (r_Method r) (escaped_path r) with
  | Refused x => mret (reply x r)
  | Open h vs => dispatch h vs None r
  | Authenticated inner =>
    requireAuth (λ id r, match inner with inl x => mret (reply x r) | inr (h, vs) => dispatch h vs (Some id) r end) false r
  end.
(** The middlewares of [Run], less the logger and the recovery from panics. *)
Definition served (raft : option (Raft * string)) (r : HttpRequest) : M S Response := cors (leaderRedirect raft routes) r.
End Serve.
End Routes.
