(* ===== verification/RoutesProps.v ===== *)
(** The URL space: nothing under /api/v1 is served without a token but the
    five endpoints meant to be, and a request without one changes nothing. *)

From Stdlib Require Import Ascii.
From S2P Require Import Prelude GoTime Json Types Bolt Store StoreOps StoreProps Text Random Secrets Auth AuthProps Bus Replication Dispatcher Path Http Routes.
Import Routes.

(** ** Patterns of literals *)

Definition lit_cand (x : list string * string) : list pseg * target := (Lit <$> x.1, Handler x.2).
Definition exactly (segs : list string) (x : list string * string) : option string :=
  if bool_decide (x.1 = segs) then Some x.2 else None.
Definition tail_after (s : string) (x : list string * string) : option (list string * string) :=
  match x.1 with l :: r => if bool_decide (l = s) then Some (r, x.2) else None | [] => None end.

Implicit Types lits : list (list string * string).

Lemma omap_cons_eq {A B} (f : A → option B) x l : omap f (x :: l) = match f x with Some y => y :: omap f l | None => omap f l end.
Proof. done. Qed.
Lemma tail_after_cons s l r h : tail_after s (l :: r, h) = if bool_decide (l = s) then Some (r, h) else None.
Proof. done. Qed.

Lemma after_lits s lits : omap (after_lit s) (lit_cand <$> lits) = lit_cand <$> omap (tail_after s) lits.
Proof.
  induction lits as [|[[|l r] h] lits IH]; [done|exact IH|]. rewrite fmap_cons, !omap_cons_eq, tail_after_cons, IH.
  change (after_lit s (lit_cand (l :: r, h))) with (if bool_decide (l = s) then Some (Lit <$> r, Handler h) else None).
  by case_bool_decide.
Qed.
Lemma tail_exactly s segs lits : omap (exactly segs) (omap (tail_after s) lits) = omap (exactly (s :: segs)) lits.
Proof.
  induction lits as [|[[|l r] h] lits IH]; [done|exact IH|]. rewrite !(omap_cons_eq _ (l :: r, h)), tail_after_cons.
  change (exactly (s :: segs) (l :: r, h)) with (if bool_decide (l :: r = s :: segs) then Some h else None).
  destruct (decide (l = s)) as [->|Hne].
  - rewrite (bool_decide_eq_true_2 (s = s)) by done. rewrite omap_cons_eq.
    change (exactly segs (r, h)) with (if bool_decide (r = segs) then Some h else None).
    destruct (decide (r = segs)) as [->|Hr]; [rewrite !bool_decide_eq_true_2 by done|rewrite !bool_decide_eq_false_2 by congruence];
      by rewrite IH.
  - rewrite !bool_decide_eq_false_2 by congruence. exact IH.
Qed.
Lemma no_wild lits : omap after_wild (lit_cand <$> lits) = [].
Proof. induction lits as [|[[|l r] h] lits IH]; [done|exact IH|exact IH]. Qed.
Lemma no_multi lits : omap at_multi (lit_cand <$> lits) = [].
Proof. induction lits as [|[[|l r] h] lits IH]; [done|exact IH|exact IH]. Qed.
Lemma ends_exactly lits : omap at_end (lit_cand <$> lits) = Handler <$> omap (exactly []) lits.
Proof.
  induction lits as [|[[|l r] h] lits IH]; [done| |exact IH]. rewrite fmap_cons, !omap_cons_eq, IH. done.
Qed.
Lemma match_none {T} segs : match_path (T:=T) [] segs = None.
Proof. induction segs as [|s segs IH]; [done|]. cbn. rewrite IH. by case_bool_decide. Qed.

(** Of patterns of literals the one that is the path is chosen. *)
Lemma match_lits lits segs : match_path (lit_cand <$> lits) segs = (λ h, (Handler h, [])) <$> head (omap (exactly segs) lits).
Proof.
  revert lits. induction segs as [|s segs IH]; intros lits; cbn [match_path].
  - rewrite ends_exactly. by destruct (omap _ lits).
  - rewrite after_lits, IH, tail_exactly, no_wild, no_multi, match_none.
    destruct (omap _ lits); [by case_bool_decide|done].
Qed.

(** Beside a trailing slash too. *)
Lemma match_guarded lits segs t :
  segs ≠ [] →
  match_path ((lit_cand <$> lits) ++ [([Multi], t)]) segs =
  Some (match head (omap (exactly segs) lits) with Some h => (Handler h, []) | None => (t, []) end).
Proof.
  destruct segs as [|s segs]; [done|]. intros _. cbn [match_path]. rewrite !omap_app, after_lits, no_wild, no_multi.
  cbn [omap list_omap after_lit after_wild at_multi fst app snd]. rewrite app_nil_r, match_lits, tail_exactly, match_none.
  destruct (omap _ lits); [by case_bool_decide|done].
Qed.

(** ** Under /api/v1 *)

Definition open_api (meth : string) : list (list string * string) :=
  if bool_decide (meth = "GET") then [(["meta"], "handleMeta"); (["setup"; "status"], "handleSetupStatus")]
  else if bool_decide (meth = "POST") then
    [(["setup"; "initialize"], "handleInitialize"); (["cluster"; "join"], "handleClusterJoin"); (["auth"; "login"], "handleLogin")]
  else [].
Definition api_methods : list string := ["GET"; "POST"; "PUT"; "DELETE"; "PATCH"].

Lemma skip_api {T} (cands c1 c2 : list (list pseg * T)) rest r :
  omap (after_lit "api") cands = c1 → omap (after_lit "v1") c1 = c2 → match_path c2 rest = Some r →
  match_path cands ("api" :: "v1" :: rest) = Some r.
Proof. intros <- <- E. cbn [match_path]. by rewrite E. Qed.

Lemma api_path meth rest :
  meth ∈ api_methods → rest ≠ [] →
  match_path (candidates meth mux) ("api" :: "v1" :: rest) =
  Some (match head (omap (exactly rest) (open_api meth)) with Some h => (Handler h, []) | None => (RequireAuth, []) end).
Proof.
  intros Hm Hr. unfold api_methods in Hm.
  repeat (apply elem_of_cons in Hm as [->|Hm]; [eapply skip_api; [vm_compute; reflexivity|vm_compute; reflexivity|
    match goal with |- context [open_api ?m] => exact (match_guarded (open_api m) rest RequireAuth Hr) end]|]).
  by apply not_elem_of_nil in Hm.
Qed.
Lemma no_method meth : meth ∉ api_methods → meth ≠ "" → candidates meth mux = [].
Proof.
  unfold api_methods. rewrite !not_elem_of_cons. intros (H1 & H2 & H3 & H4 & H5 & _) H6.
  assert (E : ∀ ps : list (pattern target), Forall (λ p, pat_Method p ∈ api_methods ∨ pat_Method p = "") ps → candidates meth ps = []).
  { intros ps Hps. unfold candidates. induction Hps as [|p ps Hp _ IH]; [done|]. cbn [List.filter].
    rewrite bool_decide_eq_false_2; [exact IH|]. unfold api_methods in Hp. rewrite !elem_of_cons, elem_of_nil in Hp. intros E. rewrite E in Hp. tauto. }
  apply E. apply (bool_decide_unpack _). vm_compute. exact I.
Qed.
Lemma any_method rest : match_path (candidates "" mux) ("api" :: "v1" :: rest) = Some (Dashboard, []).
Proof.
  replace (candidates "" mux) with ((lit_cand <$> []) ++ [([Lit "fn"; Multi], Handler "handleFunctionInvoke")] ++
    [([Lit "s3"; Multi], Handler "handleS3Proxy")] ++ [([Multi], Dashboard)]) by (vm_compute; reflexivity).
  cbn -[bool_decide]. rewrite !bool_decide_eq_false_2 by done. cbn. by rewrite !match_none.
Qed.

(** The endpoints that are served without a token, by method and path under
    /api/v1. *)
Definition token_free : list (string * list string * string) := [
  ("GET", ["meta"], "handleMeta"); ("GET", ["setup"; "status"], "handleSetupStatus");
  ("HEAD", ["meta"], "handleMeta"); ("HEAD", ["setup"; "status"], "handleSetupStatus");
  ("POST", ["setup"; "initialize"], "handleInitialize"); ("POST", ["cluster"; "join"], "handleClusterJoin");
  ("POST", ["auth"; "login"], "handleLogin")].
Definition is_known (meth : string) : bool := bool_decide (meth ∈ "HEAD" :: api_methods).
Definition free_handler (meth : string) (rest : list string) : option string :=
  head (omap (λ x, if bool_decide (x.1.1 = meth) && bool_decide (x.1.2 = rest) then Some x.2 else None) token_free).

Ltac decide_texts := repeat match goal with
  | |- context [@bool_decide (?a = ?b) ?d] =>
    match a with String _ _ => idtac end; match b with String _ _ => idtac end;
    let v := eval vm_compute in (@bool_decide (a = b) d) in change (@bool_decide (a = b) d) with v
  end.

Lemma match_api meth rest :
  rest ≠ [] →
  match_mux mux meth ("api" :: "v1" :: rest) =
  Some (match free_handler meth rest with
        | Some h => (Handler h, [])
        | None => (if is_known meth then RequireAuth else Dashboard, [])
        end).
Proof.
  intros Hr. unfold match_mux, is_known. destruct (decide (meth ∈ api_methods)) as [Hm|Hm].
  - rewrite (api_path meth rest Hm Hr), bool_decide_eq_true_2 by by right.
    assert (E : head (omap (exactly rest) (open_api meth)) = free_handler meth rest).
    { unfold api_methods in Hm. rewrite !elem_of_cons, elem_of_nil in Hm. unfold free_handler, exactly, token_free.
      destruct Hm as [->|[->|[->|[->|[->|[]]]]]]; cbn -[bool_decide]; decide_texts; cbn -[bool_decide];
        repeat (case_bool_decide; [done|]); done. }
    by rewrite E.
  - destruct (decide (meth = "HEAD")) as [->|Hh].
    + rewrite (no_method "HEAD" Hm) by done. rewrite match_none, (bool_decide_eq_true_2 ("HEAD" = "HEAD")) by done.
      rewrite (api_path "GET" rest) by (done || by left). rewrite bool_decide_eq_true_2 by by left.
      assert (E : head (omap (exactly rest) (open_api "GET")) = free_handler "HEAD" rest).
      { unfold free_handler, exactly, token_free. cbn -[bool_decide]. decide_texts. cbn -[bool_decide].
        repeat (case_bool_decide; [done|]); done. }
      by rewrite E.
    + rewrite (bool_decide_eq_false_2 (meth = "HEAD")) by done. rewrite any_method.
      rewrite bool_decide_eq_false_2 by by rewrite elem_of_cons; intros [|].
      assert (E : free_handler meth rest = None).
      { unfold api_methods in Hm. rewrite !elem_of_cons, elem_of_nil in Hm. unfold free_handler, token_free. cbn -[bool_decide].
        rewrite !(bool_decide_eq_false_2 (_ = meth)) by (intros <-; tauto). done. }
      rewrite E. destruct (decide (meth = "")) as [->|Hne]; [by rewrite any_method|].
      by rewrite (no_method meth Hm Hne), match_none.
Qed.

Lemma route_api meth rest :
  rest ≠ [] →
  route_segs meth ("api" :: "v1" :: rest) =
  match free_handler meth rest with
  | Some h => Open h []
  | None => if is_known meth then Authenticated (auth_route meth ("api" :: "v1" :: rest)) else Open "dashboardHandler" []
  end.
Proof. intros Hr. unfold route_segs. rewrite (match_api _ _ Hr). destruct (free_handler meth rest); [done|]. by destruct (is_known meth). Qed.

Lemma free_handler_in meth rest h : free_handler meth rest = Some h → (meth, rest, h) ∈ token_free.
Proof.
  unfold free_handler. generalize token_free. intros l. induction l as [|[[m p] h'] l IH]; [done|]. rewrite omap_cons_eq. cbn [fst snd].
  destruct (bool_decide (m = meth) && bool_decide (p = rest)) eqn:E; [|intros Hh; right; by apply IH].
  apply andb_true_iff in E as [->%bool_decide_eq_true ->%bool_decide_eq_true]. intros [= ->]. by left.
Qed.

Section Serve.
Context `{Crypto} `{Bolt} {T1 T2 : Type}.
Context (dispatch : string → list string → option Identity → HttpRequest → M (Srv T1 T2) Response) (reply : refusal → HttpRequest → Response).

(** C7 Below /api/v1 seven pairs of a method and a path are served without a
    token: meta and set-up status (read), set-up, login and the join of a
    node (written).  Any other request with a known method comes to the
    authentication middleware, whatever its path, and without a token it gets
    401 and changes nothing.  The middleware never asks for an administrator. *)
Theorem api_needs_a_token (r : HttpRequest) (rest : list string) :
  cleanPath (escaped_path r) = escaped_path r → path_segs (escaped_path r) = "api" :: "v1" :: rest → rest ≠ [] →
  is_known (r_Method r) = true →
  (∃ h, (r_Method r, rest, h) ∈ token_free ∧ routes dispatch reply r = dispatch h [] None r) ∨
  (∃ next, routes dispatch reply r = requireAuth next false r) ∧
  (requestToken r = "" → ∀ s, routes dispatch reply r s = Ret (httpError 401 "missing bearer token") s).
Proof.
  intros Hc Hp Hr Hk. unfold routes, route_of. rewrite bool_decide_eq_true_2 by done. rewrite Hp, (route_api _ _ Hr), Hk.
  destruct (free_handler (r_Method r) rest) as [h|] eqn:E.
  - left. exists h. split; [by apply free_handler_in|done].
  - right. split; [by eexists|]. intros Ht s. unfold requireAuth. by rewrite bool_decide_eq_true_2.
Qed.

(** Issuing a join token is under a prefix that is exempt from redirection
    (that of the join itself): a follower serves it from its own store. *)
Theorem join_tokens_are_issued_by_followers (raft : option (Raft * string)) (next : HttpRequest → M (Srv T1 T2) Response) (r : HttpRequest) :
  r_Path r = "/api/v1/cluster/join-tokens" → leaderRedirect raft next r = next r.
Proof.
  intros Hp. unfold leaderRedirect. destruct raft as [[raft a]|]; [|done]. case_bool_decide; [done|].
  by rewrite Hp.
Qed.
End Serve.

(** A few requests and what they come to. *)
Example route_meta : route_of "HEAD" "/api/v1/meta" = Open "handleMeta" []. Proof. vm_compute. reflexivity. Qed.
Example route_get : route_of "GET" "/api/v1/projects/a%2Fb/secrets/x" =
  Authenticated (inr ("handleGetSecret", ["a/b"; "x"])). Proof. vm_compute. reflexivity. Qed.
Example route_method : route_of "PUT" "/api/v1/projects/a/secrets" = Authenticated (inl (WrongMethod ["GET"; "POST"])).
Proof. vm_compute. reflexivity. Qed.
Example route_dots : route_of "GET" "/api/v1/../../etc" = Refused (Moved "/etc"). Proof. vm_compute. reflexivity. Qed.
Example route_fn : route_of "DELETE" "/fn/p/f/x" = Open "handleFunctionInvoke" []. Proof. vm_compute. reflexivity. Qed.
Example route_trace : route_of "TRACE" "/api/v1/projects" = Open "dashboardHandler" []. Proof. vm_compute. reflexivity. Qed.

Definition demo_list : HttpRequest := mkHttpRequest "GET" "/api/v1/auth/tokens" "/api/v1/auth/tokens?x=1" ∅ ∅ "" None.

#[local] Existing Instance demo_crypto.
Definition no_dispatch (name : string) (vs : list string) (id : option Identity) (r : HttpRequest) : M (Srv (H:=MemBolt) () ()) Response :=
  mret noContent.
Definition no_reply (x : refusal) (r : HttpRequest) : Response := noContent.
Definition demo_server : Srv (H:=MemBolt) () () := mkSrv (mkSys _ demo_world NewBus [] [] []) None None None (newInvocationRing 100).
Theorem api_needs_a_token_witness :
  routes no_dispatch no_reply demo_list demo_server = Ret (httpError 401 "missing bearer token") demo_server.
Proof.
  destruct (api_needs_a_token no_dispatch no_reply demo_list ["auth"; "tokens"]) as [(h & Hin & _)|[_ Ht]];
    [reflexivity|reflexivity|discriminate|reflexivity| |exact (Ht eq_refl demo_server)].
  exfalso. unfold token_free in Hin. rewrite !elem_of_cons, elem_of_nil in Hin. naive_solver.
Defined.
