(* ===== verification/Invoke.v ===== *)
(** Function invocation (internal/api/triggers.go, event_adapters.go and
    handleInvokeFunction of handlers.go): the secrets staged into a request,
    the choice of a runtime, the lifecycle event, the two HTTP entry points
    and the adapter the rule dispatcher calls.

    The request's environment is a map the caller shares with its own copy of
    the function; every caller drops both after the call. *)

From S2P Require Import Prelude GoTime Json Types Bolt Store StoreOps Text Random Secrets Auth Bus Replication Wasm Dispatcher Http.

Section Invoke.
Context `{Random} `{Bolt} {T1 T2 : Type} `{FnRuntime T1} `{FnRuntime T2}.
Context (secrets : option Manager) (has_bus : bool).
Abbreviation S := (Srv T1 T2).

(** ** Secrets *)

(** The loop over [f.SecretMounts]. *)
Fixpoint stage_mounts (m : Manager) (f : Function) (mounts : list SecretMount) (req : InvokeRequest) :
    M World InvokeRequest :=
  match mounts with
  | [] => mret req
  | sm :: mounts =>
    pt ← Reveal m (Meta_Project (Function_Meta f)) (SecretMount_Secret sm);
    match pt with
    | Err _ => stage_mounts m f mounts req
    | Ok pt =>
      let req := if bool_decide (SecretMount_EnvName sm = "") then req
                 else { req with InvokeRequest_Env ::= <[SecretMount_EnvName sm := pt]> } in
      let req := if bool_decide (SecretMount_MountPath sm = "") then req
                 else { req with InvokeRequest_SecretFiles ::= <[SecretMount_MountPath sm := pt]> } in
      stage_mounts m f mounts req
    end
  end.

(** First the resolved environment, then the request's own on top of it. *)
Definition stage_secrets (f : Function) (req : InvokeRequest) : M World InvokeRequest :=
  match secrets with
  | None => mret req
  | Some m =>
    r ← Resolve m (Meta_Project (Function_Meta f)) (Function_Env f);
    stage_mounts m f (Function_SecretMounts f)
      match r with
      | Ok resolved => { req with InvokeRequest_Env := InvokeRequest_Env req ∪ resolved }
      | Err _ => req
      end
  end.

(** ** Runtime *)

Definition on_wasm {A} (m : M T1 A) (t : T1) : M S A := λ s,
  match m t with
  | Ret a t' => Ret a (mkSrv (srv_sys s) (Some t') (srv_fcracker s) (srv_blobs s) (srv_invocations s))
  | Panic => Panic
  end.
Definition on_fcracker {A} (m : M T2 A) (t : T2) : M S A := λ s,
  match m t with
  | Ret a t' => Ret a (mkSrv (srv_sys s) (srv_wasm s) (Some t') (srv_blobs s) (srv_invocations s))
  | Panic => Panic
  end.

Definition run_function (f : Function) (req : InvokeRequest) : M S (res InvokeResponse) :=
  s ← get_state;
  if bool_decide (Function_Runtime f = FunctionRuntimeFirecracker) then
    match srv_fcracker s with
    | None => mret (Err (ErrMsg "firecracker runtime not available"))
    | Some t => on_fcracker (fn_Invoke f req) t
    end
  else
    match srv_wasm s with
    | None => mret (Err (ErrMsg "wasm runtime not available"))
    | Some t => on_wasm (fn_Invoke f req) t
    end.

(** [Duration.Milliseconds] truncates. *)
Definition Milliseconds (d : Z) : Z := Z.quot d 1000000.
Definition fmtDuration (d : Z) : string := itoa (Milliseconds d).

(** ** Lifecycle event *)

Definition invoke_event (f : Function) (req : InvokeRequest) (r : res InvokeResponse) (dur : Z) : EventRecord :=
  let name := Meta_Name (Function_Meta f) in
  let data : gmap string string :=
    <["function" := name]> (<["runtime" := Function_Runtime f]> (<["method" := InvokeRequest_Method req]> (
    <["path" := InvokeRequest_Path req]> {["durMs" := fmtDuration dur]}))) in
  { (zero (A:=EventRecord)) with
    EventRecord_Project := Meta_Project (Function_Meta f);
    EventRecord_Subject := name;
    EventRecord_Type := match r with Err _ => "function.error" | Ok _ => "function.invoked" end;
    EventRecord_Data := match r with
                        | Err e => <["error" := error_text e]> data
                        | Ok resp => <["status" := itoa (InvokeResponse_Status resp)]> data
                        end }.

(** [invoke]; the request as it was staged comes back with the result, since
    the caller shares it. *)
Definition invoke (f : Function) (req : InvokeRequest) : M S (InvokeRequest * res InvokeResponse) :=
  req ← on_store (stage_secrets f req);
  start ← on_store now;
  r ← run_function f req;
  (if has_bus then
     t ← on_store now;
     on_sys (Emit (invoke_event f req r (Sub t start)))
   else mret ());;
  mret (req, r).

(** ** HTTP entry points *)

Definition errors_is_not_ready (e : error) : bool := errors_is e ErrFunctionNotReady.

Definition invocation (start : time) (dur : Z) (meth path body : string) (r : res InvokeResponse) : invocationRecord :=
  let kb := Z.of_nat (String.length body) / 1024 in
  match r with
  | Err e => mkInvocationRecord start meth path 500 (Milliseconds dur) kb (error_text e) ""
  | Ok resp => mkInvocationRecord start meth path (InvokeResponse_Status resp) (Milliseconds dur) kb ""
                 (if bool_decide (InvokeResponse_Logs resp = "") then "" else tailString (InvokeResponse_Logs resp) 256)
  end.

Definition requestOf (f : Function) (r : HttpRequest) (path : string) : InvokeRequest :=
  mkInvokeRequest (r_Method r) path (r_Header r) (limit_reader (8 * 2 ^ 20) (r_Body r)) (Function_Env f) ∅.

(** The measured call both handlers make; [key] is the ring they record to. *)
Definition timed_invoke (key : string) (f : Function) (req : InvokeRequest) : M S (res InvokeResponse) :=
  start ← on_store now;
  r ← invoke f req;
  t ← on_store now;
  record_invocation key (invocation start (Sub t start) (InvokeRequest_Method req) (InvokeRequest_Path req)
                           (InvokeRequest_Body req) r.2);;
  mret r.2.

Definition subPath (rest : list string) : string :=
  match rest with [] => "/" | _ :: _ => "/" +:+ String.concat "/" rest end.

Definition handleFunctionInvoke (r : HttpRequest) : M S Response :=
  match split_on slash (trim_prefix (r_Path r) "/fn/") with
  | project :: name :: rest =>
    f ← on_store (GetFunction project name);
    match f with
    | Err _ => mret (httpError 404 "function not found")
    | Ok f =>
      if bool_decide (Function_SourceRef f = "") then
        mret (httpError 503 ("function has no code deployed; upload a .wasm via POST /api/v1/projects/" +:+ project
                +:+ "/functions/" +:+ name +:+ "/code"))
      else
        resp ← timed_invoke (project +:+ "/" +:+ name) f (requestOf f r (subPath rest));
        mret match resp with
             | Ok resp => CopyResponse resp
             | Err e => if errors_is_not_ready e then httpError 503 "function is deploying; try again in a moment"
                        else httpError 500 (error_text e)
             end
    end
  | _ => mret (httpError 404 "function not found")
  end.

Definition handleInvokeFunction (project name : string) (r : HttpRequest) : M S Response :=
  or_store_err (on_store (GetFunction project name)) (λ f,
    let p := query_get r "path" in
    resp ← timed_invoke (fnKey f) f (requestOf f r (if bool_decide (p = "") then "/" else p));
    mret match resp with
         | Ok resp => CopyResponse resp
         | Err e => httpError 500 (error_text e)
         end).

(** ** The dispatcher's adapter *)

#[local] Instance functionInvokerAdapter : FunctionInvoker S := λ project name path body,
  f ← on_store (GetFunction project name);
  match f with
  | Err e => mret (Some e)
  | Ok f =>
    r ← invoke f (mkInvokeRequest "POST" path
                    (<["content-type" := ["application/json"]]> {["x-selfcloud-event" := ["true"]]})
                    body (Function_Env f) ∅);
    mret match r.2 with Ok _ => None | Err e => Some e end
  end.
End Invoke.

(** ** The adapter to the container runtime

    [Start] and [Stop] of the runtime as the API uses them. *)
Section ContainerControl.
Context `{Bolt} (raft : option Raft) {R : Type}.
Context (start : Container → M R (res ContainerStatus)) (stop : Container → M R (option error)).

Definition CSys : Type := (World * R).
Definition c_store {A} (m : M World A) : M CSys A := λ s,
  match m s.1 with Ret a w => Ret a (w, s.2) | Panic => Panic end.
Definition c_runtime {A} (m : M R A) : M CSys A := λ s,
  match m s.2 with Ret a r => Ret a (s.1, r) | Panic => Panic end.

Definition startByName (project name : string) : M CSys (option error) :=
  c ← c_store (GetContainer project name);
  match c with
  | Err e => mret (Some e)
  | Ok c =>
    st ← c_runtime (start c);
    match st with
    | Err e => mret (Some e)
    | Ok st => r ← c_store (Replicated.PutContainer raft { c with Container_Status := st }); mret r.2
    end
  end.

Definition stopped_at (t : time) (c : Container) : Container :=
  { c with Container_Status := { Container_Status c with
             ContainerStatus_Status := { ContainerStatus_Status (Container_Status c) with
               Status_Phase := PhaseStopped; Status_UpdatedAt := t } } }.
Definition stopByName (project name : string) : M CSys (option error) :=
  c ← c_store (GetContainer project name);
  match c with
  | Err e => mret (Some e)
  | Ok c =>
    e ← c_runtime (stop c);
    match e with
    | Some e => mret (Some e)
    | None =>
      t ← c_store now;
      r ← c_store (Replicated.PutContainer raft (stopped_at t c)); mret r.2
    end
  end.

Definition restartByName (project name : string) : M CSys (option error) :=
  e ← stopByName project name;
  match e with Some e => mret (Some e) | None => startByName project name end.

#[local] Instance containerControlAdapter : ContainerControl CSys := {
  StartByName := startByName;
  StopByName := stopByName;
  RestartByName := restartByName;
}.
End ContainerControl.
