(* ===== verification/Functions.v ===== *)
(** The function resource over HTTP (handlers.go, "functions") and the git
    webhook (webhooks.go).

    A function is created or updated by one handler, which decides by the UID
    of the body; a webhook is looked up by its token and authenticated by an
    HMAC of the body or a bearer secret before a build is triggered. *)

From Stdlib Require Import Ascii.
From S2P Require Import Prelude GoTime Json Types Bolt Store StoreOps Text Random Secrets Auth Bus Replication Cluster Wasm Dispatcher Http Invoke.

Section Functions.
Context `{Random} `{Bolt} {T1 T2 : Type} `{FnRuntime T1} `{FnRuntime T2}.
Context (raft : option Raft) (scheduler : option Scheduler.Scheduler) (builder : option BuilderHook) (has_bus : bool).
Abbreviation S := (Srv T1 T2).

(** ** Creation and update *)

Definition mintWebhookToken : M World (res string) :=
  r ← rand_bytes 16;
  mret (hex_encode <$> r).

Definition defaults (project : string) (f : Function) : Function :=
  let f := { f with Function_Meta ::= (λ m, { m with Meta_Project := project }) } in
  let f := if bool_decide (Function_Runtime f = "") then { f with Function_Runtime := FunctionRuntimeWasm } else f in
  if bool_decide (FunctionSource_Type (Function_Source f) = "") then
    { f with Function_Source ::= (λ src, { src with
        FunctionSource_Type := match FunctionSource_Git src with Some _ => "git" | None => "upload" end }) }
  else f.

Definition set_webhook_token (tok : string) (f : Function) : Function :=
  { f with Function_Source ::= (λ src, { src with
      FunctionSource_Git ::= fmap (λ g, { g with GitSourceSpec_WebhookToken := tok }) }) }.
Definition webhook_token (f : Function) : option string :=
  GitSourceSpec_WebhookToken <$> FunctionSource_Git (Function_Source f).

(** What an update keeps of the stored function. *)
Definition preserve (cur f : Function) : Function :=
  let f := if bool_decide (Function_SourceRef f = "") then { f with Function_SourceRef := Function_SourceRef cur } else f in
  let f := if bool_decide (Function_LatestBuild f = "") then { f with Function_LatestBuild := Function_LatestBuild cur } else f in
  match webhook_token f, webhook_token cur with
  | Some tok, Some cur_tok => if bool_decide (tok = "") then set_webhook_token cur_tok f else f
  | _, _ => f
  end.

Definition wasNew (f : Function) : bool := bool_decide (Meta_UID (Function_Meta f) = "").

Definition merge_current (f : Function) : M World Function :=
  if wasNew f then mret f
  else
    cur ← GetFunction (Meta_Project (Function_Meta f)) (Meta_Name (Function_Meta f));
    mret match cur with Ok cur => preserve cur f | Err _ => f end.

Definition ensure_token (f : Function) : M World (res Function) :=
  if bool_decide (webhook_token f = Some "") then
    t ← mintWebhookToken; mret ((λ t, set_webhook_token t f) <$> t)
  else mret (Ok f).

Definition assign_node (f : Function) : M World Function :=
  match scheduler with
  | None => mret f
  | Some sc =>
    if bool_decide (Status_NodeID (Function_Status f) = "") then
      id ← Scheduler.PlaceFunction sc f;
      mret match id with
           | Ok id => { f with Function_Status ::= (λ st, { st with Status_NodeID := id }) }
           | Err _ => f
           end
    else mret f
  end.

Definition initial_build (new : bool) (f : Function) : M World () :=
  match builder with
  | None => mret ()
  | Some b =>
    if new && bool_decide (is_Some (FunctionSource_Git (Function_Source f))) then
      _ ← @Trigger _ b f "create"; mret ()
    else mret ()
  end.

(** What is stored, before the store stamps it. *)
Definition prepare (project : string) (body : Function) : M World (res Function) :=
  f ← merge_current (defaults project body);
  f ←! ensure_token f;
  f ← assign_node f;
  mret (Ok f).

Definition handlePutFunction (project : string) (r : HttpRequest) : M S Response :=
  match decodeJSON r with
  | Err e => mret (httpError 400 (error_text e))
  | Ok body =>
    let new := wasNew (defaults project body) in
    or_error 500 (on_store (prepare project body)) (λ f,
    st ← on_store (Replicated.PutFunction raft f);
    match st with
    | (_, Some e) => mret (mapStoreErr e)
    | (f, None) => on_store (initial_build new f);; mret (writeJSON 201 (enc f))
    end)
  end.

(** ** Reading, deleting, uploading code *)

Definition handleListFunctions (project : string) : M S Response :=
  or_store_err (on_store (ListFunctions project)) (λ l, mret (writeJSON 200 (JArr (enc <$> l)))).
Definition handleGetFunction (project name : string) : M S Response :=
  or_store_err (on_store (GetFunction project name)) (λ f, mret (writeJSON 200 (enc f))).

Definition remove_everywhere (f : Function) : M S () :=
  s ← get_state;
  match srv_wasm s with None => mret () | Some t => _ ← on_wasm (fn_Remove f) t; mret () end;;
  s ← get_state;
  match srv_fcracker s with None => mret () | Some t => _ ← on_fcracker (fn_Remove f) t; mret () end.

Definition handleDeleteFunction (project name : string) : M S Response :=
  or_store_err (on_store (GetFunction project name)) (λ f,
    remove_everywhere f;;
    e ← on_store (Replicated.DeleteFunction raft (Meta_Project (Function_Meta f)) (Meta_Name (Function_Meta f)));
    mret match e with Some e => mapStoreErr e | None => noContent end).

Definition deploy (f : Function) (code : string) : M S (option error) :=
  s ← get_state;
  if bool_decide (Function_Runtime f = FunctionRuntimeFirecracker) then
    match srv_fcracker s with None => mret None | Some t => on_fcracker (fn_Deploy f code) t end
  else
    match srv_wasm s with None => mret None | Some t => on_wasm (fn_Deploy f code) t end.

Definition store_blob (data : string) : M S (option (res string)) := λ s,
  match srv_blobs s with
  | None => Ret None s
  | Some b =>
    match blob_Put data b with
    | Ret id b => Ret (Some id) (mkSrv (srv_sys s) (srv_wasm s) (srv_fcracker s) (Some b) (srv_invocations s))
    | Panic => Panic
    end
  end.

Definition handleUploadFunctionCode (project name : string) (r : HttpRequest) : M S Response :=
  or_store_err (on_store (GetFunction project name)) (λ f,
    let body := limit_reader (64 * 2 ^ 20) (r_Body r) in
    id ← store_blob body;
    match id with
    | None => mret (httpError 503 "blob store not initialised")
    | Some (Err e) => mret (httpError 500 (error_text e))
    | Some (Ok id) =>
      let f := { f with Function_SourceRef := id } in
      e ← deploy f body;
      match e with
      | Some e => mret (httpError 500 (error_text e))
      | None =>
        t ← on_store now;
        let f := { f with Function_Status ::= (λ st, { st with Status_Phase := PhaseRunning; Status_UpdatedAt := t }) } in
        st ← on_store (Replicated.PutFunction raft f);
        mret match st with (_, Some e) => mapStoreErr e | (f, None) => writeJSON 200 (enc f) end
      end
    end).

(** ** The git webhook *)

Fixpoint find_in_projects (token : string) (projects : list Project) : M World (res Function) :=
  match projects with
  | [] => mret (Err ErrNotFound)
  | p :: projects =>
    fns ← ListFunctions (Meta_Name (Project_Meta p));
    match fns with
    | Err _ => find_in_projects token projects
    | Ok fns =>
      match List.find (λ f, bool_decide (webhook_token f = Some token)) fns with
      | Some f => mret (Ok f)
      | None => find_in_projects token projects
      end
    end
  end.
Definition findFunctionByWebhookToken (token : string) : M World (res Function) :=
  projects ←! ListProjects; find_in_projects token projects.

Definition equals : ascii := "="%char.
(** [strings.SplitN(header, "=", 2)] *)
Definition split_eq (s : string) : option (string * string) :=
  match index_byte s equals with
  | Some i => Some (take_str i s, drop_str (i + 1) s)
  | None => None
  end.

Definition verifyHMAC (header body secret : string) : bool :=
  if bool_decide (header = "") || bool_decide (secret = "") then false
  else
    match split_eq header with
    | Some (scheme, digest) =>
      if bool_decide (scheme = "sha256") then
        match hex_decode digest with
        | Some want => bool_decide (hmac_sha256 secret body = want)
        | None => false
        end
      else false
    | None => false
    end.

Definition verifyBearer (header secret : string) : bool :=
  if bool_decide (header = "") || bool_decide (secret = "") then false
  else if has_prefix (to_lower header) bearer
       then bool_decide (trim_space (drop_str (String.length bearer) header) = secret)
       else false.

(** The check made of a request for a function with a webhook secret. *)
Definition authentic (f : Function) (r : HttpRequest) (body : string) : bool :=
  match GitSourceSpec_WebhookSecret <$> FunctionSource_Git (Function_Source f) with
  | None => true
  | Some secret =>
    bool_decide (secret = "") ||
    verifyHMAC (header_get r "x-hub-signature-256") body secret ||
    verifyBearer (header_get r "authorization") secret
  end.

Record gitPayload := mkGitPayload { gitPayload_After : string; gitPayload_Ref : string }.
(** Unmarshalling ignores its error: a field that is missing or of another
    type stays empty, of two equal keys the last one counts. *)
Definition field_str (name : string) (j : json) : string :=
  match j with
  | JObj kvs => match List.find (λ kv, bool_decide (kv.1 = name)) (rev kvs) with
                | Some (_, v) => default "" (dec v)
                | None => ""
                end
  | _ => ""
  end.
Definition payloadOf (r : HttpRequest) : gitPayload :=
  match r_Json r with
  | Some j => mkGitPayload (field_str "after" j) (field_str "ref" j)
  | None => mkGitPayload "" ""
  end.

Definition push_event (f : Function) (p : gitPayload) (b : Build) : EventRecord :=
  let name := Meta_Name (Function_Meta f) in
  { (zero (A:=EventRecord)) with
    EventRecord_Type := "git.push";
    EventRecord_Project := Meta_Project (Function_Meta f);
    EventRecord_Subject := name;
    EventRecord_Data := <["function" := name]> (<["commit" := gitPayload_After p]> (
                        <["ref" := gitPayload_Ref p]> {["build" := Meta_UID (Build_Meta b)]})) }.

Definition notFound : Response := mkResponse 404 ∅ (BRaw "404 page not found").

Definition handleGitWebhook (token : string) (r : HttpRequest) : M S Response :=
  if bool_decide (token = "") then mret notFound
  else
    let body := limit_reader (4 * 2 ^ 20) (r_Body r) in
    fn ← on_store (findFunctionByWebhookToken token);
    match fn with
    | Err _ => mret notFound
    | Ok f =>
      if negb (authentic f r body) then mret (httpError 401 "bad signature")
      else
        match builder with
        | None => mret (httpError 503 "builder not configured")
        | Some b =>
          let payload := payloadOf r in
          build ← on_store (@Trigger _ b f "webhook");
          match build with
          | Err e => mret (httpError 500 (error_text e))
          | Ok build =>
            (if has_bus then on_sys (Emit (push_event f payload build)) else mret ());;
            mret (writeJSON 202 (JObj [("build", enc (Meta_UID (Build_Meta build)));
                                       ("commit", enc (gitPayload_After payload)); ("queued", JBool true)]))
          end
        end
    end.
End Functions.
