(* ===== verification/Garage.v ===== *)
(** The admin API of Garage, the object store (internal/storage/garage/admin.go).

    The HTTP exchange is the parameter [GarageHttp]: building and sending a
    request, up to the reply or a transport error. *)

From S2P Require Import Prelude GoTime Json Types Text.

Record AdminReply := mkAdminReply {
  rep_StatusCode : Z;
  rep_Status : string;       (** e.g. ["404 Not Found"] *)
  rep_Body : string;
  rep_Json : option json;    (** the body, if it is JSON *)
}.
(** Method, URL, [authorization] header, body. *)
Class GarageHttp (G : Type) := client_Do : string → string → string → option json → M G (res AdminReply).

Record AdminClient := mkAdminClient { base : string; token : string }.

(** The fields of the replies that are read. *)
Record createBucketOut := mkCreateBucketOut { createBucketOut_ID : string }.
#[export] Instance createbucketout_json : Json createBucketOut := struct_json mkCreateBucketOut (
  fld "id" createBucketOut_ID;
  Fnil).
Record createKeyOut := mkCreateKeyOut { createKeyOut_AccessKeyID : string; createKeyOut_SecretAccessKey : string }.
#[export] Instance createkeyout_json : Json createKeyOut := struct_json mkCreateKeyOut (
  fld "accessKeyId" createKeyOut_AccessKeyID;
  fld "secretAccessKey" createKeyOut_SecretAccessKey;
  Fnil).

Section AdminClient.
Context {G : Type} `{GarageHttp G} (c : AdminClient).

(** [do] without and with an [out] argument. *)
Definition do_request (meth path : string) (body : option json) : M G (res AdminReply) :=
  resp ←! client_Do meth (base c +:+ path) ("Bearer " +:+ token c) body;
  mret (if 400 <=? rep_StatusCode resp then
          Err (ErrMsg ("garage admin " +:+ meth +:+ " " +:+ path +:+ ": " +:+ rep_Status resp +:+ ": " +:+ rep_Body resp))
        else Ok resp).
Definition do_none (meth path : string) (body : option json) : M G (option error) :=
  r ← do_request meth path body; mret match r with Ok _ => None | Err e => Some e end.
Definition do_out {A} `{Json A} (meth path : string) (body : option json) : M G (res A) :=
  resp ←! do_request meth path body;
  mret (if rep_StatusCode resp =? 204 then Ok zero
        else match rep_Json resp ≫= dec with Some v => Ok v | None => Err (ErrMsg "json: cannot decode") end).

Definition CreateBucket (alias : string) : M G (res string) :=
  out ←! do_out (A:=createBucketOut) "POST" "/v1/bucket" (Some (JObj [("globalAlias", enc alias)]));
  mret (Ok (createBucketOut_ID out)).
Definition DeleteBucket (id : string) : M G (option error) := do_none "DELETE" ("/v1/bucket?id=" +:+ id) None.
Definition CreateKey (name : string) : M G (res (string * string)) :=
  out ←! do_out (A:=createKeyOut) "POST" ("/v1/key?name=" +:+ name) None;
  mret (Ok (createKeyOut_AccessKeyID out, createKeyOut_SecretAccessKey out)).
Definition AllowKey (keyID bucketID : string) (read write owner : bool) : M G (option error) :=
  do_none "POST" "/v1/bucket/allow"
    (Some (JObj [("accessKeyId", enc keyID); ("bucketId", enc bucketID);
                 ("permissions", JObj [("owner", JBool owner); ("read", JBool read); ("write", JBool write)])])).
Definition DeleteKey (keyID : string) : M G (option error) := do_none "DELETE" ("/v1/key?id=" +:+ keyID) None.
End AdminClient.

Module AdminList.
Record Bucket := mkBucket { ID : string; GlobalAlias : list string; Objects : Z; Bytes : Z }.
#[export] Instance bucket_json : Json Bucket := struct_json mkBucket (
  fld "id" ID;
  fld "globalAliases" GlobalAlias;
  fld "objects" Objects;
  fld "bytes" Bytes;
  Fnil).
Definition ListBuckets {G : Type} `{GarageHttp G} (c : AdminClient) : M G (res (list Bucket)) :=
  do_out c (A:=list Bucket) "GET" "/v1/bucket?list" None.
End AdminList.
