(* ===== verification/SupervisorProps.v ===== *)
(** The supervised process: stopping it takes the daemon down, one that is
    never stopped is started once; the wait for its admin port ends; the
    configuration file is what the process is pointed to. *)

From Stdlib Require Import Ascii.
From S2P Require Import Prelude GoTime Json Types Text Path Fs FsLaws Garage Supervisor.
Import Supervisor.

#[local] Arguments String.append : simpl nomatch.

Section Process.
Context {W : Type} `{GarageOs W, GarageHttp (fs * W)} (cfg : Config).
Abbreviation Sup := (Sup (W:=W)).

(** Everything but the host. *)
Definition process_state (s : Sup) := (cmd s, done_ch s, children s, waiters s, chans s).
Lemma process_host {A} (m : M (fs * W) A) : frames process_state (on_host m).
Proof. intros s a s'. unfold on_host. destruct (m (sup_host s)); [|done]. by intros [= _ <-]. Qed.
Lemma process_files {A} (m : M fs A) : frames process_state (on_files m).
Proof. apply process_host. Qed.

(** [Start] leaves the processes alone or launches one, when there is none. *)
Lemma Start_spec s r s' :
  Start cfg s = Ret r s' →
  process_state s' = process_state s ∨
  cmd s = None ∧ ∃ s1, process_state s1 = process_state s ∧ launched s1 = Ret () s'.
Proof.
  unfold Start. unfold mbind, M_bind, gets at 1. destruct (cmd s) as [c|] eqn:Ec; [by intros [= _ <-]; left|].
  unfold gets. destruct (negb _); [by intros [= _ <-]; left|].
  destruct (on_files (writeConfig cfg) s) as [[p|e] s1|] eqn:E1; [|by intros [= _ <-]; left; apply (process_files _ _ _ _ E1)|done].
  apply process_files in E1. unfold check, mbind, M_bind.
  destruct (on_files (MkdirAll (DataDir cfg)) s1) as [[e|] s2|] eqn:E2; [|apply process_files in E2|done];
    [intros [= _ <-]; left; by rewrite (process_files _ _ _ _ E2)|].
  destruct (on_files (MkdirAll (MetadataDir cfg)) s2) as [[e|] s3|] eqn:E3; [|apply process_files in E3|done];
    [intros [= _ <-]; left; by rewrite (process_files _ _ _ _ E3), E2|].
  destruct (on_host (Spawn (Binary cfg) (server_args cfg p)) s3) as [[e|] s4|] eqn:E4; [|apply process_host in E4|done];
    [intros [= _ <-]; left; by rewrite (process_host _ _ _ _ E4), E3, E2|].
  intros [= _ <-]. right. split; [done|]. exists s4. split; [|done]. by rewrite E4, E3, E2.
Qed.

(** Counts: the goroutines that still wait, the channels still open, the
    processes still running. *)
Definition is_waiting (w : waiter) : nat := match w with Waiting => 1 | Finished => 0 end.
Definition is_running (c : child) : nat := match c with Running => 1 | Exited => 0 end.
Definition is_open (c : bool) : nat := if c then 0 else 1.
Definition waiting (s : Sup) : nat := sum_list (is_waiting <$> waiters s).
Definition opened_chans (s : Sup) : nat := sum_list (is_open <$> chans s).
Definition running (s : Sup) : nat := sum_list (is_running <$> children s).

Record sup_ok (s : Sup) : Prop := {
  ok_children : length (children s) = length (waiters s);
  ok_counts : waiting s = opened_chans s;
  ok_done c : done_ch s = Some c → (c < length (chans s))%nat;
}.

(** The channel of a process that was stopped before it had been waited for. *)
Definition orphan (c : nat) (s : Sup) : Prop := chans s !! c = Some false ∧ done_ch s ≠ Some c.

Definition live_ok (P : Sup → Prop) (d : daemon) : Prop := match d with Live s => P s | Crashed => True end.
Definition tracked (c : option nat) (s : Sup) : Prop := sup_ok s ∧ ∀ c', c = Some c' → orphan c' s.

Lemma sup_ok_ext s s' : process_state s' = process_state s → sup_ok s → sup_ok s'.
Proof. destruct s, s'. intros [= -> -> -> -> ->] [H1 H2 H3]. by split. Qed.
Lemma tracked_ext c s s' : process_state s' = process_state s → tracked c s → tracked c s'.
Proof.
  intros E [Hok Ho]. split; [by eapply sup_ok_ext|]. intros c' Hc. specialize (Ho c' Hc).
  destruct s, s'. by injection E as -> -> -> -> ->.
Qed.

Lemma tracked_launched c s s' : launched s = Ret () s' → tracked c s → tracked c s'.
Proof.
  intros [= <-] [[H1 H2 H3] Ho]. split.
  - split; cbn.
    + rewrite !length_app. cbn. lia.
    + unfold waiting, opened_chans in *. cbn. rewrite !sum_list_snoc. cbn. lia.
    + intros c' [= <-]. rewrite length_app. cbn. lia.
  - intros c' Hc. destruct (Ho c' Hc) as [Hl Hd]. split; cbn.
    + by rewrite lookup_app_l by by eapply lookup_lt_Some.
    + intros E. injection E as E. apply lookup_lt_Some in Hl. lia.
Qed.

Lemma tracked_close c s i s' :
  waiters s !! i = Some Waiting → close_done i s = Ret () s' → tracked c s → tracked c s'.
Proof.
  intros Hw E [[H1 H2 H3] Ho]. unfold close_done in E. destruct (done_ch s) as [k|] eqn:Ed; [|done].
  destruct (chans s !! k) as [[]|] eqn:Ek; [done| |done]. injection E as <-. split.
  - split; cbn.
    + by rewrite length_insert.
    + unfold waiting, opened_chans in *. cbn.
      pose proof (sum_list_insert is_waiting _ i _ Finished Hw). pose proof (sum_list_insert is_open _ k _ true Ek). cbn in *. lia.
    + intros c' [= <-]. rewrite length_insert. by apply H3.
  - intros c' Hc. destruct (Ho c' Hc) as [Hl Hd]. rewrite Ed in Hd. split; cbn; [|done].
    by rewrite list_lookup_insert_ne by congruence.
Qed.

Lemma tracked_step c d d' : sup_step cfg d d' → live_ok (tracked c) d → live_ok (tracked c) d'.
Proof.
  intros Hs Hd. destruct Hs as [d d' [s i Hi|s i Hi Hw]|s|s]; cbn in *.
  - destruct Hd as [[H1 H2 H3] Ho]. split; [|exact Ho]. split; cbn; [by rewrite length_insert|exact H2|exact H3].
  - destruct (close_done i s) as [[] s'|] eqn:E; [|done]. by eapply tracked_close.
  - destruct (Start cfg s) as [r s'|] eqn:E; [|done]. apply Start_spec in E as [E|(_ & s1 & E & El)]; [by eapply tracked_ext|].
    eapply tracked_launched; [exact El|]. by eapply tracked_ext.
  - unfold Stop, mbind, M_bind, gets, modify in *. destruct Hd as [[H1 H2 H3] Ho].
    destruct (cmd s) as [k|]; cbn; (split; [split; cbn; [by rewrite ?length_insert|exact H2|done]|]);
      intros c' Hc; by destruct (Ho c' Hc).
Qed.
Lemma tracked_reachable c d d' : rtc (sup_step cfg) d d' → live_ok (tracked c) d → live_ok (tracked c) d'.
Proof. induction 1 as [|x y z Hs _ IH]; [done|]. intros Hd. by eapply IH, tracked_step. Qed.

(** What is left to happen when nothing more is asked of the supervisor. *)
Definition own_work (d : daemon) : nat := match d with Live s => S (running s + waiting s) | Crashed => O end.
Lemma own_step_works d d' : own_step d d' → (own_work d' < own_work d)%nat.
Proof.
  intros [s i Hi|s i Hi Hw]; cbn.
  - unfold running, waiting. cbn. pose proof (sum_list_insert is_running _ i _ Exited Hi). cbn in *. lia.
  - unfold close_done. destruct (done_ch s) as [k|]; [|cbn; lia]. destruct (chans s !! k) as [[]|]; cbn; try lia.
    unfold running, waiting. cbn. pose proof (sum_list_insert is_waiting _ i _ Finished Hw). cbn in *. lia.
Qed.
Lemma own_steps_work n d d' : nsteps own_step n d d' → (n + own_work d' ≤ own_work d)%nat.
Proof. induction 1 as [|n x y z Hs _ IH]; [lia|]. apply own_step_works in Hs. lia. Qed.

(** An abandoned channel leaves a goroutine that has not finished, which goes on. *)
Lemma orphan_goes_on c s : tracked (Some c) s → ∃ d, own_step (Live s) d.
Proof.
  intros [[H1 H2 H3] Ho]. destruct (Ho c eq_refl) as [Hc _].
  assert (Hw : (0 < waiting s)%nat).
  { rewrite H2. unfold opened_chans. pose proof (sum_list_insert is_open _ c _ true Hc). cbn in *. lia. }
  apply sum_list_pos in Hw as (i & w & Hi & Hw). destruct w; [|cbn in Hw; lia].
  destruct (children s !! i) as [[]|] eqn:Ec.
  - eexists. by eapply step_exit.
  - eexists. by eapply step_wait.
  - apply lookup_ge_None in Ec. apply lookup_lt_Some in Hi. lia.
Qed.

(** C37 Stopping a process that has not ended takes the whole daemon down.
    Whatever happens after the stop, other starts and stops included, once
    nothing more is asked of the supervisor it takes a bounded number of
    steps, one for each process to end and one for each to be waited for, and
    cannot come to rest without a panic: the goroutine that waits for the
    stopped process closes the channel in the field [done], which [Stop] has
    cleared, or the channel of a later process, which then is closed twice. *)
Theorem stopping_a_process_crashes_the_daemon (h : fs * W) (s s1 : Sup) (c : nat) (r : option error) (d d' : daemon) (n : nat) :
  rtc (sup_step cfg) (Live (NewSupervisor h)) (Live s) → done_ch s = Some c → chans s !! c = Some false →
  Stop s = Ret r s1 → rtc (sup_step cfg) (Live s1) d → nsteps own_step n d d' →
  (n ≤ own_work d)%nat ∧ ((∀ d'', ¬ own_step d' d'') → d' = Crashed).
Proof.
  intros Hr Hd Hc Hs Hr1 Hn. split; [by apply own_steps_work in Hn; lia|]. intros Hrest.
  assert (Hok : tracked None s) by (apply (tracked_reachable None _ _ Hr); by split; [by split|]).
  assert (Ho : tracked (Some c) s1).
  { unfold Stop, mbind, M_bind, gets, modify in Hs. destruct Hok as [[H1 H2 H3] _].
    destruct (cmd s) as [k|]; injection Hs as _ <-; (split; [split; cbn; [by rewrite ?length_insert|exact H2|done]|]);
      intros c' [= <-]; by split. }
  assert (Hd' : live_ok (tracked (Some c)) d').
  { eapply (tracked_reachable _ d); [|by eapply (tracked_reachable _ (Live s1))].
    eapply rtc_nsteps. exists n. revert Hn. clear. intros Hn. induction Hn as [|n x y z Hs _ IH]; [constructor|].
    econstructor; [by apply step_own|done]. }
  destruct d' as [s'|]; [|done]. destruct (orphan_goes_on _ _ Hd') as [d'' Hd'']. by destruct (Hrest d'').
Qed.
(** ** Never stopped *)

Class OsReturns : Prop := spawn_returns b args : returns (Spawn (W:=W) b args).
Context `{!OsReturns}.

Lemma host_returns {A} (m : M (fs * W) A) : returns m → returns (on_host m).
Proof. intros Hm s. unfold on_host. destruct (Hm (sup_host s)) as (a & h & ->). by eexists _, _. Qed.
Lemma files_returns {A} (m : M fs A) : returns m → returns (on_files (W:=W) m).
Proof. intros Hm. apply host_returns. intros h. destruct (Hm h.1) as (a & f & ->). by eexists _, _. Qed.
Lemma writeConfig_returns : returns (writeConfig cfg).
Proof.
  unfold writeConfig, guard_err. apply bind_returns; [apply MkdirAll_returns|]. intros [e|]; [apply ret_returns|].
  apply bind_returns; [apply WriteFile_returns|]. intros [e|]; apply ret_returns.
Qed.
Lemma Start_returns : returns (Start cfg).
Proof.
  unfold Start. apply bind_returns; [apply gets_returns|]. intros [c|]; [apply ret_returns|].
  apply bind_returns; [apply gets_returns|]. intros found. destruct (negb found); [apply ret_returns|].
  apply bind_returns; [apply files_returns, writeConfig_returns|]. intros [p|e]; [|apply ret_returns].
  unfold check. apply bind_returns; [apply files_returns, MkdirAll_returns|]. intros [e|]; [apply ret_returns|].
  apply bind_returns; [apply files_returns, MkdirAll_returns|]. intros [e|]; [apply ret_returns|].
  apply bind_returns; [apply host_returns, spawn_returns|]. intros [e|]; [apply ret_returns|].
  apply bind_returns; [by intros s; eexists _, _|]. intros _. apply ret_returns.
Qed.

(** The states of a supervisor that is never stopped. *)
Inductive unstopped_step : daemon (W:=W) → daemon → Prop :=
  | unstopped_own d d' : own_step d d' → unstopped_step d d'
  | unstopped_start s : unstopped_step (Live s) (after (Start cfg s)).
Definition unstopped (s : Sup) : Prop :=
  process_state s = (None, None, [], [], []) ∨
  ∃ c, process_state s = (Some O, Some O, [c], [Waiting], [false]) ∨ process_state s = (Some O, Some O, [c], [Finished], [true]).

Lemma unstopped_kept d d' :
  unstopped_step d d' → (∃ s, d = Live s ∧ unstopped s) → ∃ s, d' = Live s ∧ unstopped s.
Proof.
  intros Hs (s0 & -> & Hu). inversion Hs as [? ? Ho|s]; subst.
  - destruct s0 as [cm dn ch wt cn h]. unfold unstopped, process_state in Hu. cbn in Hu.
    inversion Ho as [s i Hi|s i Hi Hw]; subst; cbn in *.
    + eexists. split; [reflexivity|]. unfold unstopped, process_state. cbn.
      destruct Hu as [Hu|(c & [Hu|Hu])]; injection Hu as -> -> -> -> ->; [done|destruct i; [|done]..]; right; exists Exited; cbn; auto.
    + destruct Hu as [Hu|(c & [Hu|Hu])]; injection Hu as -> -> -> -> ->; [done|destruct i; [|done]..]; [|done].
      eexists. split; [reflexivity|]. right. exists c. right. done.
  - destruct (Start_returns s0) as (r & s' & E). rewrite E. cbn. eexists. split; [reflexivity|].
    apply Start_spec in E as [E|(Hc & s1 & E & El)]; [unfold unstopped; by rewrite E|].
    destruct Hu as [Hu|(c & [Hu|Hu])]; rewrite Hu in E.
    + injection El as <-. destruct s1 as [cm dn ch wt cn h]. injection E as -> -> -> -> ->. right. exists Running. by left.
    + unfold process_state in Hu. rewrite Hc in Hu. done.
    + unfold process_state in Hu. rewrite Hc in Hu. done.
Qed.

(** A supervisor that is never stopped never panics and starts its process
    at most once: when the process ends by itself it is not started again,
    whoever asks. *)
Theorem unstopped_process_is_started_once (h : fs * W) (d : daemon (W:=W)) :
  rtc unstopped_step (Live (NewSupervisor h)) d →
  ∃ s, d = Live s ∧ (length (children s) ≤ 1)%nat ∧ (cmd s ≠ None → Start cfg s = Ret None s).
Proof.
  intros Hr. assert (Hu : ∃ s, d = Live s ∧ unstopped s).
  { remember (Live (NewSupervisor h)) as d0 eqn:E0.
    assert (Hi : ∃ s, d0 = Live s ∧ unstopped s) by (eexists; split; [done|by left]). clear E0.
    induction Hr as [|x y z Hs _ IH]; [done|]. by eapply IH, unstopped_kept. }
  destruct Hu as (s & -> & Hu). exists s. split; [done|]. split.
  - unfold unstopped, process_state in Hu. destruct s. cbn in *.
    destruct Hu as [Hu|(c & [Hu|Hu])]; injection Hu as -> -> -> -> ->; cbn; lia.
  - intros Hc. unfold Start, mbind, M_bind, gets. by destruct (cmd s).
Qed.

(** ** The wait for the admin port *)

(** What the wait relies on: the calls return, the clock does not go back, a
    sleep lasts as long as asked. *)
Class OsClock : Prop := {
  sleep_lasts d h : ∃ u h', sleep (W:=W) d h = Ret u h' ∧ ns (now h.2) + d ≤ ns (now h'.2);
  request_steady m u t b h : ∃ r h', client_Do (G:=fs * W) m u t b h = Ret r h' ∧ ns (now h.2) ≤ ns (now h'.2);
}.
Context `{!OsClock}.

Lemma WaitReady_loop_ends fuel deadline (s : Sup) :
  ns deadline - ns (now (sup_host s).2) < (Z.of_nat fuel - 1) * (500 * Millisecond) → (0 < fuel)%nat →
  ∃ r s', WaitReady_loop cfg fuel deadline s = Ret (Some r) s'.
Proof.
  revert s. induction fuel as [|fuel IH]; intros s Hf; [lia|]. intros _. cbn [WaitReady_loop].
  assert (Hp : ∃ r s1, probe cfg s = Ret r s1 ∧ ns (now (sup_host s).2) ≤ ns (now (sup_host s1).2)).
  { unfold probe, on_host. unfold mbind, M_bind.
    destruct (request_steady "GET" (health_url cfg) ("Bearer " +:+ AdminToken cfg) None (sup_host s)) as (r & h & -> & L).
    by eexists _, _. }
  destruct Hp as (r & s1 & E1 & L1). rewrite (bind_ret_run _ _ _ _ _ E1). destruct r as [e|]; [|by eexists _, _].
  unfold gets. unfold mbind at 1, M_bind at 1. destruct (After (now (sup_host s1).2) deadline) eqn:Ea; [by eexists _, _|].
  unfold mbind at 1, M_bind at 1. destruct (cancelled (sup_host s1).2); [by eexists _, _|].
  destruct (sleep_lasts (500 * Millisecond) (sup_host s1)) as (u & h & E2 & L2).
  unfold mbind, M_bind, on_host. rewrite E2. apply IH; cbn [sup_host]; unfold After in Ea; apply Z.ltb_ge in Ea; unfold Millisecond in *; lia.
Qed.

(** The wait for the admin port ends, whatever the port answers: 62 turns,
    half a second apart, are enough. *)
Theorem WaitReady_ends (s : Sup) : ∃ r s', WaitReady cfg s = Ret r s'.
Proof.
  destruct (WaitReady_loop_ends ready_turns (Add (now (sup_host s).2) (30 * Second)) s) as (r & s' & E).
  - cbn [Add ns]. unfold Second, Millisecond, ready_turns. lia.
  - unfold ready_turns. lia.
  - exists r, s'. unfold WaitReady, gets, mbind, M_bind. by rewrite E.
Qed.
End Process.

(** ** A machine with Garage installed, whose admin port answers after a while *)

#[export] Instance demo_os : GarageOs Z := {
  LookPath b _ := bool_decide (b = "garage");
  Spawn _ _ := λ h, Ret None h;
  RunCmd _ args := λ h, Ret ("ab12@10.0.0.1:3901" +:+ eol, "", None) h;
  now w := Time w;
  sleep d := λ h, Ret () (h.1, h.2 + d);
  cancelled _ := None;
}.
#[export] Instance demo_http : GarageHttp (fs * Z) := λ _ _ _ _ h,
  Ret (if h.2 <? 2 * Second then Err (ErrMsg "connection refused") else Ok (mkAdminReply 200 "200 OK" "" None)) h.
Definition demo_cfg : Config := normalised
  (mkConfig "/var/lib/selfcloud/garage/data" "/var/lib/selfcloud/garage/meta" "" "s3cr3t" "0.0.0.0:3901" "0.0.0.0:3900" "0.0.0.0:3902"
     "127.0.0.1:3903" "t0k3n" 1 "" "node-1" true).
Definition demo_sup : Sup (W:=Z) := NewSupervisor (empty_fs, 0).
Definition demo_started : Sup (W:=Z) := default demo_sup (exec (Start demo_cfg) demo_sup).
Definition demo_stopped : Sup (W:=Z) := default demo_sup (exec Stop demo_started).

(** It starts, is ready two seconds later, and is given its layout. *)
Example demo_start : eval (Start demo_cfg) demo_sup = Some None. Proof. vm_compute. reflexivity. Qed.
Example demo_ready : eval (WaitReady demo_cfg ;; gets (λ s, (sup_host s).2)) demo_started = Some (2 * Second).
Proof. vm_compute. reflexivity. Qed.
Example demo_node_id : node_id ("ab12@10.0.0.1:3901" +:+ eol) = "ab12". Proof. vm_compute. reflexivity. Qed.
Example demo_config : eval (on_files (ReadFile "/var/lib/selfcloud/garage/garage.toml")) demo_started = Some (Ok (configText demo_cfg)).
Proof. vm_compute. reflexivity. Qed.

Theorem stopping_a_process_crashes_the_daemon_witness :
  own_step (Live demo_stopped) Crashed ∧ (1 ≤ own_work (Live demo_stopped))%nat.
Proof.
  assert (Hs : own_step (Live demo_stopped) Crashed).
  { refine (step_wait demo_stopped 0 _ _); vm_compute; reflexivity. }
  split; [exact Hs|].
  assert (H0 : rtc (sup_step demo_cfg) (Live (NewSupervisor (empty_fs, 0))) (Live demo_started)).
  { assert (E : Live demo_started = after (Start demo_cfg demo_sup)) by (vm_compute; reflexivity).
    rewrite E. apply rtc_once. exact (step_start demo_cfg demo_sup). }
  eapply (stopping_a_process_crashes_the_daemon demo_cfg (empty_fs, 0) demo_started demo_stopped 0 None (Live demo_stopped) Crashed 1 H0);
    [vm_compute; reflexivity|vm_compute; reflexivity|vm_compute; reflexivity|apply rtc_refl|by apply nsteps_once].
Defined.
