(* ===== verification/Installer.v ===== *)
(** First boot (internal/installer/installer.go, internal/config/config.go):
    the directories of a node, its self-signed certificate, its systemd unit.

    Generating keys and signing certificates is the class [Certs]. *)

From Stdlib Require Import Ascii.
From S2P Require Import Prelude GoTime Text Glob Path Fs.

#[local] Arguments String.append : simpl nomatch.

Module Installer.

(** ** Configuration *)

Record Config := mkConfig {
  NodeID : string;
  DataDir : string;
  BindAddr : string;
  AdvertiseAddr : string;
  APIAddr : string;
  RaftAddr : string;
  GossipAddr : string;
  GarageRPCAddr : string;
  S3Addr : string;
  IngressAddr : string;
  Dev : bool;
  LogLevel : string;
  TLSCertFile : string;
  TLSKeyFile : string;
  DisableTLS : bool;
  JoinAddr : string;
  JoinToken : string;
  Bootstrap : bool;
  ContainerdSock : string;
  UIDistDir : string;
  ForceMasterKeyRotation : bool;
}.
Definition Default : Config :=
  mkConfig "" "/var/lib/selfcloud" "0.0.0.0" "" "0.0.0.0:8443" "127.0.0.1:7000" "127.0.0.1:7001" "0.0.0.0:3901"
    "0.0.0.0:3900" "0.0.0.0:8080" false "info" "" "" false "" "" false "/run/containerd/containerd.sock" "" false.

(** [Config.Path] *)
Definition cfg_Path (c : Config) (parts : list string) : string := Join (DataDir c :: parts).

Definition subdirs : list string := ["raft"; "tls"; "garage"; "containers"; "functions"; "tmp"].
Fixpoint make_subdirs (c : Config) (subs : list string) : M fs (option error) :=
  match subs with
  | [] => mret None
  | sub :: subs =>
    e ← MkdirAll (Join [DataDir c; sub]);
    match e with
    | Some e => mret (Some (ErrWrap ("create " +:+ sub +:+ " dir") e))
    | None => make_subdirs c subs
    end
  end.
Definition Validate (c : Config) : M fs (option error) :=
  if bool_decide (DataDir c = "") then mret (Some (ErrMsg "data-dir must be set"))
  else if negb (contains_str (APIAddr c) ":") then mret (Some (ErrMsg ("api-addr must be host:port, got " +:+ quoted (APIAddr c))))
  else
    e ← MkdirAll (DataDir c);
    match e with
    | Some e => mret (Some (ErrWrap "create data dir" e))
    | None => make_subdirs c subdirs
    end.

(** ** Certificate *)

(** [encoding/pem]: base64 in lines of 64 characters. *)
Fixpoint base64_lines (fuel : nat) (s : string) : string :=
  match fuel with
  | O => ""
  | S fuel => if bool_decide (s = "") then "" else take_str 64 s +:+ eol +:+ base64_lines fuel (drop_str 64 s)
  end.
Definition EncodeToMemory (type bytes : string) : string :=
  let s := base64 bytes in
  "-----BEGIN " +:+ type +:+ "-----" +:+ eol +:+ base64_lines (String.length s) s +:+ "-----END " +:+ type +:+ "-----" +:+ eol.

(** The certificate asked for; its usages are constants. *)
Record Certificate := mkCertificate {
  SerialNumber : Z;
  NotBefore : time;
  NotAfter : time;
  DNSNames : list string;
}.
Class Certs (W K : Type) := {
  GenerateKey : M (fs * W) (res K);
  (** [rand.Int], below a bound *)
  RandInt : Z → M (fs * W) (res Z);
  CreateCertificate : Certificate → K → M (fs * W) (res string);
  MarshalPKCS8PrivateKey : K → res string;
  now : W → time;
}.
Definition ten_years : Z := 10 * 365 * 24 * 3600 * 1000000000.

Section Tls.
Context {W K : Type} `{Certs W K}.

Definition on_files {A} (m : M fs A) : M (fs * W) A := λ h,
  match m h.1 with Ret a f => Ret a (f, h.2) | Panic => Panic end.

Definition certPath (dir : string) : string := Join [dir; "tls"; "cert.pem"].
Definition keyPath (dir : string) : string := Join [dir; "tls"; "key.pem"].
Definition create_pair (dir host : string) : M (fs * W) (res (string * string)) :=
  let certFile := certPath dir in
  let keyFile := keyPath dir in
  on_files (MkdirAll (filepath_Dir certFile)) ;!
  (priv ←! GenerateKey (K:=K);
   serial ←! RandInt (2 ^ 128);
   t0 ← gets (λ h, now h.2);
   t1 ← gets (λ h, now h.2);
   der ←! CreateCertificate (mkCertificate serial t0 (Add t1 ten_years) ["localhost"; "selfcloud"; host]) priv;
   keyDER ←! mret (MarshalPKCS8PrivateKey priv);
   on_files (WriteFile certFile (EncodeToMemory "CERTIFICATE" der)) ;!
   on_files (WriteFile keyFile (EncodeToMemory "PRIVATE KEY" keyDER)) ;!
   mret (Ok (certFile, keyFile))).
Definition EnsureTLS (dir host : string) : M (fs * W) (res (string * string)) :=
  have_cert ← gets (λ h, exists_at (certPath dir) h.1);
  have_key ← gets (λ h, exists_at (keyPath dir) h.1);
  if have_cert && have_key then mret (Ok (certPath dir, keyPath dir)) else create_pair dir host.
End Tls.

(** ** The systemd unit *)

Record UnitParams := mkUnitParams {
  p_BinaryPath : string;
  p_DataDir : string;
  p_APIAddr : string;
  p_RaftAddr : string;
  p_JoinAddr : string;
  p_User : string;
  p_Group : string;
}.

Fixpoint indexOf (s sub : string) : option nat :=
  if has_prefix s sub then Some O
  else match s with EmptyString => None | String _ s => S <$> indexOf s sub end.
(** [replace] stops for good after 102 replacements. *)
Fixpoint replace_loop (turns : nat) (s old new : string) : string :=
  match turns with
  | O => s
  | S turns =>
    match indexOf s old with
    | None => s
    | Some i => replace_loop turns (take_str i s +:+ new +:+ drop_str (i + String.length old) s) old new
    end
  end.
Definition replace (s old new : string) : string := replace_loop 102 s old new.

Definition systemdTemplate : string := text_lines [
  "[Unit]";
  "Description=selfCloud node";
  "After=network-online.target containerd.service";
  "Wants=network-online.target";
  "Requires=containerd.service";
  "";
  "[Service]";
  "Type=simple";
  "ExecStart={{.BinaryPath}} server --data-dir {{.DataDir}} --api-addr {{.APIAddr}}{{.RaftFlag}}{{.JoinFlag}}";
  "Restart=on-failure";
  "RestartSec=2s";
  "User={{.User}}";
  "Group={{.Group}}";
  "LimitNOFILE=65536";
  "";
  "[Install]";
  "WantedBy=multi-user.target"].

Definition unit_defaults (p : UnitParams) : UnitParams :=
  let user := orElse (p_User p) "root" in
  mkUnitParams (orElse (p_BinaryPath p) "/usr/local/bin/selfcloud") (orElse (p_DataDir p) "/var/lib/selfcloud")
    (orElse (p_APIAddr p) "0.0.0.0:8443") (p_RaftAddr p) (p_JoinAddr p) user (orElse (p_Group p) user).
Definition flag (name v : string) : string := if bool_decide (v = "") then "" else " " +:+ name +:+ " " +:+ v.
Definition RenderSystemd (p : UnitParams) : string :=
  let p := unit_defaults p in
  let out := systemdTemplate in
  let out := replace out "{{.BinaryPath}}" (p_BinaryPath p) in
  let out := replace out "{{.DataDir}}" (p_DataDir p) in
  let out := replace out "{{.APIAddr}}" (p_APIAddr p) in
  let out := replace out "{{.RaftFlag}}" (flag "--raft-addr" (p_RaftAddr p)) in
  let out := replace out "{{.JoinFlag}}" (flag "--join-addr" (p_JoinAddr p)) in
  let out := replace out "{{.User}}" (p_User p) in
  replace out "{{.Group}}" (p_Group p).

Definition WriteBootstrapTokenFile (dir token : string) : M fs (option error) :=
  WriteFile (Join [dir; "bootstrap-token"]) (token +:+ eol).
End Installer.
