(* ===== verification/InstallerProps.v ===== *)
(** First boot: the directories and the certificate are made once, and the
    systemd unit is the template with its values. *)

From Stdlib Require Import Ascii.
From S2P Require Import Prelude GoTime Text Glob Path Fs FsLaws Installer.
Import Installer.

#[local] Arguments String.append : simpl nomatch.

(** ** Directories *)

Definition dir_of_node (c : Config) (path : string) : Prop :=
  path = DataDir c ∨ ∃ sub, sub ∈ subdirs ∧ path = Join [DataDir c; sub].

Lemma make_subdirs_spec c subs s s' :
  make_subdirs c subs s = Ret None s' →
  grows s s' ∧ (∀ sub s2, sub ∈ subs → grows s' s2 → MkdirAll (Join [DataDir c; sub]) s2 = Ret None s2).
Proof.
  revert s. induction subs as [|sub subs IH]; intros s; cbn [make_subdirs].
  { intros [= <-]. split; [apply grows_refl|]. by intros ? ? ?%not_elem_of_nil. }
  unfold mbind, M_bind. destruct (MkdirAll _ s) as [[e|] s1|] eqn:E; [done| |done]. intros Hs.
  destruct (IH s1 Hs) as [Hg Hd]. pose proof (MkdirAll_grows _ _ _ _ E) as Hg1.
  split; [by eapply grows_trans|]. intros sub' s2 [->|Hin]%elem_of_cons Hg2; [|by apply Hd].
  eapply MkdirAll_again; [exact E|]. by eapply grows_trans.
Qed.
Lemma make_subdirs_again c subs s :
  (∀ sub, sub ∈ subs → MkdirAll (Join [DataDir c; sub]) s = Ret None s) → make_subdirs c subs s = Ret None s.
Proof.
  induction subs as [|sub subs IH]; intros Hd; [done|]. cbn [make_subdirs]. unfold mbind, M_bind.
  rewrite Hd by by left. apply IH. intros sub' Hin. apply Hd. by right.
Qed.

(** A configuration found valid keeps being so: as long as nothing is taken
    away, the directories of the node are there and validating again
    changes nothing. *)
Theorem validate_is_idempotent (c : Config) (s s' s2 : fs) :
  Validate c s = Ret None s' → grows s' s2 → Validate c s2 = Ret None s2.
Proof.
  unfold Validate. destruct (bool_decide _); [done|]. destruct (negb _); [done|].
  unfold mbind, M_bind. destruct (MkdirAll (DataDir c) s) as [[e|] s1|] eqn:E; [done| |done].
  intros [Hg Hd]%make_subdirs_spec Hg2. rewrite (MkdirAll_again _ _ _ s2 E) by by eapply grows_trans.
  apply make_subdirs_again. intros sub Hin. by apply Hd.
Qed.

(** ** The certificate *)

Section Tls.
Context {W K : Type} `{Certs W K}.

(** The keys are generated without touching files. *)
Class CertsApart : Prop := {
  key_apart h r h' : GenerateKey (K:=K) h = Ret r h' → h'.1 = h.1;
  rand_apart n (h : fs * W) r h' : RandInt n h = Ret r h' → h'.1 = h.1;
  sign_apart t k (h : fs * W) r h' : CreateCertificate t k h = Ret r h' → h'.1 = h.1;
}.
Context `{!CertsApart}.

Lemma create_pair_spec dir host h c k h' :
  create_pair (K:=K) dir host h = Ret (Ok (c, k)) h' →
  c = certPath dir ∧ k = keyPath dir ∧ exists_at c h'.1 = true ∧ exists_at k h'.1 = true ∧ grows h.1 h'.1.
Proof.
  unfold create_pair, guard_err, try_bind, mbind, M_bind, gets, on_files, mret, M_ret.
  destruct (MkdirAll _ h.1) as [[e|] f1|] eqn:E1; [done| |done].
  destruct (GenerateKey (f1, h.2)) as [[priv|e] h2|] eqn:E2; [|done..]. apply key_apart in E2.
  destruct (RandInt (2 ^ 128) h2) as [[serial|e] h3|] eqn:E3; [|done..]. apply rand_apart in E3.
  destruct (CreateCertificate _ priv h3) as [[der|e] h4|] eqn:E4; [|done..]. apply sign_apart in E4.
  destruct (MarshalPKCS8PrivateKey priv) as [kd|e]; [|done].
  destruct (WriteFile (certPath dir) _ h4.1) as [[e|] f5|] eqn:E5; [done| |done]. cbn [fst].
  destruct (WriteFile (keyPath dir) _ f5) as [[e|] f6|] eqn:E6; [done| |done].
  intros [= <- <- <-]. cbn [fst] in *. pose proof (WriteFile_grows _ _ _ _ E6) as Hg6.
  split_and!; [done|done| |exact (WriteFile_exists _ _ _ _ E6)|].
  - exact (exists_grows _ _ _ Hg6 (WriteFile_exists _ _ _ _ E5)).
  - eapply grows_trans; [exact (MkdirAll_grows _ _ _ _ E1)|]. eapply grows_trans; [|exact Hg6].
    rewrite E4, E3, E2 in E5. cbn [fst] in E5. exact (WriteFile_grows _ _ _ _ E5).
Qed.

(** A node keeps its certificate: once a pair has been made, every later call
    returns the same two files and changes nothing, as long as the files are
    not removed. *)
Theorem certificate_is_made_once (dir host host' : string) (h h' h2 : fs * W) (c k : string) :
  EnsureTLS (K:=K) dir host h = Ret (Ok (c, k)) h' → grows h'.1 h2.1 →
  EnsureTLS (K:=K) dir host' h2 = Ret (Ok (c, k)) h2.
Proof.
  intros He Hg. assert (Hx : c = certPath dir ∧ k = keyPath dir ∧ exists_at c h'.1 = true ∧ exists_at k h'.1 = true).
  { unfold EnsureTLS, mbind, M_bind, gets in He. destruct (exists_at _ _ && exists_at _ _) eqn:E.
    - injection He as <- <- <-. apply andb_true_iff in E as [? ?]. by split_and!.
    - apply create_pair_spec in He as (-> & -> & Hc & Hk & _). by split_and!. }
  destruct Hx as (-> & -> & Hc & Hk). unfold EnsureTLS, mbind, M_bind, gets.
  by rewrite (exists_grows _ _ _ Hg Hc), (exists_grows _ _ _ Hg Hk).
Qed.
End Tls.

(** ** The unit *)

Definition open_brace : ascii := "{"%char.
Definition close_brace : ascii := "}"%char.
Definition no_brace (s : string) : Prop := no_byte open_brace s = true.
Definition hole (name : string) : string := "{{." +:+ name +:+ "}}".

Lemma no_byte_cons c a s : no_byte c (String a s) = negb (a =? c)%char && no_byte c s.
Proof. unfold no_byte. cbn. destruct (a =? c)%char; [done|]. by destruct (index_byte s c). Qed.

Lemma index_skip u t sub :
  no_brace u → indexOf (u +:+ t) (String open_brace sub) = (λ i, String.length u + i)%nat <$> indexOf t (String open_brace sub).
Proof.
  unfold no_brace. induction u as [|a u IH]; intros Hu.
  { change ("" +:+ t) with t. by destruct (indexOf t _). }
  rewrite no_byte_cons in Hu. apply andb_true_iff in Hu as [Ha Hu]. apply negb_true_iff in Ha.
  cbn [String.append indexOf has_prefix]. rewrite Ha. cbn [andb]. rewrite (IH Hu).
  by destruct (indexOf t _).
Qed.

Definition name_ok (n : string) : Prop := no_byte open_brace n = true ∧ no_byte close_brace n = true.

Lemma hole_prefix n m t : name_ok n → name_ok m → has_prefix (hole n +:+ t) (hole m) = true → n = m.
Proof.
  intros [_ Hn] [_ Hm] (u & E)%has_prefix_true. unfold hole in E. rewrite !str_app_assoc in E. apply str_app_inj_l in E.
  cbn [String.append] in E. by apply sep_inj in E as [E _].
Qed.
Lemma index_other_hole n m t :
  name_ok n → name_ok m → n ≠ m → indexOf (hole n +:+ t) (hole m) = (λ i, String.length (hole n) + i)%nat <$> indexOf t (hole m).
Proof.
  intros Hn Hm Hne. destruct (has_prefix (hole n +:+ t) (hole m)) eqn:E; [by apply hole_prefix in E|].
  change (hole n +:+ t) with (String open_brace (String open_brace (("." +:+ n +:+ "}}") +:+ t))) in *.
  cbn [indexOf]. rewrite E. cbn [indexOf].
  change (has_prefix (String open_brace (("." +:+ n +:+ "}}") +:+ t)) (hole m)) with false. cbn iota.
  change (hole m) with (String open_brace (String open_brace ("." +:+ m +:+ "}}"))). rewrite index_skip.
  - by destruct (indexOf t _).
  - destruct Hn as [Hn _]. unfold no_brace. cbn [String.append]. rewrite no_byte_cons. cbn [negb andb]. clear -Hn.
    induction n as [|a n IH]; [done|]. cbn [String.append]. rewrite no_byte_cons in *. apply andb_true_iff in Hn as [-> Hn]. by apply IH.
Qed.

(** A template is text and holes; a hole that has no value yet is printed. *)
Inductive piece := Lit (s : string) | Hole (name : string).
Definition piece_text (env : gmap string string) (p : piece) : string :=
  match p with Lit s => s | Hole n => default (hole n) (env !! n) end.
Definition text_of (env : gmap string string) (ps : list piece) : string := foldr (λ p t, piece_text env p +:+ t) "" ps.
Definition piece_ok (p : piece) : Prop := match p with Lit s => no_brace s | Hole n => name_ok n end.
Definition env_ok (env : gmap string string) : Prop := map_Forall (λ _ v, no_brace v) env.

Lemma text_of_cons env p ps : text_of env (p :: ps) = piece_text env p +:+ text_of env ps.
Proof. done. Qed.
Lemma text_of_app env ps qs : text_of env (ps ++ qs) = text_of env ps +:+ text_of env qs.
Proof. induction ps as [|p ps IH]; [done|]. cbn [app]. by rewrite !text_of_cons, IH, str_app_assoc. Qed.

Lemma index_absent env ps x t :
  Forall piece_ok ps → env_ok env → name_ok x → Hole x ∉ ps →
  indexOf (text_of env ps +:+ t) (hole x) = (λ i, String.length (text_of env ps) + i)%nat <$> indexOf t (hole x).
Proof.
  intros Hps He Hx. induction Hps as [|p ps Hp Hps IH]; intros Hnot.
  { change (text_of env [] +:+ t) with t. by destruct (indexOf t _). }
  apply not_elem_of_cons in Hnot as [Hne Hnot]. rewrite text_of_cons, str_app_assoc.
  assert (Hi : indexOf (piece_text env p +:+ (text_of env ps +:+ t)) (hole x)
               = (λ i, String.length (piece_text env p) + i)%nat <$> indexOf (text_of env ps +:+ t) (hole x)).
  { destruct p as [s|n]; cbn [piece_text]; [by apply (index_skip s)|].
    destruct (env !! n) as [v|] eqn:Ev; cbn [default]; [by apply (index_skip v), (He n)|]. apply index_other_hole; [done..|congruence]. }
  rewrite Hi, (IH Hnot). destruct (indexOf t _); [|done]. cbn. f_equal. rewrite length_app_str. lia.
Qed.

Lemma text_of_insert env ps x v : Hole x ∉ ps → text_of (<[x := v]> env) ps = text_of env ps.
Proof.
  induction ps as [|p ps IH]; intros Hnot; [done|]. apply not_elem_of_cons in Hnot as [Hne Hnot]. rewrite !text_of_cons.
  rewrite IH by done. destruct p as [s|n]; [done|]. cbn. by rewrite lookup_insert_ne by congruence.
Qed.

Lemma drop_two a b c : drop_str (String.length a + String.length b) (a +:+ b +:+ c) = c.
Proof. rewrite <-length_app_str, <-str_app_assoc. apply drop_str_app. Qed.

(** Replacing a placeholder that occurs once gives its hole a value. *)
Lemma replace_fills env ps qs x v :
  Forall piece_ok (ps ++ Hole x :: qs) → env_ok env → no_brace v → env !! x = None → Hole x ∉ ps → Hole x ∉ qs →
  replace (text_of env (ps ++ Hole x :: qs)) (hole x) v = text_of (<[x := v]> env) (ps ++ Hole x :: qs).
Proof.
  intros [Hps [Hx Hqs]%Forall_cons]%Forall_app He Hv Hn Hp Hq.
  assert (Ht : ∀ w, indexOf (text_of env ps +:+ w +:+ text_of env qs) (hole x) =
                    (λ i, String.length (text_of env ps) + i)%nat <$> indexOf (w +:+ text_of env qs) (hole x)).
  { intros w. by apply index_absent. }
  rewrite !text_of_app, !text_of_cons. cbn [piece_text].
  rewrite lookup_insert_eq, Hn, !text_of_insert by done. cbn [default]. unfold replace.
  change 102%nat with (S (S 100)). generalize 100%nat. intros turns. cbn [replace_loop]. rewrite Ht.
  assert (Hhere : ∀ t, indexOf (hole x +:+ t) (hole x) = Some O).
  { intros t. pose proof (has_prefix_app (hole x) t) as E.
    change (hole x +:+ t) with (String open_brace (String open_brace (("." +:+ x +:+ "}}") +:+ t))) in *. cbn [indexOf]. by rewrite E. }
  rewrite Hhere. cbn [fmap option_fmap option_map]. rewrite Nat.add_0_r, take_str_app, drop_two.
  rewrite Ht. assert (Hend : indexOf (v +:+ text_of env qs) (hole x) = None).
  { change (hole x) with (String open_brace (String open_brace ("." +:+ x +:+ "}}"))). rewrite index_skip by done.
    change (String open_brace (String open_brace ("." +:+ x +:+ "}}"))) with (hole x).
    pose proof (index_absent env qs x "" Hqs He Hx Hq) as E. rewrite str_app_nil in E. by rewrite E. }
  by rewrite Hend.
Qed.

Lemma replace_named env ps x v :
  NoDup ps → Forall piece_ok ps → Hole x ∈ ps → env_ok env → no_brace v → env !! x = None →
  replace (text_of env ps) (hole x) v = text_of (<[x := v]> env) ps.
Proof.
  intros Hd Hps (l1 & l2 & ->)%list_elem_of_split He Hv Hn.
  apply NoDup_app in Hd as (_ & Hd1 & [Hd2 _]%NoDup_cons). apply replace_fills; try done.
  intros Hin. apply (Hd1 _ Hin). by left.
Qed.
Lemma env_ok_insert env x v : env_ok env → no_brace v → env_ok (<[x := v]> env).
Proof. intros. by apply map_Forall_insert_2. Qed.
#[export] Instance piece_eq_dec : EqDecision piece.
Proof. solve_decision. Defined.

Definition template_pieces : list piece := [
  Lit (text_lines ["[Unit]"; "Description=selfCloud node"; "After=network-online.target containerd.service";
                   "Wants=network-online.target"; "Requires=containerd.service"; ""; "[Service]"; "Type=simple"] +:+ "ExecStart=");
  Hole "BinaryPath"; Lit " server --data-dir "; Hole "DataDir"; Lit " --api-addr "; Hole "APIAddr"; Hole "RaftFlag"; Hole "JoinFlag";
  Lit (eol +:+ text_lines ["Restart=on-failure"; "RestartSec=2s"] +:+ "User="); Hole "User";
  Lit (eol +:+ "Group="); Hole "Group";
  Lit (eol +:+ text_lines ["LimitNOFILE=65536"; ""; "[Install]"; "WantedBy=multi-user.target"])].

Definition params_ok (p : UnitParams) : Prop :=
  Forall no_brace [p_BinaryPath p; p_DataDir p; p_APIAddr p; p_RaftAddr p; p_JoinAddr p; p_User p; p_Group p].

Lemma no_brace_app s t : no_brace s → no_brace t → no_brace (s +:+ t).
Proof.
  unfold no_brace. induction s as [|a s IH]; [done|]. cbn [String.append]. rewrite !no_byte_cons.
  intros [-> Hs]%andb_true_iff Ht. by apply IH.
Qed.
Lemma orElse_ok v d : no_brace v → no_brace d → no_brace (orElse v d).
Proof. unfold orElse. by case_bool_decide. Qed.
Lemma flag_ok n v : no_brace n → no_brace v → no_brace (flag n v).
Proof. intros Hn Hv. unfold flag. case_bool_decide; [done|]. repeat apply no_brace_app; done. Qed.
Lemma unit_defaults_ok p : params_ok p → params_ok (unit_defaults p).
Proof.
  unfold params_ok. rewrite !Forall_cons. intros (H1 & H2 & H3 & H4 & H5 & H6 & H7 & _).
  split_and!; cbn; try done; try (by apply orElse_ok). apply orElse_ok; [done|by apply orElse_ok].
Qed.

(** The unit that is rendered is the template with its values, the
    defaults filled in: for every choice of parameters without an opening
    brace, the seven successive replacements, each bounded, give the text
    written out here. *)
Theorem unit_is_the_template (p : UnitParams) :
  params_ok p →
  RenderSystemd p =
    let q := unit_defaults p in
    text_lines ["[Unit]"; "Description=selfCloud node"; "After=network-online.target containerd.service";
      "Wants=network-online.target"; "Requires=containerd.service"; ""; "[Service]"; "Type=simple";
      "ExecStart=" +:+ p_BinaryPath q +:+ " server --data-dir " +:+ p_DataDir q +:+ " --api-addr " +:+ p_APIAddr q
        +:+ flag "--raft-addr" (p_RaftAddr p) +:+ flag "--join-addr" (p_JoinAddr p);
      "Restart=on-failure"; "RestartSec=2s"; "User=" +:+ p_User q; "Group=" +:+ p_Group q;
      "LimitNOFILE=65536"; ""; "[Install]"; "WantedBy=multi-user.target"].
Proof.
  intros Hp. apply unit_defaults_ok in Hp. unfold RenderSystemd. cbv zeta.
  change (p_RaftAddr p) with (p_RaftAddr (unit_defaults p)). change (p_JoinAddr p) with (p_JoinAddr (unit_defaults p)).
  generalize dependent (unit_defaults p). intros q Hq.
  unfold params_ok in Hq. rewrite !Forall_cons in Hq. destruct Hq as (H1 & H2 & H3 & H4 & H5 & H6 & H7 & _).
  change systemdTemplate with (text_of ∅ template_pieces).
  assert (Hd : NoDup template_pieces) by (apply (bool_decide_unpack _); vm_compute; exact I).
  assert (Hps : Forall piece_ok template_pieces) by (repeat constructor).
  repeat match goal with |- context [replace (text_of ?env template_pieces) ?h ?v] =>
    match h with String _ (String _ (String _ ?n)) => let x := eval vm_compute in (take_str (String.length n - 2) n) in
      change h with (hole x);
      rewrite (replace_named env template_pieces x v Hd Hps) by
        (first [by vm_compute; repeat constructor | reflexivity | by repeat (apply env_ok_insert; [|by try apply flag_ok]); apply map_Forall_empty | by try apply flag_ok
               | set_solver])
    end end.
  unfold template_pieces. rewrite !text_of_cons. unfold text_lines, piece_text. simplify_map_eq.
  repeat (progress (cbn -[flag]; rewrite ?str_app_assoc)). reflexivity.
Qed.

Definition demo_params : UnitParams := mkUnitParams "" "/data" "" "10.0.0.1:7000" "" "sc" "".
Theorem unit_is_the_template_witness :
  RenderSystemd demo_params = text_lines ["[Unit]"; "Description=selfCloud node"; "After=network-online.target containerd.service";
      "Wants=network-online.target"; "Requires=containerd.service"; ""; "[Service]"; "Type=simple";
      "ExecStart=/usr/local/bin/selfcloud server --data-dir /data --api-addr 0.0.0.0:8443 --raft-addr 10.0.0.1:7000";
      "Restart=on-failure"; "RestartSec=2s"; "User=sc"; "Group=sc"; "LimitNOFILE=65536"; ""; "[Install]"; "WantedBy=multi-user.target"].
Proof. rewrite (unit_is_the_template demo_params); [reflexivity|]. unfold params_ok. by repeat constructor. Defined.

(** A value that holds a later placeholder is expanded in its turn. *)
Theorem values_are_expanded :
  RenderSystemd (mkUnitParams "/opt/{{.User}}" "" "" "" "" "sc" "") = RenderSystemd (mkUnitParams "/opt/sc" "" "" "" "" "sc" "").
Proof. vm_compute. reflexivity. Qed.

(** A machine whose keys and certificates are fixed texts. *)
#[export] Instance demo_certs : Certs () () := {
  GenerateKey := λ h, Ret (Ok ()) h;
  RandInt _ := λ h, Ret (Ok 7) h;
  CreateCertificate _ _ := λ h, Ret (Ok "der") h;
  MarshalPKCS8PrivateKey _ := Ok "key";
  now _ := Time 0;
}.
#[export] Instance demo_certs_apart : CertsApart (W:=()) (K:=()).
Proof. split; cbn; [intros h r h' [= _ <-]|intros n h r h' [= _ <-]|intros t k h r h' [= _ <-]]; done. Qed.
Definition demo_boot : fs * () := default (empty_fs, ()) (exec (EnsureTLS (K:=()) "/data" "node") (empty_fs, ())).
Theorem certificate_is_made_once_witness :
  EnsureTLS (K:=()) "/data" "other" demo_boot = Ret (Ok ("/data/tls/cert.pem", "/data/tls/key.pem")) demo_boot.
Proof.
  assert (E : EnsureTLS (K:=()) "/data" "node" (empty_fs, ()) = Ret (Ok ("/data/tls/cert.pem", "/data/tls/key.pem")) demo_boot)
    by (vm_compute; reflexivity).
  exact (certificate_is_made_once "/data" "node" "other" _ _ demo_boot _ _ E (grows_refl demo_boot.1)).
Defined.

Definition demo_valid : fs := default empty_fs (exec (Validate Default) empty_fs).
Theorem validate_is_idempotent_witness : Validate Default demo_valid = Ret None demo_valid.
Proof.
  assert (E : Validate Default empty_fs = Ret None demo_valid) by (vm_compute; reflexivity).
  exact (validate_is_idempotent Default _ _ demo_valid E (grows_refl demo_valid)).
Defined.
