(* ===== verification/Server.v ===== *)
(** The server's frame (internal/api/server.go): what New builds, the chain
    of middlewares around the routes with the request log and the recovery
    from panics, and the life of the listener in [Run].

    A handler is given the response writer of the layer above it; what it
    writes is its [Response].  Of a writer the model keeps which of net/http's
    optional interfaces its type has. *)

From S2P Require Import Prelude GoTime Json Types Bolt Store StoreOps Text Random Secrets Auth Bus Replication Wasm Dispatcher Path Http Routes Fs Installer.
Import Routes.

Module Server.

(** ** Response writers

    [NetResponse]: net/http's own, which can be hijacked on HTTP/1 and not on
    HTTP/2.  [statusRecorder] embeds the interface [http.ResponseWriter], so
    its method set is [Header], [Write] and [WriteHeader]. *)
Inductive ResponseWriter :=
  | NetResponse (http1 : bool)
  | statusRecorder (inner : ResponseWriter).

(** [w.(http.Hijacker)] *)
Definition is_Hijacker (w : ResponseWriter) : bool :=
  match w with NetResponse http1 => http1 | statusRecorder _ => false end.
(** [w.(interface{ Unwrap() http.ResponseWriter })] *)
Definition Unwrap (w : ResponseWriter) : option ResponseWriter :=
  match w with NetResponse _ => None | statusRecorder _ => None end.
(** Whether the connection under a writer can be had, as
    [http.ResponseController] looks for it. *)
Definition hijackable (w : ResponseWriter) : bool :=
  is_Hijacker w || match Unwrap w with Some w' => is_Hijacker w' | None => false end.

(** ** The request log *)

Inductive LogLine :=
  | HttpLine (method path : string) (status dur_ms : Z)
  | PanicLine (path : string).

(** [/healthz] and [/assets] are not logged. *)
Definition logged (path : string) : bool := negb (has_prefix path "/healthz") && negb (has_prefix path "/assets").

Section Frame.
Context `{Crypto} `{Bolt} {T1 T2 : Type}.
Abbreviation S := (Srv T1 T2).
Abbreviation Handler := (ResponseWriter → HttpRequest → M S Response).

(** The server with what it has logged. *)
Definition L : Type := (S * list LogLine).
Definition below {A} (m : M S A) : M L A := λ s,
  match m s.1 with Ret a s' => Ret a (s', s.2) | Panic => Panic end.
Definition log_line (l : LogLine) : M L () := modify (λ s, (s.1, s.2 ++ [l])).

(** The recorder's status is that of the last [WriteHeader], 200 before. *)
Definition requestLogger (next : Handler) (w : ResponseWriter) (r : HttpRequest) : M L Response :=
  start ← below (on_store now);
  resp ← below (next (statusRecorder w) r);
  (if logged (r_Path r) then
     t ← below (on_store now);
     log_line (HttpLine (r_Method r) (r_Path r) (resp_Status resp) (Z.quot (Sub t start) 1000000))
   else mret ());;
  mret resp.

(** [recoverer].  A computation that panics has no final state: [left] is
    the state a handler leaves behind when it panics. *)
Definition recoverer (left : HttpRequest → L → L) (next : ResponseWriter → HttpRequest → M L Response)
    (w : ResponseWriter) (r : HttpRequest) : M L Response := λ s,
  match next w r s with
  | Ret resp s' => Ret resp s'
  | Panic =>
    let s' := left r s in
    Ret (httpError 500 "internal error") (s'.1, s'.2 ++ [PanicLine (r_Path r)])
  end.

(** The handler [Run] gives the HTTP server. *)
Context (dispatch : ResponseWriter → string → list string → option Identity → HttpRequest → M S Response)
        (reply : refusal → HttpRequest → Response).
Definition mux_handler (raft : option (Raft * string)) : Handler := λ w r,
  cors (leaderRedirect raft (routes (dispatch w) reply)) r.
Definition ServeHTTP (left : HttpRequest → L → L) (raft : option (Raft * string)) : ResponseWriter → HttpRequest → M L Response :=
  recoverer left (requestLogger (mux_handler raft)).
End Frame.

(** ** The identity in the context of a request *)

(** Values of a context by the key's type and number; the key [identityKey]
    is the only one of its type. *)
Abbreviation Ctx := (gmap Z Identity).
Definition identityKey : Z := 1.
Definition withIdentity (ctx : Ctx) (id : Identity) : Ctx := <[identityKey := id]> ctx.
Definition IdentityFrom (ctx : Ctx) : option Identity := ctx !! identityKey.

(** ** New *)

Definition newReadiness : readiness := ∅.

Record Options `{Bolt} (T1 T2 : Type) := mkOptions {
  opt_Sys : Sys;
  opt_Wasm : option T1;
  opt_Firecracker : option T2;
  opt_Blobs : option BlobStore;
}.
Arguments opt_Sys {_ _ _} _.
Arguments opt_Wasm {_ _ _} _.
Arguments opt_Firecracker {_ _ _} _.
Arguments opt_Blobs {_ _ _} _.

(** The server's state, its readiness and its start; the other dependencies
    are arguments of the handlers that use them. *)
Definition New `{Bolt} {T1 T2} (opt : Options T1 T2) (now : time) : Srv T1 T2 * readiness * time :=
  (mkSrv (opt_Sys opt) (opt_Wasm opt) (opt_Firecracker opt) (opt_Blobs opt) (newInvocationRing 100), newReadiness, now).

(** [AttachRuleDispatcher], with [has_bus] and [has_store] for the nil
    checks; the dispatcher's [Name]. *)
Definition dispatcher_Name : string := "rule-dispatcher".
Definition AttachRuleDispatcher `{Bolt} {T1 T2} (has_bus has_store : bool) : M (Srv T1 T2) () :=
  if negb has_bus || negb has_store then mret () else on_sys (AddSink dispatcher_Name).

(** ** Run *)

Import Installer.

Inductive listen := Plain | Tls (cert key : string).
(** [TLSConfig]: whether a minimum version is set, when TLS is on at all. *)
Definition tls_min12 (c : Config) : bool :=
  negb (DisableTLS c) && negb (bool_decide (TLSCertFile c = "")) && negb (bool_decide (TLSKeyFile c = "")).
Definition listen_mode (c : Config) : listen := if DisableTLS c then Plain else Tls (TLSCertFile c) (TLSKeyFile c).
Definition api_message (c : Config) : string := "listening on " +:+ APIAddr c.

(** The goroutine that listens, and [Run] itself. *)
Inductive listener := Spawned | Announced | Serving | Finished.
Record run_state := mkRun {
  ru_listener : listener;
  ru_shut : bool;                         (** [Shutdown] was called *)
  ru_errCh : option error;                (** a channel of capacity one *)
  ru_ctx_done : bool;
  ru_result : option (option error);      (** what [Run] returned *)
  ru_ready : readiness;
}.
#[export] Instance listener_eq_dec : EqDecision listener.
Proof. solve_decision. Defined.

Definition run_start (r : readiness) : run_state := mkRun Spawned false None false None r.

(** The steps of the two goroutines and of the outside, in any order. *)
Inductive run_step (c : Config) : run_state → run_state → Prop :=
  | StepAnnounce s t :
      ru_listener s = Spawned →
      run_step c s (mkRun Announced (ru_shut s) (ru_errCh s) (ru_ctx_done s) (ru_result s) (Mark "api" true (api_message c) t (ru_ready s)))
  | StepBind s :
      ru_listener s = Announced → ru_shut s = false →
      run_step c s (mkRun Serving (ru_shut s) (ru_errCh s) (ru_ctx_done s) (ru_result s) (ru_ready s))
  | StepFail s e :   (* the address cannot be bound, or accepting fails *)
      ru_listener s = Announced ∨ ru_listener s = Serving →
      run_step c s (mkRun Finished (ru_shut s) (Some e) (ru_ctx_done s) (ru_result s) (ru_ready s))
  | StepClosed s :   (* [http.ErrServerClosed] *)
      ru_listener s = Announced ∨ ru_listener s = Serving → ru_shut s = true →
      run_step c s (mkRun Finished (ru_shut s) (ru_errCh s) (ru_ctx_done s) (ru_result s) (ru_ready s))
  | StepCancel s :
      run_step c s (mkRun (ru_listener s) (ru_shut s) (ru_errCh s) true (ru_result s) (ru_ready s))
  | StepShutdown s e :
      ru_result s = None → ru_ctx_done s = true →
      run_step c s (mkRun (ru_listener s) true (ru_errCh s) (ru_ctx_done s) (Some e) (ru_ready s))
  | StepReturn s e :
      ru_result s = None → ru_errCh s = Some e →
      run_step c s (mkRun (ru_listener s) (ru_shut s) None (ru_ctx_done s) (Some (Some e)) (ru_ready s)).
End Server.
