(* ===== verification/Streams.v ===== *)
(** The endpoints that keep a connection open (internal/api/streams.go,
    containers_ws.go, the WebSocket handlers of events.go and builds.go) and
    the embedded dashboard (web.go).

    The WebSocket library is the class [WebSocket].  A handler either replies
    or has an upgraded connection; from there its goroutines, the one that
    produces and the client are the steps of a relation, one per session. *)

From S2P Require Import Prelude Loops GoTime Json Types Bolt Store StoreOps Text Random Secrets Auth Bus Replication Wasm Dispatcher Glob Path Fs Builder Http Routes Server.
Import Routes Server.

#[local] Arguments String.append : simpl nomatch.

Module Streams.

(** ** Upgrading *)

Record AcceptOptions := mkAcceptOptions { InsecureSkipVerify : bool; Subprotocols : list string }.

(** [websocket.Accept]: [None] is an upgraded connection, otherwise the
    response it wrote.  It has to hijack the connection. *)
Class WebSocket := Accept : ResponseWriter → HttpRequest → AcceptOptions → option Response.
Class WebSocketLaws `{WebSocket} :=
  accept_needs_hijacker : ∀ w r o, hijackable w = false → ∃ resp, Accept w r o = Some resp ∧ resp_Status resp ≠ 101.

Definition upgradeWS `{WebSocket} (w : ResponseWriter) (r : HttpRequest) : option Response :=
  Accept w r (mkAcceptOptions true ["selfcloud.v1"]).

(** A reply, or a connection with what its session is about. *)
Definition switching : Response := mkResponse 101 ∅ BNone.
Definition answered {A} (x : Response + A) : Response := match x with inl resp => resp | inr _ => switching end.

Section Upgrades.
Context `{Bolt} `{WebSocket} {T1 T2 : Type}.
Abbreviation S := (Srv T1 T2).

Definition or_store_reply {A B} (m : M S (res A)) (k : A → M S (Response + B)) : M S (Response + B) :=
  r ← m; match r with Ok a => k a | Err e => mret (inl (mapStoreErr e)) end.
Definition upgraded {A} (w : ResponseWriter) (r : HttpRequest) (a : A) : M S (Response + A) :=
  mret match upgradeWS w r with Some resp => inl resp | None => inr a end.

Definition handleContainerLogsWS (project name : string) (w : ResponseWriter) (r : HttpRequest) : M S (Response + Container) :=
  or_store_reply (on_store (GetContainer project name)) (upgraded w r).
Definition handleContainerExecWS (project name : string) (w : ResponseWriter) (r : HttpRequest) : M S (Response + Container) :=
  or_store_reply (on_store (GetContainer project name)) (upgraded w r).
Definition handleEventsWS (has_bus : bool) (project : string) (w : ResponseWriter) (r : HttpRequest) : M S (Response + string) :=
  if negb has_bus then mret (inl (httpError 503 "event bus not configured")) else upgraded w r project.
Definition handleBuildLogsWS (has_builder : bool) (project id : string) (w : ResponseWriter) (r : HttpRequest) : M S (Response + Build) :=
  if negb has_builder then mret (inl (httpError 503 "builder not configured"))
  else or_store_reply (on_store (GetBuild project id)) (upgraded w r).

(** The handlers by name, these four among them; [vs] are the path values. *)
Definition with_streams (has_bus has_builder : bool)
    (others : string → list string → option Identity → HttpRequest → M S Response)
    (w : ResponseWriter) (h : string) (vs : list string) (id : option Identity) (r : HttpRequest) : M S Response :=
  let v i := nth i vs "" in
  if bool_decide (h = "handleContainerLogsWS") then answered <$> handleContainerLogsWS (v O) (v 1%nat) w r
  else if bool_decide (h = "handleContainerExecWS") then answered <$> handleContainerExecWS (v O) (v 1%nat) w r
  else if bool_decide (h = "handleEventsWS") then answered <$> handleEventsWS has_bus (v O) w r
  else if bool_decide (h = "handleBuildLogsWS") then answered <$> handleBuildLogsWS has_builder (v O) (v 2%nat) w r
  else others h vs id r.
End Upgrades.
Definition stream_handlers : list string := ["handleContainerLogsWS"; "handleContainerExecWS"; "handleEventsWS"; "handleBuildLogsWS"].

(** ** Pumps *)

Inductive MessageType := MessageText | MessageBinary.
Abbreviation message := (MessageType * string)%type.
Definition io_EOF : error := ErrMsg "EOF".

(** One turn of [pump]: what [Read] returned, and the error of the write if
    there is one to make.  [None]: the loop goes on. *)
Definition pump_turn (werr : option error) (n : string) (err : option error) : list message * option (option error) :=
  let verdict := match err with None => None | Some e => Some (if errors_is e io_EOF then None else Some e) end in
  if bool_decide (n = "") then ([], verdict)
  else match werr with Some e => ([], Some (Some e)) | None => ([(MessageBinary, n)], verdict) end.

(** [Read] of a pipe with the buffer of [pump]; [None] blocks. *)
Definition pump_buffer : nat := 4096.
Definition read_result (p : pipe) : option (string * option error * pipe) :=
  match pipe_read pump_buffer p with
  | Some (c, p') => Some (c, None, p')
  | None => if at_eof p then Some ("", Some io_EOF, p) else None
  end.

(** [readPump] against a pipe whose reader takes [taken] writes in all; the
    write after those never returns. *)
Inductive pumped := Blocked | Hungup.
Fixpoint readPump (taken : nat) (msgs : list string) : list string * pumped :=
  match msgs with
  | [] => ([], Hungup)
  | m :: msgs => match taken with O => ([m], Blocked) | Datatypes.S n => let r := readPump n msgs in (m :: r.1, r.2) end
  end.

(** [pingLoop]: pings sent until the request's context is done. *)
Definition pingLoop (ws : list (wake Empty_set)) : M nat bool :=
  select_loop (mret ()) (modify Datatypes.S) (λ e : Empty_set, match e with end) ws.

Definition texts (l : list message) : string := String.concat "" (snd <$> l).

(** ** Container logs over a WebSocket

    The runtime writes [lo_rest], piece by piece, into the pipe; the handler
    pumps the pipe into the connection and returns [lo_result]. *)
Record logs_session := mkLogs {
  lo_rest : list string;
  lo_pipe : pipe;
  lo_sent : list message;
  lo_hangup : bool;                    (** the request's context is done *)
  lo_result : option (option error);
}.
Definition logs_start (output : list string) : logs_session := mkLogs output new_pipe [] false None.
(** The context of [Logs], cancelled when the handler returns too. *)
Definition logs_cancelled (s : logs_session) : bool :=
  lo_hangup s || match lo_result s with Some _ => true | None => false end.

Inductive logs_step : logs_session → logs_session → Prop :=
  | LogsWrite s b rest :
      lo_rest s = b :: rest → pipe_ready (lo_pipe s) = true →
      logs_step s (mkLogs rest (begin_write b (lo_pipe s)) (lo_sent s) (lo_hangup s) (lo_result s))
  | LogsEnd s :
      pipe_ready (lo_pipe s) = true → lo_rest s = [] ∨ logs_cancelled s = true →
      logs_step s (mkLogs (lo_rest s) (close_writer (lo_pipe s)) (lo_sent s) (lo_hangup s) (lo_result s))
  | LogsPump s werr c e p' msgs v :
      lo_result s = None → read_result (lo_pipe s) = Some (c, e, p') → pump_turn werr c e = (msgs, v) →
      logs_step s (mkLogs (lo_rest s) p' (lo_sent s ++ msgs) (lo_hangup s) v)
  | LogsHangup s :
      logs_step s (mkLogs (lo_rest s) (lo_pipe s) (lo_sent s) true (lo_result s)).

(** ** Exec *)

Record execHeader := mkExecHeader { execHeader_Cmd : list string }.
#[export] Instance execheader_json : Json execHeader := struct_json mkExecHeader (
  fld "cmd" execHeader_Cmd;
  Fnil).

Definition dquote : string := String quote "".
(** The command of the first message, or the reply that refuses it. *)
Definition exec_refusal : message :=
  (MessageText, "{" +:+ quoted "error" +:+ ":" +:+ dquote +:+ "first message must be {\" +:+ dquote +:+ "cmd\" +:+ dquote +:+ ":[...]}" +:+ dquote +:+ "}").
Definition exec_command (raw : option json) : message + list string :=
  match raw ≫= dec with
  | Some h => match execHeader_Cmd h with [] => inl exec_refusal | cmd => inr cmd end
  | None => inl exec_refusal
  end.
(** What the handler appends when [Exec] fails. *)
Definition exec_failure (e : error) : string :=
  eol +:+ "[error] " +:+ error_text e +:+ eol.

(** [ex_out] is what is still to be written to the pipe: the output of the
    command and, if it fails, the line above. *)
Inductive exec_stage := Executing | Closing | Over.
Record exec_session := mkExec {
  ex_out : list string;
  ex_pipe : pipe;
  ex_buf : option (string * option error);   (** read by [pump], not yet sent *)
  ex_sent : list message;
  ex_pumped : option (option error);          (** what [pump] returned *)
  ex_stage : exec_stage;
  ex_gone : bool;                             (** the client went away *)
}.
#[export] Instance exec_stage_eq_dec : EqDecision exec_stage.
Proof. solve_decision. Defined.
Definition exec_start (output : list string) : exec_session := mkExec output new_pipe None [] None Executing false.
Definition exec_conn_open (s : exec_session) : bool := negb (ex_gone s) && negb (bool_decide (ex_stage s = Over)).

Inductive exec_step : exec_session → exec_session → Prop :=
  | ExecWrite s b rest :
      ex_stage s = Executing → ex_out s = b :: rest → pipe_ready (ex_pipe s) = true →
      exec_step s (mkExec rest (begin_write b (ex_pipe s)) (ex_buf s) (ex_sent s) (ex_pumped s) (ex_stage s) (ex_gone s))
  | ExecWriteFails s b rest :    (* [io.ErrClosedPipe] *)
      ex_stage s = Executing → ex_out s = b :: rest → p_rclosed (ex_pipe s) = true →
      exec_step s (mkExec rest (ex_pipe s) (ex_buf s) (ex_sent s) (ex_pumped s) (ex_stage s) (ex_gone s))
  | ExecDone s :                 (* [stdoutW.Close] *)
      ex_stage s = Executing → ex_out s = [] → p_cur (ex_pipe s) = None →
      exec_step s (mkExec [] (close_writer (ex_pipe s)) (ex_buf s) (ex_sent s) (ex_pumped s) Closing (ex_gone s))
  | ExecClose s :                (* [conn.Close] *)
      ex_stage s = Closing →
      exec_step s (mkExec (ex_out s) (ex_pipe s) (ex_buf s) (ex_sent s) (ex_pumped s) Over (ex_gone s))
  | ExecRead s c e p' :
      ex_pumped s = None → ex_buf s = None → read_result (ex_pipe s) = Some (c, e, p') →
      exec_step s (mkExec (ex_out s) p' (Some (c, e)) (ex_sent s) (ex_pumped s) (ex_stage s) (ex_gone s))
  | ExecSend s werr c e msgs v :
      ex_buf s = Some (c, e) → (werr = None ↔ exec_conn_open s = true) → pump_turn werr c e = (msgs, v) →
      exec_step s (mkExec (ex_out s) (match v with None => ex_pipe s | Some _ => close_reader (ex_pipe s) end)
                          None (ex_sent s ++ msgs) v (ex_stage s) (ex_gone s))
  | ExecGone s :
      exec_step s (mkExec (ex_out s) (ex_pipe s) (ex_buf s) (ex_sent s) (ex_pumped s) (ex_stage s) true).

(** ** The event stream of a project

    The bus appends an event to the log ([es_log], what the project can list)
    and then hands it to the subscribers ([es_fanned] counts those done).
    The handler lists the backlog, sends it, subscribes, and sends what
    arrives on its channel of 64. *)
Definition ws_chan_cap : nat := 64.
Definition ws_backlog : Z := 50.
Definition relevant (project : string) (ev : EventRecord) : bool :=
  bool_decide (EventRecord_Project ev = "") || bool_decide (EventRecord_Project ev = project).
(** The subscriber's callback: drop rather than block. *)
Definition ws_full (ch : list EventRecord) : bool := (ws_chan_cap <=? length ch)%nat.
Definition ws_offer (project : string) (ev : EventRecord) (ch : list EventRecord) : list EventRecord :=
  if negb (relevant project ev) then ch else if ws_full ch then ch else ch ++ [ev].

Inductive ws_stage := Connected | Draining (backlog : list EventRecord) | Live | Left.
Record event_session := mkEvents {
  es_log : list EventRecord;       (** events of the bus, oldest first *)
  es_fanned : nat;
  es_stage : ws_stage;
  es_listed : nat;                 (** events logged when the backlog was listed *)
  es_from : nat;                   (** events handed out when it subscribed *)
  es_chan : list EventRecord;
  es_sent : list EventRecord;
  es_dropped : nat;                (** events the full channel cost it; no code counts them *)
}.

Section Events.
(** [ListEvents] of the project: newest first, at most the limit. *)
Context (project : string) (list_events : list EventRecord → list EventRecord).

Definition events_start (log : list EventRecord) : event_session := mkEvents log (length log) Connected 0 0 [] [] 0.
Definition fan_out (ev : EventRecord) (s : event_session) : event_session :=
  match es_stage s with
  | Live =>
    mkEvents (es_log s) (S (es_fanned s)) Live (es_listed s) (es_from s) (ws_offer project ev (es_chan s)) (es_sent s)
      (if relevant project ev && ws_full (es_chan s) then S (es_dropped s) else es_dropped s)
  | st => mkEvents (es_log s) (S (es_fanned s)) st (es_listed s) (es_from s) (es_chan s) (es_sent s) (es_dropped s)
  end.
Inductive event_step : event_session → event_session → Prop :=
  | EvAppend s ev :          (* one event at a time goes through [dispatch] *)
      es_fanned s = length (es_log s) →
      event_step s (mkEvents (es_log s ++ [ev]) (es_fanned s) (es_stage s) (es_listed s) (es_from s) (es_chan s) (es_sent s) (es_dropped s))
  | EvFanOut s ev :
      es_log s !! es_fanned s = Some ev → event_step s (fan_out ev s)
  | EvList s :
      es_stage s = Connected →
      event_step s (mkEvents (es_log s) (es_fanned s) (Draining (reverse (list_events (es_log s)))) (length (es_log s)) (es_from s)
                     (es_chan s) (es_sent s) (es_dropped s))
  | EvSendBacklog s ev l :
      es_stage s = Draining (ev :: l) →
      event_step s (mkEvents (es_log s) (es_fanned s) (Draining l) (es_listed s) (es_from s) (es_chan s) (es_sent s ++ [ev]) (es_dropped s))
  | EvSubscribe s :
      es_stage s = Draining [] →
      event_step s (mkEvents (es_log s) (es_fanned s) Live (es_listed s) (es_fanned s) (es_chan s) (es_sent s) (es_dropped s))
  | EvSend s ev q :
      es_stage s = Live → es_chan s = ev :: q →
      event_step s (mkEvents (es_log s) (es_fanned s) Live (es_listed s) (es_from s) q (es_sent s ++ [ev]) (es_dropped s))
  | EvLeave s :              (* a write fails or the client goes away: [unsub] *)
      event_step s (mkEvents (es_log s) (es_fanned s) Left (es_listed s) (es_from s) (es_chan s) (es_sent s) (es_dropped s)).
End Events.

(** [writeEvent]: the event as a text message. *)
Definition writeEvent (ev : EventRecord) : MessageType * json := (MessageText, enc ev).

(** ** The log of a build

    The subscriber [id] of the build's stream; the poller cancels the handler
    a second after it saw the build finished. *)
Import Builder.
Definition build_finished (b : Build) : bool :=
  bool_decide (Build_Status b = PhaseSucceeded) || bool_decide (Build_Status b = PhaseFailed).
(** One tick of the poller; [GetBuild] by the record's name. *)
Definition poll_build `{Bolt} (b : Build) : M World bool :=
  r ← GetBuild (Meta_Project (Build_Meta b)) (Meta_Name (Build_Meta b));
  mret match r with Ok cur => build_finished cur | Err _ => false end.

(** [bs_offered]: what the subscriber's channel has taken so far, which no
    code keeps. *)
Record build_session := mkBuildWs {
  bs_stream : logStream;
  bs_offered : list string;
  bs_sent : list message;
  bs_cancelled : bool;
  bs_over : bool;
}.
Definition subscriber_items (id : nat) (s : logStream) : list string := default [] (ch_items <$> ls_subs s !! id).
Definition build_ws_start (id : nat) (s : logStream) : build_session := mkBuildWs s (subscriber_items id s) [] false false.

Inductive build_step (id : nat) : build_session → build_session → Prop :=
  | BuildAppend s text :
      build_step id s (mkBuildWs (appendLines text (bs_stream s))
                         (bs_offered s ++ drop (length (subscriber_items id (bs_stream s))) (subscriber_items id (appendLines text (bs_stream s))))
                         (bs_sent s) (bs_cancelled s) (bs_over s))
  | BuildClose s :
      build_step id s (mkBuildWs (close_stream (bs_stream s)) (bs_offered s) (bs_sent s) (bs_cancelled s) (bs_over s))
  | BuildLine s text st' :
      bs_over s = false → take_line id (bs_stream s) = (Some text, st') →
      build_step id s (mkBuildWs st' (bs_offered s) (bs_sent s ++ [(MessageText, text)]) (bs_cancelled s) false)
  | BuildEnd s :          (* the channel is closed and empty *)
      bs_over s = false → ls_subs (bs_stream s) !! id = Some (mkChan [] true) →
      build_step id s (mkBuildWs (unsubscribe id (bs_stream s)) (bs_offered s) (bs_sent s) (bs_cancelled s) true)
  | BuildCancel s :       (* the poller, or the client *)
      build_step id s (mkBuildWs (bs_stream s) (bs_offered s) (bs_sent s) true (bs_over s))
  | BuildLeave s :        (* [ctx.Done] is chosen, or a write fails *)
      bs_over s = false → bs_cancelled s = true →
      build_step id s (mkBuildWs (unsubscribe id (bs_stream s)) (bs_offered s) (bs_sent s) (bs_cancelled s) true).

(** The replay of a log on disk: a goroutine pushes its lines into a channel
    of 256 and closes it. *)
Record replay_session := mkReplay {
  rp_rest : list string;
  rp_chan : list string;
  rp_closed : bool;
  rp_sent : list message;
  rp_cancelled : bool;
  rp_over : bool;
}.
Definition replay_start (lines : list string) : replay_session := mkReplay lines [] false [] false false.
Inductive replay_step : replay_session → replay_session → Prop :=
  | ReplayPush s line rest :
      rp_rest s = line :: rest → (length (rp_chan s) < chan_cap)%nat →
      replay_step s (mkReplay rest (rp_chan s ++ [line]) (rp_closed s) (rp_sent s) (rp_cancelled s) (rp_over s))
  | ReplayClose s :
      rp_rest s = [] → replay_step s (mkReplay [] (rp_chan s) true (rp_sent s) (rp_cancelled s) (rp_over s))
  | ReplayLine s line q :
      rp_over s = false → rp_chan s = line :: q →
      replay_step s (mkReplay (rp_rest s) q (rp_closed s) (rp_sent s ++ [(MessageText, line)]) (rp_cancelled s) false)
  | ReplayEnd s :
      rp_over s = false → rp_chan s = [] → rp_closed s = true →
      replay_step s (mkReplay (rp_rest s) [] true (rp_sent s) (rp_cancelled s) true)
  | ReplayCancel s :
      replay_step s (mkReplay (rp_rest s) (rp_chan s) (rp_closed s) (rp_sent s) true (rp_over s))
  | ReplayLeave s :
      rp_over s = false → rp_cancelled s = true →
      replay_step s (mkReplay (rp_rest s) (rp_chan s) (rp_closed s) (rp_sent s) (rp_cancelled s) true).

(** ** The dashboard *)

Section Dashboard.
(** The embedded build, by path below web_dist; the handler of net/http that
    serves it. *)
Context (web_dist : gmap string string) (fileServer : HttpRequest → Response).

Definition html_header : gmap string (list string) := {["Content-Type" := ["text/html; charset=utf-8"]]}.
Definition placeholder : string := text_lines [
  "<!doctype html>";
  "<html><head><meta charset=" +:+ quoted "utf-8" +:+ "><title>selfCloud</title>";
  "<style>body{font-family:ui-sans-serif,system-ui;background:#0a0e14;color:#e6edf3;margin:0;padding:48px;line-height:1.6}code{background:#161b22;padding:2px 6px;border-radius:4px}h1{margin:0 0 12px}a{color:#58a6ff}</style>";
  "</head><body>";
  "<h1>selfCloud</h1>";
  "<p>The dashboard hasn't been built yet. From the project root run:</p>";
  "<pre><code>make web</code></pre>";
  "<p>Then refresh this page. The REST API is already serving on <code>/api/v1</code>.</p>"] +:+ "</body></html>".
Definition placeholderHandler : Response := mkResponse 200 html_header (BRaw placeholder).

(** [fs.ValidPath], which an embedded file system requires of a name. *)
Definition valid_name (p : string) : bool :=
  bool_decide (p = ".") || forallb (λ s, negb (bool_decide (s = "" ∨ s = "." ∨ s = ".."))) (split_on slash p).
(** [sub.Open]: a file, or a directory, which is what a file is below. *)
Definition embedded (p : string) : bool :=
  valid_name p && (bool_decide (p = ".") || bool_decide (is_Some (web_dist !! p)) ||
    existsb (λ x, has_prefix x.1 (p +:+ "/")) (map_to_list web_dist)).

Definition index_buffer : nat := 64 * 1024.
Definition dashboardHandler (r : HttpRequest) : Response :=
  if bool_decide (web_dist = ∅) then placeholderHandler
  else
    let path := if bool_decide (r_Path r = "/") then "/index.html" else r_Path r in
    if embedded (drop_str 1 path) then fileServer r
    else match web_dist !! "index.html" with
         | None => mkResponse 404 {["Content-Type" := ["text/plain; charset=utf-8"]]} (BRaw (text_lines ["404 page not found"]))
         | Some index => mkResponse 200 html_header (BRaw (take_str index_buffer index))
         end.
End Dashboard.
End Streams.
