(* ===== verification/Handlers.v ===== *)
(** The resource handlers of the API (internal/api/handlers.go, less the
    functions, which are in [Functions] and [Invoke]): set-up, login and
    tokens, projects, containers, buckets, access keys.

    [HSys] adds to the server the container runtime and Garage, which these
    handlers also drive. *)

From S2P Require Import Prelude GoTime Json Types Bolt Store StoreOps Text Random Secrets Auth Bus Replication Cluster Wasm Duration Http Invoke Garage Log.

Record HSys `{Bolt} (T1 T2 R G : Type) := mkHSys { h_srv : Srv T1 T2; h_rt : R; h_garage : G }.
Arguments mkHSys {_ _ _ _ _} _ _ _.
Arguments h_srv {_ _ _ _ _} _.
Arguments h_rt {_ _ _ _ _} _.
Arguments h_garage {_ _ _ _ _} _.

(** The container runtime as the handlers use it. *)
Class ContainerRuntime (R : Type) := {
  crt_Start : Container → M R (res ContainerStatus);
  crt_Stop : Container → M R (option error);
  crt_Remove : Container → M R (option error);
}.

(** Its [Logs]: what it writes to the writer, and its error. *)
Class ContainerLogs (R : Type) := crt_Logs : Container → bool → M R (list string * option error).

(** ** Request bodies *)

Record initializeReq := mkInitializeReq {
  initializeReq_BootstrapToken : string;
  initializeReq_AdminEmail : string;
  initializeReq_AdminName : string;
  initializeReq_AdminPassword : string;
  initializeReq_MultiNode : bool;
}.
#[export] Instance initializereq_json : Json initializeReq := struct_json mkInitializeReq (
  fld "bootstrapToken" initializeReq_BootstrapToken;
  fld "adminEmail" initializeReq_AdminEmail;
  fld "adminName" initializeReq_AdminName;
  fld "adminPassword" initializeReq_AdminPassword;
  fld "multiNode" initializeReq_MultiNode;
  Fnil).

Record loginReq := mkLoginReq { loginReq_Email : string; loginReq_Password : string }.
#[export] Instance loginreq_json : Json loginReq := struct_json mkLoginReq (
  fld "email" loginReq_Email;
  fld "password" loginReq_Password;
  Fnil).

Record createTokenReq := mkCreateTokenReq { createTokenReq_Name : string; createTokenReq_TTL : string }.
#[export] Instance createtokenreq_json : Json createTokenReq := struct_json mkCreateTokenReq (
  fld "name" createTokenReq_Name;
  ofld "ttl" createTokenReq_TTL;
  Fnil).

Record createAccessKeyReq := mkCreateAccessKeyReq {
  createAccessKeyReq_Name : string;
  createAccessKeyReq_Bucket : string;
  createAccessKeyReq_Permissions : string;
}.
#[export] Instance createaccesskeyreq_json : Json createAccessKeyReq := struct_json mkCreateAccessKeyReq (
  fld "name" createAccessKeyReq_Name;
  ofld "bucket" createAccessKeyReq_Bucket;
  fld "permissions" createAccessKeyReq_Permissions;
  Fnil).

(** [auth.Identity] has no tags. *)
#[export] Instance identity_json : Json Identity := struct_json mkIdentity (
  fld "UserID" Identity_UserID;
  fld "Email" Identity_Email;
  fld "IsAdmin" Identity_IsAdmin;
  fld "Token" Identity_Token;
  Fnil).

Section Handlers.
Context `{Crypto} `{Random} `{Bolt} {T1 T2 R G : Type} `{ContainerRuntime R} `{GarageHttp G}.
Context (raft : option Raft) (scheduler : option Scheduler.Scheduler) (garageAdm : option AdminClient).
Abbreviation S := (HSys T1 T2 R G).

Definition db_do {A} (m : M World A) : M S A := λ s,
  match on_store m (h_srv s) with Ret a y => Ret a (mkHSys y (h_rt s) (h_garage s)) | Panic => Panic end.
Definition rt_do {A} (m : M R A) : M S A := λ s,
  match m (h_rt s) with Ret a r => Ret a (mkHSys (h_srv s) r (h_garage s)) | Panic => Panic end.
Definition garage_do {A} (m : M G A) : M S A := λ s,
  match m (h_garage s) with Ret a g => Ret a (mkHSys (h_srv s) (h_rt s) g) | Panic => Panic end.

(** [if err != nil { httpError(w, status, err.Error()); return }], and
    [if mapStoreErr(w, err) { return }]. *)
Definition fail_with {A} (f : error → Response) (m : M World (res A)) (k : A → M S Response) : M S Response :=
  r ← db_do m; match r with Ok a => k a | Err e => mret (f e) end.
Definition status_err (status : Z) (e : error) : Response := httpError status (error_text e).
Definition or_fail {A} (m : M World (res A)) (k : A → M S Response) : M S Response := fail_with mapStoreErr m k.
(** The calls that return only an error, or a resource and an error. *)
Definition only_err (m : M World (option error)) : M World (res ()) :=
  r ← m; mret match r with None => Ok () | Some e => Err e end.
Definition put_res {A} (m : M World (A * option error)) : M World (res A) :=
  r ← m; mret match r.2 with None => Ok r.1 | Some e => Err e end.

Definition with_body {A} `{Json A} (r : HttpRequest) (k : A → M S Response) : M S Response :=
  match decodeJSON r with Err e => mret (status_err 400 e) | Ok v => k v end.
Definition ok_json {A} `{Json A} (status : Z) (v : A) : M S Response := mret (writeJSON status (enc v)).

(** ** Meta *)

Definition handleHealth : M S Response := mret (writeJSON 200 (JObj [("ok", JBool true)])).
(** The toolchain's [runtime.Version], [GOOS] and [GOARCH], the build
    identifier, and when the server started; the keys are sorted. *)
Definition handleMeta (goVersion goos goarch build : string) (startedAt : time) : M S Response :=
  t ← db_do now;
  mret (writeJSON 200 (JObj [("description", JStr "selfCloud node"); ("goVersion", enc goVersion);
                             ("goarch", enc goarch); ("goos", enc goos); ("startedAt", enc startedAt);
                             ("uptimeSec", JNum (Z.quot (Sub t startedAt) Second)); ("version", enc build)])).

(** ** Set-up *)

Definition handleSetupStatus : M S Response :=
  fail_with (status_err 500) GetCluster (λ cfg,
    mret (writeJSON 200 (JObj [("initialized", JBool (ClusterConfig_Initialized cfg));
                               ("multiNode", JBool (ClusterConfig_MultiNode cfg));
                               ("replicationFactor", JNum (ClusterConfig_ReplicationFactor cfg))]))).

Definition ensureDefaultProject : M World (res ()) :=
  c ← GetProject "default";
  match c with
  | Ok _ => mret (Ok ())
  | Err _ =>
    r ← PutProject { (zero (A:=Project)) with
                     Project_Meta := { (zero (A:=Meta)) with Meta_Name := "default" };
                     Project_DisplayName := "Default" };
    mret match r.2 with None => Ok () | Some e => Err e end
  end.

Definition initial_config (multiNode : bool) (cfg : ClusterConfig) : ClusterConfig :=
  let cfg := { cfg with ClusterConfig_MultiNode := multiNode } in
  if ClusterConfig_ReplicationFactor cfg =? 0 then { cfg with ClusterConfig_ReplicationFactor := 1 } else cfg.

Definition initialize (body : initializeReq) : M World (res (User * Token)) :=
  u ←! CreateUser (initializeReq_AdminName body) (initializeReq_AdminEmail body) (initializeReq_AdminPassword body) true;
  tok ←! CreateToken "admin-initial" (Meta_Name (User_Meta u)) 0 true;
  _ ←! ensureDefaultProject;
  cfg ←! GetCluster;
  _ ←! put_res (PutCluster (initial_config (initializeReq_MultiNode body) cfg));
  _ ←! only_err (ConsumeBootstrapToken (initializeReq_BootstrapToken body));
  mret (Ok (u, tok)).

Definition handleInitialize (r : HttpRequest) : M S Response :=
  with_body r (λ body,
    if bool_decide (initializeReq_AdminEmail body = "") || bool_decide (initializeReq_AdminPassword body = "")
       || bool_decide (initializeReq_AdminName body = "")
    then mret (httpError 400 "adminName, adminEmail and adminPassword are required")
    else
      e ← db_do (VerifyBootstrapToken (initializeReq_BootstrapToken body));
      match e with
      | Some _ => mret (httpError 401 "invalid bootstrap token")
      | None =>
        fail_with (status_err 500) (initialize body) (λ ut,
          mret (writeJSON 201 (JObj [("token", enc (Token_Plaintext ut.2)); ("user", enc ut.1)])))
      end).

(** ** Login and tokens *)

Definition handleLogin (r : HttpRequest) : M S Response :=
  with_body r (λ body,
    fail_with (λ _, httpError 401 "invalid credentials") (Login (loginReq_Email body) (loginReq_Password body)) (λ tu,
      mret (writeJSON 200 (JObj [("token", enc (Token_Plaintext tu.1)); ("user", enc tu.2)])))).

(** [id] is the identity of the request's context, if any. *)
Definition handleMe (id : option Identity) : M S Response :=
  match id with
  | None => mret (httpError 401 "no identity")
  | Some id =>
    u ← db_do (GetUser (Identity_UserID id));
    mret match u with
         | Err _ => writeJSON 200 (JObj [("identity", enc id)])
         | Ok u => writeJSON 200 (JObj [("identity", enc id); ("user", enc u)])
         end
  end.

Definition handleCreateToken (id : option Identity) (r : HttpRequest) : M S Response :=
  match id with
  | None => mret (httpError 401 "no identity")
  | Some id =>
    with_body r (λ body,
      if bool_decide (createTokenReq_Name body = "") then mret (httpError 400 "name required")
      else
        match (if bool_decide (createTokenReq_TTL body = "") then Some 0 else ParseDuration (createTokenReq_TTL body)) with
        | None => mret (httpError 400 "invalid ttl")
        | Some ttl =>
          or_fail (CreateToken (createTokenReq_Name body) (Identity_UserID id) ttl (Identity_IsAdmin id)) (ok_json 201)
        end)
  end.

Definition handleListTokens : M S Response := or_fail ListTokens (ok_json 200).
Definition handleDeleteToken (name : string) : M S Response :=
  or_fail (only_err (DeleteToken name)) (λ _, mret noContent).

(** ** Projects *)

Definition handleListProjects : M S Response := or_fail ListProjects (ok_json 200).
Definition handlePutProject (r : HttpRequest) : M S Response :=
  with_body r (λ p : Project, or_fail (put_res (PutProject p)) (ok_json 200)).
Definition handleGetProject (name : string) : M S Response := or_fail (GetProject name) (ok_json 200).
Definition handleDeleteProject (name : string) : M S Response :=
  or_fail (only_err (DeleteProject name)) (λ _, mret noContent).

(** ** Containers *)

Definition handleListContainers (project : string) : M S Response := or_fail (ListContainers project) (ok_json 200).

Definition place_container (c : Container) : M World Container :=
  match scheduler with
  | None => mret c
  | Some sc =>
    if bool_decide (Container_NodeID c = "") then
      id ← Scheduler.Place sc c;
      mret match id with Ok id => { c with Container_NodeID := id } | Err _ => c end
    else mret c
  end.
Definition in_project (project : string) (m : Meta) : Meta := { m with Meta_Project := project }.

Definition handlePutContainer (project : string) (r : HttpRequest) : M S Response :=
  with_body r (λ c : Container,
    c ← db_do (place_container { c with Container_Meta ::= in_project project });
    or_fail (put_res (Replicated.PutContainer raft c)) (ok_json 201)).
Definition handleGetContainer (project name : string) : M S Response := or_fail (GetContainer project name) (ok_json 200).

Definition handleDeleteContainer (project name : string) : M S Response :=
  or_fail (GetContainer project name) (λ c,
    _ ← rt_do (crt_Stop c);
    _ ← rt_do (crt_Remove c);
    or_fail (only_err (Replicated.DeleteContainer raft project name)) (λ _, mret noContent)).

Definition handleStartContainer (project name : string) : M S Response :=
  or_fail (GetContainer project name) (λ c,
    st ← rt_do (crt_Start c);
    match st with
    | Err e => mret (status_err 500 e)
    | Ok st => or_fail (put_res (Replicated.PutContainer raft { c with Container_Status := st })) (ok_json 200)
    end).

Definition handleStopContainer (project name : string) : M S Response :=
  or_fail (GetContainer project name) (λ c,
    e ← rt_do (crt_Stop c);
    match e with
    | Some e => mret (status_err 500 e)
    | None =>
      t ← db_do now;
      or_fail (put_res (Replicated.PutContainer raft (stopped_at t c))) (ok_json 200)
    end).

(** The runtime's error, when there is one, is the end of the text. *)
Definition handleContainerLogs `{ContainerLogs R} (project name : string) : M S Response :=
  or_fail (GetContainer project name) (λ c,
    '(out, err) ← rt_do (crt_Logs c false);
    mret (mkResponse 200 {["Content-Type" := ["text/plain; charset=utf-8"]]}
      (BRaw (String.concat "" out +:+ match err with
                                | Some e => eol +:+ "[error] " +:+ error_text e +:+ eol
                                | None => ""
                                end)))).

(** ** Buckets *)

Definition handleListBuckets (project : string) : M S Response := or_fail (ListBuckets project) (ok_json 200).

Definition create_in_garage (b : Bucket) : M S Bucket :=
  match garageAdm with
  | None => mret b
  | Some g =>
    id ← garage_do (CreateBucket g (Meta_Name (Bucket_Meta b)));
    mret match id with Ok id => { b with Bucket_GarageID := id } | Err _ => b end
  end.
Definition handlePutBucket (project : string) (r : HttpRequest) : M S Response :=
  with_body r (λ b : Bucket,
    b ← create_in_garage { b with Bucket_Meta ::= in_project project };
    t ← db_do now;
    let b := { b with Bucket_Status := { (zero (A:=Status)) with Status_Phase := PhaseRunning; Status_UpdatedAt := t } } in
    or_fail (put_res (Replicated.PutBucket raft b)) (ok_json 201)).
Definition handleGetBucket (project name : string) : M S Response := or_fail (GetBucket project name) (ok_json 200).

Definition handleDeleteBucket (project name : string) : M S Response :=
  or_fail (GetBucket project name) (λ b,
    match garageAdm with
    | Some g => if bool_decide (Bucket_GarageID b = "") then mret ()
                else _ ← garage_do (DeleteBucket g (Bucket_GarageID b)); mret ()
    | None => mret ()
    end;;
    or_fail (only_err (Replicated.DeleteBucket raft (Meta_Project (Bucket_Meta b)) (Meta_Name (Bucket_Meta b))))
      (λ _, mret noContent)).

(** ** Access keys *)

Definition handleListAccessKeys (project : string) : M S Response := or_fail (ListAccessKeys project) (ok_json 200).

(** The grant on a bucket; its failure is ignored. *)
Definition allow_bucket (g : AdminClient) (project bucket id permissions : string) : M S () :=
  if bool_decide (bucket = "") then mret ()
  else
    b ← db_do (GetBucket project bucket);
    match b with
    | Ok b =>
      if bool_decide (Bucket_GarageID b = "") then mret ()
      else
        _ ← garage_do (AllowKey g id (Bucket_GarageID b) (negb (bool_decide (permissions = "")))
                         (bool_decide (permissions = "write") || bool_decide (permissions = "owner"))
                         (bool_decide (permissions = "owner")));
        mret ()
    | Err _ => mret ()
    end.

(** Without Garage the key is synthesised; [GenerateToken]'s error is ignored,
    which leaves an empty token and a slice out of range. *)
Definition local_key (a : AccessKey) : M S AccessKey :=
  raw ← db_do GenerateToken;
  match raw with
  | Err _ => panic
  | Ok raw => mret { a with AccessKey_AccessKeyID := "GK" +:+ drop_str (String.length raw - 12) raw;
                            AccessKey_SecretAccessKey := raw }
  end.

Definition garage_key (g : AdminClient) (project : string) (body : createAccessKeyReq) (permissions : string) (a : AccessKey) : M S AccessKey :=
  k ← garage_do (CreateKey g (createAccessKeyReq_Name body));
  match k with
  | Err _ => mret a
  | Ok (id, secret) =>
    allow_bucket g project (createAccessKeyReq_Bucket body) id permissions;;
    mret { a with AccessKey_AccessKeyID := id; AccessKey_SecretAccessKey := secret }
  end.

Definition handleCreateAccessKey (project : string) (r : HttpRequest) : M S Response :=
  with_body r (λ body : createAccessKeyReq,
    let permissions := if bool_decide (createAccessKeyReq_Permissions body = "") then "read"
                       else createAccessKeyReq_Permissions body in
    let a := { (zero (A:=AccessKey)) with
               AccessKey_Meta := { (zero (A:=Meta)) with Meta_Project := project; Meta_Name := createAccessKeyReq_Name body };
               AccessKey_BucketName := createAccessKeyReq_Bucket body; AccessKey_Permissions := permissions } in
    a ← match garageAdm with
        | Some g => garage_key g project body permissions a
        | None => local_key a
        end;
    or_fail (put_res (Replicated.PutAccessKey raft a)) (ok_json 201)).

Definition handleGetAccessKey (project name : string) : M S Response :=
  or_fail (GetAccessKey project name) (λ a, ok_json 200 (redactAccessKey a)).

Definition handleDeleteAccessKey (project name : string) : M S Response :=
  or_fail (GetAccessKey project name) (λ a,
    match garageAdm with
    | Some g => if bool_decide (AccessKey_AccessKeyID a = "") then mret ()
                else _ ← garage_do (DeleteKey g (AccessKey_AccessKeyID a)); mret ()
    | None => mret ()
    end;;
    or_fail (only_err (Replicated.DeleteAccessKey raft (Meta_Project (AccessKey_Meta a)) (Meta_Name (AccessKey_Meta a))))
      (λ _, mret noContent)).
End Handlers.
