(* ===== verification/Objects.v ===== *)
(** The object browser (internal/api/objects.go) and the S3 client behind it
    ([s3Client] of internal/api/server.go).

    minio-go is the class [Minio]; an object opened for reading is a handle. *)

From Stdlib Require Import Ascii.
From S2P Require Import Prelude GoTime Json Types Bolt Store StoreOps Text Glob Random Secrets Auth Replication Path Http Garage Handlers.

#[local] Arguments String.append : simpl nomatch.

Module Objects.

(** ** Values *)

Record objectInfo := mkObjectInfo {
  Key : string;
  Size : Z;
  ETag : string;
  LastModified : time;
  ContentType : string;
}.
#[export] Instance objectinfo_json : Json objectInfo := struct_json mkObjectInfo (
  fld "key" Key;
  fld "size" Size;
  ofld "etag" ETag;
  fld "lastModified" LastModified;
  ofld "contentType" ContentType;
  Fnil).

(** [itoa] on an [int64]. *)
Fixpoint itoa_loop (fuel : nat) (n : Z) (acc : string) : string :=
  match fuel with
  | O => acc
  | S fuel => if 0 <? n then itoa_loop fuel (n / 10) (String (digit (n mod 10)) acc) else acc
  end.
Definition itoa64 (n : Z) : string :=
  if n =? 0 then "0"
  else
    let neg := n <? 0 in
    let s := itoa_loop 20 (if neg then wrap64 (- n) else n) "" in
    if neg then "-" +:+ s else s.

Definition lastPath (s : string) : string :=
  match last_index_byte s slash with Some i => drop_str (S i) s | None => s end.

(** [http.TimeFormat]; the first of January of year 1 was a Monday. *)
Definition nth_text (l : list string) (n : Z) : string := default "" (l !! Z.to_nat n).
Definition weekday (t : time) : string := nth_text ["Mon"; "Tue"; "Wed"; "Thu"; "Fri"; "Sat"; "Sun"] (ns t / Second / 86400 mod 7).
Definition month_text (m : Z) : string :=
  nth_text ["Jan"; "Feb"; "Mar"; "Apr"; "May"; "Jun"; "Jul"; "Aug"; "Sep"; "Oct"; "Nov"; "Dec"] (m - 1).
Definition http_time (t : time) : string :=
  let secs := ns t / Second in
  let '(y, m, d) := civil (secs / 86400) in
  let sod := secs mod 86400 in
  weekday t +:+ ", " +:+ digits 2 d +:+ " " +:+ month_text m +:+ " " +:+ digits 4 y +:+ " " +:+
  digits 2 (sod / 3600) +:+ ":" +:+ digits 2 (sod / 60 mod 60) +:+ ":" +:+ digits 2 (sod mod 60) +:+ " GMT".

(** ** The client *)

Class Minio (O Cl Obj : Type) := {
  minio_New : string → string → string → res Cl;   (** endpoint, key, secret *)
  (** bucket, prefix, recursive; what the channel delivers *)
  ListObjects : Cl → string → string → bool → M O (list (res objectInfo));
  (** bucket, key, content, its length, content type *)
  PutObject : Cl → string → string → string → Z → string → M O (res objectInfo);
  GetObject : Cl → string → string → M O (res Obj);
  Stat : Obj → M O (res objectInfo);
  Content : Obj → M O string;
  RemoveObject : Cl → string → string → M O (option error);
  (** [errors.As(err, &minio.ErrorResponse)] *)
  error_StatusCode : error → option Z;
}.

Record OSys `{Bolt} (T1 T2 R G O Cl : Type) := mkOSys { o_sys : HSys T1 T2 R G; o_s3 : option Cl; o_w : O }.
Arguments mkOSys {_ _ _ _ _ _ _} _ _ _.
Arguments o_sys {_ _ _ _ _ _ _} _.
Arguments o_s3 {_ _ _ _ _ _ _} _.
Arguments o_w {_ _ _ _ _ _ _} _.

Section Objects.
Context `{Bolt} {T1 T2 R G O Cl Obj : Type} `{GarageHttp G} `{Minio O Cl Obj}.
Context (garageAdm : option AdminClient) (S3Addr : string).
Abbreviation S := (OSys T1 T2 R G O Cl).

Definition sys_do {A} (m : M (HSys T1 T2 R G) A) : M S A := λ s,
  match m (o_sys s) with Ret a y => Ret a (mkOSys y (o_s3 s) (o_w s)) | Panic => Panic end.
Definition s3_do {A} (m : M O A) : M S A := λ s,
  match m (o_w s) with Ret a w => Ret a (mkOSys (o_sys s) (o_s3 s) w) | Panic => Panic end.

(** The cluster's configuration with an S3 key, made when it has none. *)
Definition provisioned (cfg : ClusterConfig) : M S (res ClusterConfig) :=
  if bool_decide (ClusterConfig_S3InternalKeyID cfg = "") || bool_decide (ClusterConfig_S3InternalKeySecret cfg = "") then
    match garageAdm with
    | None => mret (Err (ErrMsg "garage admin client unavailable"))
    | Some g =>
      k ←! sys_do (garage_do (CreateKey g "selfcloud-internal"));
      let cfg := { cfg with ClusterConfig_S3InternalKeyID := k.1; ClusterConfig_S3InternalKeySecret := k.2 } in
      r ← sys_do (db_do (PutCluster cfg));
      mret match r.2 with Some e => Err e | None => Ok r.1 end
    end
  else mret (Ok cfg).
Definition endpoint : string := if has_prefix S3Addr "0.0.0.0" then "127.0.0.1" +:+ trim_prefix S3Addr "0.0.0.0" else S3Addr.
Definition s3Client : M S (res Cl) :=
  cached ← gets o_s3;
  match cached with
  | Some cl => mret (Ok cl)
  | None =>
    cfg ←! sys_do (db_do GetCluster);
    cfg ←! provisioned cfg;
    match minio_New endpoint (ClusterConfig_S3InternalKeyID cfg) (ClusterConfig_S3InternalKeySecret cfg) with
    | Err e => mret (Err e)
    | Ok cl => modify (λ s, mkOSys (o_sys s) (Some cl) (o_w s)) ;; mret (Ok cl)
    end
  end.

(** ** Handlers *)

Definition with_client (k : Cl → M S Response) : M S Response :=
  r ← s3Client; match r with Err e => mret (httpError 503 (error_text e)) | Ok cl => k cl end.
Definition bad_gateway (e : error) : Response := httpError 502 (error_text e).
Definition with_key (r : HttpRequest) (k : string → M S Response) : M S Response :=
  if bool_decide (query_get r "key" = "") then mret (httpError 400 "missing key query param") else k (query_get r "key").

(** The objects up to the first failure. *)
Fixpoint collect (l : list (res objectInfo)) : res (list objectInfo) :=
  match l with
  | [] => Ok []
  | Err e :: _ => Err e
  | Ok o :: l => r ← collect l; Ok (o :: r)
  end.
Definition handleListObjects (bucket : string) (r : HttpRequest) : M S Response :=
  with_client (λ cl,
    l ← s3_do (ListObjects cl bucket (query_get r "prefix") (bool_decide (query_get r "recursive" = "true")));
    mret match collect l with Err e => bad_gateway e | Ok out => writeJSON 200 (enc out) end).

Definition handlePutObject (bucket : string) (contentLength : Z) (r : HttpRequest) : M S Response :=
  with_key r (λ key,
    let key := trim_prefix key "/" in
    with_client (λ cl,
      let contentType := orElse (header_get r "content-type") "application/octet-stream" in
      info ← s3_do (PutObject cl bucket key (r_Body r) contentLength contentType);
      match info with
      | Err e => mret (bad_gateway e)
      | Ok info =>
        t ← sys_do (db_do now);
        mret (writeJSON 201 (enc (mkObjectInfo (Key info) (Size info) (ETag info) t contentType)))
      end)).

Definition object_header (key : string) (download : bool) (o : objectInfo) : gmap string (list string) :=
  let set (b : bool) k v (h : gmap string (list string)) := if b then <[k := [v]]> h else h in
  set download "Content-Disposition" ("attachment; filename=" +:+ String quote (lastPath key +:+ String quote ""))
    (set (negb (bool_decide (ETag o = ""))) "Etag" (ETag o)
      (set (negb (IsZero (LastModified o))) "Last-Modified" (http_time (LastModified o))
        (set (0 <? Size o) "Content-Length" (itoa64 (Size o))
          (set (negb (bool_decide (ContentType o = ""))) "Content-Type" (ContentType o) ∅)))).
Definition handleGetObject (bucket : string) (r : HttpRequest) : M S Response :=
  with_key r (λ key, with_client (λ cl,
    obj ← s3_do (GetObject cl bucket key);
    match obj with
    | Err e => mret (bad_gateway e)
    | Ok obj =>
      st ← s3_do (Stat obj);
      match st with
      | Err e => mret (if bool_decide (error_StatusCode e = Some 404) then httpError 404 "object not found" else bad_gateway e)
      | Ok st =>
        body ← s3_do (Content obj);
        mret (mkResponse 200 (object_header key (bool_decide (query_get r "download" = "1")) st) (BRaw body))
      end
    end)).

Definition handleDeleteObject (bucket : string) (r : HttpRequest) : M S Response :=
  with_key r (λ key, with_client (λ cl,
    e ← s3_do (RemoveObject cl bucket key);
    mret match e with Some e => bad_gateway e | None => noContent end)).
End Objects.
End Objects.
