(* ===== verification/ObjectsProps.v ===== *)
(** The object browser: its decimal numbers, what is put is what is got, and
    the keys for which that fails. *)

From Stdlib Require Import Ascii.
From S2P Require Import Prelude GoTime Json Types Bolt Store StoreOps StoreProps Text Glob Random Secrets Auth AuthProps Bus Replication Dispatcher Path Http Garage Handlers Objects.
Import Objects.

#[local] Arguments String.append : simpl nomatch.

(** ** Decimal text *)

Lemma digit_pretty n : (n < 10)%N → digit (Z.of_N n) = pretty_N_char n.
Proof.
  intros Hn. assert (H : forallb (λ k, bool_decide (digit (Z.of_nat k) = pretty_N_char (N.of_nat k))) (seq 0 10) = true) by (vm_compute; reflexivity).
  rewrite forallb_forall in H. specialize (H (N.to_nat n) ltac:(apply in_seq; lia)). apply bool_decide_eq_true in H.
  by rewrite N2Nat.id, N_nat_Z in H.
Qed.
Lemma itoa_loop_pretty fuel n acc : (Z.of_N n < 10 ^ Z.of_nat fuel) → itoa_loop fuel (Z.of_N n) acc = pretty_N_go n acc.
Proof.
  revert n acc. induction fuel as [|fuel IH]; intros n acc Hn; cbn [itoa_loop].
  { assert (n = 0)%N as -> by (cbn in Hn; lia). by rewrite pretty_N_go_0. }
  destruct (Z.ltb_spec 0 (Z.of_N n)) as [Hp|Hp].
  - rewrite pretty_N_go_step by lia. rewrite <-digit_pretty by (apply N.mod_lt; lia).
    rewrite N2Z.inj_mod. change (Z.of_N 10) with 10. rewrite <-IH.
    + by rewrite N2Z.inj_div.
    + rewrite N2Z.inj_div. change (Z.of_N 10) with 10. rewrite Nat2Z.inj_succ, Z.pow_succ_r in Hn by lia.
      apply Z.div_lt_upper_bound; lia.
  - assert (n = 0)%N as -> by lia. by rewrite pretty_N_go_0.
Qed.

(** The hand-written decimal text of an [int64] is the standard one, for
    every value but the least, whose sign it writes without any digit: its
    opposite does not fit. *)
Theorem itoa64_is_decimal (n : Z) :
  int64_ok n = true → itoa64 n = if n =? - 2 ^ 63 then "-" else itoa n.
Proof.
  intros Hn. unfold int64_ok in Hn. apply andb_true_iff in Hn as [Hl%Z.leb_le Hu%Z.ltb_lt].
  destruct (Z.eqb_spec n (- 2 ^ 63)) as [->|Hne]; [vm_compute; reflexivity|].
  unfold itoa64, itoa. destruct (Z.eqb_spec n 0) as [->|H0]; [done|].
  destruct n as [|p|p]; [done| |].
  - cbn [Z.ltb Z.compare]. change (Z.pos p) with (Z.of_N (N.pos p)). rewrite itoa_loop_pretty by (cbn; lia). done.
  - cbn [Z.ltb Z.compare]. rewrite wrap64_id by (unfold int64_ok; apply andb_true_iff; split; [apply Z.leb_le|apply Z.ltb_lt]; lia).
    change (- Z.neg p) with (Z.of_N (N.pos p)). rewrite itoa_loop_pretty by (cbn; lia). done.
Qed.
Theorem itoa64_is_decimal_witness : itoa64 (2 ^ 63 - 1) = "9223372036854775807" ∧ itoa64 (- 2 ^ 63) = "-".
Proof. split; rewrite itoa64_is_decimal by reflexivity; vm_compute; reflexivity. Defined.

(** ** What is put is what is got *)

Section Roundtrip.
Context `{Bolt} {T1 T2 R G O Cl Obj : Type} `{GarageHttp G} `{MN : Minio O Cl Obj}.
Context (garageAdm : option AdminClient) (S3Addr : string).
Abbreviation S := (OSys T1 T2 R G O Cl).

(** What the browser relies on of an S3 service: an object just written can
    be opened, and has the content, the size and the type it was given. *)
Class MinioLaws : Prop := put_get cl bucket key body n ct w info w' :
  PutObject cl bucket key body n ct w = Ret (Ok info) w' →
  ∃ o w1 st w2 w3, GetObject cl bucket key w' = Ret (Ok o) w1 ∧ Stat o w1 = Ret (Ok st) w2 ∧ Content o w2 = Ret body w3 ∧
    Size st = Z.of_nat (String.length body) ∧ ContentType st = ct.
Context `{!MinioLaws}.

Lemma s3Client_cached (s : S) cl : o_s3 s = Some cl → s3Client (Obj:=Obj) garageAdm S3Addr s = Ret (Ok cl) s.
Proof. intros E. unfold s3Client, mbind, M_bind, gets. by rewrite E. Qed.
Lemma with_client_cached (k : Cl → M S Response) (s : S) cl :
  o_s3 s = Some cl → with_client (Obj:=Obj) garageAdm S3Addr k s = k cl s.
Proof. intros E. unfold with_client. by rewrite (bind_ret_run _ _ _ _ _ (s3Client_cached s cl E)). Qed.
Lemma trim_prefix_none (s p : string) : has_prefix s p = false → trim_prefix s p = s.
Proof. unfold trim_prefix. by intros ->. Qed.

Lemma orElse_not_empty v d : d ≠ "" → orElse v d ≠ "".
Proof. unfold orElse. by case_bool_decide. Qed.
Lemma header_type key d o : ContentType o ≠ "" → object_header key d o !! "Content-Type" = Some [ContentType o].
Proof.
  intros Ht. unfold object_header. rewrite (bool_decide_eq_false_2 (ContentType o = "")) by done. cbn [negb].
  destruct d, (negb (bool_decide (ETag o = ""))), (negb (IsZero (LastModified o))), (0 <? Size o); by simplify_map_eq.
Qed.
Lemma header_length key d o : 0 < Size o → object_header key d o !! "Content-Length" = Some [itoa64 (Size o)].
Proof.
  intros Hs. unfold object_header. rewrite (proj2 (Z.ltb_lt _ _) Hs).
  destruct d, (negb (bool_decide (ETag o = ""))), (negb (IsZero (LastModified o))); by simplify_map_eq.
Qed.

(** An object uploaded under a key that does not begin with a slash is
    downloaded with the same bytes, the content type it was given (or the
    default one) and, unless it is empty, its length in decimal. *)
Theorem object_roundtrip (bucket : string) (n : Z) (r r' : HttpRequest) (cl : Cl) (resp : Response) (s s' : S) :
  o_s3 s = Some cl → has_prefix (query_get r "key") "/" = false → query_get r' "key" = query_get r "key" →
  handlePutObject (Obj:=Obj) garageAdm S3Addr bucket n r s = Ret resp s' → resp_Status resp = 201 →
  ∃ resp' s'', handleGetObject (Obj:=Obj) garageAdm S3Addr bucket r' s' = Ret resp' s'' ∧ resp_Status resp' = 200 ∧ resp_Body resp' = BRaw (r_Body r) ∧
    resp_Header resp' !! "Content-Type" = Some [orElse (header_get r "content-type") "application/octet-stream"] ∧
    (0 < Z.of_nat (String.length (r_Body r)) →
     resp_Header resp' !! "Content-Length" = Some [itoa64 (Z.of_nat (String.length (r_Body r)))]).
Proof.
  intros Hc Hp Hk Hr Hst. unfold handlePutObject, with_key in Hr. case_bool_decide as Hne; [by injection Hr as <- _|].
  rewrite trim_prefix_none, (with_client_cached _ s cl) in Hr by done. unfold mbind, M_bind, s3_do in Hr.
  destruct (PutObject _ _ _ _ _ _ (o_w s)) as [[info|e] w|] eqn:E; [|by injection Hr as <- _|done].
  destruct (sys_do _ _) as [t s1|] eqn:En; [|done]. injection Hr as <- <-.
  assert (Hs1 : o_s3 s1 = Some cl ∧ o_w s1 = w).
  { unfold sys_do in En. destruct (db_do _ _); [|done]. by injection En as _ <-. }
  destruct Hs1 as [Hc1 Hw1]. destruct (put_get _ _ _ _ _ _ _ _ _ E) as (o & w1 & st & w2 & w3 & Eg & Es & Eb & Hsz & Hty).
  unfold handleGetObject, with_key. rewrite Hk, bool_decide_eq_false_2, (with_client_cached _ s1 cl) by done.
  unfold mbind, M_bind, s3_do. rewrite Hw1, Eg. cbn [o_w o_sys o_s3]. rewrite Es. cbn [o_w o_sys o_s3]. rewrite Eb.
  eexists _, _. split; [reflexivity|]. cbn [resp_Status resp_Body resp_Header]. split_and!; [done|done| |].
  - rewrite header_type; [by rewrite Hty|]. rewrite Hty. by apply orElse_not_empty.
  - intros Hlen. rewrite <-Hsz in Hlen |- *. by rewrite header_length.
Qed.
End Roundtrip.

(** ** A store of objects in memory *)

Abbreviation objects := (gmap (string * string) (string * string)).   (** bucket and key to content and type *)
#[export] Instance memory_minio : Minio objects () (string * option (string * string)) := {
  minio_New _ _ _ := Ok ();
  ListObjects _ b _ _ := λ w, Ret [] w;
  PutObject _ b k body _ ct := λ w, Ret (Ok (mkObjectInfo k (Z.of_nat (String.length body)) "" zero_time ct)) (<[(b, k) := (body, ct)]> w);
  GetObject _ b k := λ w, Ret (Ok (k, w !! (b, k))) w;
  Stat o := λ w, Ret match o.2 with
                     | None => Err ErrNotFound
                     | Some (body, ct) => Ok (mkObjectInfo o.1 (Z.of_nat (String.length body)) "" zero_time ct)
                     end w;
  Content o := λ w, Ret (default "" (fst <$> o.2)) w;
  RemoveObject _ b k := λ w, Ret None (delete (b, k) w);
  error_StatusCode e := match e with ErrNotFound => Some 404 | _ => None end;
}.
#[local] Instance no_garage : GarageHttp () := λ _ _ _ _ h, Ret (Err (ErrMsg "no garage")) h.

Definition demo_osys : OSys (H:=MemBolt) () () () () objects () :=
  mkOSys (mkHSys (mkSrv (mkSys _ demo_world NewBus [] [] []) None None None (Http.newInvocationRing 100)) () ()) (Some ()) ∅.
Definition put_then_get (key : string) : option (Z * Z * RespBody) :=
  let r := mkHttpRequest "PUT" "" "" {["key" := key]} {["Content-Type" := ["text/plain"]]} "hello" None in
  eval (a ← handlePutObject None "" "b" 5 r; b ← handleGetObject None "" "b" r; mret (resp_Status a, resp_Status b, resp_Body b)) demo_osys.

Example put_get_plain : put_then_get "docs/a" = Some (201, 200, BRaw "hello"). Proof. vm_compute. reflexivity. Qed.
(** A key that begins with a slash is stored without it and looked up with it. *)
Theorem rooted_key_is_not_found :
  (λ x, x.1) <$> put_then_get "/docs/a" = Some (201, 404). Proof. vm_compute. reflexivity. Qed.

#[export] Instance memory_minio_laws : MinioLaws (O:=objects) (Cl:=()) (Obj:=string * option (string * string)).
Proof.
  intros cl b k body n ct w info w' E. injection E as _ <-. cbn.
  eexists _, _, _, _, _. split; [reflexivity|]. cbn. rewrite lookup_insert_eq. split_and!; reflexivity.
Qed.

Definition demo_put : HttpRequest := mkHttpRequest "PUT" "" "" {["key" := "docs/a"]} {["Content-Type" := ["text/plain"]]} "hello" None.
Definition demo_putting : M (OSys (H:=MemBolt) () () () () objects ()) Response := handlePutObject None "" "b" 5 demo_put.
Definition demo_resp : Response := default noContent (eval demo_putting demo_osys).
Definition demo_after : OSys (H:=MemBolt) () () () () objects () := default demo_osys (exec demo_putting demo_osys).
Theorem object_roundtrip_witness :
  ∃ resp' s'', handleGetObject None "" "b" demo_put demo_after = Ret resp' s'' ∧ resp_Body resp' = BRaw "hello".
Proof.
  assert (Ee : eval demo_putting demo_osys = Some demo_resp) by (vm_compute; reflexivity).
  assert (E : demo_putting demo_osys = Ret demo_resp demo_after) by exact (run_eval _ _ _ Ee).
  assert (Hst : resp_Status demo_resp = 201) by (vm_compute; reflexivity).
  assert (Hc : o_s3 demo_osys = Some ()) by reflexivity.
  assert (Hp : has_prefix (query_get demo_put "key") "/" = false) by (vm_compute; reflexivity).
  destruct (object_roundtrip None "" "b" 5 demo_put demo_put () demo_resp demo_osys demo_after Hc Hp eq_refl E Hst) as (resp' & s'' & Eg & _ & Hb & _).
  exists resp', s''. by split.
Defined.
