(* ===== verification/ClusterApi.v ===== *)
(** The cluster side of the API: configuration, nodes and join tokens
    (internal/api/cluster.go), the join handshake (join.go), secrets
    (secrets.go), event rules and the event log (events.go), builds
    (builds.go), and the events derived from S3 traffic. *)

From Stdlib Require Import Ascii.
From S2P Require Import Prelude GoTime Json Types Bolt Store StoreOps Text Random Secrets Auth Bus Replication Cluster Wasm Duration Http Invoke Garage Handlers.

Record issueJoinReq := mkIssueJoinReq { issueJoinReq_TTL : string }.
#[export] Instance issuejoinreq_json : Json issueJoinReq := struct_json mkIssueJoinReq (
  ofld "ttl" issueJoinReq_TTL;
  Fnil).

Record joinReq := mkJoinReq {
  joinReq_Token : string;
  joinReq_NodeID : string;
  joinReq_AdvertiseAddr : string;
  joinReq_RaftAddr : string;
  joinReq_APIAddr : string;
  joinReq_Roles : list string;
  joinReq_CapacityGB : Z;
}.
#[export] Instance joinreq_json : Json joinReq := struct_json mkJoinReq (
  fld "token" joinReq_Token;
  fld "nodeId" joinReq_NodeID;
  fld "advertiseAddr" joinReq_AdvertiseAddr;
  fld "raftAddr" joinReq_RaftAddr;
  fld "apiAddr" joinReq_APIAddr;
  fld "roles" joinReq_Roles;
  fld "capacityGB" joinReq_CapacityGB;
  Fnil).

Record joinResp := mkJoinResp {
  joinResp_NodeID : string;
  joinResp_MultiNode : bool;
  joinResp_ReplicationFactor : Z;
  joinResp_Peers : list Node;
  joinResp_GarageRPC : string;
  joinResp_GarageAdmin : string;
  joinResp_Version : string;
}.
#[export] Instance joinresp_json : Json joinResp := struct_json mkJoinResp (
  fld "nodeId" joinResp_NodeID;
  fld "multiNode" joinResp_MultiNode;
  fld "replicationFactor" joinResp_ReplicationFactor;
  fld "peers" joinResp_Peers;
  ofld "garageRpcSecret" joinResp_GarageRPC;
  ofld "garageAdminToken" joinResp_GarageAdmin;
  fld "version" joinResp_Version;
  Fnil).

Record putSecretReq := mkPutSecretReq {
  putSecretReq_Name : string;
  putSecretReq_Description : string;
  putSecretReq_Value : string;
}.
#[export] Instance putsecretreq_json : Json putSecretReq := struct_json mkPutSecretReq (
  fld "name" putSecretReq_Name;
  ofld "description" putSecretReq_Description;
  fld "value" putSecretReq_Value;
  Fnil).

(** [strconv.Atoi]. *)
Fixpoint atoi_loop (x : Z) (s : string) : option Z :=
  match s with
  | EmptyString => Some x
  | String a s => if is_digit a then atoi_loop (x * 10 + digit_val a) s else None
  end.
Definition Atoi (s : string) : option Z :=
  let '(neg, s) := match s with
                   | String "-" s' => (true, s')
                   | String "+" s' => (false, s')
                   | _ => (false, s)
                   end in
  if bool_decide (s = "") then None
  else
    n ← atoi_loop 0 s;
    let n := if neg then - n else n in
    if int64_ok n then Some n else None.

(** [splitS3Path]: bucket and key. *)
Definition splitS3Path (p : string) : string * string :=
  let p := trim_prefix p "/" in
  match index_byte p slash with
  | Some i => (take_str i p, drop_str (i + 1) p)
  | None => (p, "")
  end.

(** The reverse proxy to Garage: parsing the address it forwards to, and
    forwarding a request to it, which fails when it cannot be reached. *)
Record ProxyTarget := mkProxyTarget { target_Host : string; target_Path : string }.
Class ReverseProxy (G : Type) := {
  url_Parse : string → res ProxyTarget;
  proxy_ServeHTTP : ProxyTarget → HttpRequest → M G (res Response);
}.

Section ClusterApi.
Context `{Crypto} `{Random} `{Bolt} {T1 T2 R G : Type}.
Context (raft : option Raft) (version : string).
Abbreviation S := (HSys T1 T2 R G).

Definition admin_only (id : option Identity) (k : Identity → M S Response) : M S Response :=
  match id with
  | Some id => if Identity_IsAdmin id then k id else mret (httpError 403 "admin only")
  | None => mret (httpError 403 "admin only")
  end.

(** ** Configuration, nodes, join tokens *)

Definition redactCluster (cfg : ClusterConfig) : ClusterConfig :=
  { cfg with ClusterConfig_BootstrapToken := ""; ClusterConfig_GarageRPCSecret := "";
             ClusterConfig_GarageAdminToken := ""; ClusterConfig_S3InternalKeyID := "";
             ClusterConfig_S3InternalKeySecret := ""; ClusterConfig_JoinTokens := [] }.
Definition handleGetCluster : M S Response :=
  fail_with (status_err 500) GetCluster (λ cfg, ok_json 200 (redactCluster cfg)).

Definition updateCluster (body cur : ClusterConfig) : ClusterConfig :=
  let cur := { cur with ClusterConfig_MultiNode := ClusterConfig_MultiNode body } in
  if 0 <? ClusterConfig_ReplicationFactor body
  then { cur with ClusterConfig_ReplicationFactor := ClusterConfig_ReplicationFactor body } else cur.
Definition handlePutCluster (id : option Identity) (r : HttpRequest) : M S Response :=
  admin_only id (λ _,
    with_body r (λ body,
      fail_with (status_err 500) GetCluster (λ cur,
        fail_with (status_err 500) (put_res (PutCluster (updateCluster body cur))) (ok_json 200)))).

Definition handleListNodes : M S Response := or_fail ListNodes (ok_json 200).

Definition joinTTL (r : HttpRequest) : Z :=
  let body := match decodeJSON r with Ok body => body | Err _ => mkIssueJoinReq "" end in
  if bool_decide (issueJoinReq_TTL body = "") then 24 * Hour
  else default (24 * Hour) (ParseDuration (issueJoinReq_TTL body)).
Definition handleIssueJoinToken (id : option Identity) (host : string) (r : HttpRequest) : M S Response :=
  admin_only id (λ id,
    fail_with (status_err 500) (Join.Issue (Identity_UserID id) (joinTTL r)) (λ pt,
      mret (writeJSON 201 (JObj [("command", enc (Join.JoinCommand host pt.1));
                                 ("expiresAt", enc (JoinToken_ExpiresAt pt.2));
                                 ("id", enc (JoinToken_ID pt.2)); ("token", enc pt.1)])))).
Definition handleListJoinTokens : M S Response := fail_with (status_err 500) Join.ListTokens (ok_json 200).

(** ** The join handshake

    [addVoter] is the raft configuration change, when raft runs. *)

Definition joinRoles (body : joinReq) : list NodeRole :=
  match joinReq_Roles body with [] => ["control"; "compute"; "storage"] | roles => roles end.
Definition joining_node (body : joinReq) (updated seen : time) : Node :=
  { (zero (A:=Node)) with
    Node_Meta := { (zero (A:=Meta)) with Meta_Project := "system"; Meta_Name := joinReq_NodeID body };
    Node_Address := joinReq_AdvertiseAddr body; Node_APIAddress := joinReq_APIAddr body;
    Node_RaftAddress := joinReq_RaftAddr body; Node_Roles := joinRoles body;
    Node_CapacityGB := joinReq_CapacityGB body; Node_Version := version;
    Node_Status := { (zero (A:=Status)) with Status_Phase := PhaseRunning; Status_UpdatedAt := updated };
    Node_LastSeenAt := seen }.

Definition enroll (body : joinReq) : M World (res (ClusterConfig * list Node)) :=
  updated ← now;
  seen ← now;
  _ ←! put_res (PutNode (joining_node body updated seen));
  r ← GetCluster;
  match r with
  | Err e => mret (Err (ErrWrap "load cluster" e))
  | Ok cfg =>
    let cfg := { cfg with ClusterConfig_MultiNode := true } in
    cfg ←! put_res (PutCluster cfg);
    peers ← ListNodes;
    mret (Ok (cfg, match peers with Ok l => l | Err _ => [] end))
  end.

Definition handleClusterJoin (addVoter : option (string → string → option error)) (r : HttpRequest) : M S Response :=
  with_body r (λ body,
    if bool_decide (joinReq_NodeID body = "") || bool_decide (joinReq_RaftAddr body = "")
    then mret (httpError 400 "nodeId and raftAddr are required")
    else
      fail_with (status_err 401) (only_err (Join.Consume (joinReq_Token body) (joinReq_NodeID body))) (λ _,
      match match addVoter with Some add => add (joinReq_NodeID body) (joinReq_RaftAddr body) | None => None end with
      | Some e => mret (httpError 500 ("raft add voter: " +:+ error_text e))
      | None =>
        fail_with (status_err 500) (enroll body) (λ cp,
          ok_json 200 (mkJoinResp (joinReq_NodeID body) (ClusterConfig_MultiNode cp.1)
            (ClusterConfig_ReplicationFactor cp.1) cp.2 (ClusterConfig_GarageRPCSecret cp.1)
            (ClusterConfig_GarageAdminToken cp.1) version))
      end)).

(** ** Secrets *)

Definition need_secrets (secrets : option Manager) (k : Manager → M S Response) : M S Response :=
  match secrets with None => mret (httpError 503 "secrets manager not configured") | Some m => k m end.

Definition handleListSecrets (project : string) : M S Response := or_fail (ListSecrets project) (ok_json 200).
Definition handlePutSecret (secrets : option Manager) (project : string) (r : HttpRequest) : M S Response :=
  need_secrets secrets (λ m,
    with_body r (λ body,
      if bool_decide (putSecretReq_Name body = "") then mret (httpError 400 "name required")
      else if bool_decide (putSecretReq_Value body = "") then mret (httpError 400 "value required")
      else or_fail (Put m project (putSecretReq_Name body) (putSecretReq_Description body) (putSecretReq_Value body))
             (ok_json 201))).
Definition handleGetSecret (project name : string) : M S Response :=
  or_fail (GetSecret project name) (λ sec, ok_json 200 (redactSecret sec)).
Definition handleDeleteSecret (project name : string) : M S Response :=
  or_fail (only_err (Replicated.DeleteSecret raft project name)) (λ _, mret noContent).
Definition handleRevealSecret (secrets : option Manager) (id : option Identity) (project name : string) : M S Response :=
  admin_only id (λ _,
    need_secrets secrets (λ m,
      or_fail (Reveal m project name) (λ pt,
        mret (mkResponse 200 (<["Cache-Control" := ["no-store"]]> json_header)
                (BJson (JObj [("name", enc name); ("value", enc pt)])))))).

(** ** Event rules and the event log *)

Definition hide_webhook_secret (rule : EventRule) : EventRule :=
  { rule with EventRule_Action ::= (λ a, { a with
      EventAction_Webhook ::= fmap (λ wh, { wh with WebhookAction_Secret := "" }) }) }.

Definition handleListEventRules (project : string) : M S Response := or_fail (ListEventRules project) (ok_json 200).
Definition handlePutEventRule (project : string) (r : HttpRequest) : M S Response :=
  with_body r (λ rule : EventRule,
    let rule := { rule with EventRule_Meta ::= in_project project } in
    if bool_decide (Meta_Name (EventRule_Meta rule) = "") then mret (httpError 400 "name required")
    else
      let rule := if (Meta_Generation (EventRule_Meta rule) =? 0) && negb (EventRule_Enabled rule)
                  then { rule with EventRule_Enabled := true } else rule in
      or_fail (put_res (Replicated.PutEventRule raft rule)) (λ rule, ok_json 200 (hide_webhook_secret rule))).
Definition handleGetEventRule (project name : string) : M S Response :=
  or_fail (GetEventRule project name) (λ rule, ok_json 200 (hide_webhook_secret rule)).
Definition handleDeleteEventRule (project name : string) : M S Response :=
  or_fail (only_err (Replicated.DeleteEventRule raft project name)) (λ _, mret noContent).
Definition handleListDeliveries (project name : string) : M S Response :=
  or_fail (ListDeliveries project name) (ok_json 200).

Definition emit_event (ev : EventRecord) : M S () := λ s,
  match on_sys (Emit ev) (h_srv s) with Ret _ y => Ret () (mkHSys y (h_rt s) (h_garage s)) | Panic => Panic end.

Definition test_event (rule : EventRule) : EventRecord :=
  { (zero (A:=EventRecord)) with
    EventRecord_Type := default "test.fired" (head (EventMatch_Types (EventRule_Match rule)));
    EventRecord_Project := Meta_Project (EventRule_Meta rule);
    EventRecord_Subject := (if bool_decide (EventMatch_Subject (EventRule_Match rule) = "")
                            then Meta_Name (EventRule_Meta rule) else EventMatch_Subject (EventRule_Match rule));
    EventRecord_Data := <["test" := "true"]> (<["rule" := Meta_Name (EventRule_Meta rule)]> {["trigger" := "manual"]}) }.
Definition handleTestRule (has_bus : bool) (project name : string) : M S Response :=
  if negb has_bus then mret (httpError 503 "event bus not configured")
  else
    or_fail (GetEventRule project name) (λ rule,
      emit_event (test_event rule);;
      mret (writeJSON 202 (JObj [("queued", JBool true)]))).

Definition events_limit (r : HttpRequest) : Z :=
  match Atoi (query_get r "limit") with
  | Some n => if (0 <? n) && (n <=? 5000) then n else 200
  | None => 200
  end.
Definition handleListEvents (project : string) (r : HttpRequest) : M S Response :=
  or_fail (ListEvents project (events_limit r)) (λ out,
    let t := query_get r "type" in
    ok_json 200 (if bool_decide (t = "") then out
                 else List.filter (λ e, bool_decide (EventRecord_Type e = t)) out)).

(** ** Builds *)

Definition handleListBuilds (project name : string) : M S Response := or_fail (ListBuilds project name) (ok_json 200).
Definition handleGetBuild (project id : string) : M S Response := or_fail (GetBuild project id) (ok_json 200).
Definition handleTriggerBuild (builder : option BuilderHook) (project name : string) : M S Response :=
  match builder with
  | None => mret (httpError 503 "builder not configured (containerd may be unavailable)")
  | Some b =>
    or_fail (GetFunction project name) (λ f,
      match FunctionSource_Git (Function_Source f) with
      | Some _ =>
        if bool_decide (FunctionSource_Type (Function_Source f) = "git") then
          fail_with (status_err 500) (@Trigger _ b f "manual") (ok_json 202)
        else mret (httpError 400 "function does not have a git source")
      | None => mret (httpError 400 "function does not have a git source")
      end)
  end.

(** ** Events of the S3 proxy *)

Fixpoint bucket_owner (bucket : string) (projects : list Project) : M World string :=
  match projects with
  | [] => mret ""
  | p :: projects =>
    bs ← ListBuckets (Meta_Name (Project_Meta p));
    match bs with
    | Err _ => bucket_owner bucket projects
    | Ok bs => if existsb (λ b, bool_decide (Meta_Name (Bucket_Meta b) = bucket)) bs
               then mret (Meta_Name (Project_Meta p)) else bucket_owner bucket projects
    end
  end.
Definition bucketProject (bucket : string) : M World string :=
  projects ← ListProjects;
  match projects with Err _ => mret "" | Ok projects => bucket_owner bucket projects end.

Definition s3_type (meth : string) : string :=
  if bool_decide (meth = "PUT") || bool_decide (meth = "POST") then "s3.put"
  else if bool_decide (meth = "DELETE") then "s3.delete" else "".
(** After the proxy has answered [status] for [path], the part of the URL
    after [/s3]. *)
Definition s3_notify (meth path : string) (status : Z) : M S () :=
  if (200 <=? status) && (status <? 300) then
    let '(bucket, key) := splitS3Path path in
    if bool_decide (bucket = "") || bool_decide (key = "") || bool_decide (s3_type meth = "") then mret ()
    else
      project ← db_do (bucketProject bucket);
      emit_event { (zero (A:=EventRecord)) with
        EventRecord_Type := s3_type meth; EventRecord_Project := project;
        EventRecord_Subject := bucket +:+ "/" +:+ key;
        EventRecord_Data := <["bucket" := bucket]> (<["key" := key]> {["method" := meth]}) }
  else mret ().

(** *** The proxy

    [proxied_path]: the path the request is sent on with. *)
Definition proxied_path (path : string) : string :=
  let p := trim_prefix path "/s3" in if bool_decide (p = "") then "/" else p.
Definition with_path (path : string) (r : HttpRequest) : HttpRequest :=
  mkHttpRequest (r_Method r) path (r_RequestURI r) (r_Query r) (r_Header r) (r_Body r) (r_Json r).
(** [s3Addr]: the address in the configuration, if there is one. *)
Definition handleS3Proxy `{ReverseProxy G} (s3Addr : option string) (has_bus : bool) (r : HttpRequest) : M S Response :=
  match s3Addr with
  | None => mret (httpError 503 "garage not configured")
  | Some addr =>
    match url_Parse ("http://" +:+ addr) with
    | Err e => mret (status_err 500 e)
    | Ok target =>
      let path := proxied_path (r_Path r) in
      answer ← garage_do (proxy_ServeHTTP target (with_path path r));
      let resp := match answer with Ok resp => resp | Err _ => httpError 502 "garage unreachable" end in
      (if has_bus : bool then s3_notify (r_Method r) path (resp_Status resp) else mret ()) ;;
      mret resp
    end
  end.
End ClusterApi.
