(* ===== verification/ApiProps.v ===== *)
(** Properties of the API server: who is let in, what a git webhook may
    trigger, what an update of a function keeps, which environment an invoked
    function sees, and what the list of recent invocations holds. *)

From Stdlib Require Import Ascii.
From S2P Require Import Prelude GoTime Json Types Bolt Store StoreOps StoreLaws Table StoreProps Text Random Secrets SecretsProps Auth AuthProps Bus Replication Cluster Wasm Dispatcher Http Invoke Functions.

(** ** Recent invocations *)

Definition last_n {A} (n : nat) (l : list A) : list A := drop (length l - n) l.

Lemma last_n_snoc {A} (n : nat) (l : list A) x :
  (0 < n)%nat → last_n n (last_n n l ++ [x]) = last_n n (l ++ [x]).
Proof.
  intros Hn. unfold last_n. rewrite !length_app, length_drop; cbn [length].
  destruct (decide (length l < n)%nat).
  - replace (length l - n)%nat with 0%nat by lia. rewrite drop_0. f_equal. lia.
  - rewrite <-(drop_app_le l [x]) by lia. rewrite drop_drop. f_equal. lia.
Qed.
Lemma reverse_last_n {A} (n : nat) (l : list A) : reverse (last_n n l) = take n (reverse l).
Proof.
  unfold last_n, reverse. rewrite <-!List.rev_alt. symmetry. apply List.firstn_rev.
Qed.

Definition recorded (key : string) (recs : list (string * invocationRecord)) : list invocationRecord :=
  snd <$> List.filter (λ kr, bool_decide (kr.1 = key)) recs.

Lemma ring_contents n key recs r :
  ring_size r = Z.of_nat n → (0 < n)%nat → rings r = ∅ →
  let r' := foldl (λ r kr, ring_record kr.1 kr.2 r) r recs in
  ring_size r' = ring_size r ∧ default [] (rings r' !! key) = last_n n (recorded key recs).
Proof.
  intros Hs Hn He. induction recs as [|[k x] recs [IHs IH]] using rev_ind; cbn.
  - split; [done|]. rewrite He, lookup_empty. done.
  - rewrite foldl_app. cbn. set (r' := foldl _ r recs) in *. unfold recorded in *.
    rewrite List.filter_app, fmap_app. cbn. split; [done|].
    assert (Hbuf : ∀ l : list invocationRecord, (if ring_size r' <? Z.of_nat (length l)
      then drop (Z.to_nat (Z.of_nat (length l) - ring_size r')) l else l) = last_n n l).
    { intros l. rewrite IHs, Hs. unfold last_n. destruct (Z.ltb_spec (Z.of_nat n) (Z.of_nat (length l))).
      - f_equal. lia.
      - replace (length l - n)%nat with 0%nat by lia. done. }
    rewrite Hbuf. case_bool_decide as Hk; cbn.
    + subst k. rewrite lookup_insert_eq. cbn. rewrite IH. by apply last_n_snoc.
    + rewrite lookup_insert_ne by done. by rewrite app_nil_r.
Qed.

(** After any sequence of invocations of any functions, the list served for
    one function is its own invocations only, the most recent first, cut to
    the ring's size (100 when none is given). *)
Theorem ring_lists_latest_first (size : Z) (key : string) (recs : list (string * invocationRecord)) :
  ring_list key (foldl (λ r kr, ring_record kr.1 kr.2 r) (newInvocationRing size) recs) =
  take (if size <=? 0 then 100 else Z.to_nat size) (reverse (recorded key recs)).
Proof.
  unfold ring_list. rewrite reverse_in_place_spec.
  destruct (ring_contents (if size <=? 0 then 100 else Z.to_nat size) key recs (newInvocationRing size)) as [_ ->];
    [cbn; destruct (Z.leb_spec size 0); lia|destruct (Z.leb_spec size 0); lia|done|].
  apply reverse_last_n.
Qed.

(** ** The environment of an invoked function *)

Section Staged.
Context `{Random, RL : !RandomLaws} `{BL : BoltLaws}.
Implicit Types (w : World) (m : Manager) (t : gmap (string * string) Secret).

(** What a mount adds to the environment, and to the files. *)
Definition mount_env m t (project : string) (env : gmap string string) (sm : SecretMount) : gmap string string :=
  match unsealed m (SecretMount_Secret sm) (t !! (project, SecretMount_Secret sm)) with
  | Ok pt => if bool_decide (SecretMount_EnvName sm = "") then env else <[SecretMount_EnvName sm := pt]> env
  | Err _ => env
  end.
Definition mount_file m t (project : string) (files : gmap string string) (sm : SecretMount) : gmap string string :=
  match unsealed m (SecretMount_Secret sm) (t !! (project, SecretMount_Secret sm)) with
  | Ok pt => if bool_decide (SecretMount_MountPath sm = "") then files else <[SecretMount_MountPath sm := pt]> files
  | Err _ => files
  end.

Lemma stage_mounts_run m w t f mounts req :
  Represents w "secrets" t → plain (Meta_Project (Function_Meta f)) →
  let p := Meta_Project (Function_Meta f) in
  stage_mounts m f mounts req w =
    Ret { req with InvokeRequest_Env := foldl (mount_env m t p) (InvokeRequest_Env req) mounts;
                   InvokeRequest_SecretFiles := foldl (mount_file m t p) (InvokeRequest_SecretFiles req) mounts } w.
Proof.
  intros HR Hp p. revert req. induction mounts as [|sm mounts IH]; intros req; [by destruct req|].
  cbn [stage_mounts foldl]. rewrite (bind_ret_run _ _ _ _ _ (Reveal_run _ _ _ _ _ HR Hp)).
  unfold mount_env at 2, mount_file at 2. fold p.
  destruct (unsealed _ _ _) as [pt|e]; [|apply IH].
  rewrite IH. by destruct req; do 2 case_bool_decide.
Qed.

(** Resolution does not invent keys. *)
Lemma Resolve_dom m w t project vars :
  Represents w "secrets" t → plain project →
  ∃ r, Resolve m project vars w = Ret r w ∧
    match r with Ok out => ∀ k, vars !! k = None → out !! k = None | Err _ => True end.
Proof.
  intros HR Hp. unfold Resolve. case_bool_decide as Hemp; [subst; by exists (Ok ∅)|].
  destruct (resolve_loop_run m w t project (map_to_list vars) ∅ HR Hp (NoDup_fst_map_to_list _))
    as (r & Hrun & Hr). exists r. split; [done|]. destruct r as [out|e]; [|done].
  intros k Hk. specialize (Hr k). rewrite list_to_map_to_list, lookup_empty, Hk in Hr. done.
Qed.

(** The environment a function sees when it is invoked is the one written
    in its specification, overlaid by the secrets it mounts by name: since
    every caller passes the specification's environment with the request, and
    the request's environment is laid over the resolved one, a
    [secret://...] value reaches the guest as that text, whether or not the
    reference resolves.  The mounted files are the revealed values. *)
Theorem references_reach_the_guest_unresolved (m : Manager) (w : World) (t : gmap (string * string) Secret)
    (f : Function) (r : HttpRequest) (path : string)
    (HR : Represents w "secrets" t) (Hp : plain (Meta_Project (Function_Meta f))) :
  ∃ req, stage_secrets (Some m) f (requestOf f r path) w = Ret req w ∧
    InvokeRequest_Env req =
      foldl (mount_env m t (Meta_Project (Function_Meta f))) (Function_Env f) (Function_SecretMounts f) ∧
    InvokeRequest_SecretFiles req =
      foldl (mount_file m t (Meta_Project (Function_Meta f))) ∅ (Function_SecretMounts f) ∧
    ∀ k v, Function_Env f !! k = Some v → k ∉ (SecretMount_EnvName <$> Function_SecretMounts f) →
           InvokeRequest_Env req !! k = Some v.
Proof.
  unfold stage_secrets.
  destruct (Resolve_dom m w t (Meta_Project (Function_Meta f)) (Function_Env f) HR Hp) as (res & Hrun & Hres).
  rewrite (bind_ret_run _ _ _ _ _ Hrun).
  set (req0 := match res with Ok _ => _ | Err _ => _ end).
  assert (Hset : InvokeRequest_Env req0 = Function_Env f ∧ InvokeRequest_SecretFiles req0 = ∅).
  { unfold req0. destruct res as [out|e]; [|done]. cbn. split; [|done]. apply map_eq. intros k.
    destruct (Function_Env f !! k) as [v|] eqn:E; [by apply lookup_union_Some_l|].
    rewrite lookup_union_r by done. by apply Hres. }
  clearbody req0. rewrite (stage_mounts_run _ _ _ _ _ _ HR Hp).
  eexists; split; [reflexivity|]. cbn.
  destruct Hset as [-> ->]. split_and!; [done|done|].
  intros k v. generalize (Function_Env f). induction (Function_SecretMounts f) as [|sm mounts IH]; intros env E Hk; [done|].
  apply not_elem_of_cons in Hk as [Hne Hk]. cbn [foldl]. apply IH; [|done].
  unfold mount_env. destruct (unsealed _ _ _); [|done]. case_bool_decide; [done|].
  by rewrite lookup_insert_ne.
Qed.
End Staged.

(** ** Authentication *)

Section Server.
Context `{CR : Crypto} `{Random, RL : !RandomLaws} `{BL : BoltLaws} {T1 T2 : Type}.
Implicit Types (s : Srv T1 T2) (w : World).

Definition srv_world s : World := world (srv_sys s).
Definition with_world (w : World) s : Srv T1 T2 :=
  let y := srv_sys s in
  mkSrv (mkSys _ w (Bus.bus y) (Bus.handled y) (Bus.calls y) (Bus.tasks y)) (srv_wasm s) (srv_fcracker s) (srv_blobs s) (srv_invocations s).

Lemma on_store_run {A} (m : M World A) s a w :
  m (srv_world s) = Ret a w → on_store m s = Ret a (with_world w s).
Proof. intros E. unfold on_store, on_sys, lift. unfold srv_world in E. by rewrite E. Qed.
Lemma with_same_world s : with_world (srv_world s) s = s.
Proof. by destruct s as [[]]. Qed.
Lemma with_world_twice w w' s : with_world w (with_world w' s) = with_world w s.
Proof. done. Qed.

(** The world after the clock has been read once. *)
Definition ticked (w : World) : World :=
  set_env (mkEnv (clock (env w)) (S (ticks (env w))) (uids (env w)) (draws (env w))) w.

Lemma ResolveToken_run w (t : gmap (string * string) Token) tok tk k :
  Represents w "tokens" t → t !! k = Some tk → Token_HashHex tk = HashToken tok →
  (∀ k' tk', t !! k' = Some tk' → Token_HashHex tk' = HashToken tok → k' = k) →
  ResolveToken tok w =
    if IsZero (Token_ExpiresAt tk) then Ret (Ok (identityOf tk)) w
    else Ret (if After (clock (env w) (ticks (env w))) (Token_ExpiresAt tk)
              then Err ErrTokenExpired else Ok (identityOf tk)) (ticked w).
Proof.
  intros HR Hk Hh Hu. unfold ResolveToken.
  rewrite (bind_ret_run _ _ _ _ _ (GetTokenByHash_run w t (HashToken tok) tk k HR Hk Hh Hu)).
  destruct (IsZero (Token_ExpiresAt tk)); [done|]. cbn [negb].
  unfold mbind, M_bind, now. cbn. by destruct (After _ _).
Qed.

End Server.

(** ** Git webhooks *)

(** The signature header is ["sha256="] and hexadecimal digits of the MAC. *)
Lemma verifyHMAC_spec header body secret :
  verifyHMAC header body secret = true ↔
  secret ≠ "" ∧ ∃ digest, header = "sha256=" +:+ digest ∧ hex_decode digest = Some (hmac_sha256 secret body).
Proof.
  unfold verifyHMAC, split_eq. split.
  - destruct (bool_decide _ || _) eqn:E; [done|]. apply orb_false_iff in E as [_ Hs%bool_decide_eq_false_1].
    destruct (index_byte header equals) as [i|] eqn:Ei; [|done]. case_bool_decide as Hsch; [|done].
    destruct (hex_decode _) as [want|] eqn:Ed; [|done]. intros ->%bool_decide_eq_true_1.
    split; [done|]. exists (drop_str (i + 1) header). split; [|done].
    rewrite (proj1 (index_byte_split _ _ _ Ei)) at 1. by rewrite Hsch, Nat.add_1_r.
  - intros (Hs & digest & -> & Ed). rewrite (bool_decide_eq_false_2 (secret = "")) by done.
    change (index_byte ("sha256=" +:+ digest) equals) with (Some 6%nat).
    change (bool_decide ("sha256=" +:+ digest = "")) with false. cbn [orb].
    change (take_str 6 ("sha256=" +:+ digest)) with ("sha256" +:+ take_str 0 ("=" +:+ digest)).
    change (drop_str (6 + 1) ("sha256=" +:+ digest)) with (drop_str 0 digest).
    replace (drop_str 0 digest) with digest by (by destruct digest).
    rewrite bool_decide_eq_true_2 by done. rewrite Ed. by apply bool_decide_eq_true_2.
Qed.

(** Membership in a list of status codes. *)
Ltac in_status :=
  intros;
  repeat match goal with H : _ ∈ _ |- _ => apply list_elem_of_In in H; cbn in H end;
  try (apply list_elem_of_In; cbn); lia.

Section Webhook.
Context `{Random} `{Bolt} {T1 T2 : Type}.
Implicit Types (s : Srv T1 T2) (w : World).

Lemma list_bucket_pure b p w x w' : list_bucket b p w = Ret x w' → w' = w.
Proof. unfold list_bucket. destruct (bolt_has _ _); congruence. Qed.
Lemma list_scoped_pure {A} `{Json A} b p w (x : res (list A)) w' : list_scoped b p w = Ret x w' → w' = w.
Proof.
  unfold list_scoped, try_bind, mbind, M_bind. destruct (list_bucket _ _ w) as [[l|e] w1|] eqn:E; [..|done];
    intros [= _ <-]; by apply list_bucket_pure in E.
Qed.

(** The search reads only, and what it finds carries the token. *)
Lemma find_in_projects_sound tok ps w x w' :
  find_in_projects tok ps w = Ret x w' →
  w' = w ∧ match x with Ok f => webhook_token f = Some tok | Err _ => True end.
Proof.
  revert w; induction ps as [|p ps IH]; intros w; cbn [find_in_projects]; [by intros [= <- <-]|].
  unfold mbind, M_bind. destruct (ListFunctions _ w) as [[l|e] w1|] eqn:E; [..|done];
    apply list_scoped_pure in E as ->; [|apply IH].
  destruct (List.find _ l) as [f|] eqn:Ef; [|apply IH]. intros [= <- <-]. split; [done|].
  apply List.find_some in Ef as [_ Hf]. by apply bool_decide_eq_true_1 in Hf.
Qed.
Lemma findFunctionByWebhookToken_sound tok w x w' :
  findFunctionByWebhookToken tok w = Ret x w' →
  w' = w ∧ match x with Ok f => webhook_token f = Some tok | Err _ => True end.
Proof.
  unfold findFunctionByWebhookToken, ListProjects, try_bind, mbind, M_bind.
  destruct (list_bucket _ _ w) as [[l|e] w1|] eqn:E; [..|done]; apply list_bucket_pure in E as ->; cbn;
    [apply find_in_projects_sound|by intros [= <- <-]].
Qed.

(** The request proves knowledge of the secret: a MAC of the body under it, or
    the secret itself as a bearer token. *)
Definition proves (secret : string) (r : HttpRequest) : Prop :=
  (∃ digest, header_get r "x-hub-signature-256" = "sha256=" +:+ digest ∧
     hex_decode digest = Some (hmac_sha256 secret (limit_reader (4 * 2 ^ 20) (r_Body r)))) ∨
  verifyBearer (header_get r "authorization") secret = true.

Lemma authentic_spec f r :
  authentic f r (limit_reader (4 * 2 ^ 20) (r_Body r)) = true ↔
  ∀ g, FunctionSource_Git (Function_Source f) = Some g → GitSourceSpec_WebhookSecret g ≠ "" →
       proves (GitSourceSpec_WebhookSecret g) r.
Proof.
  unfold authentic. destruct (FunctionSource_Git _) as [g|]; cbn -[verifyHMAC verifyBearer limit_reader]; [|naive_solver].
  rewrite !orb_true_iff, bool_decide_eq_true, verifyHMAC_spec. unfold proves. split.
  - intros [[Hs|(_ & Hd)]|Hb] g' [= <-] Hne; [done|by left|by right].
  - intros Hg. destruct (decide (GitSourceSpec_WebhookSecret g = "")) as [|Hne]; [auto|].
    destruct (Hg g eq_refl Hne); auto.
Qed.

Lemma handleGitWebhook_cases builder has_bus token r s s' resp :
  handleGitWebhook builder has_bus token r s = Ret resp s' →
  (s' = s ∧ (resp_Status resp ∈ [404; 503] ∨
     resp_Status resp = 401 ∧ ∃ f, findFunctionByWebhookToken token (srv_world s) = Ret (Ok f) (srv_world s) ∧
       authentic f r (limit_reader (4 * 2 ^ 20) (r_Body r)) = false)) ∨
  ∃ f b, token ≠ "" ∧ builder = Some b ∧ webhook_token f = Some token ∧
    findFunctionByWebhookToken token (srv_world s) = Ret (Ok f) (srv_world s) ∧
    authentic f r (limit_reader (4 * 2 ^ 20) (r_Body r)) = true ∧ resp_Status resp ∈ [202; 500].
Proof.
  unfold handleGitWebhook. case_bool_decide as Htok.
  { intros [= <- <-]. left. split; [done|]. left. in_status. }
  unfold mbind, M_bind, on_store at 1, on_sys at 1, lift at 1.
  destruct (findFunctionByWebhookToken token (world (srv_sys s))) as [x w|] eqn:Ef; [|done].
  destruct (findFunctionByWebhookToken_sound _ _ _ _ Ef) as [-> Hf].
  change (mkSrv _ _ _ _ _) with (with_world (srv_world s) s). rewrite with_same_world.
  destruct x as [f|e]; [|intros [= <- <-]; left; split; [done|left; in_status]].
  destruct (authentic f r _) eqn:Ha; cbn [negb]; [|intros [= <- <-]; left; split; [done|right; eauto]].
  destruct builder as [b|]; [|intros [= <- <-]; left; split; [done|left; in_status]].
  intros Hrun. right. exists f, b. split_and!; [done|done|done|exact Ef|done|].
  destruct (on_store (T1:=T1) (T2:=T2) (@Trigger _ b f "webhook") s) as [[bd|e] s2|]; [..|done].
  - set (m := (if has_bus then _ else _) : M _ ()) in Hrun.
    destruct (m s2) as [u s3|]; [|done]. injection Hrun as <- <-. in_status.
  - injection Hrun as <- <-. in_status.
Qed.

Lemma authentic_signed f g r :
  FunctionSource_Git (Function_Source f) = Some g →
  header_get r "x-hub-signature-256" = "sha256=" +:+
    hex_encode (hmac_sha256 (GitSourceSpec_WebhookSecret g) (limit_reader (4 * 2 ^ 20) (r_Body r))) →
  authentic f r (limit_reader (4 * 2 ^ 20) (r_Body r)) = true.
Proof.
  intros Hg Hh. apply authentic_spec. intros g' Hg'. rewrite Hg in Hg'. injection Hg' as <-.
  intros _. left. eexists. split; [exact Hh|apply hex_decode_encode].
Qed.

End Webhook.

(** ** Updating a function *)

Section Update.
Context `{Random} `{BL : BoltLaws}.
Implicit Types w : World.

Lemma defaults_keeps project f :
  wasNew (defaults project f) = wasNew f ∧
  Meta_Project (Function_Meta (defaults project f)) = project ∧
  Meta_Name (Function_Meta (defaults project f)) = Meta_Name (Function_Meta f) ∧
  Function_SourceRef (defaults project f) = Function_SourceRef f ∧
  Function_LatestBuild (defaults project f) = Function_LatestBuild f ∧
  webhook_token (defaults project f) = webhook_token f.
Proof. unfold defaults, wasNew, webhook_token. destruct f as [[] ? ? ? [] ? ? ? ? ? ? ?]; cbn. by repeat case_bool_decide. Qed.

Lemma assign_node_keeps sc f w f' w' :
  assign_node sc f w = Ret f' w' →
  Function_SourceRef f' = Function_SourceRef f ∧ Function_LatestBuild f' = Function_LatestBuild f ∧
  webhook_token f' = webhook_token f.
Proof.
  unfold assign_node. destruct sc as [sc|]; [|by intros [= <- _]]. case_bool_decide; [|by intros [= <- _]].
  unfold mbind, M_bind. destruct (Scheduler.PlaceFunction sc f w) as [[id|e] w1|]; [..|done]; by intros [= <- _].
Qed.

#[local] Arguments set_webhook_token : simpl never.

Lemma set_webhook_token_keeps tok f :
  Function_SourceRef (set_webhook_token tok f) = Function_SourceRef f ∧
  Function_LatestBuild (set_webhook_token tok f) = Function_LatestBuild f ∧
  webhook_token (set_webhook_token tok f) = (λ _, tok) <$> webhook_token f.
Proof. unfold webhook_token; destruct f as [? ? ? ? [ty [g|]]]; done. Qed.

Lemma ensure_token_keeps f w f' w' :
  ensure_token f w = Ret (Ok f') w' →
  Function_SourceRef f' = Function_SourceRef f ∧ Function_LatestBuild f' = Function_LatestBuild f ∧
  (webhook_token f ≠ Some "" → webhook_token f' = webhook_token f) ∧
  (webhook_token f = Some "" → ∃ b, rand_read (draws (env w)) 16 = Ok b ∧ webhook_token f' = Some (hex_encode b)).
Proof.
  unfold ensure_token. case_bool_decide as Ht.
  - unfold mintWebhookToken, rand_bytes, mbind, M_bind. destruct (rand_read _ _) as [b|e] eqn:Eb; [|done]. cbn.
    intros [= <- _]. destruct (set_webhook_token_keeps (hex_encode b) f) as (-> & -> & ->).
    split_and!; [done|done|done|]. intros _. exists b. split; [done|]. by rewrite Ht.
  - intros [= <- _]. done.
Qed.

Definition or_keep (new old : string) : string := if bool_decide (new = "") then old else new.

Lemma preserve_fields cur f :
  Function_SourceRef (preserve cur f) = or_keep (Function_SourceRef f) (Function_SourceRef cur) ∧
  Function_LatestBuild (preserve cur f) = or_keep (Function_LatestBuild f) (Function_LatestBuild cur) ∧
  webhook_token (preserve cur f) =
    match webhook_token f, webhook_token cur with
    | Some tok, Some cur_tok => Some (or_keep tok cur_tok)
    | o, _ => o
    end.
Proof.
  unfold preserve, or_keep, webhook_token. destruct f as [? ? ? sr [ty [g|]] ? ? ? ? ? lb ?], cur as [? ? ? sr' [ty' [g'|]] ? ? ? ? ? lb' ?];
    cbn; repeat (case_bool_decide; subst; cbn); try done.
Qed.
(** What a write of a function keeps of the stored one.  With the UID of
    the stored function, the code, the latest build and the webhook token it
    leaves blank are kept, so the function goes on running and its webhook URL
    stays valid.  Without a UID the write is taken for a creation even when
    the function exists: what it leaves blank is lost (the function then
    answers that it has no code deployed) and a git source gets a fresh
    webhook token. *)
Theorem update_keeps_the_deployment (sc : option Scheduler.Scheduler) (project : string) (body f cur : Function)
    (w w' : World) (t : gmap (string * string) Function)
    (HR : Represents w "functions" t) (Hp : plain project)
    (Hcur : t !! (project, Meta_Name (Function_Meta body)) = Some cur)
    (Hrun : prepare sc project body w = Ret (Ok f) w') :
  (Meta_UID (Function_Meta body) ≠ "" →
     Function_SourceRef f = or_keep (Function_SourceRef body) (Function_SourceRef cur) ∧
     Function_LatestBuild f = or_keep (Function_LatestBuild body) (Function_LatestBuild cur) ∧
     ∀ tok cur_tok, webhook_token body = Some tok → webhook_token cur = Some cur_tok → cur_tok ≠ "" →
       webhook_token f = Some (or_keep tok cur_tok)) ∧
  (Meta_UID (Function_Meta body) = "" →
     Function_SourceRef f = Function_SourceRef body ∧
     Function_LatestBuild f = Function_LatestBuild body ∧
     (webhook_token body = Some "" →
        ∃ b, rand_read (draws (env w)) 16 = Ok b ∧ webhook_token f = Some (hex_encode b))).
Proof.
  destruct (defaults_keeps project body) as (Hn & Hpr & Hna & Hs & Hl & Ht).
  unfold prepare, try_bind, mbind, M_bind in Hrun. set (d := defaults project body) in *.
  destruct (merge_current d w) as [g w1|] eqn:Em; [|done].
  destruct (ensure_token g w1) as [[h|e] w2|] eqn:Ee; [|done|done].
  destruct (assign_node sc h w2) as [k w3|] eqn:Ea; [|done]. injection Hrun as <- <-.
  destruct (assign_node_keeps _ _ _ _ _ Ea) as (-> & -> & ->).
  destruct (ensure_token_keeps _ _ _ _ Ee) as (-> & -> & Htk & Hmint).
  unfold merge_current in Em. rewrite Hn in Em. unfold wasNew in Em. case_bool_decide as Hu.
  - injection Em as <- <-. split; [done|]. intros _. rewrite Hs, Hl. split_and!; [done|done|].
    intros Hb. rewrite Ht in Hmint. auto.
  - split; [|done]. intros _. rewrite Hpr, Hna in Em.
    rewrite (bind_ret_run _ _ _ _ _ (table_get _ _ _ _ (Meta_Name (Function_Meta body)) HR Hp)), Hcur in Em.
    injection Em as <- <-. destruct (preserve_fields cur d) as (-> & -> & Hw). rewrite Hs, Hl.
    split_and!; [done|done|]. intros tok ct Htok Hct Hne. rewrite Ht, Htok, Hct in Hw.
    rewrite Htk, Hw; [done|]. rewrite Hw. unfold or_keep. case_bool_decide; congruence.
Qed.
End Update.

(** ** Witnesses *)

Import DemoRandom.

Definition env_function : Function :=
  { (zero (A:=Function)) with
    Function_Meta := demo_meta "shop" "hook"; Function_Runtime := FunctionRuntimeWasm;
    Function_Env := {["DB" := "secret://db"]};
    Function_SecretMounts := [{ (zero (A:=SecretMount)) with SecretMount_Secret := "db"; SecretMount_EnvName := "PASS" }] }.
Definition demo_request (headers : gmap string (list string)) : HttpRequest :=
  mkHttpRequest "POST" "/fn/shop/hook" "/fn/shop/hook" ∅ headers "{}" (Some (JObj [])).

Lemma references_reach_the_guest_unresolved_witness :
  ∃ req, stage_secrets (Some demo_manager) env_function (requestOf env_function (demo_request ∅) "/") secret_world
           = Ret req secret_world ∧
    InvokeRequest_Env req !! "DB" = Some "secret://db".
Proof.
  destruct (references_reach_the_guest_unresolved demo_manager secret_world demo_secrets env_function
              (demo_request ∅) "/" secret_world_represents ltac:(by vm_compute)) as (req & Hrun & _ & _ & Hk).
  exists req. split; [exact Hrun|]. apply Hk; [reflexivity|].
  intros [E|E]%elem_of_cons; [discriminate E|by apply elem_of_nil in E].
Defined.

(** A server over a store, with the stub runtime. *)
Definition stub_server (w : World (H:=MemBolt)) : Srv FnStub FnStub :=
  mkSrv (mkSys _ w NewBus [] [] []) (Some (mkFnStub ∅)) None None (newInvocationRing 100).

#[local] Existing Instance demo_crypto.
Definition bearer_request : HttpRequest := demo_request {["Authorization" := ["Bearer sct_ci"]]}.


(** A git-backed function and a builder that accepts every build. *)
Definition hook_function : Function :=
  { (zero (A:=Function)) with
    Function_Meta := demo_meta "shop" "hook"; Function_Runtime := FunctionRuntimeWasm; Function_SourceRef := "abc";
    Function_Source := mkFunctionSource "git" (Some { (zero (A:=GitSourceSpec)) with
      GitSourceSpec_URL := "https://example.org/r.git"; GitSourceSpec_WebhookToken := "tok";
      GitSourceSpec_WebhookSecret := "s3cr3t" }) }.
Definition hook_setup : M (World (H:=MemBolt)) (option error) :=
  _ ← PutProject { (zero (A:=Project)) with Project_Meta := demo_meta "" "shop" };
  r ← PutFunction hook_function; mret r.2.
Definition hook_world : World (H:=MemBolt) := default demo_world (exec hook_setup demo_world).
Definition hook_builder : BuilderHook (H:=MemBolt) := λ f trigger w,
  Ret (Ok { (zero (A:=Build)) with Build_FunctionRef := Meta_Name (Function_Meta f); Build_Trigger := trigger }) w.
Definition signed_request : HttpRequest :=
  demo_request {["X-Hub-Signature-256" := ["sha256=" +:+ hex_encode (hmac_sha256 "s3cr3t" "{}")]]}.
Abbreviation hook_run :=
  (handleGitWebhook (H0:=MemBolt) (T1:=FnStub) (T2:=FnStub) (Some hook_builder) true "tok" signed_request).
Definition hook_response : Response :=
  writeJSON 202 (JObj [("build", JStr ""); ("commit", JStr ""); ("queued", JBool true)]).


Definition function_world : World (H:=MemBolt) := default demo_world (exec (PutFunction hook_function) demo_world).
Lemma hook_represents :
  ∃ (cur : Function) (t : gmap (string * string) Function),
    Represents function_world "functions" t ∧ t !! ("shop", "hook") = Some cur.
Proof.
  destruct (table_put demo_world "functions" KindFunction ∅ hook_function) as (d & Hput & HR & _).
  - apply represents_empty. vm_compute. reflexivity.
  - done.
  - by vm_compute.
  - vm_compute. reflexivity.
  - by vm_compute.
  - eexists _, _. split; [|apply lookup_insert_eq].
    unfold function_world, exec, PutFunction. rewrite Hput. exact HR.
Qed.

(** The stored function, written back without its code: with a UID, then
    without. *)
Definition blank_update (uid : string) : Function :=
  { hook_function with Function_SourceRef := ""; Function_Meta ::= (λ m, { m with Meta_UID := uid }) }.
Definition prepared (uid : string) : Function :=
  match eval (prepare None "shop" (blank_update uid)) function_world with Some (Ok f) => f | _ => zero end.

Lemma update_keeps_the_deployment_witness :
  Function_SourceRef (prepared "") = "" ∧
  ∃ cur : Function, Function_SourceRef (prepared "u0") = or_keep "" (Function_SourceRef cur).
Proof.
  destruct hook_represents as (cur & t' & HR & Hcur).
  assert (E : ∀ uid, uid = "" ∨ uid = "u0" →
    eval (prepare None "shop" (blank_update uid)) function_world = Some (Ok (prepared uid))).
  { intros uid [-> | ->]; vm_compute; reflexivity. }
  split.
  - exact (proj1 (proj2 (update_keeps_the_deployment None "shop" (blank_update "") (prepared "") cur
      function_world _ t' HR ltac:(by vm_compute) Hcur
      (run_eval (prepare None "shop" (blank_update "")) function_world _ (E "" (or_introl eq_refl)))) eq_refl)).
  - exists cur. refine (proj1 (proj1 (update_keeps_the_deployment None "shop" (blank_update "u0") (prepared "u0") cur
      function_world _ t' HR ltac:(by vm_compute) Hcur
      (run_eval (prepare None "shop" (blank_update "u0")) function_world _ (E "u0" (or_intror eq_refl)))) _)).
    discriminate.
Defined.
