(* ===== verification/HandlersProps.v ===== *)
(** Properties of the resource and cluster handlers: which fields no reading
    endpoint discloses, that set-up claims a node once, and what the join
    handshake does to the cluster. *)

From Stdlib Require Import Ascii.
From S2P Require Import Prelude GoTime Json Types Bolt Store StoreOps StoreLaws Table StoreProps Singleton Text Random Secrets SecretsProps Auth AuthProps Bus Replication Cluster ClusterProps Wasm Duration Http Invoke Garage Handlers ClusterApi.

#[local] Arguments String.append : simpl nomatch.

(** ** Running a handler *)

Section Run.
Context `{BL : BoltLaws} {T1 T2 R G : Type}.
Abbreviation HS := (HSys T1 T2 R G).
Implicit Types (s : HS) (w : World).

Definition hworld s : World := world (srv_sys (h_srv s)).
Definition with_hworld w s : HS :=
  let v := h_srv s in
  let y := srv_sys v in
  mkHSys (mkSrv (mkSys _ w (Bus.bus y) (Bus.handled y) (Bus.calls y) (Bus.tasks y))
            (srv_wasm v) (srv_fcracker v) (srv_blobs v) (srv_invocations v)) (h_rt s) (h_garage s).

Lemma hworld_with w s : hworld (with_hworld w s) = w.
Proof. done. Qed.
Lemma with_hworld_twice w w' s : with_hworld w (with_hworld w' s) = with_hworld w s.
Proof. done. Qed.
Lemma with_same_hworld s : with_hworld (hworld s) s = s.
Proof. by destruct s as [[[]]]. Qed.

Lemma db_do_eq {A} (m : M World A) s :
  db_do m s = match m (hworld s) with Ret a w => Ret a (with_hworld w s) | Panic => Panic end.
Proof. unfold db_do, on_store, on_sys, lift, hworld. by destruct (m _). Qed.
Lemma db_do_run {A} (m : M World A) s a w : m (hworld s) = Ret a w → db_do m s = Ret a (with_hworld w s).
Proof. intros E. by rewrite db_do_eq, E. Qed.
Lemma db_do_same {A} (m : M World A) s a : m (hworld s) = Ret a (hworld s) → db_do m s = Ret a s.
Proof. intros E. rewrite (db_do_run _ _ _ _ E). by rewrite with_same_hworld. Qed.

Lemma fail_with_ok {A} f (m : M World (res A)) (k : A → M HS Response) s a w :
  m (hworld s) = Ret (Ok a) w → fail_with f m k s = k a (with_hworld w s).
Proof. intros E. unfold fail_with. by rewrite (bind_ret_run _ _ _ _ _ (db_do_run _ _ _ _ E)). Qed.
Lemma fail_with_err {A} f (m : M World (res A)) (k : A → M HS Response) s e w :
  m (hworld s) = Ret (Err e) w → fail_with f m k s = Ret (f e) (with_hworld w s).
Proof. intros E. unfold fail_with. by rewrite (bind_ret_run _ _ _ _ _ (db_do_run _ _ _ _ E)). Qed.
Lemma fail_with_inv {A} f (m : M World (res A)) (k : A → M HS Response) s resp s' :
  fail_with f m k s = Ret resp s' →
  (∃ e, resp = f e) ∨ ∃ a w, m (hworld s) = Ret (Ok a) w ∧ k a (with_hworld w s) = Ret resp s'.
Proof.
  unfold fail_with, mbind, M_bind. rewrite db_do_eq.
  destruct (m (hworld s)) as [[a|e] w|]; [|intros [= <- _]; eauto|done]. eauto.
Qed.
End Run.

(** ** What reading discloses *)

(** The value at a path of field names. *)
Fixpoint at_path (p : list string) (j : json) : option json :=
  match p with
  | [] => Some j
  | k :: p => match j with JObj kvs => assoc k kvs ≫= at_path p | _ => None end
  end.
(** What a struct encodes a field to: whether it is omitted, and its value. *)
Fixpoint field_at {S X} (k : string) (fs : fields S X) (s : S) : option (bool * json) :=
  match fs with
  | Fnil => None
  | Fcons name omit get rest =>
    if decide (k = name) then Some (omit && is_empty (get s), enc (get s)) else field_at k rest s
  end.
Lemma field_at_names {S X} k (fs : fields S X) s : k ∉ names fs → assoc k (enc_fields fs s) = None.
Proof. intros Hk. apply assoc_not_in. by intros ?%enc_fields_names. Qed.
Lemma assoc_enc_fields {S X} k (fs : fields S X) s :
  NoDup (names fs) →
  assoc k (enc_fields fs s) = match field_at k fs s with Some (false, j) => Some j | _ => None end.
Proof.
  induction fs as [|A X JA LA name omit get rest IH]; [done|]. cbn [names enc_fields field_at].
  intros [Hn Hnd]%NoDup_cons. destruct (decide (k = name)) as [->|Hne], (omit && is_empty (get s)); cbn [assoc].
  - by apply field_at_names.
  - by rewrite field_at_names, decide_True.
  - by apply IH.
  - rewrite IH, decide_False by done. by destruct (field_at k rest s) as [[[] j]|].
Qed.
Lemma at_path_struct {S X} (mk : X) (fs : fields S X) (s : S) k p (ok : list (option json)) :
  bool_decide (NoDup (names fs)) = true →
  match field_at k fs s with Some (false, j) => at_path p j | _ => None end ∈ ok →
  at_path (k :: p) (enc (Json:=struct_json mk fs) s) ∈ ok.
Proof.
  intros Hnd%bool_decide_eq_true. cbn [at_path enc struct_json]. rewrite assoc_enc_fields by done.
  by destruct (field_at k fs s) as [[[] j]|].
Qed.
(** Follows one field of a struct with a known constructor. *)
Ltac follow := eapply at_path_struct; [vm_compute; reflexivity|cbn -[at_path enc]].

(** The resources of a response: one, or the elements of a list. *)
Definition resources (r : Response) : list json :=
  match resp_Body r with BJson (JArr l) => l | BJson j => [j] | _ => [] end.
(** No resource of the response has a non-empty value at the path. *)
Definition withheld (r : Response) (p : list string) : Prop :=
  Forall (λ j, at_path p j ∈ [None; Some (JStr "")]) (resources r).

Section Reads.
Context `{Crypto} `{Random} `{BL : BoltLaws} {T1 T2 R G : Type}.
Abbreviation HS := (HSys T1 T2 R G).

(** The reading endpoints of the resources that hold credentials, with the
    fields that must not leave the server. *)
Definition credential_reads (project name : string) : list (M HS Response * list (list string)) :=
  let key := [["secretAccessKey"]] in
  let secret := [["nonce"]; ["ciphertext"]] in
  let rule := [["action"; "webhook"; "secret"]] in
  [ (handleGetCluster, [["bootstrapToken"]; ["joinTokens"]; ["garageRpcSecret"]; ["garageAdminToken"];
                        ["s3InternalKeyId"]; ["s3InternalKeySecret"]]);
    (handleListJoinTokens, [["hashHex"]]);
    (handleListTokens, [["hashHex"]; ["plaintext"]]);
    (handleGetAccessKey project name, key); (handleListAccessKeys project, key);
    (handleGetSecret project name, secret); (handleListSecrets project, secret);
    (handleGetEventRule project name, rule); (handleListEventRules project, rule) ].

Lemma withheld_error status msg k p :
  k ≠ "error" → k ≠ "status" → withheld (httpError status msg) (k :: p).
Proof.
  intros He Hs. apply Forall_singleton. cbn. by rewrite !decide_False by done; left.
Qed.
Lemma withheld_one {A} `{Json A} status (v : A) p kvs :
  enc v = JObj kvs → at_path p (enc v) ∈ [None; Some (JStr "")] → withheld (writeJSON status (enc v)) p.
Proof. unfold withheld, resources, writeJSON. cbn. intros -> Hp. by apply Forall_singleton. Qed.
Lemma withheld_list {A} `{Json A} status (f : A → A) (l : list A) p :
  (∀ v, at_path p (enc (f v)) ∈ [None; Some (JStr "")]) → withheld (writeJSON status (enc (f <$> l))) p.
Proof.
  intros Hp. unfold withheld, resources, writeJSON. cbn. apply Forall_forall.
  intros j (v & -> & (x & -> & _)%list_elem_of_fmap)%list_elem_of_fmap. apply Hp.
Qed.

(** A call that answers with a redacted value, or a list of them. *)
Lemma mapped_inv {A B} (m : M World (res A)) (f : A → B) w l w' :
  (out ←! m; mret (Ok (f out))) w = Ret (Ok l) w' → ∃ out, l = f out.
Proof. unfold try_bind, mbind, M_bind. destruct (m w) as [[o|e] w1|]; [intros [= <- _]; eauto|done|done]. Qed.

Definition hides (h : M HS Response) (p : list string) : Prop := ∀ s resp s', h s = Ret resp s' → withheld resp p.

Lemma hides_one {A} `{Json A} status (m : M World (res A)) (g : A → A) f k p :
  (∀ e, withheld (f e) (k :: p)) → (∀ v, ∃ kvs, enc (g v) = JObj kvs) →
  (∀ v, at_path (k :: p) (enc (g v)) ∈ [None; Some (JStr "")]) →
  hides (fail_with f m (λ v, ok_json status (g v))) (k :: p).
Proof.
  intros Hf Hobj Hp s resp s' [[e ->]|(v & w & _ & [= <- _])]%fail_with_inv; [apply Hf|].
  destruct (Hobj v) as [kvs E]. by eapply withheld_one.
Qed.
Lemma hides_list {A} `{Json A} status (m : M World (res (list A))) (g : A → A) f k p :
  (∀ e, withheld (f e) (k :: p)) → (∀ w l w', m w = Ret (Ok l) w' → ∃ l0, l = g <$> l0) →
  (∀ v, at_path (k :: p) (enc (g v)) ∈ [None; Some (JStr "")]) →
  hides (fail_with f m (ok_json status)) (k :: p).
Proof.
  intros Hf Hm Hp s resp s' [[e ->]|(l & w & Hl & [= <- _])]%fail_with_inv; [apply Hf|].
  apply Hm in Hl as [l0 ->]. by apply withheld_list.
Qed.

(** The field is absent, or empty. *)
Ltac here := first [apply list_elem_of_here | apply list_elem_of_further, list_elem_of_here].

Lemma hides_webhook (v : EventRule) :
  at_path ["action"; "webhook"; "secret"] (enc (hide_webhook_secret v)) ∈ [None; Some (JStr "")] ∧
  at_path ["action"; "webhook"; "secret"] (enc (redactEventRule v)) ∈ [None; Some (JStr "")].
Proof. destruct v as [? ? ? [[[]|] ? ?]]; split; repeat follow; here. Qed.

(** [hides_one] and [hides_list] for the redaction [g]. *)
Ltac blank := intros v; first [exact (proj1 (hides_webhook v)) | exact (proj2 (hides_webhook v)) | destruct v; repeat follow; here].
Ltac one g :=
  eapply (hides_one _ _ g); [intros; apply withheld_error; discriminate | intros; eexists; reflexivity | blank].
Ltac many g :=
  eapply (hides_list _ _ g);
  [ intros; apply withheld_error; discriminate
  | intros ???; intros [? ->]%mapped_inv; eexists; reflexivity
  | blank ].

Lemma reads_hide project name : Forall (λ hp, Forall (hides hp.1) hp.2) (credential_reads project name).
Proof.
  unfold credential_reads. repeat (apply Forall_cons; split); repeat apply Forall_nil_2; cbn [fst snd].
  1-6: one redactCluster.
  - many (λ t, { t with JoinToken_HashHex := "" }).
  - many redactToken.
  - many redactToken.
  - one redactAccessKey.
  - many redactAccessKey.
  - one redactSecret.
  - one redactSecret.
  - many redactSecret.
  - many redactSecret.
  - one hide_webhook_secret.
  - many redactEventRule.
Qed.

(** C23 No reading endpoint discloses a credential: whatever the store holds
    and whoever asks, the answers that show the cluster, its join tokens, API
    tokens, access keys, secrets and event rules, one by one or as lists, have
    no bootstrap or Garage token, digest, secret key, nonce, ciphertext or
    webhook secret in any of their resources.  (What a write answers is not
    covered: it may show a credential, once or, for the configuration, each
    time.) *)
Theorem reads_withhold_credentials (project name : string) (s s' : HS) (resp : Response)
    (h : M HS Response) (hidden : list (list string)) (p : list string)
    (Hh : (h, hidden) ∈ credential_reads project name)
    (Hp : p ∈ hidden) (Hrun : h s = Ret resp s') :
  withheld resp p.
Proof.
  pose proof (reads_hide project name) as HF. rewrite Forall_forall in HF.
  specialize (HF _ Hh). cbn in HF. rewrite Forall_forall in HF. by eapply HF.
Qed.
End Reads.

(** ** What a call leaves of a bucket *)

Section Frame.
Context `{Crypto} `{Random} `{BL : BoltLaws}.
Implicit Types w : World.

(** Whatever the call returns, the bucket keeps its contents. *)
Definition keeps {A} (b : string) (m : M World A) : Prop :=
  ∀ w a w', m w = Ret a w' → bucket_map w' b = bucket_map w b.

Lemma keeps_pure {A} b (m : M World A) :
  (∀ w a w', m w = Ret a w' → db w' = db w) → keeps b m.
Proof. intros Hm w a w' E. unfold bucket_map. by rewrite (Hm _ _ _ E). Qed.
Lemma keeps_ret {A} b (a : A) : keeps b (mret a).
Proof. apply keeps_pure. by intros w a' w' [= _ <-]. Qed.
Lemma keeps_bind {A B} b (m : M World A) (f : A → M World B) :
  keeps b m → (∀ a, keeps b (f a)) → keeps b (m ≫= f).
Proof.
  intros Hm Hf w x w' E. unfold mbind, M_bind in E. destruct (m w) as [a w1|] eqn:Em; [|done].
  rewrite (Hf _ _ _ _ E). by apply Hm in Em.
Qed.
Lemma keeps_try {A B} b (m : M World (res A)) (f : A → M World (res B)) :
  keeps b m → (∀ a, keeps b (f a)) → keeps b (try_bind m f).
Proof. intros Hm Hf. apply keeps_bind; [done|]. intros [a|e]; [apply Hf|apply keeps_ret]. Qed.
Lemma keeps_now b : keeps b now.
Proof. apply keeps_pure. by intros w a w' [= _ <-]. Qed.
Lemma keeps_newUID b : keeps b newUID.
Proof. apply keeps_pure. by intros w a w' [= _ <-]. Qed.
Lemma keeps_emit b ev : keeps b (emit ev).
Proof. apply keeps_pure. by intros w a w' [= _ <-]. Qed.
Lemma keeps_rand b n : keeps b (rand_bytes n).
Proof. apply keeps_pure. unfold rand_bytes. intros w a w'. destruct (rand_read _ _); by intros [= _ <-]. Qed.
Lemma keeps_get {A} `{Json A} b b' k : keeps b (get (A:=A) b' k).
Proof.
  apply keeps_pure. unfold get. intros w a w'. destruct (bolt_has _ _); [|done].
  destruct (bolt_get _ _ _); by intros [= _ <-].
Qed.
Lemma keeps_list b b' p : keeps b (list_bucket b' p).
Proof. apply keeps_pure. unfold list_bucket. intros w a w'. destruct (bolt_has _ _); by intros [= _ <-]. Qed.
Lemma keeps_put {A} `{Json A} b b' k (v : A) : b ≠ b' → keeps b (put b' k v).
Proof.
  intros Hne w a w'. unfold put, put_raw. destruct (bolt_has (db w) b') eqn:Hh; [|done].
  rewrite bolt_has_spec in Hh. apply bool_decide_eq_true_1 in Hh as [m Hm]. destruct (key_ok k) eqn:Hk.
  - destruct (bolt_put_ok _ _ _ (enc v) _ Hm Hk) as (d & -> & Hd). intros [= _ <-].
    unfold bucket_map. cbn. rewrite Hd. by rewrite lookup_insert_ne.
  - rewrite bolt_put_err by eauto. by intros [= _ <-].
Qed.
End Frame.

Create HintDb frame.
#[export] Hint Resolve keeps_ret keeps_now keeps_newUID keeps_emit keeps_rand keeps_get keeps_list : frame.
#[export] Hint Extern 1 (keeps _ (put _ _ _)) => apply keeps_put; discriminate : frame.
#[export] Hint Extern 1 (keeps _ (_ ≫= _)) => apply keeps_bind; [|intros ?] : frame.
#[export] Hint Extern 1 (keeps _ (try_bind _ _)) => apply keeps_try; [|intros ?] : frame.
#[export] Hint Extern 2 (keeps _ (if ?b then _ else _)) => destruct b : frame.
#[export] Hint Extern 2 (keeps _ (match ?x with _ => _ end)) => destruct x : frame.

Section Creations.
Context `{Crypto} `{Random} `{BL : BoltLaws}.

Lemma keeps_mintMeta b m : keeps b (mintMeta m).
Proof. unfold mintMeta. auto 10 with frame. Qed.
Lemma keeps_putScoped {A} `{projectScoped A, Json A, Resource A} b b' kind (v : A) :
  b ≠ b' → keeps b (putScoped b' kind v).
Proof.
  intros Hne. unfold putScoped. case_bool_decide; [auto with frame|].
  apply keeps_bind; [apply keeps_mintMeta|intros m]. apply keeps_bind; [by apply keeps_put|].
  intros [e|]; auto with frame.
Qed.
Lemma keeps_CreateUser name email password admin : keeps "cluster" (CreateUser name email password admin).
Proof.
  unfold CreateUser, HashPassword, PutUser. apply keeps_try; [auto with frame|intros hash].
  apply keeps_bind; [by apply keeps_putScoped|auto with frame].
Qed.
Lemma keeps_CreateToken name userID ttl admin : keeps "cluster" (CreateToken name userID ttl admin).
Proof.
  unfold CreateToken, GenerateToken, PutToken. apply keeps_try; [auto with frame|intros plain].
  apply keeps_bind; [auto with frame|intros expires]. apply keeps_bind; [|auto with frame].
  apply keeps_bind; [by apply keeps_putScoped|auto with frame].
Qed.
Lemma keeps_ensureDefaultProject : keeps "cluster" ensureDefaultProject.
Proof.
  unfold ensureDefaultProject, GetProject, PutProject. apply keeps_bind; [auto with frame|].
  intros [p|e]; [auto with frame|]. apply keeps_bind; [|auto with frame]. case_bool_decide; [auto with frame|].
  apply keeps_bind; [apply keeps_mintMeta|auto with frame].
Qed.
End Creations.

(** ** Set-up *)

Section Setup.
Context `{Crypto} `{Random} `{BL : BoltLaws} {T1 T2 R G : Type}.
Abbreviation HS := (HSys T1 T2 R G).
Implicit Types (w : World) (cfg : ClusterConfig).

(** The configuration is readable and holds this value. *)
Definition configured w cfg : Prop :=
  is_Some (bucket_map w "cluster") ∧ config_of w = Ok cfg ∧ json_ok cfg.

Lemma configured_kept {A} (m : M World A) w cfg a w' :
  keeps "cluster" m → configured w cfg → m w = Ret a w' → configured w' cfg.
Proof.
  intros Hm (Hb & Hc & Hok) E. apply Hm in E. split; [by rewrite E|]. split; [|done].
  rewrite <-Hc. unfold config_of, stored. by rewrite E.
Qed.

Lemma put_cluster_configured w cfg c :
  configured w cfg → json_ok c →
  ∃ w' c', PutCluster c w = Ret (c', None) w' ∧ configured w' c' ∧
    ClusterConfig_BootstrapToken c' = ClusterConfig_BootstrapToken c ∧
    ClusterConfig_Initialized c' = ClusterConfig_Initialized c.
Proof.
  intros (Hb & _ & _) Hok. destruct (PutCluster_run w c Hb Hok) as (w' & Hput & Hc & _ & Hb' & _).
  do 2 eexists. split; [exact Hput|]. split; [split; [done|split; [exact Hc|by apply stamped_ok]]|].
  by destruct c.
Qed.

Lemma initial_config_ok multi cfg : json_ok cfg → json_ok (initial_config multi cfg).
Proof. unfold json_ok, initial_config. destruct cfg; cbn -[utf8]. by destruct (_ =? 0); cbn -[utf8]; rewrite !andb_true_iff; intuition. Qed.
Lemma initial_config_bootstrap multi cfg :
  ClusterConfig_BootstrapToken (initial_config multi cfg) = ClusterConfig_BootstrapToken cfg.
Proof. unfold initial_config. destruct cfg; cbn. by destruct (_ =? 0). Qed.

(** The last two steps of set-up always succeed with a token that matches. *)
Lemma finish_setup w cfg multi p :
  configured w cfg → bootstrapMatches cfg p = true →
  ∃ w1 c1 w2 c2, PutCluster (initial_config multi cfg) w = Ret (c1, None) w1 ∧
    ConsumeBootstrapToken p w1 = Ret None w2 ∧ configured w2 c2 ∧
    ClusterConfig_Initialized c2 = true ∧ ClusterConfig_BootstrapToken c2 = "".
Proof.
  intros Hc Hm. pose proof Hc as (_ & _ & Hok).
  destruct (put_cluster_configured w cfg _ Hc (initial_config_ok multi cfg Hok)) as (w1 & c1 & Hput & Hc1 & Hb & _).
  assert (Hm1 : bootstrapMatches c1 p = true).
  { revert Hm. unfold bootstrapMatches. by rewrite Hb, initial_config_bootstrap. }
  pose proof Hc1 as (Hs1 & Hg1 & Hok1).
  destruct (put_cluster_configured w1 c1 { c1 with ClusterConfig_BootstrapToken := "";
    ClusterConfig_Initialized := true } Hc1 (consumed_ok _ Hok1)) as (w2 & c2 & Hput2 & Hc2 & Hb2 & Hi2).
  exists w1, c1, w2, c2. split_and!; [done| |done|by rewrite Hi2; destruct c1|by rewrite Hb2; destruct c1].
  unfold ConsumeBootstrapToken. rewrite (bind_ret_run _ _ _ _ _ (GetCluster_run w1 Hs1)), Hg1, Hm1.
  by rewrite (bind_ret_run _ _ _ _ _ Hput2).
Qed.

Lemma initialize_spec body w cfg x w' :
  configured w cfg → bootstrapMatches cfg (initializeReq_BootstrapToken body) = true →
  initialize body w = Ret x w' →
  match x with
  | Ok _ => ∃ c, configured w' c ∧ ClusterConfig_Initialized c = true ∧ ClusterConfig_BootstrapToken c = ""
  | Err _ => configured w' cfg
  end.
Proof.
  intros Hc Hm. unfold initialize, try_bind at 1, mbind at 1, M_bind at 1.
  destruct (CreateUser _ _ _ _ w) as [r w1|] eqn:E1; [|done].
  pose proof (configured_kept _ _ _ _ _ (keeps_CreateUser _ _ _ _) Hc E1) as Hc1.
  destruct r as [u|e]; [|by intros [= <- <-]].
  unfold try_bind at 1, mbind at 1, M_bind at 1.
  destruct (CreateToken _ _ _ _ w1) as [r w2|] eqn:E2; [|done].
  pose proof (configured_kept _ _ _ _ _ (keeps_CreateToken _ _ _ _) Hc1 E2) as Hc2.
  destruct r as [tok|e]; [|by intros [= <- <-]].
  unfold try_bind at 1, mbind at 1, M_bind at 1.
  destruct (ensureDefaultProject w2) as [r w3|] eqn:E3; [|done].
  pose proof (configured_kept _ _ _ _ _ keeps_ensureDefaultProject Hc2 E3) as Hc3.
  destruct r as [[]|e]; [|by intros [= <- <-]].
  pose proof Hc3 as (Hs3 & Hg3 & _).
  unfold try_bind at 1. rewrite (bind_ret_run _ _ _ _ _ (GetCluster_run w3 Hs3)), Hg3.
  destruct (finish_setup w3 cfg (initializeReq_MultiNode body) _ Hc3 Hm) as (w4 & c4 & w5 & c5 & Hput & Hcons & Hc5 & Hi & Hb).
  unfold try_bind at 1, put_res. rewrite (bind_ret_run _ _ _ (Ok c4) w4) by by rewrite (bind_ret_run _ _ _ _ _ Hput).
  unfold try_bind at 1, only_err. rewrite (bind_ret_run _ _ _ (Ok ()) w5) by by rewrite (bind_ret_run _ _ _ _ _ Hcons).
  intros [= <- <-]. eauto.
Qed.

End Setup.

(** ** Joining the cluster *)

Section Joining.
Context `{Crypto} `{Random, RL : !RandomLaws} `{BL : BoltLaws} {T1 T2 R G : Type}.
Context (version : string).
Abbreviation HS := (HSys T1 T2 R G).
Implicit Types (w : World) (cfg : ClusterConfig) (tn : gmap (string * string) Node).
#[local] Abbreviation join := (handleClusterJoin (T1:=T1) (T2:=T2) (R:=R) (G:=G) version).

Lemma keeps_Consume b p by_ : b ≠ "cluster" → keeps b (Join.Consume p by_).
Proof.
  intros Hne.
  assert (Hput : ∀ c, keeps b (PutCluster c)).
  { intros c. unfold PutCluster. apply keeps_bind; [auto with frame|intros t]. apply keeps_bind; [by apply keeps_put|].
    auto with frame. }
  unfold Join.Consume, GetCluster. apply keeps_bind.
  - apply keeps_bind; auto with frame.
  - intros [cfg|e]; [|auto with frame]. destruct (list_find _ _) as [[i t]|]; [|auto with frame].
    case_bool_decide; [auto with frame|]. apply keeps_bind; [auto with frame|intros t0].
    destruct (After _ _); [auto with frame|]. apply keeps_bind; [apply Hput|auto with frame].
Qed.

Lemma joining_node_ok body e updated seen :
  json_ok body → json_okb version = true → json_okb (uids e (draws e)) = true →
  json_ok (final e (joining_node version body updated seen)).
Proof.
  intros Hb Hv Hu. unfold json_ok in *. destruct body as [tok id adv raft api roles cap].
  cbn -[utf8 forallb] in Hb |- *. rewrite !andb_true_iff in Hb. destruct Hb as (_ & Hid & Hadv & Hraft & Hapi & Hroles & Hcap & _).
  unfold RecordSetters.constant. change (is_fresh _) with true. cbn -[utf8 forallb int64_ok wrap64] in *.
  match goal with |- context [defaultProject "default" ?m] => change (defaultProject "default" m) with m end.
  cbn -[utf8 forallb int64_ok wrap64].
  rewrite Hid, Hadv, Hraft, Hapi, Hcap, Hv, Hu. unfold joinRoles. cbn -[utf8 forallb int64_ok].
  destruct roles; [done|]. cbn [forallb] in *. rewrite !andb_true_iff in *. destruct Hroles. by split_and!.
Qed.

Lemma now_run w :
  now w = Ret (clock (env w) (ticks (env w)))
              (set_env (mkEnv (clock (env w)) (S (ticks (env w))) (uids (env w)) (draws (env w))) w).
Proof. done. Qed.

(** Registering the node: what it stores and what the caller is told. *)
Lemma enroll_run w cfg tn body :
  configured w cfg → Represents w "nodes" tn →
  joinReq_NodeID body ≠ "" → key_ok (keyFor "system" (joinReq_NodeID body)) = true →
  json_ok body → json_okb version = true → json_okb (uids (env w) (draws (env w))) = true →
  ∃ w' nd cfg' peers, enroll version body w = Ret (Ok (cfg', peers)) w' ∧
    Represents w' "nodes" (<[("system", joinReq_NodeID body) := nd]> tn) ∧
    Node_RaftAddress nd = joinReq_RaftAddr body ∧ Node_Roles nd = joinRoles body ∧
    nd ∈ peers ∧ configured w' cfg' ∧ ClusterConfig_MultiNode cfg' = true ∧
    ClusterConfig_JoinTokens cfg' = ClusterConfig_JoinTokens cfg ∧
    ClusterConfig_GarageRPCSecret cfg' = ClusterConfig_GarageRPCSecret cfg ∧
    ClusterConfig_GarageAdminToken cfg' = ClusterConfig_GarageAdminToken cfg ∧
    ClusterConfig_ReplicationFactor cfg' = ClusterConfig_ReplicationFactor cfg.
Proof.
  intros Hc HR Hid Hkey Hok Hv Hu. pose proof Hc as (Hs & Hg & Hcok).
  set (w0 := set_env (mkEnv (clock (env w)) (S (S (ticks (env w)))) (uids (env w)) (draws (env w))) w).
  set (node := joining_node version body (clock (env w) (ticks (env w))) (clock (env w) (S (ticks (env w))))).
  destruct (table_put w0 "nodes" KindNode tn node) as (d & Hput & HR1 & Hkeep); [done|done| | |done|].
  { done. }
  { by apply joining_node_ok. }
  cbn zeta in *. set (nd := final (env w0) node) in *. set (w1 := after_put _ _ _ _) in *.
  assert (Hc1 : configured w1 cfg).
  { assert (E : bucket_map w1 "cluster" = bucket_map w "cluster") by by rewrite Hkeep.
    split; [by rewrite E|]. split; [|done]. rewrite <-Hg. unfold config_of, stored. by rewrite E. }
  pose proof Hc1 as (Hs1 & Hg1 & _).
  destruct (PutCluster_run w1 { cfg with ClusterConfig_MultiNode := true } Hs1) as (w2 & Hput2 & Hcfg2 & Hkeep2 & Hs2 & _).
  { revert Hcok. unfold json_ok. destruct cfg. cbn -[utf8]. rewrite !andb_true_iff. tauto. }
  cbn zeta in Hcfg2, Hput2. set (c2 := stamped _ _) in *.
  assert (HR2 : Represents w2 "nodes" (<[("system", joinReq_NodeID body) := nd]> tn)).
  { eapply represents_ext; [symmetry; by apply Hkeep2|exact HR1]. }
  destruct (table_list w2 "nodes" _ "" HR2 (or_introl eq_refl)) as (peers & Hlist & Hperm & _).
  exists w2, nd, c2, peers. split.
  { unfold enroll. rewrite (bind_ret_run _ _ _ _ _ (now_run w)), (bind_ret_run _ _ _ _ _ (now_run _)).
    match goal with |- try_bind _ _ ?x = _ => change x with w0 end. fold node.
    unfold try_bind at 1, put_res, PutNode. change (systemScoped node) with node.
    rewrite (bind_ret_run _ _ w0 (Ok nd) w1) by by rewrite (bind_ret_run _ _ _ _ _ Hput).
    rewrite (bind_ret_run _ _ _ _ _ (GetCluster_run w1 Hs1)), Hg1.
    unfold try_bind. rewrite (bind_ret_run _ _ w1 (Ok c2) w2) by by rewrite (bind_ret_run _ _ _ _ _ Hput2).
    unfold ListNodes. by rewrite (bind_ret_run _ _ _ _ _ Hlist). }
  split; [exact HR2|]. split; [done|]. split; [done|]. split.
  { rewrite Hperm, entries_all. apply list_elem_of_fmap. exists (("system", joinReq_NodeID body), nd).
    split; [done|]. apply elem_of_map_to_list, lookup_insert_eq. }
  split; [split; [done|split; [done|]]|]; [|by destruct cfg].
  apply stamped_ok. revert Hcok. unfold json_ok. destruct cfg. cbn -[utf8]. rewrite !andb_true_iff. tauto.
Qed.

Lemma Consume_fails_401 p by_ e (s : HS) (k : () → M HS Response) :
  Join.Consume p by_ (hworld s) = Ret (Some e) (hworld s) →
  fail_with (status_err 401) (only_err (Join.Consume p by_)) k s = Ret (status_err 401 e) s.
Proof.
  intros E. rewrite (fail_with_err _ _ _ s e (hworld s)); [by rewrite with_same_hworld|].
  unfold only_err. by rewrite (bind_ret_run _ _ _ _ _ E).
Qed.

(** A used token is refused from anyone, without a trace. *)
Lemma join_refused_when_used add r body (s : HS) cfg pre t post :
  configured (hworld s) cfg → decodeJSON r = Ok body →
  ClusterConfig_JoinTokens cfg = pre ++ t :: post →
  Forall (λ t, JoinToken_HashHex t ≠ Join.hashHex (joinReq_Token body)) pre →
  JoinToken_HashHex t = Join.hashHex (joinReq_Token body) → JoinToken_ConsumedBy t ≠ "" →
  ∃ resp, join add r s = Ret resp s ∧ (resp_Status resp = 400 ∨ resp_Status resp = 401).
Proof.
  intros (Hs & Hg & _) Hbody Htoks Hpre Ht Hused. unfold handleClusterJoin, with_body. rewrite Hbody.
  destruct (bool_decide _ || _); [eauto|]. rewrite (Consume_fails_401 _ _ Join.ErrTokenUsed); [eauto|].
  by eapply Consume_used.
Qed.

(** What a joining node with an unused token is told, and what it leaves. *)
Definition joined (addVoter : option (string → string → option error)) (body : joinReq) cfg tn
    (resp : Response) (s' : HS) : Prop :=
  match match addVoter with Some add => add (joinReq_NodeID body) (joinReq_RaftAddr body) | None => None end with
  | Some e => resp = httpError 500 ("raft add voter: " +:+ error_text e) ∧ Represents (hworld s') "nodes" tn
  | None =>
    ∃ nd peers,
      resp = writeJSON 200 (enc (mkJoinResp (joinReq_NodeID body) true (ClusterConfig_ReplicationFactor cfg) peers
               (ClusterConfig_GarageRPCSecret cfg) (ClusterConfig_GarageAdminToken cfg) version)) ∧
      Represents (hworld s') "nodes" (<[("system", joinReq_NodeID body) := nd]> tn) ∧
      Node_RaftAddress nd = joinReq_RaftAddr body ∧ Node_Roles nd = joinRoles body ∧ nd ∈ peers
  end.

(** C21 The join handshake.  A node that presents an unused join token in time
    becomes a voter, is recorded under its id with the address and roles it
    gave, turns the cluster multi-node, and is told the peers and the two
    Garage credentials and no other secret of the configuration.  An expired
    token is refused and changes nothing but the clock.  In time, the token is
    spent even when the raft configuration change fails: the same node cannot
    retry with it, since every later request that carries it is refused. *)
Theorem join_handshake_spends_the_token (addVoter : option (string → string → option error))
    (s : HS) (cfg : ClusterConfig) (tn : gmap (string * string) Node) (r : HttpRequest) (body : joinReq)
    (pre post : list JoinToken) (t : JoinToken)
    (Hcfg : configured (hworld s) cfg) (Hnodes : Represents (hworld s) "nodes" tn)
    (Hbody : decodeJSON r = Ok body)
    (Hfields : joinReq_NodeID body ≠ "" ∧ joinReq_RaftAddr body ≠ "" ∧
               key_ok (keyFor "system" (joinReq_NodeID body)) = true)
    (Htext : json_ok body ∧ json_okb version = true ∧ ∀ n, json_okb (uids (env (hworld s)) n) = true)
    (Htoks : ClusterConfig_JoinTokens cfg = pre ++ t :: post)
    (Hpre : Forall (λ t, JoinToken_HashHex t ≠ Join.hashHex (joinReq_Token body)) pre)
    (Ht : JoinToken_HashHex t = Join.hashHex (joinReq_Token body)) (Hfree : JoinToken_ConsumedBy t = "") :
  ∃ resp s', join addVoter r s = Ret resp s' ∧
    if After (clock (env (hworld s)) (ticks (env (hworld s)))) (JoinToken_ExpiresAt t) then
      resp = status_err 401 Join.ErrTokenExpired ∧ configured (hworld s') cfg ∧ Represents (hworld s') "nodes" tn
    else
      joined addVoter body cfg tn resp s' ∧
      ∀ add r' body', decodeJSON r' = Ok body' → joinReq_Token body' = joinReq_Token body →
        ∃ resp', join add r' s' = Ret resp' s' ∧ (resp_Status resp' = 400 ∨ resp_Status resp' = 401).
Proof.
  destruct Hfields as (Hid & Hraft & Hkey), Htext as (Hok & Hv & Hu). pose proof Hcfg as (Hs & Hg & Hcok).
  assert (Hidok : json_okb (joinReq_NodeID body) = true).
  { revert Hok. unfold json_ok. destruct body. cbn -[utf8]. rewrite !andb_true_iff. tauto. }
  unfold handleClusterJoin, with_body. rewrite Hbody, !bool_decide_eq_false_2 by done. cbn [orb].
  pose proof (Consume_run _ _ _ _ _ (joinReq_Token body) (joinReq_NodeID body) Hs Hg Hcok Hidok Htoks Hpre Ht Hfree) as Hcons.
  cbn zeta in Hcons. destruct (After _ _).
  - destruct Hcons as (w1 & Hrun & Hc1 & Hdb). exists (status_err 401 Join.ErrTokenExpired), (with_hworld w1 s).
    assert (Hbk : ∀ b, bucket_map w1 b = bucket_map (hworld s) b) by (intros b; unfold bucket_map; by rewrite Hdb).
    split; [erewrite fail_with_err; [reflexivity|]; unfold only_err; by rewrite (bind_ret_run _ _ _ _ _ Hrun)|].
    rewrite hworld_with. split; [done|]. split; [split; [by rewrite Hbk|done]|]. eapply represents_ext; [symmetry; apply Hbk|done].
  - destruct Hcons as (w1 & c1 & Hrun & Hc1 & Htk & Hok1 & Hs1 & Hrpc & Hadm & Hrf & Hids).
    assert (Hn1 : Represents w1 "nodes" tn).
    { eapply represents_ext; [symmetry; by eapply (keeps_Consume "nodes")|exact Hnodes]. }
    assert (Hcf1 : configured w1 c1) by by split.
    assert (Hspent : ∀ (s1 : HS) c add r' body', configured (hworld s1) c →
      ClusterConfig_JoinTokens c = ClusterConfig_JoinTokens c1 →
      decodeJSON r' = Ok body' → joinReq_Token body' = joinReq_Token body →
      ∃ resp', join add r' s1 = Ret resp' s1 ∧ (resp_Status resp' = 400 ∨ resp_Status resp' = 401)).
    { intros s1 c add r' body' Hc Hj Hb' Hsame. eapply join_refused_when_used; [done|done|by rewrite Hj|..];
        rewrite ?Hsame; by destruct t. }
    erewrite fail_with_ok by (unfold only_err; by rewrite (bind_ret_run _ _ _ _ _ Hrun)). unfold joined.
    destruct (match addVoter with Some add => _ | None => None end) as [e|].
    + do 2 eexists. split; [reflexivity|]. split; [by split|]. intros add r' body'. by apply (Hspent _ c1).
    + destruct (enroll_run w1 c1 tn body Hcf1 Hn1 Hid Hkey Hok Hv ltac:(by rewrite Hids))
        as (w2 & nd & c2 & peers & Hen & Hn2 & Hra & Hro & Hin & Hcf2 & Hmn & Hj2 & Hrpc2 & Hadm2 & Hrf2).
      erewrite fail_with_ok by exact Hen. cbn [fst snd]. rewrite Hmn, Hrf2, Hrf, Hrpc2, Hrpc, Hadm2, Hadm.
      do 2 eexists. split; [reflexivity|]. split; [by exists nd, peers|]. intros add r' body'. by apply (Hspent _ c2).
Qed.
End Joining.

(** ** Witnesses *)

Import DemoRandom.
#[local] Existing Instance demo_crypto.

(** A node over a store, with no runtime, bus traffic or Garage. *)
Definition bare_node (w : World (H:=MemBolt)) : HSys (H:=MemBolt) () () () () :=
  mkHSys (mkSrv (mkSys _ w NewBus [] [] []) None None None (newInvocationRing 100)) () ().
Definition json_request {A} `{Json A} (path : string) (body : A) : HttpRequest :=
  mkHttpRequest "POST" path path ∅ ∅ "" (Some (enc body)).

Definition cluster_view : Response := default noContent (eval handleGetCluster (bare_node bootstrapped)).
Definition cluster_view_node : HSys (H:=MemBolt) () () () () :=
  default (bare_node bootstrapped) (exec handleGetCluster (bare_node bootstrapped)).

Lemma reads_withhold_credentials_witness :
  resp_Status cluster_view = 200 ∧ withheld cluster_view ["bootstrapToken"].
Proof.
  split; [vm_compute; reflexivity|].
  refine (reads_withhold_credentials "shop" "db" (bare_node bootstrapped) cluster_view_node cluster_view
            handleGetCluster _ ["bootstrapToken"] (list_elem_of_here _ _) (list_elem_of_here _ _) _).
  refine (run_eval handleGetCluster (bare_node bootstrapped) cluster_view _). vm_compute. reflexivity.
Defined.

Definition claim_request : HttpRequest :=
  json_request "/api/v1/setup/initialize" (mkInitializeReq demo_bootstrap "ada@example.org" "ada" "lovelace" false).
Definition claimed : Response :=
  default noContent (eval (handleInitialize claim_request) (bare_node bootstrapped)).
Definition claimed_node : HSys (H:=MemBolt) () () () () :=
  default (bare_node bootstrapped) (exec (handleInitialize claim_request) (bare_node bootstrapped)).
Definition config_at (w : World (H:=MemBolt)) : ClusterConfig :=
  match config_of w with Ok c => c | Err _ => defaultCluster end.


(** A cluster that has issued one join token. *)
Definition issued_world : World (H:=MemBolt) := default demo_world (exec (Join.Issue "ada" Hour) demo_world).
Definition join_body : joinReq :=
  mkJoinReq ("scjoin_" +:+ hex_encode demo_raw) "n2" "10.0.0.2" "10.0.0.2:7000" "10.0.0.2:8443" [] 100.
Definition join_request : HttpRequest := json_request "/api/v1/cluster/join" join_body.
Definition issued_token : JoinToken :=
  default (mkJoinToken "" "" "" zero_time zero_time "") (head (ClusterConfig_JoinTokens (config_at issued_world))).

Lemma join_handshake_spends_the_token_witness :
  ∃ resp s', handleClusterJoin (T1:=()) (T2:=()) (R:=()) (G:=()) "dev" None join_request (bare_node issued_world) = Ret resp s' ∧
    joined "dev" None join_body (config_at issued_world) ∅ resp s'.
Proof.
  destruct (join_handshake_spends_the_token (T1:=()) (T2:=()) (R:=()) (G:=()) "dev" None (bare_node issued_world)
              (config_at issued_world) ∅ join_request join_body [] [] issued_token) as (resp & s' & Hrun & Hj).
  - split; [exists (default ∅ (bucket_map issued_world "cluster")); vm_compute; reflexivity|].
    split; vm_compute; reflexivity.
  - apply represents_empty. vm_compute. reflexivity.
  - vm_compute. reflexivity.
  - split_and!; [done|done|vm_compute; reflexivity].
  - split_and!; [vm_compute; reflexivity|vm_compute; reflexivity|].
    intros n. change (json_okb (nth n ["u0"; "u1"; "u2"; "u3"] "u9") = true).
    do 4 (destruct n as [|n]; [vm_compute; reflexivity|]). destruct n; vm_compute; reflexivity.
  - vm_compute. reflexivity.
  - constructor.
  - vm_compute. reflexivity.
  - vm_compute. reflexivity.
  - exists resp, s'. split; [exact Hrun|]. revert Hj. set (late := After _ _).
    assert (late = false) as -> by (vm_compute; reflexivity). by intros [Hj _].
Defined.
