(* ===== verification/RuntimeApi.v ===== *)
(** The endpoints that show the runtimes (internal/api/runtime.go): the
    templates of the Firecracker runtime; with the reading of a container's
    logs (handlers.go) composed with the containerd runtime, and the events
    of the S3 proxy. *)

From S2P Require Import Firecracker Containerd Runtimes Fs FsLaws RuntimesProps Prelude GoTime Json Types Bolt Store StoreOps StoreLaws Table StoreProps Text Random Secrets Auth Bus Wasm Http Garage Handlers ClusterApi HandlersProps.

#[local] Arguments String.append : simpl nomatch.

Import Firecracker(Template, mkTemplate, Template_Name, Template_Description, Template_KernelPath, Template_RootFSPath,
                   Template_BootArgs, Template_Bootstrap, Template_Available, FcStub, J, Templates).

#[export] Instance template_json : Json Template := struct_json mkTemplate (
  fld "name" Template_Name;
  fld "description" Template_Description;
  fld "kernelPath" Template_KernelPath;
  fld "rootfsPath" Template_RootFSPath;
  fld "bootArgs" Template_BootArgs;
  ofld "bootstrap" Template_Bootstrap;
  fld "available" Template_Available;
  Fnil).

(** [TemplateLister]: which runtimes list templates.  A nil slice, which the
    stub gives, marshals as [null]. *)
Class TemplateLister (T : Type) := lister : option (T → option (list Template)).
Definition stub_Templates (s : FcStub) : option (list Template) := None.
#[export] Instance fc_stub_templates : TemplateLister FcStub := Some stub_Templates.
#[export] Instance jailer_templates {V} : TemplateLister (J V) := Some (λ s, Some (Templates s)).

Definition name_le (a b : Template) : Prop := str_le (Template_Name a) (Template_Name b).
#[export] Instance name_le_dec : RelDecision name_le := λ a b, str_le_dec (Template_Name a) (Template_Name b).
#[export] Instance name_le_total : Total name_le.
Proof. intros a b. apply str_le_total. Qed.
#[export] Instance name_le_trans : Transitive name_le.
Proof. intros a b c. apply str_le_trans. Qed.

Section RuntimeApi.
Context `{Bolt} {T1 T2 R G : Type} `{TemplateLister T2}.
Abbreviation S := (HSys T1 T2 R G).

Definition handleListFirecrackerTemplates : M S Response := λ s,
  Ret (writeJSON 200
         match srv_fcracker (h_srv s) with
         | None => enc ([] : list Template)
         | Some fc =>
           match lister with
           | None => enc ([] : list Template)
           | Some templates => match templates fc with
                               | Some l => enc (merge_sort name_le l)
                               | None => JNull
                               end
           end
         end) s.

(** Every template of the runtime is shown, by name. *)
Lemma templates_are_listed s fc templates l :
  srv_fcracker (h_srv s) = Some fc → lister = Some templates → templates fc = Some l →
  ∃ l', handleListFirecrackerTemplates s = Ret (writeJSON 200 (enc l')) s ∧ l' ≡ₚ l ∧ StronglySorted name_le l'.
Proof.
  intros E1 E2 E3. exists (merge_sort name_le l). unfold handleListFirecrackerTemplates. rewrite E1, E2, E3.
  split_and!; [done|apply merge_sort_Permutation|by apply (StronglySorted_merge_sort name_le)].
Qed.
End RuntimeApi.

(** ** The logs of a container under containerd *)

Section Logs.
Context `{BL : BoltLaws} {T1 T2 R G : Type} `{Runtimes.CtrStream R} (rt : CtrRuntime).
Abbreviation HS := (HSys T1 T2 R G).
#[local] Instance ctr_logs : ContainerLogs R := Runtimes.ctr_Logs rt.

(** The logs of a container whose task is still running always end with an
    error line: the command that read them was killed. *)
Lemma live_container_logs_report_an_error project name (s : HS) c w (out : list (bool * string)) watch r :
  GetContainer project name (hworld s) = Ret (Ok c) w →
  Runtimes.ctr_stream (Runtimes.ctr_prefix rt ++ ["tasks"; "attach"; ctrTaskID c]) (Some 500) (h_rt s)
    = Ret (out, Runtimes.Ended (Runtimes.Signaled "killed") watch) r →
  ∃ s', handleContainerLogs project name s
    = Ret (mkResponse 200 {["Content-Type" := ["text/plain; charset=utf-8"]]}
             (BRaw (String.concat "" out.*2 +:+ eol +:+ "[error] signal: killed" +:+ eol))) s'.
Proof.
  intros Hc Hs. eexists. unfold handleContainerLogs, or_fail. rewrite (fail_with_ok _ _ _ _ _ _ Hc).
  unfold mbind, M_bind, rt_do. cbn [h_rt with_hworld]. unfold crt_Logs, ctr_logs.
  rewrite (live_logs_end_in_an_error rt c _ _ _ _ Hs). reflexivity.
Qed.
End Logs.

(** ** The S3 proxy *)

Section Proxy.
Context `{BL : BoltLaws} {T1 T2 R G : Type} `{ReverseProxy G}.
Abbreviation HS := (HSys T1 T2 R G).

(** What the client of the proxy is told. *)
Definition proxied (answer : res Response) : Response :=
  match answer with Ok resp => resp | Err _ => httpError 502 "garage unreachable" end.
(** Whether a request that was answered with [status] changed an object. *)
Definition object_write (r : HttpRequest) (status : Z) : bool :=
  let '(bucket, key) := splitS3Path (proxied_path (r_Path r)) in
  (200 <=? status) && (status <? 300) && negb (bool_decide (bucket = "")) && negb (bool_decide (key = ""))
  && negb (bool_decide (s3_type (r_Method r) = "")).
Definition with_garage (g : G) (s : HS) : HS := mkHSys (h_srv s) (h_rt s) g.

End Proxy.

(** A node with one project that owns the bucket "photos", before a Garage
    that accepts everything. *)
Definition photos_build : M (World (H:=MemBolt)) () :=
  PutProject { (zero (A:=Project)) with Project_Meta := { (zero (A:=Meta)) with Meta_Name := "shop" } } ;;
  PutBucket { (zero (A:=Bucket)) with Bucket_Meta := { { (zero (A:=Meta)) with Meta_Name := "photos" } with Meta_Project := "shop" } } ;;
  mret ().
Definition photos_world : World (H:=MemBolt) := default demo_world (exec photos_build demo_world).
Definition photos_node : HSys (H:=MemBolt) () () () () :=
  mkHSys (mkSrv (mkSys _ photos_world NewBus [] [] []) None None None (newInvocationRing 100)) () ().
#[local] Instance accepting_garage : ReverseProxy () := {
  url_Parse s := Ok (mkProxyTarget (trim_prefix s "http://") "");
  proxy_ServeHTTP target r := mret (Ok (mkResponse 200 ∅ (BRaw "")));
}.
Definition object_request (meth : string) : HttpRequest := mkHttpRequest meth "/s3/photos/a/b.jpg" "/s3/photos/a/b.jpg" ∅ ∅ "" None.
Definition garage_addr : string := "127.0.0.1:3900".
Definition garage_ok : Response := mkResponse 200 ∅ (BRaw "").
Definition photos_owner_world : World (H:=MemBolt) := default photos_world (exec (bucketProject "photos") photos_world).

