(* ===== verification/ServerProps.v ===== *)
(** The frame answers and logs every request, and what [Run] returns when. *)

From S2P Require Import Prelude Loops GoTime Json Types Bolt Store StoreOps Text Random Secrets Auth AuthProps Bus Replication Wasm Dispatcher Path Fs Http Routes Installer Server.
Import Routes Server.

(** ** Every request is answered *)

Section Answers.
Context `{Crypto} `{Bolt} {T1 T2 : Type}.
Abbreviation S := (Srv T1 T2).
Implicit Types l : L (T1:=T1) (T2:=T2).

Lemma now_runs s : ∃ t s', (on_store now : M S time) s = Ret t s'.
Proof. do 2 eexists. reflexivity. Qed.

(** What the log keeps of a request its handler has answered. *)
Lemma requestLogger_logs next w r l resp l' :
  requestLogger next w r l = Ret resp l' →
  ∃ d, l'.2 = l.2 ++ (if logged (r_Path r) then [HttpLine (r_Method r) (r_Path r) (resp_Status resp) d] else []).
Proof.
  unfold requestLogger. intros (t & l1 & E1 & (x & l2 & E2 & (? & l3 & E3 & [= <- <-])%bind_inv)%bind_inv)%bind_inv.
  assert (Hb : ∀ A (m : M S A) a (l0 l0' : L), below m l0 = Ret a l0' → l0'.2 = l0.2).
  { intros A m a l0 l0'. unfold below. destruct (m l0.1); [|done]. by intros [= _ <-]. }
  apply Hb in E1, E2. destruct (logged (r_Path r)).
  - apply bind_inv in E3 as (t' & l4 & E4 & [= _ <-]). apply Hb in E4. cbn. rewrite E4, E2, E1. eauto.
  - injection E3 as _ <-. rewrite app_nil_r, E2, E1. by exists 0.
Qed.

(** Every request is answered and leaves its trace: if its handler returns,
    the client gets the handler's response and the request log one line with
    its method, path and status, or none below /healthz and /assets; if the
    handler panics, the client gets a 500 and the log the one line of the
    panic, without a line of the request. *)
Theorem every_request_is_answered dispatch reply left raft w r l :
  ∃ resp l', ServeHTTP dispatch reply left raft w r l = Ret resp l' ∧
    match requestLogger (mux_handler dispatch reply raft) w r l with
    | Ret resp' _ => resp = resp' ∧ ∃ d,
        l'.2 = l.2 ++ (if logged (r_Path r) then [HttpLine (r_Method r) (r_Path r) (resp_Status resp) d] else [])
    | Panic => resp = httpError 500 "internal error" ∧ l'.2 = (left r l).2 ++ [PanicLine (r_Path r)]
    end.
Proof.
  unfold ServeHTTP, recoverer. destruct (requestLogger _ w r l) as [resp l'|] eqn:E.
  - exists resp, l'. split; [done|]. split; [done|]. by eapply requestLogger_logs.
  - eexists _, _. by split.
Qed.
End Answers.

(** An identity put in a context is the one found there. *)
Lemma IdentityFrom_withIdentity ctx id : IdentityFrom (withIdentity ctx id) = Some id.
Proof. apply lookup_insert_eq. Qed.

(** ** Run *)

Section Run.
Context (c : Installer.Config) (r0 : readiness).

Definition ready_api (r : readiness) : bool := match r !! "api" with Some st => rs_ready st | None => false end.
Definition api_ready (s : run_state) : bool := ready_api (ru_ready s).
Lemma marked_ready msg t r : ready_api (Mark "api" true msg t r) = true.
Proof.
  unfold ready_api, Mark, readiness in *. cbv zeta. by rewrite lookup_insert_eq.
Qed.

Record run_ok (s : run_state) : Prop := {
  run_ready : ru_listener s ≠ Spawned → api_ready s = true;
  run_err : is_Some (ru_errCh s) → ru_listener s = Finished;
  run_shut : ru_shut s = true → is_Some (ru_result s);
  run_result : ∀ e, ru_result s = Some e → ru_ctx_done s = true ∨ is_Some e ∧ ru_listener s = Finished;
}.

Lemma run_ok_start : run_ok (run_start r0).
Proof. constructor; cbn; try done. Qed.
Lemma run_ok_step s s' : run_ok s → run_step c s s' → run_ok s'.
Proof.
  intros [Hr He Hs Hres] Hstep.
  assert (Hold : ∀ x, ru_result s = Some x → ru_listener s ≠ Finished → ru_ctx_done s = true).
  { intros x Hx Hl. destruct (Hres x Hx) as [?|[_ ?]]; done. }
  destruct Hstep as [s t Hl|s Hl Hsh|s e Hl|s Hl Hsh|s|s e Hn Hd|s e Hn Hx]; constructor; cbn; try done; try by left.
  - intros _. apply marked_ready.
  - intros Hx. specialize (He Hx). congruence.
  - intros e Hx. left. eapply Hold; [done|congruence].
  - intros _. apply Hr. congruence.
  - intros Hx. specialize (He Hx). congruence.
  - intros e Hx. left. eapply Hold; [done|congruence].
  - intros _. apply Hr. destruct Hl; congruence.
  - intros e' Hx. left. eapply Hold; [done|destruct Hl; congruence].
  - intros _. apply Hr. destruct Hl; congruence.
  - intros e' Hx. left. eapply Hold; [done|destruct Hl; congruence].
  - intros e' [= <-]. right. split; [done|]. apply He. by rewrite Hx.
Qed.
Lemma run_reach_ok s : rtc (run_step c) (run_start r0) s → run_ok s.
Proof. apply rtc_keeps; [apply run_ok_step|apply run_ok_start]. Qed.

(** [Run] ends because its context is done or its listener failed, then with
    the listener's error; a server that accepts connections is marked
    ready. *)
Lemma run_ends_for_a_reason s e :
  rtc (run_step c) (run_start r0) s → ru_result s = Some e → ru_ctx_done s = true ∨ is_Some e ∧ ru_listener s = Finished.
Proof. intros H. apply run_reach_ok in H as []. auto. Qed.
Lemma serving_is_ready s : rtc (run_step c) (run_start r0) s → ru_listener s = Serving → api_ready s = true.
Proof. intros H ?. apply run_reach_ok in H as [Hr _ _ _]. apply Hr. congruence. Qed.

(** Describes a divergence: the mark is set before the address is bound, and
    stays when that fails. *)
Lemma ready_without_a_listener (t : time) (e : error) :
  ∃ s, rtc (run_step c) (run_start r0) s ∧ ru_result s = Some (Some e) ∧ api_ready s = true.
Proof.
  eexists. split.
  - eapply rtc_l; [by apply (StepAnnounce _ _ t)|]. eapply rtc_l; [by apply (StepFail _ _ e); left|].
    eapply rtc_l; [by apply (StepReturn _ _ e)|]. apply rtc_refl.
  - split; [done|]. apply marked_ready.
Qed.
End Run.
