(* ===== verification/StreamsProps.v ===== *)
(** What the streaming endpoints deliver: nothing over WebSockets as the
    server is assembled, and, over a connection, a prefix of the output. *)

From S2P Require Import Prelude Loops GoTime Json Types Bolt Store StoreOps StoreProps Text Random Secrets Auth AuthProps Bus Replication Wasm Dispatcher Glob Path Fs Builder Http Routes Invoke ApiProps Server Streams.
Import Routes Server Streams Builder.

#[local] Arguments String.append : simpl nomatch.

(** ** No connection is upgraded *)

Section Upgrade.
Context `{Crypto} `{Bolt} `{WSL : WebSocketLaws} {T1 T2 : Type}.
Abbreviation S := (Srv T1 T2).

(** A computation none of whose replies is an upgrade. *)
Definition no_upgrade (m : M S Response) : Prop := ∀ s resp s', m s = Ret resp s' → resp_Status resp ≠ 101.

Lemma no_upgrade_ret resp : resp_Status resp ≠ 101 → no_upgrade (mret resp).
Proof. by intros ? s ? ? [= <- <-]. Qed.
Lemma no_upgrade_bind {A} (m : M S A) k : (∀ a, no_upgrade (k a)) → no_upgrade (m ≫= k).
Proof. intros Hk s resp s'. unfold mbind, M_bind. destruct (m s) as [a s1|]; [|done]. apply Hk. Qed.
Lemma store_error_status e : resp_Status (mapStoreErr e) ≠ 101.
Proof. cbn. unfold storeErrStatus. by repeat case_match. Qed.

(** Handlers that reply with an error or ask for an upgrade. *)
Definition asks_upgrade {A} (m : M S (Response + A)) : Prop :=
  ∀ s x s', m s = Ret x s' → match x with inl resp => resp_Status resp ≠ 101 | inr _ => False end.
Lemma recorder_is_refused {A} (w : ResponseWriter) r (a : A) : asks_upgrade (upgraded (statusRecorder w) r a).
Proof.
  intros s x s' [= <- <-]. unfold upgradeWS.
  by destruct (accept_needs_hijacker (statusRecorder w) r (mkAcceptOptions true ["selfcloud.v1"]) eq_refl) as (resp & -> & Hr).
Qed.
Lemma store_reply_refused {A B} (m : M S (res A)) (k : A → M S (Response + B)) :
  (∀ a, asks_upgrade (k a)) → asks_upgrade (or_store_reply m k).
Proof.
  intros Hk s x s'. unfold or_store_reply, mbind, M_bind. destruct (m s) as [[a|e] s1|]; [by apply Hk| |done].
  intros [= <- <-]. apply store_error_status.
Qed.
Lemma asks_no_upgrade {A} (m : M S (Response + A)) : asks_upgrade m → no_upgrade (answered <$> m).
Proof.
  intros Hm s resp s'. unfold fmap, M_fmap. destruct (m s) as [x s1|] eqn:E; [|done]. intros [= <- <-].
  specialize (Hm _ _ _ E). by destruct x.
Qed.

Lemma streams_refused has_bus has_builder others w h vs id r :
  h ∈ stream_handlers → no_upgrade (with_streams has_bus has_builder others (statusRecorder w) h vs id r).
Proof.
  intros Hh. unfold with_streams, handleContainerLogsWS, handleContainerExecWS, handleEventsWS, handleBuildLogsWS.
  repeat case_bool_decide; try apply asks_no_upgrade.
  - apply store_reply_refused. intros a. apply recorder_is_refused.
  - apply store_reply_refused. intros a. apply recorder_is_refused.
  - destruct has_bus; cbn; [apply recorder_is_refused|]. by intros s x s' [= <- <-].
  - destruct has_builder; cbn; [|by intros s x s' [= <- <-]]. apply store_reply_refused. intros a. apply recorder_is_refused.
  - unfold stream_handlers in Hh. rewrite !elem_of_cons, elem_of_nil in Hh. tauto.
Qed.

Lemma requireAuth_no_upgrade next adminOnly r : (∀ id, no_upgrade (next id r)) → no_upgrade (requireAuth next adminOnly r).
Proof.
  intros Hn. unfold requireAuth. case_bool_decide; [by apply no_upgrade_ret|].
  apply no_upgrade_bind. intros [id|e]; [|by apply no_upgrade_ret]. case_match; [by apply no_upgrade_ret|apply Hn].
Qed.
Lemma leaderRedirect_no_upgrade raft (next : HttpRequest → M S Response) r :
  no_upgrade (next r) → no_upgrade (leaderRedirect raft next r).
Proof.
  intros Hn. unfold leaderRedirect. destruct raft as [[raft la]|]; [|done].
  case_bool_decide; [done|]. destruct (exempt _); [done|]. destruct (raft_leader raft); [done|].
  case_bool_decide; [by apply no_upgrade_ret|]. apply no_upgrade_bind. intros a.
  case_bool_decide; by apply no_upgrade_ret.
Qed.
Lemma cors_no_upgrade (next : HttpRequest → M S Response) r : no_upgrade (next r) → no_upgrade (cors next r).
Proof.
  intros Hn. unfold cors. case_bool_decide; [by apply no_upgrade_ret|].
  intros s resp s'. unfold mbind, M_bind. destruct (next r s) as [x s1|] eqn:E; [|done].
  intros [= <- <-]. exact (Hn _ _ _ E).
Qed.

Lemma below_inv {A} (m : M S A) (l l' : L (T1:=T1) (T2:=T2)) a : below m l = Ret a l' → m l.1 = Ret a l'.1 ∧ l'.2 = l.2.
Proof. unfold below. destruct (m l.1); [|done]. by intros [= <- <-]. Qed.

(** The logger passes the response of the handler on. *)
Lemma requestLogger_response next w r (l l' : L (T1:=T1) (T2:=T2)) resp :
  requestLogger next w r l = Ret resp l' → ∃ s s', next (statusRecorder w) r s = Ret resp s'.
Proof.
  unfold requestLogger. intros (t & l1 & _ & (x & l2 & E & (? & l3 & _ & [= <- _])%bind_inv)%bind_inv)%bind_inv.
  apply below_inv in E as [E _]. eauto.
Qed.

End Upgrade.

(** A server with one live token, asked for the events of a project. *)
#[local] Existing Instance demo_crypto.
#[local] Instance demo_websocket : WebSocket := λ w r o,
  if hijackable w then None else Some (mkResponse 501 ∅ (BRaw "Not Implemented")).
#[local] Instance demo_websocket_laws : WebSocketLaws.
Proof. intros w r o Hw. unfold Accept, demo_websocket. rewrite Hw. by eexists. Qed.
Definition token_world : World (H:=MemBolt) :=
  default demo_world (exec (PutToken (newToken "ci" "alice" "sct_ci" zero_time false)) demo_world).
Definition events_request : HttpRequest :=
  let path := "/api/v1/projects/shop/events/ws" in
  mkHttpRequest "GET" path path ∅ {["Authorization" := ["Bearer sct_ci"]]} "" None.
Definition events_start_state : L (T1:=FnStub) (T2:=FnStub) := (stub_server token_world, []).
Definition refused_upgrade : Response := mkResponse 501 ∅ (BRaw "Not Implemented").
Definition no_other (h : string) (vs : list string) (id : option Identity) (r : HttpRequest) :
  M (Srv (H:=MemBolt) FnStub FnStub) Response := mret noContent.
Definition events_run : M (L (T1:=FnStub) (T2:=FnStub)) Response :=
  ServeHTTP (with_streams true true no_other) (λ _ _, noContent) (λ _ l, l) None (NetResponse true) events_request.
Lemma events_run_eval : eval events_run events_start_state = Some refused_upgrade.
Proof. vm_compute. reflexivity. Qed.


(** ** Texts of messages *)

#[local] Arguments texts : simpl never.

Lemma texts_app l l' : texts (l ++ l') = texts l +:+ texts l'.
Proof.
  unfold texts. rewrite fmap_app. generalize (snd <$> l) as a, (snd <$> l') as b. intros a b.
  assert (Hc : ∀ x ls, String.concat "" (x :: ls) = x +:+ String.concat "" ls).
  { intros x [|y ls]; [cbn; by rewrite str_app_nil|done]. }
  induction a as [|x a IH]; [done|]. rewrite <-app_comm_cons, !Hc, IH. by rewrite str_app_assoc.
Qed.
Lemma concat_cons x ls : String.concat "" (x :: ls) = x +:+ String.concat "" ls.
Proof. destruct ls; [cbn; by rewrite str_app_nil|done]. Qed.

(** What a turn of [pump] sends, when the write succeeds, is what it read. *)
Definition chunk (m : message) : Prop := m.1 = MessageBinary ∧ (0 < String.length m.2 ≤ pump_buffer)%nat.
Lemma pump_turn_sends werr c e msgs v :
  pump_turn werr c e = (msgs, v) → (String.length c ≤ pump_buffer)%nat →
  Forall chunk msgs ∧ (texts msgs = c ∨ texts msgs = "" ∧ ∃ x, werr = Some x ∧ v = Some (Some x)).
Proof.
  intros Hp Hc. unfold pump_turn in Hp. destruct (bool_decide_reflect (c = "")) as [->|Hne].
  { injection Hp as <- _. split; [constructor|by left]. }
  destruct werr as [x|]; injection Hp as <- <-.
  - split; [constructor|]. right. eauto.
  - split; [|by left]. constructor; [|constructor]. split; [done|]. split; [|done]. destruct c; cbn; [done|lia].
Qed.
(** What [Read] of a pipe takes is gone from the pipe. *)
Lemma read_result_spec p c e p' :
  read_result p = Some (c, e, p') →
  unread p = c +:+ unread p' ∧ (String.length c ≤ pump_buffer)%nat ∧ p_wclosed p' = p_wclosed p ∧ p_rclosed p' = p_rclosed p ∧
  (e = None ∧ p_cur p ≠ None ∨ e = Some io_EOF ∧ c = "" ∧ p' = p ∧ p_cur p = None ∧ p_wclosed p = true).
Proof.
  unfold read_result. destruct (pipe_read _ p) as [[c0 p0]|] eqn:E.
  - intros [= <- <- <-]. pose proof (pipe_read_spec _ _ _ _ E) as (? & ? & ? & ?). split_and!; [done..|].
    left. split; [done|]. unfold pipe_read in E. by destruct (p_cur p).
  - destruct (at_eof p) eqn:Ee; [|done]. intros [= <- <- <-]. unfold at_eof in Ee. destruct p as [[b|] wc rc]; [done|].
    cbn in *. split_and!; [done|apply Nat.le_0_l|done|done|]. right. by split_and!.
Qed.
Lemma pump_ends_cleanly werr c e msgs :
  pump_turn werr c e = (msgs, Some None) → e = None ∨ e = Some io_EOF → e = Some io_EOF.
Proof. unfold pump_turn. repeat case_match; naive_solver. Qed.

(** ** Container logs *)

Section Logs.
Context (output : list string).
Abbreviation total := (String.concat "" output).

(** [lost]: what was read and could not be written. *)
Record logs_ok (s : logs_session) : Prop := {
  logs_text : ∃ lost, texts (lo_sent s) +:+ lost +:+ unread (lo_pipe s) +:+ String.concat "" (lo_rest s) = total ∧
                      (lost = "" ∨ ∃ e, lo_result s = Some (Some e));
  logs_chunks : Forall chunk (lo_sent s);
  logs_open : p_rclosed (lo_pipe s) = false;
  logs_closed : p_wclosed (lo_pipe s) = true → p_cur (lo_pipe s) = None ∧
                (lo_rest s = [] ∨ lo_hangup s = true ∨ ∃ e, lo_result s = Some e);
  logs_finished : lo_result s = Some None → p_wclosed (lo_pipe s) = true ∧ (lo_rest s = [] ∨ lo_hangup s = true);
}.

Lemma logs_ok_start : logs_ok (logs_start output).
Proof. constructor; try done. exists "". cbn. split; [done|by left]. Qed.

Lemma logs_ok_step s s' : logs_ok s → logs_step s s' → logs_ok s'.
Proof.
  intros [(lost & Ht & Hl) Hc Ho Hw Hf] Hstep. destruct Hstep as [s b rest Hr Hp|s Hp Hr|s werr c e p' msgs v Hn Hr Hp|s].
  - unfold pipe_ready in Hp. destruct (lo_pipe s) as [[x|] wc rc] eqn:Epipe; [done|]. cbn in *.
    destruct wc; [done|]. constructor; cbn; try done.
    + exists lost. split; [|done]. rewrite Hr, concat_cons in Ht. exact Ht.
    + intros Hx. by destruct (Hf Hx).
  - unfold pipe_ready in Hp. destruct (lo_pipe s) as [[x|] wc rc] eqn:Epipe; [done|]. cbn in *.
    destruct wc; [done|].
    constructor; cbn; try done; [by exists lost| |].
    + intros _. split; [done|]. destruct Hr as [Hr|Hr]; [by left|]. unfold logs_cancelled in Hr.
      destruct (lo_hangup s), (lo_result s); cbn in *; eauto; done.
    + intros Hres. by destruct (Hf Hres).
  - apply read_result_spec in Hr as (Hu & Hlen & Hwc & Hrc & He). rewrite Hn in Hl, Hw.
    assert (lost = "") as -> by (destruct Hl as [|(? & ?)]; done).
    pose proof (pump_turn_sends _ _ _ _ _ Hp Hlen) as (Hchunks & Htexts). constructor; cbn.
    + destruct Htexts as [Hm|(Hm & x & -> & ->)].
      * exists "". split; [|by left]. rewrite texts_app, Hm, <-Ht, Hu. cbn. by rewrite !str_app_assoc.
      * exists c. split; [|eauto]. rewrite texts_app, Hm, str_app_nil, <-Ht, Hu. cbn. by rewrite !str_app_assoc.
    + by apply Forall_app.
    + congruence.
    + rewrite Hwc. intros Hx. destruct (Hw Hx) as [Hcur Hwhy]. split.
      * by destruct He as [(_ & ?)|(_ & _ & -> & _)].
      * destruct Hwhy as [?|[?|(? & ?)]]; eauto; done.
    + intros ->. apply pump_ends_cleanly in Hp as ->; [|destruct He as [(-> & _)|(-> & _)]; auto].
      destruct He as [(? & _)|(_ & _ & -> & Hcur & Hwcl)]; [done|]. split; [done|].
      destruct (Hw Hwcl) as [_ [?|[?|(? & ?)]]]; eauto; done.
  - constructor; cbn; try done; [by exists lost|..].
    + intros Hx. destruct (Hw Hx) as [? _]. eauto.
    + intros Hx. destruct (Hf Hx) as [? _]. eauto.
Qed.

Lemma logs_reach_ok s : rtc logs_step (logs_start output) s → logs_ok s.
Proof. apply rtc_keeps; [apply logs_ok_step|apply logs_ok_start]. Qed.
End Logs.

(** C25 However the container writes, the pump reads and the connection
    fails, what the client of a log stream has received is a prefix of what
    the container wrote, in binary messages of 1 to 4096 bytes; and when the
    handler ends without an error and the client did not hang up, it has
    received all of it. *)
Theorem container_logs_are_streamed output s (Hrun : rtc logs_step (logs_start output) s) :
  Forall chunk (lo_sent s) ∧ has_prefix (String.concat "" output) (texts (lo_sent s)) = true ∧
  (lo_result s = Some None → lo_hangup s = false → texts (lo_sent s) = String.concat "" output).
Proof.
  apply logs_reach_ok in Hrun as [(lost & Ht & Hl) Hc Ho Hw Hf]. split_and!; [done| |].
  - rewrite <-Ht. apply has_prefix_app.
  - intros Hr Hh. destruct (Hf Hr) as [Hcl [Hrest|?]]; [|congruence]. destruct (Hw Hcl) as [Hcur _].
    destruct Hl as [->|(e & ?)]; [|congruence]. unfold unread in Ht. rewrite Hcur, Hrest in Ht. by rewrite !str_app_nil in Ht.
Qed.

(** Describes a defect: when the handler of a log stream has returned
    while a write of the container's output is in progress, nothing ever
    reads the rest: the write never returns, so the goroutine that copies the
    logs, and with it the command it waits for, stays for good. *)
Theorem abandoned_log_stream_leaks s b v s' (Hcur : p_cur (lo_pipe s) = Some b) (Hret : lo_result s = Some v)
    (Hrun : rtc logs_step s s') :
  lo_pipe s' = lo_pipe s ∧ lo_rest s' = lo_rest s ∧ lo_result s' = Some v.
Proof.
  induction Hrun as [|s1 s2 s3 H12 _ IH]; [done|].
  assert (lo_pipe s2 = lo_pipe s1 ∧ lo_rest s2 = lo_rest s1 ∧ lo_result s2 = Some v) as (Hp & Hr & Hv).
  { inversion H12 as [s b' rest Hb Hw|s Hw Hx|s werr c e p' msgs v' Hn|s]; subst; cbn in *; try congruence; try done;
      unfold pipe_ready in Hw; by rewrite Hcur in Hw. }
  rewrite Hp, Hr in IH. exact (IH Hcur Hv).
Qed.

(** A container that writes two lines: the first is sent, the second is not
    read any more. *)
Definition two_lines : list string := ["one"; "two"].
Definition stuck_logs : logs_session :=
  mkLogs [] (begin_write "two" new_pipe) [] false (Some (Some (ErrMsg "broken pipe"))).
Lemma stuck_logs_reached : rtc logs_step (logs_start two_lines) stuck_logs.
Proof.
  eapply rtc_l; [by eapply LogsWrite|]. eapply rtc_l; [by eapply (LogsPump _ (Some (ErrMsg "broken pipe")))|].
  eapply rtc_l; [by eapply LogsWrite|]. apply rtc_refl.
Qed.
Definition sent_logs : logs_session :=
  mkLogs [] (close_writer new_pipe) [(MessageBinary, "one"); (MessageBinary, "two")] false (Some None).
Lemma sent_logs_reached : rtc logs_step (logs_start two_lines) sent_logs.
Proof.
  do 2 (eapply rtc_l; [by eapply LogsWrite|]; eapply rtc_l; [by eapply (LogsPump _ None)|]).
  eapply rtc_l; [eapply LogsEnd; [done|by left]|]. eapply rtc_l; [by eapply (LogsPump _ None)|]. apply rtc_refl.
Qed.

Lemma container_logs_are_streamed_witness : texts (lo_sent sent_logs) = "onetwo".
Proof. exact (proj2 (proj2 (container_logs_are_streamed two_lines sent_logs sent_logs_reached)) eq_refl eq_refl). Defined.
Lemma abandoned_log_stream_leaks_witness :
  rtc logs_step (logs_start two_lines) stuck_logs ∧ ∃ s, logs_step stuck_logs s ∧ lo_pipe s = lo_pipe stuck_logs.
Proof.
  split; [exact stuck_logs_reached|]. eexists. split; [apply LogsHangup|].
  exact (proj1 (abandoned_log_stream_leaks stuck_logs "two" _ _ eq_refl eq_refl (rtc_once _ _ (LogsHangup stuck_logs)))).
Defined.

(** ** Exec *)

Section Exec.
Context (output : list string).
Abbreviation total := (String.concat "" output).

Definition buffered (s : exec_session) : string := match ex_buf s with Some (c, _) => c | None => "" end.
(** [lost]: what [pump] held when the connection was closed under it. *)
Record exec_ok (s : exec_session) : Prop := {
  exec_text : ex_gone s = false → ∃ lost,
    texts (ex_sent s) +:+ lost +:+ buffered s +:+ unread (ex_pipe s) +:+ String.concat "" (ex_out s) = total ∧
    (String.length lost ≤ pump_buffer)%nat ∧
    (lost = "" ∨ ex_stage s = Over ∧ ex_buf s = None ∧ ex_pumped s ≠ None);
  exec_buf : ∀ c e, ex_buf s = Some (c, e) →
    (String.length c ≤ pump_buffer)%nat ∧ ex_pumped s = None ∧ (e = None ∨ e = Some io_EOF ∧ p_wclosed (ex_pipe s) = true);
  exec_chunks : Forall chunk (ex_sent s);
  exec_rclosed : p_rclosed (ex_pipe s) = true → ex_gone s = true ∨ ex_stage s ≠ Executing;
  exec_over : ex_stage s ≠ Executing → ex_out s = [] ∧ p_cur (ex_pipe s) = None;
  exec_wclosed : p_wclosed (ex_pipe s) = true → ex_stage s ≠ Executing;
}.

Lemma exec_ok_start : exec_ok (exec_start output).
Proof. constructor; try done. intros _. exists "". cbn. split_and!; [done|apply Nat.le_0_l|by left]. Qed.

Lemma exec_ok_read s c e p' :
  exec_ok s → ex_pumped s = None → ex_buf s = None → read_result (ex_pipe s) = Some (c, e, p') →
  exec_ok (mkExec (ex_out s) p' (Some (c, e)) (ex_sent s) (ex_pumped s) (ex_stage s) (ex_gone s)).
Proof.
  intros [Ht Hb Hc Hr Ho Hw] Hn Hbuf Hrd. apply read_result_spec in Hrd as (Hu & Hlen & Hwc & Hrc & He).
  constructor; cbn; try done.
  - intros Hg. destruct (Ht Hg) as (lost & Heq & Hl & Hlost). exists lost. split_and!; [|done|].
    + unfold buffered in *. cbn. rewrite Hbuf in Heq. rewrite <-Heq, Hu. cbn. by rewrite !str_app_assoc.
    + destruct Hlost as [?|(_ & _ & ?)]; [by left|done].
  - intros c' e' [= <- <-]. split_and!; [done|done|]. rewrite Hwc. destruct He as [(-> & _)|(-> & _ & _ & _ & ?)]; auto.
  - by rewrite Hrc.
  - intros Hx. destruct (Ho Hx) as [? Hcur]. split; [done|]. destruct He as [(_ & ?)|(_ & _ & -> & _)]; done.
  - by rewrite Hwc.
Qed.

Lemma exec_ok_send s werr c e msgs v :
  exec_ok s → ex_buf s = Some (c, e) → (werr = None ↔ exec_conn_open s = true) → pump_turn werr c e = (msgs, v) →
  exec_ok (mkExec (ex_out s) (match v with None => ex_pipe s | Some _ => close_reader (ex_pipe s) end)
                  None (ex_sent s ++ msgs) v (ex_stage s) (ex_gone s)).
Proof.
  intros [Ht Hb Hc Hr Ho Hw] Hbuf Hopen Hp. destruct (Hb _ _ Hbuf) as (Hlen & Hn & He).
  pose proof (pump_turn_sends _ _ _ _ _ Hp Hlen) as (Hchunks & Htexts).
  (* while the connection is open the pump ends with the output only *)
  assert (Hend : v ≠ None → ex_gone s = false → ex_stage s ≠ Executing).
  { intros Hv Hg. destruct werr as [x|].
    - intros Hs. destruct Hopen as [_ Hopen]. unfold exec_conn_open in Hopen. rewrite Hg, Hs in Hopen. by specialize (Hopen eq_refl).
    - apply Hw. destruct He as [->|[_ ?]]; [|done]. exfalso. unfold pump_turn in Hp. case_bool_decide; by injection Hp as <- <-. }
  assert (Hpipe : v ≠ None → ex_gone s = false → unread (ex_pipe s) = "").
  { intros Hv Hg. destruct (Ho (Hend Hv Hg)) as [_ Hcur]. unfold unread. by rewrite Hcur. }
  constructor; cbn; try done.
  - intros Hg. destruct (Ht Hg) as (lost & Heq & Hl & [->|(_ & Hbn & _)]); [|congruence].
    unfold buffered in Heq. rewrite Hbuf in Heq. cbn in Heq.
    assert (Hu : unread (match v with None => ex_pipe s | Some _ => close_reader (ex_pipe s) end) = unread (ex_pipe s)).
    { destruct v; [|done]. cbn. symmetry. by apply Hpipe. }
    rewrite Hu, texts_app. destruct Htexts as [Hm|(Hm & x & -> & ->)].
    + exists "". rewrite Hm, <-Heq. split_and!; [cbn; by rewrite !str_app_assoc|apply Nat.le_0_l|by left].
    + exists c. rewrite Hm, str_app_nil, <-Heq. split_and!; [done|done|]. right. split_and!; [|done|done].
      destruct Hopen as [_ Hopen]. unfold exec_conn_open in Hopen. rewrite Hg in Hopen. cbn in Hopen.
      destruct (bool_decide_reflect (ex_stage s = Over)) as [?|?]; [done|]. by specialize (Hopen eq_refl).
  - by apply Forall_app.
  - destruct v; [|done]. intros _. destruct (ex_gone s) eqn:Hg; [by left|right; by apply Hend].
  - intros Hx. destruct (Ho Hx) as [? ?]. by destruct v.
  - destruct v; done.
Qed.

Lemma exec_ok_step s s' : exec_ok s → exec_step s s' → exec_ok s'.
Proof.
  intros Hok Hstep. destruct Hstep as [s b rest Hs Ho' Hp|s b rest Hs Ho' Hp|s Hs Ho' Hp|s Hs|s c e p' Hn Hbuf Hrd|s werr c e msgs v Hbuf Hopen Hp|s].
  5: by apply exec_ok_read. 5: by eapply exec_ok_send.
  all: destruct Hok as [Ht Hb Hc Hr Ho Hw].
  - constructor; cbn; try done. intros Hg. destruct (Ht Hg) as (lost & Heq & Hl & Hlost). exists lost. split_and!; [|done|done].
    rewrite Ho', concat_cons in Heq. unfold pipe_ready in Hp. unfold unread in *. destruct (p_cur (ex_pipe s)); done.
  - constructor; cbn; try done. intros Hg. destruct (Hr Hp) as [?|?]; congruence.
  - constructor; cbn; try done.
    + intros Hg. destruct (Ht Hg) as (lost & Heq & Hl & [->|(? & _)]); [|congruence]. exists "".
      rewrite Ho' in Heq. split_and!; [done|done|by left].
    + intros c e Hx. destruct (Hb c e Hx) as (? & ? & [?|[? ?]]); split_and!; auto.
    + intros Hx. destruct (Hr Hx); [by left|by right].
  - constructor; cbn; try done.
    + intros Hg. destruct (Ht Hg) as (lost & Heq & Hl & [->|(? & _)]); [|congruence]. exists "". split_and!; [done|done|by left].
    + intros Hx. by right.
    + intros _. apply Ho. congruence.
  - constructor; cbn; try done. intros Hx. by left.
Qed.

Lemma exec_reach_ok s : rtc exec_step (exec_start output) s → exec_ok s.
Proof. apply rtc_keeps; [apply exec_ok_step|apply exec_ok_start]. Qed.
End Exec.

(** C26 Whatever the order in which a command writes, its output is read and
    sent and the session is closed, a client that stays connected receives a
    prefix of the output; when the session is over only a part of at most
    4096 bytes, the message in hand when the handler closed the connection,
    can be missing.  Describes a defect where that part is not empty: see the
    witness, in which the whole answer of a command is lost. *)
Theorem exec_output_reaches_the_client output s (Hrun : rtc exec_step (exec_start output) s) (Hstay : ex_gone s = false) :
  Forall chunk (ex_sent s) ∧ has_prefix (String.concat "" output) (texts (ex_sent s)) = true ∧
  (ex_stage s = Over → ∃ lost, texts (ex_sent s) +:+ lost = String.concat "" output ∧ (String.length lost ≤ pump_buffer)%nat).
Proof.
  apply exec_reach_ok in Hrun as [Ht Hb Hc Hr Ho Hw]. destruct (Ht Hstay) as (lost & Heq & Hl & Hlost). split_and!; [done| |].
  - rewrite <-Heq. apply has_prefix_app.
  - intros Hs. destruct (Ho ltac:(congruence)) as [Hout Hcur]. unfold unread in Heq. rewrite Hout, Hcur in Heq.
    cbn in Heq. rewrite !str_app_nil in Heq. destruct Hlost as [->|(_ & Hbuf & _)].
    + exists (buffered s). split; [done|]. unfold buffered. destruct (ex_buf s) as [[c e]|] eqn:E; [|apply Nat.le_0_l]. by apply (Hb c e).
    + exists lost. unfold buffered in Heq. rewrite Hbuf, str_app_nil in Heq. done.
Qed.

(** A command that answers [ok], and the session closed before it is sent. *)
Definition lost_answer : exec_session :=
  mkExec [] (close_reader (close_writer new_pipe)) None [] (Some (Some (ErrMsg "closed"))) Over false.
Lemma lost_answer_reached : rtc exec_step (exec_start ["ok"]) lost_answer.
Proof.
  eapply rtc_l; [by eapply ExecWrite|]. eapply rtc_l; [by eapply ExecRead|]. eapply rtc_l; [by eapply ExecDone|].
  eapply rtc_l; [by eapply ExecClose|]. eapply rtc_l; [|apply rtc_refl].
  exact (ExecSend (mkExec [] (close_writer new_pipe) (Some ("ok", None)) [] None Over false) (Some (ErrMsg "closed")) "ok" None []
           (Some (Some (ErrMsg "closed"))) eq_refl ltac:(split; intros; discriminate) eq_refl).
Qed.
Lemma exec_output_reaches_the_client_witness :
  texts (ex_sent lost_answer) = "" ∧ ∃ lost, texts (ex_sent lost_answer) +:+ lost = "ok" ∧ (String.length lost ≤ pump_buffer)%nat.
Proof.
  split; [reflexivity|].
  exact (proj2 (proj2 (exec_output_reaches_the_client ["ok"] lost_answer lost_answer_reached eq_refl)) eq_refl).
Defined.

(** ** Events *)

Section EventStream.
Context (project : string) (list_events : list EventRecord → list EventRecord) (log0 : list EventRecord).
Abbreviation step := (event_step project list_events).
Abbreviation mine := (List.filter (relevant project)).

(** What was to be sent before the subscription, and what came after it. *)
Definition backlog_of (s : event_session) : list EventRecord := reverse (list_events (take (es_listed s) (es_log s))).
Definition fanned_since (s : event_session) : list EventRecord := take (es_fanned s - es_from s) (drop (es_from s) (es_log s)).

Record events_ok (s : event_session) : Prop := {
  ev_bounds : (es_fanned s ≤ length (es_log s) ≤ S (es_fanned s))%nat;
  ev_before : match es_stage s with
              | Connected => es_sent s = [] ∧ es_chan s = [] ∧ es_dropped s = O
              | Draining l => es_sent s ++ l = backlog_of s ∧ es_chan s = [] ∧ es_dropped s = O ∧
                          (es_listed s ≤ length (es_log s))%nat ∧ (es_listed s ≤ S (es_fanned s))%nat
              | Live => ∃ live, es_sent s = backlog_of s ++ live ∧ sublist (live ++ es_chan s) (mine (fanned_since s)) ∧
                          (length (live ++ es_chan s) + es_dropped s = length (mine (fanned_since s)))%nat ∧
                          (es_listed s ≤ length (es_log s))%nat ∧ (es_listed s ≤ S (es_from s))%nat ∧ (es_from s ≤ es_fanned s)%nat
              | Left => True
              end;
}.

Lemma events_ok_start : events_ok (events_start log0).
Proof. constructor; cbn; [lia|done]. Qed.

Lemma fanned_since_append s ev : (es_fanned s ≤ length (es_log s))%nat → (es_from s ≤ es_fanned s)%nat →
  take (es_fanned s - es_from s) (drop (es_from s) (es_log s ++ [ev])) = fanned_since s.
Proof. intros H1 H2. unfold fanned_since. rewrite drop_app_le by lia. rewrite take_app_le; [done|]. rewrite length_drop. lia. Qed.
Lemma fanned_since_next s ev : (es_from s ≤ es_fanned s)%nat → es_log s !! es_fanned s = Some ev →
  take (S (es_fanned s) - es_from s) (drop (es_from s) (es_log s)) = fanned_since s ++ [ev].
Proof.
  intros H1 H2. unfold fanned_since. replace (S (es_fanned s) - es_from s)%nat with (S (es_fanned s - es_from s)) by lia.
  apply take_S_r. rewrite lookup_drop. by replace (es_from s + (es_fanned s - es_from s))%nat with (es_fanned s) by lia.
Qed.

Lemma offer_keeps ev ch live since dropped :
  sublist (live ++ ch) (mine since) → (length (live ++ ch) + dropped = length (mine since))%nat →
  sublist (live ++ ws_offer project ev ch) (mine (since ++ [ev])) ∧
  (length (live ++ ws_offer project ev ch) + (if relevant project ev && ws_full ch then S dropped else dropped) =
   length (mine (since ++ [ev])))%nat.
Proof.
  intros Hs Hl. unfold ws_offer. rewrite List.filter_app. cbn [List.filter].
  destruct (relevant project ev); cbn [negb andb]; [|by rewrite app_nil_r].
  rewrite (length_app (mine since)). destruct (ws_full ch); cbn [length]; split; try lia.
  - by apply sublist_inserts_r.
  - rewrite app_assoc. by apply sublist_app.
  - rewrite app_assoc, length_app. cbn [length]. lia.
Qed.

Lemma events_ok_step s s' : events_ok s → step s s' → events_ok s'.
Proof.
  intros [Hb Hst] Hstep. destruct Hstep as [s ev Hf|s ev Hev|s Hs|s ev l Hs|s Hs|s ev q Hs Hq|s].
  - constructor; cbn; [rewrite length_app; cbn; lia|]. destruct (es_stage s) as [|l| |]; [done| | |done].
    + destruct Hst as (H1 & ? & ? & ? & ?). unfold backlog_of in *. cbn. rewrite take_app_le by lia.
      split_and!; [done..|rewrite length_app; lia|lia].
    + destruct Hst as (live & H1 & H2 & H3 & H4 & H5 & H6). exists live. unfold backlog_of, fanned_since in *. cbn.
      rewrite take_app_le by lia. rewrite fanned_since_append by lia. split_and!; [done..|rewrite length_app; lia|lia|lia].
  - assert (Hlt : (es_fanned s < length (es_log s))%nat) by by eapply lookup_lt_Some.
    unfold fan_out. destruct (es_stage s) as [|l| |]; constructor; cbn; try lia; try done.
    + destruct Hst as (? & ? & ? & ? & ?). by split_and!; [..|lia].
    + destruct Hst as (live & H1 & H2 & H3 & H4 & H5 & H6). exists live. unfold fanned_since. cbn.
      rewrite (fanned_since_next s ev) by (done || lia). destruct (offer_keeps ev _ _ _ _ H2 H3) as [? ?]. by split_and!; [..|lia].
  - constructor; cbn; [done|]. rewrite Hs in Hst. destruct Hst as (-> & -> & ->). unfold backlog_of. cbn.
    rewrite firstn_all. split_and!; [done..|lia|lia].
  - constructor; cbn; [done|]. rewrite Hs in Hst. destruct Hst as (H1 & ? & ? & ? & ?). rewrite <-app_assoc. by split_and!.
  - constructor; cbn; [done|]. rewrite Hs in Hst. destruct Hst as (H1 & -> & -> & ? & ?). rewrite app_nil_r in H1. exists [].
    unfold fanned_since. cbn. rewrite Nat.sub_diag, app_nil_r. by split_and!.
  - constructor; cbn; [done|]. rewrite Hs in Hst. destruct Hst as (live & H1 & H2 & H3 & ? & ? & ?). exists (live ++ [ev]).
    rewrite H1, <-!app_assoc. rewrite Hq in H2, H3. by split_and!.
  - by constructor.
Qed.

Lemma events_reach_ok s : rtc step (events_start log0) s → events_ok s.
Proof. apply rtc_keeps; [apply events_ok_step|apply events_ok_start]. Qed.
End EventStream.


(** The stream of an idle project: an event appears while the backlog is
    sent, and is never seen. *)
Definition missed_event : EventRecord := { (zero (A:=EventRecord)) with EventRecord_Type := "deploy"; EventRecord_Project := "p" }.
Definition last_fifty (log : list EventRecord) : list EventRecord := take 50 (reverse log).
Definition after_the_gap : event_session := mkEvents [missed_event] 1 Live 0 1 [] [] 0.
Lemma after_the_gap_reached : rtc (event_step "p" last_fifty) (events_start []) after_the_gap.
Proof.
  eapply rtc_l; [by apply EvList|]. eapply rtc_l; [by apply (EvAppend _ _ _ missed_event)|]. eapply rtc_l; [by apply EvFanOut|].
  eapply rtc_l; [by apply EvSubscribe|]. apply rtc_refl.
Qed.

(** ** Build logs *)

Definition payloads (l : list message) : list string := snd <$> l.
Lemma payloads_app l l' : payloads (l ++ l') = payloads l ++ payloads l'.
Proof. apply fmap_app. Qed.

Record replay_ok (lines : list string) (s : replay_session) : Prop := {
  rp_text : payloads (rp_sent s) ++ rp_chan s ++ rp_rest s = lines;
  rp_bound : (length (rp_chan s) ≤ chan_cap)%nat;
  rp_all : rp_closed s = true → rp_rest s = [];
  rp_why : rp_over s = true → rp_cancelled s = true ∨ rp_chan s = [] ∧ rp_rest s = [];
}.
Lemma replay_ok_step lines s s' : replay_ok lines s → replay_step s s' → replay_ok lines s'.
Proof.
  intros [Ht Hb Ha Hw] Hstep.
  destruct Hstep as [s line rest Hr Hlen|s Hr|s line q Ho Hq|s Ho Hq Hc|s|s Ho Hc]; constructor; cbn; try done; try lia.
  - rewrite Hr in Ht. by rewrite <-Ht, <-!app_assoc.
  - rewrite length_app. cbn. lia.
  - intros Hx. specialize (Ha Hx). congruence.
  - intros Hx. destruct (Hw Hx) as [|[? ?]]; [by left|congruence].
  - by rewrite Hr in Ht.
  - intros Hx. destruct (Hw Hx) as [|[? ?]]; [by left|by right].
  - rewrite payloads_app, <-Ht, Hq. cbn. by rewrite <-app_assoc.
  - rewrite Hq in Hb. cbn in Hb. lia.
  - by rewrite Hq in Ht.
  - intros _. by apply Ha.
  - intros _. right. split; [done|by apply Ha].
  - by left.
Qed.

(** A finished build's log: what the client has is the beginning of it, and
    all of it unless the handler was cancelled first; the poller does that
    three seconds after the stream opens. *)
Lemma replay_is_the_log lines s :
  rtc replay_step (replay_start lines) s →
  (∃ rest, payloads (rp_sent s) ++ rest = lines) ∧
  (rp_over s = true → rp_cancelled s = false → payloads (rp_sent s) = lines).
Proof.
  intros H. apply (rtc_keeps _ (replay_ok lines)) in H; [|apply replay_ok_step|by constructor; cbn; try done; lia].
  destruct H as [Ht _ _ Hw]. split; [eauto|]. intros Ho Hc. destruct (Hw Ho) as [?|[Hx Hy]]; [congruence|].
  by rewrite Hx, Hy, !app_nil_r in Ht.
Qed.

(** Describes a defect: a handler that left before the log was read to the
    end leaves the goroutine that replays it blocked for good. *)
Lemma abandoned_replay_leaks s s' :
  rp_over s = true → rp_rest s ≠ [] → length (rp_chan s) = chan_cap → rtc replay_step s s' → rp_rest s' = rp_rest s.
Proof.
  intros Ho Hr Hl H.
  assert (rp_over s' = true ∧ rp_rest s' = rp_rest s ∧ length (rp_chan s') = chan_cap) as (_ & ? & _); [|done].
  revert H. apply (rtc_keeps _ (λ x, rp_over x = true ∧ rp_rest x = rp_rest s ∧ length (rp_chan x) = chan_cap)); [|done].
  clear s'. intros x y (Hx1 & Hx2 & Hx3) Hstep. destruct Hstep; cbn in *; try done; [lia| |congruence..].
  congruence.
Qed.

Record build_ws_ok (id : nat) (s : build_session) : Prop := {
  bw_text : bs_over s = false → payloads (bs_sent s) ++ subscriber_items id (bs_stream s) = bs_offered s;
  bw_over : bs_over s = true → ls_subs (bs_stream s) !! id = None ∧ (bs_cancelled s = false → payloads (bs_sent s) = bs_offered s) ∧
                               (∃ rest, payloads (bs_sent s) ++ rest = bs_offered s);
}.
Lemma append_items id text s :
  subscriber_items id (appendLines text s) =
  subscriber_items id s ++ drop (length (subscriber_items id s)) (subscriber_items id (appendLines text s)).
Proof.
  assert (∃ more, subscriber_items id (appendLines text s) = subscriber_items id s ++ more) as (more & ->); [|by rewrite drop_app_length].
  unfold subscriber_items, appendLines. destruct (ls_closed s); [exists []; by rewrite app_nil_r|]. cbn. rewrite lookup_fmap.
  destruct (ls_subs s !! id) as [[items c]|]; [|by exists []]. cbn. unfold send_or_drop. cbn.
  case_match; [by exists [text]|exists []; by rewrite app_nil_r].
Qed.
Lemma no_sub_append id text s : ls_subs s !! id = None → ls_subs (appendLines text s) !! id = None.
Proof. intros H. unfold appendLines. destruct (ls_closed s); [done|]. cbn. by rewrite lookup_fmap, H. Qed.

Lemma build_ws_ok_step id s s' : build_ws_ok id s → build_step id s s' → build_ws_ok id s'.
Proof.
  intros [Ht Ho] Hstep.
  destruct Hstep as [s text|s|s text st' Hn Htake|s Hn Hsub|s|s Hn Hc]; constructor; cbn; try done.
  - intros Hx. by rewrite <-(Ht Hx), <-app_assoc, <-append_items.
  - intros Hx. destruct (Ho Hx) as (Hs & Hc & rest & Hr). pose proof (no_sub_append id text _ Hs) as Hs'.
    unfold subscriber_items. rewrite Hs, Hs'. cbn. rewrite app_nil_r. eauto.
  - intros Hx. rewrite <-(Ht Hx). unfold subscriber_items. cbn. rewrite lookup_fmap. by destruct (ls_subs (bs_stream s) !! id) as [[]|].
  - intros Hx. destruct (Ho Hx) as (Hs & Hr). rewrite lookup_fmap, Hs. done.
  - intros _. rewrite <-(Ht Hn). rewrite payloads_app, <-app_assoc. f_equal. unfold take_line in Htake. unfold subscriber_items.
    destruct (ls_subs (bs_stream s) !! id) as [[[|x l] c]|]; try done. injection Htake as <- <-. cbn. by rewrite lookup_insert_eq.
  - intros _. rewrite lookup_delete_eq. specialize (Ht Hn). unfold subscriber_items in Ht. rewrite Hsub in Ht. cbn in Ht.
    rewrite app_nil_r in Ht. split_and!; [done|done|]. exists []. by rewrite app_nil_r.
  - intros Hx. destruct (Ho Hx) as (? & _ & ?). done.
  - intros _. rewrite lookup_delete_eq. split_and!; [done|congruence|]. eauto.
Qed.

(** A running build's log: the lines the subscriber's channel took are sent
    in order, all of them when the stream ends before anything cancels it. *)
Lemma build_log_is_streamed id st s :
  rtc (build_step id) (build_ws_start id st) s →
  (∃ rest, payloads (bs_sent s) ++ rest = bs_offered s) ∧
  (bs_over s = true → bs_cancelled s = false → payloads (bs_sent s) = bs_offered s).
Proof.
  intros H. apply (rtc_keeps _ (build_ws_ok id)) in H; [|apply build_ws_ok_step|by constructor].
  destruct H as [Ht Ho]. split.
  - destruct (bs_over s) eqn:E; [by apply Ho|]. eauto.
  - intros Hx Hc. destruct (Ho Hx) as (_ & Hall & _). by apply Hall.
Qed.

(** ** The dashboard *)

#[local] Opaque index_buffer.

(** With a build in place, a path that names none of its files gets the
    application, never an error; but only the first 64 KiB of it. *)
Lemma dashboard_serves_the_application dist fileServer r index :
  dist !! "index.html" = Some index → embedded dist (drop_str 1 (r_Path r)) = false → r_Path r ≠ "/" →
  dashboardHandler dist fileServer r = mkResponse 200 html_header (BRaw (take_str index_buffer index)).
Proof.
  intros Hi He Hp. unfold dashboardHandler. rewrite bool_decide_eq_false_2 by by intros ->.
  rewrite (bool_decide_eq_false_2 (r_Path r = "/")) by exact Hp. by rewrite He, Hi.
Qed.
(** Describes a defect: a longer page is cut. *)
Lemma long_index_is_cut dist fileServer r index :
  dist !! "index.html" = Some index → embedded dist (drop_str 1 (r_Path r)) = false → r_Path r ≠ "/" →
  (index_buffer < String.length index)%nat →
  resp_Body (dashboardHandler dist fileServer r) ≠ BRaw index.
Proof.
  intros Hi He Hp Hl. rewrite (dashboard_serves_the_application _ _ _ _ Hi He Hp). cbn. intros [= Heq].
  apply (f_equal String.length) in Heq. rewrite length_take_str in Heq. lia.
Qed.
